(* ===== verification/_CoqProject ===== *)
-Q . S2P
Prelude.v
PageAllocator.v
Memory.v
Convert.v
KAlloc.v
Fd.v
Elf.v
TaskQueue.v
Pmm.v
Vma.v
PageTable.v
PageTableSpec.v
DemandPaging.v
Heap.v
HeapSpec.v
HeapPages.v
HeapAlloc.v
Boot.v
System.v
Scheduler.v
SchedulerSpec.v
SchedulerWake.v
SchedulerProps.v
SchedulerFrames.v
SchedulerDemo.v
Ramfs.v
Vfs.v
CpuTables.v
Hardware.v
Interrupts.v
Reports.v
Framebuffer.v
Font.v
Terminal.v
TerminalSpec.v
Mouse.v
Windows.v
Gui.v
Sync.v
Mutex.v
MutexSpec.v
MutexHistory.v
Process.v
UserPages.v
ProcessMemory.v
ProcessSpec.v
AddressSpaces.v
ProcessTable.v
ProcessImage.v
ProcessExec.v
ProcessExecFile.v
Isolation.v
SysFile.v
SelfTests.v
SelfTestsSpec.v
FsDemo.v
ProcessDemo.v
IsolationDemo.v
SelfTestsDemo.v
