(* ===== verification/Prelude.v ===== *)
(** * ZenithOS kernel: verification development

    ZenithOS is an x86-64 kernel written in C, with some assembly, booted by
    Limine.  This library models its implementation ([src/kernel/src/], written
    below without that prefix) and proves what its parts promise.

    ** The program and how its parts interact

    [kmain] ([main.c]) sets up the memory, the descriptor tables, the interrupt
    controllers and the drivers, then the scheduler, and runs tasks.

    - Memory.  [pmm_*] hands out page frames from a bitmap.  [page_table_*]
      builds address spaces in such frames.  A page fault in a demand-paged
      area ([vma_*]) gets a fresh zeroed page.  The heap commits pages by the
      frame allocator and the kernel's page table, and [kmalloc] serves tasks,
      processes, files and nodes.
    - Tasks.  The scheduler keeps ready, blocked and sleeping queues of tasks,
      switches their stacks and address spaces, and is driven by calls and by
      the timer interrupt.  [mutex_*] parks tasks in a queue of its own.
    - Processes.  A process owns an address space, a descriptor table and
      tasks; [process_exec] loads an ELF image into it.
    - Files.  Paths lead through mounts to the vnodes of an in-memory file
      system; descriptors of the current process name open files.
    - Devices and screen.  [isr_dispatch] routes exceptions and device lines;
      keyboard and mouse handlers feed the terminal and the windows, which draw
      on the framebuffer.

    ** Files of the library

    Foundations:
    - [Prelude]: machine integers, loops, lists, bits, the tactics and hints.
    - [Memory]: module [Mem], kernel memory and [lib/memory.c]; module [Str],
      [lib/string.c].
    - [Convert]: [lib/convert.c], [lib/math.c], [stdio/printf.c].

    Memory management:
    - [PageAllocator]: interface of the frame allocator (classes
      [PageAllocator], [PageAllocatorLaws]); [Pmm] implements it ([mm/bitmap.c],
      [mm/pmm.c]).
    - [Vma]: [vmm/vma/vma.c].
    - [PageTable]: [vmm/page_table.c], [vmm/paging.c]; [PageTableSpec]: the walk
      of the processor ([mmu_walk]), the invariant [pt_wf], the theorems.
    - [DemandPaging]: [vmm/demand_paging.c].
    - [Heap]: [mm/heap.c], over [PageBackend]; [HeapSpec]: the list of blocks
      that tiles the heap, the theorems; [HeapPages]: frames and page tables as
      the [PageBackend]; [KAlloc]: interface of the heap; [HeapAlloc]: the heap
      as its instance.

    Tasks and locks:
    - [System]: the state record [sys] of scheduling and processes.
    - [TaskQueue]: [scheduler/task.h], [scheduler/queue.c]; [Scheduler]:
      [scheduler/scheduler.c], [task.c], [context.c], [idle.c] and of the
      assembly [context_switch] and the end of the interrupt entry.
    - [SchedulerSpec], [SchedulerWake], [SchedulerProps], [SchedulerFrames]: the
      abstract [view] of four lists and the refinement of every operation.
    - [Sync]: [sync/spinlock.c], [sync/irq_spinlock.c] between processors;
      [Mutex], [MutexSpec], [MutexHistory]: [sync/mutex.c] on the scheduler.

    Processes and files:
    - [Fd]: [fs/fd.c]; [Ramfs]: [fs/ramfs.c], [fs/file.c]; [Vfs]: [fs/path.c],
      [fs/vfs.c]; [SysFile]: theorems on [fs/sys_file.c].
    - [Elf]: [elf/*.c]; [Process]: [process/*.c] and the definitions of
      [fs/sys_file.c]; [UserPages], [ProcessMemory], [ProcessSpec],
      [ProcessTable], [ProcessImage], [ProcessExec]: the theorems on processes;
      [ProcessExecFile]: a program from its path to its pages, which joins the
      file system, the heap, the loader and the page tables; [AddressSpaces],
      [Isolation]: all processes side by side, over any sequence of operations.

    Machine, devices and screen:
    - [CpuTables]: [cpu/gdt.c], [cpu/idt.c], [cpu/tss.c]; [Hardware]: [hal/*.c];
      [Interrupts]: [cpu/irq.c], [cpu/isr.c], [cpu/exceptions.c] and the
      initialisation of the drivers; [Mouse]: [mouse_handler].
    - [Framebuffer]: [framebuffer/framebuffer.c], [graphics/graphics.c]; [Font]:
      [font/*]; [Terminal], [TerminalSpec]: [terminal/terminal.c],
      [drivers/keyboard.c], [drivers/scancode.c]; [Windows]: the window manager;
      [Gui]: [gui/*.c], [apps/terminal_app.c].

    [Boot] puts the memory part of [kmain] together, from the answers of the
    bootloader to the first block of the heap; the part on interrupts is
    [Interrupts.Irq.boot_interrupts].  [SchedulerDemo], [FsDemo],
    [ProcessDemo] and [IsolationDemo] instantiate theorems at concrete machines; the demos of the
    other parts are in their files.  Definitions keep the names of the C
    functions, records those of the structures.

    ** Conventions

    - A w-bit integer is a [Z]; [u8] ... [u64], [i32], [i8] are written wherever
      the C arithmetic can leave its type.
    - Memory is a finite map from addresses to bytes ([Mem.mem]); tables, heap
      headers, ELF images, frames of interrupts, file contents and pixels are
      bytes in it.  Structures the code only reaches by pointers of one type
      (tasks, processes, nodes, files, windows) are stores from addresses to
      records, so aliasing is kept.
    - An operation that follows a pointer to no object, leaves an array or loops
      for ever has no result ([None]).  Error codes and NULL are results.  The
      theorems say that there is a result before they say which.
    - Printing changes no state here, except that the terminal itself is modelled
      and that the text of [kprintf] is the result of [Convert.kprintf].

    ** Fuel

    Loops of the C code are structural where their bound is in the code
    ([for_range]); the others have fuel, and the theorems show that it suffices:
    walks of the heap's blocks and of a task queue take as many steps as there
    are headers or tasks in the store; the processor walk of a table has four
    levels; [draw_line] one step per pixel of its longer side; [kprintf] and path
    splitting one per character; the waits for the keyboard controller the number
    [n] of [Interrupts.Irq.Controller].

    ** What the theorems show

    - Memory: [heap_clients_safe], [kmalloc_correct], [kfree_correct] (buffers
      never overlap and keep their bytes over any history of calls);
      [pmm_calls_safe]; [vma_refines_list]; [page_table_map_correct],
      [page_table_map_user_correct], [page_table_lookup_correct] (the tables against the processor's walk,
      failures included); [vmm_handle_page_fault_correct];
      [k_memmove_correct].
    - Scheduling: [scheduler_operations_safe], [scheduler_yield_correct],
      [scheduler_waiting_correct], [scheduler_round_robin],
      [scheduler_time_slice], [context_switch_roundtrip]; the locks:
      [irq_spinlock_exclusion], [mutex_exclusion].
    - Isolation: [process_isolation].  The invariant [AddressSpaces.isolated] names
      the tables of every address space; in the user half they share no table and
      no page.  Each operation on one address space is a [space_step], which keeps
      the invariant and the user memory of the others.
    - Processes and files: [process_create_correct], [process_exec_correct],
      [process_exec_file_correct], [process_destroy_correct],
      [elf_load_image_correct]; [vfs_lookup_correct],
      [vfs_write_read_roundtrip], [ramfs_add_correct], [fd_table_refines_map],
      [sys_open_correct], [sys_close_correct].
    - Machine and screen: [boot_memory_correct], [gdt_init_correct], [boot_interrupts_correct],
      [isr_dispatch_correct]; [draw_line_correct], [terminal_write_correct],
      [terminal_calls_safe], [mouse_correct], [desktop_draw_correct]; [kprintf_correct].

    ** Code outside the repository, and interfaces

    - [PageAllocator], [PageBackend], [KAlloc]: between components; each has an
      instance in this library with its laws proved.
    - [Ramfs.FsLayout]: the addresses the linker gives to the operation tables.
    - [Hardware.PortIO], [Bus], [Interrupts.Irq.Controller]: the instructions
      [in] and [out], and the devices behind them: a write is recorded, and the
      controller leaves its busy state after at most [n] polls.  [demo_bus] is an
      instance.
    - The constants of [limine.h] are arguments of [pmm_init].

    ** Not modelled

    - [mm/memory_map.c], the boot requests and messages of [main.c], the dump
      and trace functions, the bodies of the exception reports: they only print.
    - [tests/], [cpu/exceptions_test.c]: programs that call the modelled
      functions.
    - Processors other than the first run nothing but the locks of [Sync].
    - Caches and the TLB: the walk reads the tables as they are in memory, as it
      does after the invalidations the code makes. *)
From Stdlib Require Export ZArith Lia Bool.
From stdpp Require Export base tactics numbers list gmap sets fin_sets fin_maps.
#[global] Open Scope Z_scope.

(** ** Machine integers

    An unsigned [w]-bit C integer is a [Z] in [0, 2^w); arithmetic that can
    leave the range is followed by the wrap-around the C type performs. *)
Definition u8 (x : Z) : Z := x mod 2 ^ 8.
Definition u16 (x : Z) : Z := x mod 2 ^ 16.
Definition u32 (x : Z) : Z := x mod 2 ^ 32.
Definition u64 (x : Z) : Z := x mod 2 ^ 64.

Definition UINT64_MAX : Z := 2 ^ 64 - 1.
Definition SIZE_MAX : Z := 2 ^ 64 - 1.

(** Two's complement reading of a 32-bit pattern (C [int]). *)
Definition i32 (x : Z) : Z := (x + 2 ^ 31) mod 2 ^ 32 - 2 ^ 31.
(** Two's complement reading of an 8-bit pattern (C [int8_t], [char]). *)
Definition i8 (x : Z) : Z := (x + 2 ^ 7) mod 2 ^ 8 - 2 ^ 7.

Definition NULL : Z := 0.

(** ** Error codes of [kernel_err/errno.h] *)
Definition KERNEL_SUCCESS : Z := 0.
Definition KERNEL_EINVAL : Z := -1.
Definition KERNEL_ENOMEM : Z := -2.
Definition KERNEL_EEXIST : Z := -3.
Definition KERNEL_ENOENT : Z := -4.
Definition KERNEL_ENOTSUP : Z := -5.

(** ** Loops

    [for_range n i f s] runs [f i], [f (i+1)], ..., [f (i+n-1)] in order:
    the C loop [for (x = i; x < i + n; x++)].  [for_to] is the same loop
    with its end bound, running no iteration when [end <= start]. *)
Fixpoint for_range {S : Type} (n : nat) (i : Z) (f : Z -> S -> S) (s : S) : S :=
  match n with
  | O => s
  | S n' => for_range n' (i + 1) f (f i s)
  end.

Definition for_to {S : Type} (start end_ : Z) (f : Z -> S -> S) (s : S) : S :=
  for_range (Z.to_nat (end_ - start)) start f s.

(** The first index of [i], ..., [i+n-1] on which [p] holds: a loop whose
    body leaves at the first hit. *)
Fixpoint find_range (n : nat) (i : Z) (p : Z -> bool) : option Z :=
  match n with
  | O => None
  | S n' => if p i then Some i else find_range n' (i + 1) p
  end.

Definition find_to (start end_ : Z) (p : Z -> bool) : option Z :=
  find_range (Z.to_nat (end_ - start)) start p.

(** ** Tactics *)
Ltac wrap_unfold := unfold u8, u16, u32, u64, UINT64_MAX, SIZE_MAX, NULL in *.

(** Linear arithmetic over the wrapped operations. *)
Ltac word_lia := wrap_unfold; Z.div_mod_to_equations; lia.

(** Turns the boolean comparisons of the context into propositions. *)
Ltac bool_to_prop :=
  repeat match goal with
  | H : (_ && _)%bool = true |- _ => apply andb_true_iff in H; destruct H
  | H : (_ || _)%bool = false |- _ => apply orb_false_iff in H; destruct H
  | H : negb _ = true |- _ => apply negb_true_iff in H
  | H : negb _ = false |- _ => apply negb_false_iff in H
  | H : (_ <? _) = true |- _ => apply Z.ltb_lt in H
  | H : (_ <? _) = false |- _ => apply Z.ltb_ge in H
  | H : (_ <=? _) = true |- _ => apply Z.leb_le in H
  | H : (_ <=? _) = false |- _ => apply Z.leb_gt in H
  | H : (_ >=? _) = true |- _ => rewrite Z.geb_leb in H; apply Z.leb_le in H
  | H : (_ >=? _) = false |- _ => rewrite Z.geb_leb in H; apply Z.leb_gt in H
  | H : (_ >? _) = true |- _ => rewrite Z.gtb_ltb in H; apply Z.ltb_lt in H
  | H : (_ >? _) = false |- _ => rewrite Z.gtb_ltb in H; apply Z.ltb_ge in H
  | H : (_ =? _) = true |- _ => apply Z.eqb_eq in H
  | H : (_ =? _) = false |- _ => apply Z.eqb_neq in H
  end.

(** Case analysis on the condition of an [if] or on the subject of a
    [match] of the goal, remembering the equation. *)
Ltac case_if_eq E :=
  match goal with
  | |- context [if ?b then _ else _] => destruct b eqn:E
  end.
Ltac case_if_in H E :=
  match type of H with
  | context [if ?b then _ else _] => destruct b eqn:E
  end.
Ltac case_match_eq E :=
  match goal with
  | |- context [match ?b with _ => _ end] => destruct b eqn:E
  end.

(** ** Wrap-around lemmas *)
Lemma u8_id x : 0 <= x < 2 ^ 8 -> u8 x = x.
Proof. intros; unfold u8; apply Z.mod_small; lia. Qed.
Lemma u16_id x : 0 <= x < 2 ^ 16 -> u16 x = x.
Proof. intros; unfold u16; apply Z.mod_small; lia. Qed.
Lemma u32_id x : 0 <= x < 2 ^ 32 -> u32 x = x.
Proof. intros; unfold u32; apply Z.mod_small; lia. Qed.
Lemma u64_id x : 0 <= x < 2 ^ 64 -> u64 x = x.
Proof. intros; unfold u64; apply Z.mod_small; lia. Qed.

Lemma u8_range x : 0 <= u8 x < 2 ^ 8.
Proof. apply Z.mod_pos_bound; lia. Qed.
Lemma u16_range x : 0 <= u16 x < 2 ^ 16.
Proof. apply Z.mod_pos_bound; lia. Qed.
Lemma u32_range x : 0 <= u32 x < 2 ^ 32.
Proof. apply Z.mod_pos_bound; lia. Qed.
Lemma u64_range x : 0 <= u64 x < 2 ^ 64.
Proof. apply Z.mod_pos_bound; lia. Qed.

Lemma u8_u8 x : u8 (u8 x) = u8 x.
Proof. apply u8_id, u8_range. Qed.
Lemma u64_u64 x : u64 (u64 x) = u64 x.
Proof. apply u64_id, u64_range. Qed.
Lemma u64_add_l x y : u64 (u64 x + y) = u64 (x + y).
Proof. unfold u64; apply Zplus_mod_idemp_l. Qed.

Lemma i32_id x : - 2 ^ 31 <= x < 2 ^ 31 -> i32 x = x.
Proof. intros; unfold i32; rewrite Z.mod_small; lia. Qed.
Lemma i32_range x : - 2 ^ 31 <= i32 x < 2 ^ 31.
Proof. unfold i32; pose proof (Z.mod_pos_bound (x + 2 ^ 31) (2 ^ 32)); lia. Qed.

Create HintDb zenith.
Create Rewrite HintDb zenith_rw.
#[export] Hint Resolve u8_range u16_range u32_range u64_range : zenith.
#[export] Hint Rewrite u8_u8 u64_u64 u64_add_l : zenith_rw.

(** ** Bits *)
Lemma testbit_mod_pow2 x w k :
  0 <= k < w -> Z.testbit (x mod 2 ^ w) k = Z.testbit x k.
Proof. intros; apply Z.mod_pow2_bits_low; lia. Qed.

Lemma testbit_mod_pow2_high x w k :
  0 <= w <= k -> Z.testbit (x mod 2 ^ w) k = false.
Proof. intros; apply Z.mod_pow2_bits_high; lia. Qed.

Lemma testbit_shiftl1 k n :
  0 <= k -> 0 <= n -> Z.testbit (Z.shiftl 1 k) n = (n =? k).
Proof.
  intros. rewrite Z.shiftl_1_l, Z.pow2_bits_eqb by lia.
  apply Z.eqb_sym.
Qed.

(** [x & (1 << k)] is non-zero exactly when bit [k] of [x] is set. *)
Lemma land_bit_nonzero x k :
  0 <= k -> negb (Z.land x (Z.shiftl 1 k) =? 0) = Z.testbit x k.
Proof.
  intros Hk. destruct (Z.testbit x k) eqn:E.
  - apply negb_true_iff, Z.eqb_neq. intros H.
    assert (Hb : Z.testbit (Z.land x (Z.shiftl 1 k)) k = true)
      by (rewrite Z.land_spec, E, testbit_shiftl1, Z.eqb_refl by lia; done).
    rewrite H, Z.testbit_0_l in Hb. done.
  - apply negb_false_iff, Z.eqb_eq. apply Z.bits_inj'. intros n Hn.
    rewrite Z.land_spec, testbit_shiftl1, Z.testbit_0_l by lia.
    destruct (Z.eqb_spec n k); subst; rewrite ?E, ?andb_false_r; done.
Qed.

(** Masking with the complement of a low mask clears the low bits. *)
Lemma land_lnot_low x n :
  0 <= n -> Z.land x (Z.lnot (Z.ones n)) = x - x mod 2 ^ n.
Proof.
  intros Hn.
  rewrite <- Z.ldiff_land, Z.ldiff_ones_r, Z.shiftl_mul_pow2, Z.shiftr_div_pow2 by lia.
  pose proof (Z.div_mod x (2 ^ n) ltac:(lia)). lia.
Qed.

(** The same with the complement taken in 64 bits, for a 64-bit [x]. *)
Lemma land_u64_lnot_low x n :
  0 <= n <= 64 -> 0 <= x < 2 ^ 64 ->
  Z.land x (u64 (Z.lnot (Z.ones n))) = x - x mod 2 ^ n.
Proof.
  intros Hn Hx. rewrite <- land_lnot_low by lia.
  unfold u64. apply Z.bits_inj'. intros k Hk.
  rewrite !Z.land_spec.
  destruct (Z.ltb_spec k 64).
  - rewrite testbit_mod_pow2 by lia. done.
  - rewrite testbit_mod_pow2_high by lia.
    replace x with (x mod 2 ^ 64) by (apply Z.mod_small; lia).
    rewrite testbit_mod_pow2_high by lia. done.
Qed.

(** ** Loop lemmas *)
Lemma for_range_app {S} n m i (f : Z -> S -> S) s :
  for_range (n + m) i f s = for_range m (i + Z.of_nat n) f (for_range n i f s).
Proof.
  revert i s; induction n as [|n IH]; intros i s; simpl.
  - f_equal; lia.
  - rewrite IH. f_equal; lia.
Qed.

Lemma for_range_snoc {S} n i (f : Z -> S -> S) s :
  for_range (1 + n) i f s = f (i + Z.of_nat n) (for_range n i f s).
Proof.
  replace (1 + n)%nat with (n + 1)%nat by lia.
  rewrite for_range_app. done.
Qed.

(** Invariant rule: [I j s] holds when the counter is about to take [j]. *)
Lemma for_range_inv {S} (I : Z -> S -> Prop) n i (f : Z -> S -> S) s :
  I i s ->
  (forall j t, i <= j < i + Z.of_nat n -> I j t -> I (j + 1) (f j t)) ->
  I (i + Z.of_nat n) (for_range n i f s).
Proof.
  revert i s; induction n as [|n IH]; intros i s H0 Hs; simpl.
  - replace (i + Z.of_nat 0) with i by lia. done.
  - replace (i + Z.of_nat (Datatypes.S n)) with ((i + 1) + Z.of_nat n) by lia.
    apply IH.
    + apply Hs; [lia | done].
    + intros j t Hj. apply Hs. lia.
Qed.

Lemma for_to_inv {S} (I : Z -> S -> Prop) a b (f : Z -> S -> S) s :
  a <= b -> I a s ->
  (forall j t, a <= j < b -> I j t -> I (j + 1) (f j t)) ->
  I b (for_to a b f s).
Proof.
  intros Hab H0 Hs. unfold for_to.
  replace b with (a + Z.of_nat (Z.to_nat (b - a))) at 1 by lia.
  apply for_range_inv; [done |]. intros j t Hj. apply Hs. lia.
Qed.

(** Introduces the invariant rule for the loop of the goal, at invariant [I]. *)
Ltac loop_invariant I H :=
  match goal with
  | |- context [for_to ?a ?b ?f ?s] => pose proof (for_to_inv I a b f s) as H; cbv beta in H
  end.

Lemma for_to_empty {S} a b (f : Z -> S -> S) s : b <= a -> for_to a b f s = s.
Proof. intros. unfold for_to. replace (Z.to_nat (b - a)) with O by lia. done. Qed.

(** Renumbering and pointwise equality of loop bodies. *)
Lemma for_range_shift {S} n i k (f : Z -> S -> S) s :
  for_range n i (fun j => f (k + j)) s = for_range n (k + i) f s.
Proof.
  revert i s; induction n as [|n IH]; intros i s; simpl; [done |].
  rewrite IH. f_equal. lia.
Qed.

Lemma for_range_ext {S} n i (f g : Z -> S -> S) s :
  (forall j t, i <= j < i + Z.of_nat n -> f j t = g j t) ->
  for_range n i f s = for_range n i g s.
Proof.
  revert i s; induction n as [|n IH]; intros i s H; simpl; [done |].
  rewrite H by lia. apply IH. intros j t Hj. apply H. lia.
Qed.

Lemma find_range_Some n i p j :
  find_range n i p = Some j <->
  i <= j < i + Z.of_nat n /\ p j = true /\ forall k, i <= k < j -> p k = false.
Proof.
  revert i; induction n as [|n IH]; intros i; simpl.
  - split; [done | lia].
  - destruct (p i) eqn:E.
    + split.
      * intros [= <-]. repeat split; [lia | lia | done | lia].
      * intros (Hj & Hp & Hk). destruct (decide (i = j)) as [->|Hne]; [done|].
        rewrite (Hk i) in E; [done | lia].
    + rewrite IH. split.
      * intros (Hj & Hp & Hk). repeat split; [lia | lia | done |].
        intros k Hk'. destruct (decide (k = i)) as [->|]; [done|]. apply Hk. lia.
      * intros (Hj & Hp & Hk).
        assert (i <> j) by congruence.
        repeat split; [lia | lia | done |]. intros k Hk'. apply Hk. lia.
Qed.

Lemma find_range_None n i p :
  find_range n i p = None <-> forall k, i <= k < i + Z.of_nat n -> p k = false.
Proof.
  revert i; induction n as [|n IH]; intros i; simpl.
  - split; [intros _ k Hk; lia | done].
  - destruct (p i) eqn:E.
    + split; [done |]. intros H. rewrite H in E; [done | lia].
    + rewrite IH. split; intros H k Hk.
      * destruct (decide (k = i)) as [->|]; [done |]. apply H. lia.
      * apply H. lia.
Qed.

Lemma find_to_Some a b p j :
  find_to a b p = Some j <->
  a <= j < b /\ p j = true /\ forall k, a <= k < j -> p k = false.
Proof.
  unfold find_to. rewrite find_range_Some.
  split; intros (H1 & H2 & H3); repeat split; try done; lia.
Qed.

Lemma find_to_None a b p :
  find_to a b p = None <-> forall k, a <= k < b -> p k = false.
Proof.
  unfold find_to. rewrite find_range_None.
  split; intros H k Hk; apply H; lia.
Qed.

(** ** Cardinality of [gset Z] *)
Lemma size_remove (X : gset Z) p :
  p ∈ X -> Z.of_nat (size (X ∖ {[p]})) = Z.of_nat (size X) - 1.
Proof.
  intros Hp.
  assert (Hu : X = {[p]} ∪ X ∖ {[p]}) by (apply union_difference_singleton_L; done).
  rewrite Hu at 2. rewrite (size_union {[p]} (X ∖ {[p]})) by set_solver.
  rewrite size_singleton. lia.
Qed.

Lemma size_add (X : gset Z) p :
  p ∉ X -> Z.of_nat (size (X ∪ {[p]})) = Z.of_nat (size X) + 1.
Proof.
  intros Hp. rewrite size_union by set_solver. rewrite size_singleton. lia.
Qed.
