(* ===== verification/PageAllocator.v ===== *)
(** * Interface: what a page allocator promises to its clients

    The paging code, the heap and the process code call [pmm_alloc_page] and
    [pmm_free_page] and rely only on the laws below.  [Pmm.v] discharges them
    for the bitmap allocator of [mm/pmm.c]; the clients are proved against
    this class. *)
From S2P Require Import Prelude.

Definition PAGE_SIZE : Z := 4096.

(** A physical page base an allocator may hand out: page aligned, not page
    zero, and below [limit]. *)
Definition page_frame (limit p : Z) : Prop :=
  p mod PAGE_SIZE = 0 /\ 0 < p /\ p + PAGE_SIZE <= limit.

Class PageAllocator (A : Type) := {
  pa_alloc_page : A -> A * Z;
  pa_free_page : Z -> A -> A;
  (** well-formed allocator states, their free pages (by base address) and
      the end of the memory they manage *)
  pa_ok : A -> Prop;
  pa_free_pages : A -> gset Z;
  pa_limit : A -> Z;
}.

Class PageAllocatorLaws (A : Type) `{PageAllocator A} := {
  pa_limit_ok a : pa_ok a -> 0 <= pa_limit a <= 2 ^ 32;
  pa_free_frames a p : pa_ok a -> p ∈ pa_free_pages a -> page_frame (pa_limit a) p;
  (** exhausted: NULL and no change *)
  pa_alloc_empty a : pa_ok a -> pa_free_pages a = ∅ -> pa_alloc_page a = (a, NULL);
  (** otherwise some free page, which is free no longer *)
  pa_alloc_some a : pa_ok a -> pa_free_pages a <> ∅ ->
    exists a' p, pa_alloc_page a = (a', p) /\ p ∈ pa_free_pages a /\
      pa_ok a' /\ pa_free_pages a' = pa_free_pages a ∖ {[p]} /\
      pa_limit a' = pa_limit a;
  (** giving back a frame makes exactly that frame free *)
  pa_free_spec a p : pa_ok a -> page_frame (pa_limit a) p ->
    pa_ok (pa_free_page p a) /\
    pa_free_pages (pa_free_page p a) = pa_free_pages a ∪ {[p]} /\
    pa_limit (pa_free_page p a) = pa_limit a;
}.

Section derived.
Context `{PageAllocatorLaws A}.

(** Case analysis of one allocation. *)
Lemma pa_alloc_cases a a' p :
  pa_ok a -> pa_alloc_page a = (a', p) ->
  (p = NULL /\ a' = a /\ pa_free_pages a = ∅) \/
  (p <> NULL /\ p ∈ pa_free_pages a /\ page_frame (pa_limit a) p /\ pa_ok a' /\
   pa_free_pages a' = pa_free_pages a ∖ {[p]} /\ pa_limit a' = pa_limit a).
Proof.
  intros Hok Ha. destruct (decide (pa_free_pages a = ∅)) as [He|He].
  - rewrite pa_alloc_empty in Ha by done. left. by simplify_eq.
  - destruct (pa_alloc_some a Hok He) as (a1 & q & Hq & Hin & Hok' & Hf & Hl).
    rewrite Hq in Ha; simplify_eq. right.
    pose proof (pa_free_frames _ _ Hok Hin) as Hp.
    destruct Hp as (? & ? & ?). repeat split; try done. unfold NULL; lia.
Qed.
End derived.
