(* ===== verification/Memory.v ===== *)
(** * Memory and strings: [lib/memory.c], [lib/string.c]

    The kernel's address space is a finite map from 64-bit addresses to bytes
    (absent addresses read as zero, which only fixes the content of memory
    nobody wrote).  Module [Mem] has the accesses the compiled code makes and
    the four routines of [lib/memory.c]; Module [Str] has [lib/string.c] over
    the bytes that follow a pointer. *)
From S2P Require Import Prelude.

Module Mem.

Abbreviation mem := (gmap Z Z).

(** Pointer arithmetic is modulo [2^64]. *)
Definition load8 (m : mem) (a : Z) : Z := u8 (default 0 (m !! u64 a)).
Definition store8 (a v : Z) (m : mem) : mem := <[u64 a := u8 v]> m.

(** Little-endian accesses of [n] bytes. *)
Fixpoint load_le (n : nat) (m : mem) (a : Z) : Z :=
  match n with
  | O => 0
  | S n' => load8 m a + 256 * load_le n' m (a + 1)
  end.

Fixpoint store_le (n : nat) (a v : Z) (m : mem) : mem :=
  match n with
  | O => m
  | S n' => store_le n' (a + 1) (v / 256) (store8 a v m)
  end.

Definition load16 : mem -> Z -> Z := load_le 2.
Definition load32 : mem -> Z -> Z := load_le 4.
Definition load64 : mem -> Z -> Z := load_le 8.
Definition store64 : Z -> Z -> mem -> mem := store_le 8.

(** ** [lib/memory.c]; the routines also return [dest] unchanged. *)
Definition k_memcpy (dest src n : Z) (m : mem) : mem :=
  for_to 0 n (fun i m => store8 (dest + i) (load8 m (src + i)) m) m.

Definition k_memset (s c n : Z) (m : mem) : mem :=
  for_to 0 n (fun i m => store8 (s + i) (u8 c) m) m.

Definition k_memmove (dest src n : Z) (m : mem) : mem :=
  if dest <? src then
    for_to 0 n (fun i m => store8 (dest + i) (load8 m (src + i)) m) m
  else if dest >? src then
    for_to 0 n (fun k m =>
      let i := n - k in
      store8 (dest + (i - 1)) (load8 m (src + (i - 1))) m) m
  else m.

Definition k_memcmp (m : mem) (s1 s2 n : Z) : Z :=
  match find_to 0 n (fun i => negb (load8 m (s1 + i) =? load8 m (s2 + i))) with
  | Some i => load8 m (s1 + i) - load8 m (s2 + i)
  | None => 0
  end.

(** ** Accesses *)
Lemma load8_range m a : 0 <= load8 m a < 256.
Proof. apply u8_range. Qed.

Lemma load8_store8 a v x m :
  0 <= a < 2 ^ 64 -> 0 <= x < 2 ^ 64 ->
  load8 (store8 a v m) x = if decide (x = a) then u8 v else load8 m x.
Proof.
  intros Ha Hx. unfold load8, store8. rewrite !u64_id by lia. rewrite lookup_insert.
  destruct (decide (a = x)), (decide (x = a)); try lia; simpl; apply u8_u8.
Qed.

Lemma load_le_range n m a : 0 <= load_le n m a < 256 ^ Z.of_nat n.
Proof.
  revert a; induction n as [|n IH]; intros a; cbn [load_le].
  - change (256 ^ Z.of_nat 0) with 1. lia.
  - rewrite Nat2Z.inj_succ, Z.pow_succ_r by lia.
    pose proof (load8_range m a). specialize (IH (a + 1)). lia.
Qed.

Lemma load64_range m a : 0 <= load64 m a < 2 ^ 64.
Proof. exact (load_le_range 8 m a). Qed.

Lemma load_le_ext n m m' a :
  (forall x, a <= x < a + Z.of_nat n -> load8 m x = load8 m' x) ->
  load_le n m a = load_le n m' a.
Proof.
  revert a; induction n as [|n IH]; intros a H; cbn [load_le]; [done |].
  rewrite (H a) by lia. rewrite (IH (a + 1)); [done |]. intros x Hx. apply H. lia.
Qed.

(** The same bytes at another address. *)
Lemma load_le_shift n m m' a d :
  (forall x, a <= x < a + Z.of_nat n -> load8 m x = load8 m' (x + d)) -> load_le n m a = load_le n m' (a + d).
Proof.
  revert a; induction n as [|n IH]; intros a H; cbn [load_le]; [done |].
  rewrite (H a) by lia. rewrite (IH (a + 1)) by (intros x Hx; apply H; lia). by replace (a + d + 1) with (a + 1 + d) by lia.
Qed.

Lemma load8_store_le_ne n a v x m :
  0 <= a -> a + Z.of_nat n <= 2 ^ 64 -> 0 <= x < 2 ^ 64 ->
  x < a \/ a + Z.of_nat n <= x ->
  load8 (store_le n a v m) x = load8 m x.
Proof.
  revert a v m; induction n as [|n IH]; intros a v m Ha Hn Hx Hd; cbn [store_le]; [done |].
  rewrite IH by lia. rewrite load8_store8, decide_False by lia. done.
Qed.

Lemma load_le_store_le n a v m :
  0 <= a -> a + Z.of_nat n <= 2 ^ 64 ->
  load_le n (store_le n a v m) a = v mod 256 ^ Z.of_nat n.
Proof.
  revert a v m; induction n as [|n IH]; intros a v m Ha Hn; cbn [load_le store_le].
  - change (256 ^ Z.of_nat 0) with 1. by rewrite Z.mod_1_r.
  - rewrite IH by lia. rewrite load8_store_le_ne by lia.
    rewrite load8_store8, decide_True by lia.
    rewrite Nat2Z.inj_succ, Z.pow_succ_r by lia.
    rewrite Z.rem_mul_r by lia. done.
Qed.

Lemma load64_store64 a v m :
  0 <= a -> a + 8 <= 2 ^ 64 -> 0 <= v < 2 ^ 64 -> load64 (store64 a v m) a = v.
Proof.
  intros Ha Hn Hv. unfold load64, store64. rewrite load_le_store_le by lia.
  apply Z.mod_small. done.
Qed.

Lemma load64_store64_ne a v x m :
  0 <= a -> a + 8 <= 2 ^ 64 -> 0 <= x -> x + 8 <= 2 ^ 64 ->
  x + 8 <= a \/ a + 8 <= x ->
  load64 (store64 a v m) x = load64 m x.
Proof.
  intros Ha Hn Hx Hx8 Hd. apply load_le_ext. intros y Hy.
  apply load8_store_le_ne; lia.
Qed.

Lemma load8_store64_ne a v x m :
  0 <= a -> a + 8 <= 2 ^ 64 -> 0 <= x < 2 ^ 64 -> x < a \/ a + 8 <= x ->
  load8 (store64 a v m) x = load8 m x.
Proof. intros. apply load8_store_le_ne; lia. Qed.

(** ** What the routines leave in memory *)
Lemma memset_load s c n m x :
  0 <= s -> 0 <= n -> s + n <= 2 ^ 64 -> 0 <= x < 2 ^ 64 ->
  load8 (k_memset s c n m) x = if decide (s <= x < s + n) then u8 c else load8 m x.
Proof.
  intros Hs Hn Hw Hx. unfold k_memset.
  loop_invariant (fun j (t : mem) => load8 t x =
    if decide (s <= x < s + j) then u8 c else load8 m x) H.
  apply H; [lia | rewrite decide_False by lia; done |]. clear H.
  intros j t Hj Ht. rewrite load8_store8 by lia.
  destruct (decide (x = s + j)).
  - rewrite decide_True by lia. apply u8_u8.
  - rewrite Ht. destruct (decide (s <= x < s + j)), (decide (s <= x < s + (j + 1))); done || lia.
Qed.

Lemma memcpy_load dest src n m x :
  0 <= dest -> 0 <= src -> 0 <= n -> dest + n <= 2 ^ 64 -> src + n <= 2 ^ 64 ->
  dest + n <= src \/ src + n <= dest -> 0 <= x < 2 ^ 64 ->
  load8 (k_memcpy dest src n m) x =
    if decide (dest <= x < dest + n) then load8 m (src + (x - dest)) else load8 m x.
Proof.
  intros Hd Hs Hn Hdw Hsw Hdis Hx. unfold k_memcpy.
  loop_invariant (fun j (t : mem) => forall y, 0 <= y < 2 ^ 64 ->
    load8 t y = if decide (dest <= y < dest + j) then load8 m (src + (y - dest)) else load8 m y) H.
  apply H; [lia | intros y Hy; rewrite decide_False by lia; done | | done]. clear H x Hx.
  intros j t Hj Ht y Hy. rewrite load8_store8 by lia.
  destruct (decide (y = dest + j)) as [->|].
  - rewrite (Ht (src + j)) by lia. rewrite decide_False, decide_True by lia. replace (src + (dest + j - dest)) with (src + j) by lia.
    apply u8_u8.
  - rewrite Ht by lia.
    destruct (decide (dest <= y < dest + j)), (decide (dest <= y < dest + (j + 1))); done || lia.
Qed.

Lemma load64_memset0 s n m a :
  0 <= s -> 0 <= n -> s + n <= 2 ^ 64 -> s <= a -> a + 8 <= s + n ->
  load64 (k_memset s 0 n m) a = 0.
Proof.
  intros Hs Hn Hw Ha Ha8. unfold load64.
  assert (H : forall k b, s <= b -> b + Z.of_nat k <= s + n -> load_le k (k_memset s 0 n m) b = 0).
  { induction k as [|k IH]; intros b Hb Hk; cbn [load_le]; [done |].
    rewrite IH by lia. rewrite memset_load, decide_True by lia. done. }
  apply H; lia.
Qed.

Lemma load64_memset_ne s c n m a :
  0 <= s -> 0 <= n -> s + n <= 2 ^ 64 -> 0 <= a -> a + 8 <= 2 ^ 64 ->
  a + 8 <= s \/ s + n <= a ->
  load64 (k_memset s c n m) a = load64 m a.
Proof.
  intros. apply load_le_ext. intros x Hx. rewrite memset_load, decide_False by lia. done.
Qed.

Lemma load64_memcpy dest src n m off :
  0 <= dest -> 0 <= src -> dest + n <= 2 ^ 64 -> src + n <= 2 ^ 64 ->
  dest + n <= src \/ src + n <= dest -> 0 <= off -> off + 8 <= n ->
  load64 (k_memcpy dest src n m) (dest + off) = load64 m (src + off).
Proof.
  intros Hd Hs Hdw Hsw Hdis Ho Hn. unfold load64.
  assert (H : forall k o, 0 <= o -> o + Z.of_nat k <= n ->
    load_le k (k_memcpy dest src n m) (dest + o) = load_le k m (src + o)).
  { induction k as [|k IH]; intros o Ho' Hk; cbn [load_le]; [done |].
    replace (dest + o + 1) with (dest + (o + 1)) by lia. rewrite IH by lia.
    rewrite memcpy_load, decide_True by lia.
    replace (src + (dest + o - dest)) with (src + o) by lia.
    replace (src + (o + 1)) with (src + o + 1) by lia. done. }
  apply H; lia.
Qed.

Lemma load64_memcpy_ne dest src n m a :
  0 <= dest -> 0 <= src -> 0 <= n -> dest + n <= 2 ^ 64 -> src + n <= 2 ^ 64 ->
  dest + n <= src \/ src + n <= dest -> 0 <= a -> a + 8 <= 2 ^ 64 ->
  a + 8 <= dest \/ dest + n <= a ->
  load64 (k_memcpy dest src n m) a = load64 m a.
Proof.
  intros. apply load_le_ext. intros x Hx. rewrite memcpy_load, decide_False by lia. done.
Qed.

(** The forward loop is right when the destination is below the source, the
    backward one when it is above, whatever the overlap. *)
Lemma memmove_load dest src n m x :
  0 <= dest -> 0 <= src -> 0 <= n -> dest + n <= 2 ^ 64 -> src + n <= 2 ^ 64 ->
  0 <= x < 2 ^ 64 ->
  load8 (k_memmove dest src n m) x =
    if decide (dest <= x < dest + n) then load8 m (src + (x - dest)) else load8 m x.
Proof.
  intros Hd Hs Hn Hdw Hsw Hx. unfold k_memmove.
  destruct (dest <? src) eqn:E1; [| destruct (dest >? src) eqn:E2]; bool_to_prop.
  - loop_invariant (fun j (t : mem) => forall y, 0 <= y < 2 ^ 64 ->
      load8 t y = if decide (dest <= y < dest + j) then load8 m (src + (y - dest)) else load8 m y) H.
    apply H; [lia | intros y Hy; rewrite decide_False by lia; done | | done]. clear H x Hx.
    intros j t Hj Ht y Hy. rewrite load8_store8 by lia.
    destruct (decide (y = dest + j)) as [->|].
    + rewrite (Ht (src + j)) by lia. rewrite decide_False, decide_True by lia. replace (src + (dest + j - dest)) with (src + j) by lia.
      apply u8_u8.
    + rewrite Ht by lia.
      destruct (decide (dest <= y < dest + j)), (decide (dest <= y < dest + (j + 1))); done || lia.
  - loop_invariant (fun j (t : mem) => forall y, 0 <= y < 2 ^ 64 -> load8 t y =
      if decide (dest + (n - j) <= y < dest + n) then load8 m (src + (y - dest)) else load8 m y) H.
    rewrite H; [| lia | intros y Hy; rewrite decide_False by lia; done | | done]; clear H.
    { destruct (decide (dest + (n - n) <= x < dest + n)), (decide (dest <= x < dest + n));
        done || lia. }
    intros j t Hj Ht y Hy. rewrite load8_store8 by lia.
    destruct (decide (y = dest + (n - j - 1))) as [->|].
    + rewrite (Ht (src + (n - j - 1))) by lia. rewrite decide_False, decide_True by lia.
      replace (src + (dest + (n - j - 1) - dest)) with (src + (n - j - 1)) by lia. apply u8_u8.
    + rewrite Ht by lia.
      destruct (decide (dest + (n - j) <= y < dest + n)),
        (decide (dest + (n - (j + 1)) <= y < dest + n)); done || lia.
  - replace dest with src by lia.
    destruct (decide _); [f_equal; lia | done].
Qed.

(** ** Properties *)

(** C22: [k_memmove] copies the source range as it was before the call, for
    every overlap of the two ranges, and changes nothing else. *)
Theorem k_memmove_correct dest src n m
    (Hd : 0 <= dest) (Hs : 0 <= src) (Hn : 0 <= n)
    (Hdw : dest + n <= 2 ^ 64) (Hsw : src + n <= 2 ^ 64) :
  (forall i, 0 <= i < n -> load8 (k_memmove dest src n m) (dest + i) = load8 m (src + i)) /\
  (forall x, 0 <= x < 2 ^ 64 -> x < dest \/ dest + n <= x ->
     load8 (k_memmove dest src n m) x = load8 m x).
Proof.
  split; intros.
  - rewrite memmove_load, decide_True by lia. f_equal. lia.
  - rewrite memmove_load, decide_False by lia. done.
Qed.

Lemma k_memmove_correct_witness :
  let m := store8 102 3 (store8 101 2 (store8 100 1 ∅)) in
  load8 (k_memmove 101 100 3 m) 103 = 3 /\
  forall i, 0 <= i < 3 -> load8 (k_memmove 101 100 3 m) (101 + i) = load8 m (100 + i).
Proof.
  intros m. split; [reflexivity |].
  exact (proj1 (k_memmove_correct 101 100 3 m ltac:(lia) ltac:(lia) ltac:(lia)
    ltac:(lia) ltac:(lia))).
Defined.

(** [k_memcmp] is zero exactly on equal ranges, and otherwise has the sign
    of the difference of the first bytes that differ. *)
Theorem k_memcmp_correct m s1 s2 n :
  (k_memcmp m s1 s2 n = 0 <->
   forall i, 0 <= i < n -> load8 m (s1 + i) = load8 m (s2 + i)) /\
  (k_memcmp m s1 s2 n <> 0 ->
   exists i, 0 <= i < n /\ k_memcmp m s1 s2 n = load8 m (s1 + i) - load8 m (s2 + i) /\
     forall j, 0 <= j < i -> load8 m (s1 + j) = load8 m (s2 + j)).
Proof.
  unfold k_memcmp. destruct (find_to 0 n _) as [i|] eqn:E.
  - apply find_to_Some in E as (Hi & Hne & Heq). bool_to_prop.
    assert (Hj : forall j, 0 <= j < i -> load8 m (s1 + j) = load8 m (s2 + j)).
    { intros j Hj. specialize (Heq j Hj). bool_to_prop. done. }
    split; [split |].
    + lia.
    + intros H. specialize (H i Hi). lia.
    + intros _. exists i. auto.
  - rewrite find_to_None in E. split; [split; [| done] | done].
    intros _ i Hi. specialize (E i Hi). bool_to_prop. done.
Qed.

End Mem.

Module Str.

(** The bytes from a [char *] on; past the end of the list the next byte is
    the terminating NUL. *)
Definition deref (p : list Z) : Z := hd 0 p.

Fixpoint strlen_loop (p : list Z) (len : Z) : Z :=
  match p with
  | [] => len
  | c :: p' => if c =? 0 then len else strlen_loop p' (len + 1)
  end.

Definition k_strlen (str : list Z) : Z := strlen_loop str 0.

Fixpoint k_strcmp (a b : list Z) : Z :=
  match a with
  | [] => u8 0 - u8 (deref b)
  | c :: a' =>
      if negb (c =? 0) && (c =? deref b) then k_strcmp a' (tl b)
      else u8 c - u8 (deref b)
  end.

(** [k_strcpy] into a buffer of [length dest] bytes: [None] when the copy,
    its terminator included, runs past the buffer. *)
Fixpoint k_strcpy (dest src : list Z) : option (list Z) :=
  match dest with
  | [] => None
  | _ :: dest' =>
      let c := deref src in
      if c =? 0 then Some (0 :: dest')
      else r ← k_strcpy dest' (tl src); Some (c :: r)
  end.

(** The string a buffer holds: its bytes up to the first NUL. *)
Fixpoint cstr (p : list Z) : list Z :=
  match p with
  | [] => []
  | c :: p' => if c =? 0 then [] else c :: cstr p'
  end.

Definition byte_list (l : list Z) : Prop := Forall (fun c => 0 <= c < 256) l.

Lemma k_strlen_length str : k_strlen str = Z.of_nat (length (cstr str)).
Proof.
  unfold k_strlen.
  assert (H : forall p len, strlen_loop p len = len + Z.of_nat (length (cstr p))).
  { induction p as [|c p IH]; intros len; simpl; [lia |].
    case_match; [simpl; lia |]. rewrite IH. simpl. lia. }
  rewrite H. lia.
Qed.

Lemma cstr_cstr p : cstr (cstr p) = cstr p.
Proof. induction p as [|c p IH]; simpl; [done |]. case_match eqn:E; simpl; [done |]. by rewrite E, IH. Qed.

Lemma cstr_hd p : deref p = 0 -> cstr p = [].
Proof. destruct p; simpl; [done |]. intros ->. done. Qed.

Lemma byte_hd p : byte_list p -> 0 <= deref p < 256.
Proof. destruct 1; simpl; lia. Qed.

Lemma strcmp_zero a b :
  byte_list a -> byte_list b -> k_strcmp a b = 0 <-> cstr a = cstr b.
Proof.
  intros Ha. revert b. induction Ha as [|c a Hc Ha IH]; intros b Hb; simpl.
  - pose proof (byte_hd b Hb). rewrite (u8_id (deref b)) by lia.
    change (u8 0) with 0. split; [intros; by rewrite cstr_hd by lia |].
    destruct b as [|d b]; simpl; [done |]. case_match; bool_to_prop; [lia | done].
  - pose proof (byte_hd b Hb). rewrite !u8_id by lia.
    destruct (c =? 0) eqn:E; simpl; bool_to_prop.
    + subst. split; [intros; by rewrite cstr_hd by lia |].
      destruct b as [|d b]; simpl; [done |]. case_match; bool_to_prop; [lia | done].
    + destruct (c =? deref b) eqn:E2; bool_to_prop.
      * destruct Hb as [|d b Hd Hb]; simpl in *; [lia |]. subst d.
        rewrite IH by done. replace (c =? 0) with false by lia.
        split; congruence.
      * destruct b as [|d b]; simpl in *; [split; [lia | done] |].
        split; [lia |]. case_match; [done |]. congruence.
Qed.

Lemma strcpy_some dest src r :
  k_strcpy dest src = Some r ->
  cstr r = cstr src /\ length r = length dest /\ (length (cstr src) < length dest)%nat.
Proof.
  revert src r. induction dest as [|d dest IH]; intros src r H; simpl in *; [done |].
  destruct (deref src =? 0) eqn:E; bool_to_prop.
  - simplify_eq. rewrite (cstr_hd src) by done. split; [done | simpl; lia].
  - destruct src as [|c src]; simpl in *; [done |].
    destruct (k_strcpy dest src) as [r'|] eqn:E'; simpl in *; [| done]. simplify_eq.
    destruct (IH _ _ E') as (H1 & H2 & H3). simpl.
    replace (c =? 0) with false by lia. simpl. split_and!; [by f_equal | lia | lia].
Qed.

Lemma strcpy_bytes dest src r :
  byte_list dest -> byte_list src -> k_strcpy dest src = Some r -> byte_list r.
Proof.
  intros Hd. revert src r. induction Hd as [|d dest Hd0 Hd IH]; intros src r Hs H; simpl in *; [done |].
  destruct (deref src =? 0) eqn:E; bool_to_prop.
  - simplify_eq. constructor; [lia | done].
  - destruct src as [|c src]; simpl in *; [done |]. apply Forall_cons in Hs as [Hc Hs].
    destruct (k_strcpy dest src) as [r'|] eqn:E'; simpl in *; [| done]. simplify_eq.
    constructor; [done |]. by apply (IH src).
Qed.

Lemma strcpy_none dest src :
  k_strcpy dest src = None <-> (length dest <= length (cstr src))%nat.
Proof.
  revert src. induction dest as [|d dest IH]; intros src; simpl; [split; [lia | done] |].
  destruct (deref src =? 0) eqn:E; bool_to_prop.
  - rewrite cstr_hd by done. simpl. split; [done | lia].
  - destruct src as [|c src]; simpl in *; [done |].
    replace (c =? 0) with false by lia. simpl. specialize (IH src).
    rewrite <- Nat.succ_le_mono, <- IH.
    destruct (k_strcpy dest src); simpl; done.
Qed.

(** ** Properties *)

(** [k_strcmp] returns zero exactly when the two C strings are equal. *)
Theorem k_strcmp_equal a b (Ha : byte_list a) (Hb : byte_list b) :
  k_strcmp a b = 0 <-> cstr a = cstr b.
Proof. exact (strcmp_zero a b Ha Hb). Qed.

Lemma k_strcmp_equal_witness :
  k_strcmp [104; 105; 0; 7] [104; 105] = 0 <-> cstr [104; 105; 0; 7] = cstr [104; 105].
Proof. apply k_strcmp_equal; repeat constructor; lia. Defined.

(** [k_strcpy] has no room check: it fits exactly when the source string is
    shorter than the buffer, and then the buffer holds the source string; at
    the length of the buffer and beyond it writes past its end. *)
Theorem k_strcpy_correct dest src :
  (k_strcpy dest src = None <-> Z.of_nat (length dest) <= k_strlen src) /\
  (forall r, k_strcpy dest src = Some r -> cstr r = cstr src /\ length r = length dest).
Proof.
  rewrite k_strlen_length. split; [rewrite strcpy_none; lia |].
  intros r H. destruct (strcpy_some _ _ _ H) as (? & ? & _). auto.
Qed.

End Str.
