(* ===== verification/Convert.v ===== *)
(** * Number formatting and [kprintf]: [lib/convert.c], [lib/math.c],
    [stdio/printf.c]

    A [char] buffer is the list of its bytes; a write past its end, or a read
    past the end of the format string, gives [None].  [kprintf]'s output is the
    list of characters it sends to the terminal. *)
From S2P Require Import Prelude Memory.
Import Str.
#[local] Open Scope Z_scope.

Module Convert.

(** [buffer[i] = c], inside the buffer only. *)
Definition put (i c : Z) (buffer : list Z) : option (list Z) :=
  if (0 <=? i) && (i <? Z.of_nat (length buffer)) then Some (<[Z.to_nat i := c]> buffer) else None.
Definition get (buffer : list Z) (i : Z) : Z := default 0 (buffer !! Z.to_nat i).

Definition CH_0 : Z := 48.      (* '0' *)
Definition CH_MINUS : Z := 45.  (* '-' *)

(** The digit loop, shared by the three conversions: least significant digit
    first.  [next v] is the value left after the digit [digit v]. *)
Fixpoint digit_loop (digit next : Z -> Z) (fuel : nat) (i value : Z) (buffer : list Z)
    : option (Z * list Z) :=
  match fuel with
  | O => None
  | S fuel' =>
    if value >? 0 then
      buffer' ← put i (digit value) buffer;
      digit_loop digit next fuel' (i + 1) (next value) buffer'
    else Some (i, buffer)
  end.

(** The loop that turns the digits round. *)
Fixpoint swap_loop (fuel : nat) (start end_ : Z) (buffer : list Z) : option (list Z) :=
  match fuel with
  | O => None
  | S fuel' =>
    if start <? end_ then
      let temp := get buffer start in
      b1 ← put start (get buffer end_) buffer;
      b2 ← put end_ temp b1;
      swap_loop fuel' (start + 1) (end_ - 1) b2
    else Some buffer
  end.

Definition dec_digit (value : Z) : Z := value mod 10 + CH_0.
Definition dec_next (value : Z) : Z := value / 10.

(** [digits[value & 0xF]] with [digits] = "0123456789ABCDEF". *)
Definition hex_digits : list Z := [48; 49; 50; 51; 52; 53; 54; 55; 56; 57; 65; 66; 67; 68; 69; 70].
Definition hex_digit (value : Z) : Z := get hex_digits (Z.land value 0xF).
Definition hex_next (value : Z) : Z := Z.shiftr value 4.

(** 10 decimal or 16 hexadecimal digits, and the test that ends the loop. *)
Definition dec_fuel : nat := 11.
Definition hex_fuel : nat := 17.

(** [value = -value] on the most negative [int] leaves it as it is (the machine
    arithmetic; C leaves it undefined). *)
Definition int_to_string (value : Z) (buffer : list Z) : option (list Z) :=
  if value =? 0 then b ← put 0 CH_0 buffer; put 1 0 b
  else
    let negative := value <? 0 in
    let value := if negative then i32 (- value) else value in
    '(i, b) ← digit_loop dec_digit dec_next dec_fuel 0 value buffer;
    '(i, b) ← (if negative then b' ← put i CH_MINUS b; Some (i + 1, b') else Some (i, b));
    b ← put i 0 b;
    swap_loop (S (Z.to_nat i)) 0 (i - 1) b.

Definition uint_to_string (value : Z) (buffer : list Z) : option (list Z) :=
  if value =? 0 then b ← put 0 CH_0 buffer; put 1 0 b
  else
    '(i, b) ← digit_loop dec_digit dec_next dec_fuel 0 value buffer;
    b ← put i 0 b;
    swap_loop (S (Z.to_nat i)) 0 (i - 1) b.

Definition uint64_to_hex (value : Z) (buffer : list Z) : option (list Z) :=
  if value =? 0 then b ← put 0 CH_0 buffer; put 1 0 b
  else
    '(i, b) ← digit_loop hex_digit hex_next hex_fuel 0 value buffer;
    b ← put i 0 b;
    swap_loop (S (Z.to_nat i)) 0 (i - 1) b.

(** [lib/math.c] *)
Definition abs_int (value : Z) : Z := if value <? 0 then i32 (- value) else value.
Definition min (a b : Z) : Z := if a <? b then a else b.
Definition max (a b : Z) : Z := if a >? b then a else b.

(** ** [kprintf] *)
Inductive arg := ArgZ (v : Z) | ArgS (s : list Z).

(** [va_arg]; a missing argument or one of the wrong kind gives [None]. *)
Definition arg_z (args : list arg) : option (Z * list arg) :=
  match args with ArgZ v :: r => Some (v, r) | _ => None end.
Definition arg_s (args : list arg) : option (list Z * list arg) :=
  match args with ArgS s :: r => Some (s, r) | _ => None end.

Definition buffer16 : list Z := replicate 16 0.
Definition buffer17 : list Z := replicate 17 0.

Definition CH_PERCENT : Z := 37.
Definition CH_c : Z := 99.
Definition CH_d : Z := 100.
Definition CH_s : Z := 115.
Definition CH_l : Z := 108.
Definition CH_x : Z := 120.
Definition CH_u : Z := 117.
Definition CH_p : Z := 112.

(** What one directive prints: the text, what is left of the format after the
    directive, and the remaining arguments.  [fmt] starts after the '%'. *)
Definition directive (fmt : list Z) (args : list arg) : option (option (list Z * list Z * list arg)) :=
  let hex v bits := b ← uint64_to_hex (v mod 2 ^ bits) buffer17; Some (cstr b) in
  (* "l" and "ll" are skipped first; only "x" is handled with them *)
  let fmt_l := if deref fmt =? CH_l then (if deref (tl fmt) =? CH_l then tl (tl fmt) else tl fmt) else fmt in
  if deref fmt =? CH_c then
    '(v, r) ← arg_z args; Some (Some ([i8 v], tl fmt, r))
  else if deref fmt =? CH_d then
    '(v, r) ← arg_z args; b ← int_to_string (i32 v) buffer16; Some (Some (cstr b, tl fmt, r))
  else if deref fmt =? CH_s then
    '(s, r) ← arg_s args; Some (Some (cstr s, tl fmt, r))
  else if (deref fmt =? CH_l) && (deref fmt_l =? CH_x) then
    '(v, r) ← arg_z args; t ← hex v 64; Some (Some (t, tl fmt_l, r))
  else if deref fmt_l =? CH_x then
    '(v, r) ← arg_z args; t ← hex v 32; Some (Some (t, tl fmt_l, r))
  else if deref fmt_l =? CH_u then
    '(v, r) ← arg_z args; b ← uint_to_string (u32 v) buffer16; Some (Some (cstr b, tl fmt_l, r))
  else if deref fmt_l =? CH_p then
    '(v, r) ← arg_z args; t ← hex v 64; Some (Some ([CH_0; CH_x] ++ t, tl fmt_l, r))
  else Some None.

(** The format after an unhandled directive: the letters l are gone already. *)
Definition skip_l (fmt : list Z) : list Z :=
  if deref fmt =? CH_l then (if deref (tl fmt) =? CH_l then tl (tl fmt) else tl fmt) else fmt.

(** [fmt] is the bytes from the pointer on, terminator included: running off
    them is a read past the string. *)
Fixpoint kprintf_loop (fuel : nat) (fmt : list Z) (args : list arg) (out : list Z)
    : option (list Z) :=
  match fuel with
  | O => None
  | S fuel' =>
    match fmt with
    | [] => None
    | c :: fmt' =>
      if c =? 0 then Some out
      else if c =? CH_PERCENT then
        r ← directive fmt' args;
        match r with
        | Some (text, rest, args') => kprintf_loop fuel' rest args' (out ++ text)
        | None =>
          match skip_l fmt' with
          | [] => None
          | c' :: rest => kprintf_loop fuel' rest args (out ++ [c'])
          end
        end
      else kprintf_loop fuel' fmt' args (out ++ [c])
    end
  end.

Definition kprintf (fmt : list Z) (args : list arg) : option (list Z) :=
  kprintf_loop (S (length fmt)) fmt args [].

Example fmt_demo :
  kprintf [104; 61; 37; 100; 59; 37; 108; 108; 120; 0] [ArgZ (-42); ArgZ 0xFF00] =
    Some [104; 61; 45; 52; 50; 59; 70; 70; 48; 48].
Proof. reflexivity. Qed.

(** ** The loops *)

(** Settles the first comparison of the goal by arithmetic. *)
Ltac decide_ltb :=
  match goal with
  | |- context [?x <? ?y] =>
    destruct (Z.ltb_spec x y); simpl length in *; try (exfalso; lia)
  end.
Lemma put_app a c x b :
  put (Z.of_nat (length a)) c (a ++ x :: b) = Some (a ++ c :: b).
Proof.
  unfold put. rewrite length_app. cbn [length].
  destruct (Z.leb_spec 0 (Z.of_nat (length a))); [| lia].
  destruct (Z.ltb_spec (Z.of_nat (length a)) (Z.of_nat (length a + S (length b)))); [| lia].
  cbn [andb]. rewrite Nat2Z.id. f_equal. rewrite insert_app_r_alt by lia.
  by rewrite Nat.sub_diag.
Qed.

Lemma get_app a x b : get (a ++ x :: b) (Z.of_nat (length a)) = x.
Proof. unfold get. by rewrite Nat2Z.id, list_lookup_middle. Qed.

(** The digits the loop writes, in its order. *)
Fixpoint digits (digit next : Z -> Z) (fuel : nat) (value : Z) : list Z :=
  match fuel with
  | O => []
  | S fuel' => if value >? 0 then digit value :: digits digit next fuel' (next value) else []
  end.

Lemma digit_loop_spec digit next fuel value a b :
  (length (digits digit next fuel value) < fuel)%nat ->
  (length (digits digit next fuel value) <= length b)%nat ->
  digit_loop digit next fuel (Z.of_nat (length a)) value (a ++ b) =
    Some (Z.of_nat (length a + length (digits digit next fuel value)),
          a ++ digits digit next fuel value ++ drop (length (digits digit next fuel value)) b).
Proof.
  revert a b value; induction fuel as [|fuel IH]; intros a b value Hf Hb; [simpl in Hf; lia |].
  cbn [digit_loop digits] in *. destruct (value >? 0) eqn:E; bool_to_prop.
  - destruct b as [|x b]; [simpl in Hb; lia |]. rewrite put_app. cbn [mbind option_bind].
    replace (Z.of_nat (length a) + 1) with (Z.of_nat (length (a ++ [digit value])))
      by (rewrite length_app; simpl; lia).
    replace (a ++ digit value :: b) with ((a ++ [digit value]) ++ b) by (by rewrite <- app_assoc).
    simpl in Hf, Hb. rewrite IH by lia. rewrite length_app. simpl. f_equal. f_equal; [lia |].
    by rewrite <- app_assoc.
  - simpl. rewrite Nat.add_0_r. done.
Qed.

(** In-place reversal of the middle of a buffer. *)
Lemma swap_loop_spec fuel a m b :
  (length m < fuel)%nat ->
  swap_loop fuel (Z.of_nat (length a)) (Z.of_nat (length a + length m) - 1) (a ++ m ++ b) =
    Some (a ++ reverse m ++ b).
Proof.
  revert a m b; induction fuel as [|fuel IH]; intros a m b Hf; [lia |].
  cbn [swap_loop]. destruct m as [|x m].
  { decide_ltb. done. }
  induction m as [|y m _] using rev_ind.
  { decide_ltb. done. }
  simpl length in *. rewrite length_app in *. simpl length in *.
  decide_ltb.
  set (e := Z.of_nat (length a + S (length m + 1)) - 1).
  assert (He : e = Z.of_nat (length (a ++ x :: m))) by (rewrite length_app; simpl; lia).
  assert (H1 : get (a ++ (x :: m ++ [y]) ++ b) (Z.of_nat (length a)) = x) by apply get_app.
  assert (H2 : get (a ++ (x :: m ++ [y]) ++ b) e = y).
  { rewrite He. replace (a ++ (x :: m ++ [y]) ++ b) with ((a ++ x :: m) ++ y :: b)
      by (rewrite <- !app_assoc; simpl; by rewrite <- app_assoc). apply get_app. }
  rewrite H1, H2. cbn [app]. rewrite put_app. cbn [mbind option_bind].
  replace (a ++ y :: (m ++ [y]) ++ b) with ((a ++ y :: m) ++ y :: b)
    by (rewrite <- !app_assoc; done).
  replace e with (Z.of_nat (length (a ++ y :: m))) by (rewrite He, !length_app; done).
  rewrite put_app. cbn [mbind option_bind].
  replace ((a ++ y :: m) ++ x :: b) with ((a ++ [y]) ++ m ++ x :: b) by (rewrite <- !app_assoc; done).
  replace (Z.of_nat (length a) + 1) with (Z.of_nat (length (a ++ [y]))) by (rewrite length_app; simpl; lia).
  replace (Z.of_nat (length (a ++ y :: m)) - 1) with (Z.of_nat (length (a ++ [y]) + length m) - 1)
    by (rewrite !length_app; simpl; lia).
  rewrite IH by lia. f_equal. rewrite <- !app_assoc. f_equal. simpl.
  rewrite reverse_cons, reverse_app. simpl. by rewrite <- !app_assoc.
Qed.

(** ** Reading a number back *)
Definition dec_value (c : Z) : Z := c - CH_0.
Definition hex_value (c : Z) : Z := if c <=? 57 then c - CH_0 else c - 55.

(** Value of a digit string, most significant first. *)
Definition parse (base : Z) (value : Z -> Z) (l : list Z) : Z :=
  foldl (fun acc c => acc * base + value c) 0 l.

Definition parse_int (l : list Z) : Z :=
  match l with
  | c :: r => if c =? CH_MINUS then - parse 10 dec_value r else parse 10 dec_value l
  | [] => 0
  end.

Lemma parse_snoc base value l c : parse base value (l ++ [c]) = parse base value l * base + value c.
Proof. unfold parse. by rewrite foldl_app. Qed.

Lemma digits_parse base digit next value fuel v :
  0 < base -> (forall v, 0 < v -> value (digit v) + base * next v = v) ->
  (forall v, 0 < v -> 0 <= next v) ->
  (length (digits digit next fuel v) < fuel)%nat -> 0 <= v ->
  parse base value (reverse (digits digit next fuel v)) = v.
Proof.
  intros Hb Hd Hn. revert v; induction fuel as [|fuel IH]; intros v Hf Hv; [simpl in Hf; lia |].
  cbn [digits] in *. destruct (v >? 0) eqn:E; bool_to_prop.
  - rewrite reverse_cons, parse_snoc. simpl in Hf. rewrite IH; [| lia | by apply Hn].
    pose proof (Hd v ltac:(lia)). lia.
  - by assert (v = 0) as -> by lia.
Qed.

(** A value below [base ^ k] has at most [k] digits. *)
Lemma digits_length base digit next fuel v k :
  1 < base -> (forall v, 0 < v -> next v = v / base) -> v < base ^ Z.of_nat k ->
  (length (digits digit next fuel v) <= k)%nat.
Proof.
  intros Hb Hn. revert v k; induction fuel as [|fuel IH]; intros v k Hv; [simpl; lia |].
  cbn [digits]. destruct (v >? 0) eqn:E; [| simpl; lia]. bool_to_prop.
  destruct k as [|k]; [simpl in Hv; lia |]. simpl. apply le_n_S. apply IH.
  rewrite Hn by lia. rewrite Nat2Z.inj_succ, Z.pow_succ_r in Hv by lia.
  apply Z.div_lt_upper_bound; lia.
Qed.

Lemma dec_step v : 0 < v -> dec_value (dec_digit v) + 10 * dec_next v = v.
Proof. intros. unfold dec_value, dec_digit, dec_next. pose proof (Z.div_mod v 10). lia. Qed.

Lemma hex_step v : 0 < v -> hex_value (hex_digit v) + 16 * hex_next v = v.
Proof.
  intros Hv. unfold hex_digit, hex_next. change 0xF with (Z.ones 4).
  rewrite Z.land_ones, Z.shiftr_div_pow2 by lia. change (2 ^ 4) with 16.
  pose proof (Z.mod_pos_bound v 16 ltac:(lia)) as Hm. pose proof (Z.div_mod v 16 ltac:(lia)).
  assert (Hh : hex_value (get hex_digits (v mod 16)) = v mod 16); [| lia].
  clear H. generalize dependent (v mod 16). intros r Hr.
  assert (Hc : r = 0 \/ r = 1 \/ r = 2 \/ r = 3 \/ r = 4 \/ r = 5 \/ r = 6 \/ r = 7 \/
               r = 8 \/ r = 9 \/ r = 10 \/ r = 11 \/ r = 12 \/ r = 13 \/ r = 14 \/ r = 15) by lia.
  repeat (destruct Hc as [->|Hc]; [done |]). by subst.
Qed.

(** ** What the conversions write *)
Lemma cstr_app l r : Forall (fun c => c <> 0) l -> cstr (l ++ 0 :: r) = l.
Proof.
  induction 1 as [|c l Hc _ IH]; simpl; [done |].
  destruct (Z.eqb_spec c 0); [done |]. by rewrite IH.
Qed.

Lemma digits_nonzero digit next fuel v :
  (forall w, 0 < w -> digit w <> 0) -> Forall (fun c => c <> 0) (digits digit next fuel v).
Proof.
  intros Hd. revert v; induction fuel as [|fuel IH]; intros v; cbn [digits]; [constructor |].
  destruct (v >? 0) eqn:E; bool_to_prop; constructor; [by apply Hd | apply IH].
Qed.

(** Terminating and turning round the [n] characters at the front. *)
Lemma finish_spec ds b :
  Forall (fun c => c <> 0) ds -> (length ds < length b)%nat ->
  exists b', put (Z.of_nat (length ds)) 0 (ds ++ drop (length ds) b) = Some b' /\
    exists b2, swap_loop (S (length ds)) 0 (Z.of_nat (length ds) - 1) b' = Some b2 /\
      cstr b2 = reverse ds /\ length b2 = length b.
Proof.
  intros Hds Hlen. destruct (drop (length ds) b) as [|x r] eqn:E.
  { apply (f_equal length) in E. rewrite length_drop in E. simpl in E. lia. }
  exists (ds ++ 0 :: r). split; [apply put_app |].
  exists (reverse ds ++ 0 :: r). split; [exact (swap_loop_spec (S (length ds)) [] ds (0 :: r) ltac:(lia)) |].
  split; [apply cstr_app; by apply Forall_reverse |].
  apply (f_equal length) in E. rewrite length_drop in E. simpl in E.
  rewrite length_app, length_reverse. simpl. lia.
Qed.

(** Reference texts: the digits, most significant first. *)
Definition dec_text (v : Z) : list Z :=
  if v =? 0 then [CH_0] else reverse (digits dec_digit dec_next dec_fuel v).
Definition hex_text (v : Z) : list Z :=
  if v =? 0 then [CH_0] else reverse (digits hex_digit hex_next hex_fuel v).
Definition int_text (v : Z) : list Z :=
  if v <? 0 then CH_MINUS :: dec_text (- v) else dec_text v.

Lemma zero_spec b :
  (2 <= length b)%nat ->
  exists b', (b1 ← put 0 CH_0 b; put 1 0 b1) = Some b' /\ cstr b' = [CH_0] /\ length b' = length b.
Proof.
  intros Hl. destruct b as [|x [|y b]]; simpl in Hl; try lia.
  exists (CH_0 :: 0 :: b). split; [| done].
  change (put 0 CH_0 (x :: y :: b)) with (put (Z.of_nat (length (@nil Z))) CH_0 ([] ++ x :: y :: b)).
  rewrite put_app. cbn [mbind option_bind].
  exact (put_app [CH_0] 0 y b).
Qed.

Lemma dec_digits_fit v : 0 <= v < 2 ^ 32 -> (length (digits dec_digit dec_next dec_fuel v) <= 10)%nat.
Proof.
  intros Hv. apply (digits_length 10); [lia | done |]. change (10 ^ Z.of_nat 10) with 10000000000. lia.
Qed.

Lemma hex_digits_fit v : 0 <= v < 2 ^ 64 -> (length (digits hex_digit hex_next hex_fuel v) <= 16)%nat.
Proof.
  intros Hv. apply (digits_length 16); [lia | | exact (proj2 Hv)].
  intros w Hw. unfold hex_next. by rewrite Z.shiftr_div_pow2 by lia.
Qed.

Lemma dec_digit_nonzero w : 0 < w -> dec_digit w <> 0.
Proof. intros _. unfold dec_digit, CH_0. pose proof (Z.mod_pos_bound w 10). lia. Qed.

Lemma hex_digit_nonzero w : 0 < w -> hex_digit w <> 0.
Proof.
  intros Hw He. pose proof (hex_step w Hw) as Hs. rewrite He in Hs.
  unfold hex_value, CH_0, hex_next in Hs. cbn in Hs. rewrite Z.shiftr_div_pow2 in Hs by lia.
  change (2 ^ 4) with 16 in Hs. pose proof (Z.div_mod w 16). pose proof (Z.mod_pos_bound w 16). lia.
Qed.

Lemma uint_to_string_spec v b :
  0 <= v < 2 ^ 32 -> (11 <= length b)%nat ->
  exists b', uint_to_string v b = Some b' /\ cstr b' = dec_text v /\ length b' = length b.
Proof.
  intros Hv Hb. unfold uint_to_string, dec_text.
  destruct (v =? 0); [apply zero_spec; lia |].
  pose proof (dec_digits_fit v Hv) as Hl.
  rewrite (digit_loop_spec _ _ _ _ [] b) by (unfold dec_fuel in *; lia). cbn [mbind option_bind app length].
  destruct (finish_spec (digits dec_digit dec_next dec_fuel v) b) as (b1 & H1 & b2 & H2 & H3 & H4);
    [apply digits_nonzero, dec_digit_nonzero | lia |].
  cbn [Nat.add]. rewrite H1. cbn [mbind option_bind]. rewrite Nat2Z.id, H2. by exists b2.
Qed.

Lemma uint64_to_hex_spec v b :
  0 <= v < 2 ^ 64 -> (17 <= length b)%nat ->
  exists b', uint64_to_hex v b = Some b' /\ cstr b' = hex_text v /\ length b' = length b.
Proof.
  intros Hv Hb. unfold uint64_to_hex, hex_text.
  destruct (v =? 0); [apply zero_spec; lia |].
  pose proof (hex_digits_fit v Hv) as Hl.
  rewrite (digit_loop_spec _ _ _ _ [] b) by (unfold hex_fuel in *; lia). cbn [mbind option_bind app length].
  destruct (finish_spec (digits hex_digit hex_next hex_fuel v) b) as (b1 & H1 & b2 & H2 & H3 & H4);
    [apply digits_nonzero, hex_digit_nonzero | lia |].
  cbn [Nat.add]. rewrite H1. cbn [mbind option_bind]. rewrite Nat2Z.id, H2. by exists b2.
Qed.

Lemma int_to_string_spec v b :
  - 2 ^ 31 < v < 2 ^ 31 -> (12 <= length b)%nat ->
  exists b', int_to_string v b = Some b' /\ cstr b' = int_text v /\ length b' = length b.
Proof.
  intros Hv Hb. unfold int_to_string, int_text, dec_text.
  destruct (Z.eqb_spec v 0) as [->|Hv0]; [apply zero_spec; lia |].
  destruct (Z.ltb_spec v 0) as [Hneg|Hpos].
  - rewrite i32_id by lia. destruct (Z.eqb_spec (- v) 0); [lia |].
    pose proof (dec_digits_fit (- v) ltac:(lia)) as Hl.
    rewrite (digit_loop_spec _ _ _ _ [] b) by (unfold dec_fuel in *; lia).
    cbn [mbind option_bind app length Nat.add].
    set (ds := digits dec_digit dec_next dec_fuel (- v)) in *.
    destruct (drop (length ds) b) as [|x r] eqn:E.
    { apply (f_equal length) in E. rewrite length_drop in E. simpl in E. lia. }
    rewrite put_app. cbn [mbind option_bind].
    assert (Hr : r = drop (length (ds ++ [CH_MINUS])) b).
    { rewrite length_app. simpl. rewrite <- drop_drop, E. done. }
    destruct (finish_spec (ds ++ [CH_MINUS]) b) as (b1 & H1 & b2 & H2 & H3 & H4).
    { apply Forall_app. split; [apply digits_nonzero, dec_digit_nonzero | by repeat constructor]. }
    { rewrite length_app. simpl. lia. }
    rewrite <- Hr, <- app_assoc in H1. cbn [app] in H1.
    replace (Z.of_nat (length ds) + 1) with (Z.of_nat (length (ds ++ [CH_MINUS])))
      by (rewrite length_app; simpl; lia).
    rewrite H1. cbn [mbind option_bind]. rewrite Nat2Z.id, H2. exists b2.
    split; [done |]. split; [| done]. rewrite H3, reverse_app. done.
  - pose proof (dec_digits_fit v ltac:(lia)) as Hl.
    rewrite (digit_loop_spec _ _ _ _ [] b) by (unfold dec_fuel in *; lia).
    cbn [mbind option_bind app length Nat.add].
    destruct (finish_spec (digits dec_digit dec_next dec_fuel v) b) as (b1 & H1 & b2 & H2 & H3 & H4);
      [apply digits_nonzero, dec_digit_nonzero | lia |].
    rewrite H1. cbn [mbind option_bind]. rewrite Nat2Z.id, H2. by exists b2.
Qed.

(** ** Values of the reference texts *)
Lemma dec_text_value v : 0 <= v < 2 ^ 32 -> parse 10 dec_value (dec_text v) = v.
Proof.
  intros Hv. unfold dec_text. destruct (Z.eqb_spec v 0) as [->|]; [done |].
  pose proof (dec_digits_fit v Hv). apply digits_parse; try lia; [exact dec_step | | unfold dec_fuel in *; lia].
  intros w Hw. apply Z.div_pos; lia.
Qed.

Lemma hex_text_value v : 0 <= v < 2 ^ 64 -> parse 16 hex_value (hex_text v) = v.
Proof.
  intros Hv. unfold hex_text. destruct (Z.eqb_spec v 0) as [->|]; [done |].
  pose proof (hex_digits_fit v Hv). apply digits_parse; try lia; [exact hex_step | | unfold hex_fuel in *; lia].
  intros w Hw. apply Z.shiftr_nonneg. lia.
Qed.

Lemma dec_text_no_minus v c r : dec_text v = c :: r -> c <> CH_MINUS.
Proof.
  intros He.
  assert (Hall : Forall (fun d => d <> CH_MINUS) (dec_text v)).
  { unfold dec_text. destruct (v =? 0); [by repeat constructor |]. apply Forall_reverse.
    generalize dec_fuel. intros fuel. clear He. revert v; induction fuel as [|fuel IH]; intros v;
      cbn [digits]; [constructor |].
    destruct (v >? 0); constructor; [| apply IH].
    unfold dec_digit, CH_0, CH_MINUS. pose proof (Z.mod_pos_bound v 10). lia. }
  rewrite He in Hall. by apply Forall_cons in Hall as [? _].
Qed.

Lemma int_text_value v : - 2 ^ 31 < v < 2 ^ 31 -> parse_int (int_text v) = v.
Proof.
  intros Hv. unfold int_text. destruct (Z.ltb_spec v 0).
  - cbn. rewrite dec_text_value by lia. lia.
  - unfold parse_int. destruct (dec_text v) as [|c r] eqn:E.
    { pose proof (dec_text_value v ltac:(lia)) as Hd. by rewrite E in Hd. }
    destruct (Z.eqb_spec c CH_MINUS) as [Hc|_]; [by destruct (dec_text_no_minus v c r E) |].
    rewrite <- E. apply dec_text_value. lia.
Qed.

(** ** [kprintf] on a parsed format *)
Inductive token :=
| TLit (c : Z)
| TUnknown (c : Z)
| TChar (v : Z)
| TInt (v : Z)
| TStr (s : list Z)
| TUint (ells : nat) (v : Z)
| THex (v : Z)
| TLongHex (two : bool) (v : Z)
| TPtr (ells : nat) (v : Z).

Definition ell (n : nat) : list Z := replicate n CH_l.

Definition fmt_of (t : token) : list Z :=
  match t with
  | TLit c => if c =? CH_PERCENT then [CH_PERCENT; CH_PERCENT] else [c]
  | TUnknown c => [CH_PERCENT; c]
  | TChar _ => [CH_PERCENT; CH_c]
  | TInt _ => [CH_PERCENT; CH_d]
  | TStr _ => [CH_PERCENT; CH_s]
  | TUint n _ => CH_PERCENT :: ell n ++ [CH_u]
  | THex _ => [CH_PERCENT; CH_x]
  | TLongHex two _ => CH_PERCENT :: ell (if two then 2 else 1) ++ [CH_x]
  | TPtr n _ => CH_PERCENT :: ell n ++ [CH_p]
  end.

Definition args_of (t : token) : list arg :=
  match t with
  | TLit _ | TUnknown _ => []
  | TChar v | TInt v | TUint _ v | THex v | TLongHex _ v | TPtr _ v => [ArgZ v]
  | TStr s => [ArgS s]
  end.

Definition text_of (t : token) : list Z :=
  match t with
  | TLit c | TUnknown c => [c]
  | TChar v => [i8 v]
  | TInt v => int_text (i32 v)
  | TStr s => cstr s
  | TUint _ v => dec_text (u32 v)
  | THex v => hex_text (u32 v)
  | TLongHex _ v => hex_text (u64 v)
  | TPtr _ v => CH_0 :: CH_x :: hex_text (u64 v)
  end.

(** Letters after a '%' that [kprintf] acts on. *)
Definition known (c : Z) : bool :=
  existsb (Z.eqb c) [CH_c; CH_d; CH_s; CH_l; CH_x; CH_u; CH_p].

(** Literals are not NUL, at most two l's come before a letter, and [%d] is not
    given the one [int] whose negation overflows. *)
Definition token_ok (t : token) : Prop :=
  match t with
  | TLit c => c <> 0
  | TUnknown c => c <> 0 /\ known c = false
  | TInt v => i32 v <> - 2 ^ 31
  | TUint n _ | TPtr n _ => (n <= 2)%nat
  | _ => True
  end.

Lemma hex17 v bits :
  bits = 32 \/ bits = 64 ->
  exists b, uint64_to_hex (v mod 2 ^ bits) buffer17 = Some b /\ cstr b = hex_text (v mod 2 ^ bits).
Proof.
  intros Hb. pose proof (Z.mod_pos_bound v (2 ^ bits)) as Hr.
  destruct (uint64_to_hex_spec (v mod 2 ^ bits) buffer17) as (b & -> & Hc & _).
  - destruct Hb as [-> | ->]; lia.
  - done.
  - by exists b.
Qed.

(** A letter [kprintf] does not know is printed, and no argument is taken. *)
Lemma kprintf_unknown fuel c rest args out : c <> 0 /\ known c = false ->
  kprintf_loop (S fuel) (CH_PERCENT :: c :: rest) args out = kprintf_loop fuel rest args (out ++ [c]).
Proof.
  intros [Hc Hk]. unfold known in Hk. cbn [existsb] in Hk. rewrite !orb_false_iff in Hk.
  destruct Hk as (E1 & E2 & E3 & E4 & E5 & E6 & E7 & _).
  assert (Hd : directive (c :: rest) args = Some None).
  { unfold directive. cbn [deref hd tl]. rewrite E1, E2, E3, E4. cbn [deref hd andb]. by rewrite E5, E6, E7. }
  cbn [kprintf_loop]. rewrite Hd. cbn [mbind option_bind]. unfold skip_l. cbn [deref hd tl]. by rewrite E4.
Qed.

(** One token: its directive prints its text and moves on. *)
Lemma kprintf_token fuel t rest args out :
  token_ok t ->
  kprintf_loop (S fuel) (fmt_of t ++ rest) (args_of t ++ args) out =
    kprintf_loop fuel rest args (out ++ text_of t).
Proof.
  destruct t as [c|c|v|v|s|n v|v|two v|n v]; intros Ht; cbn [token_ok] in Ht.
  - cbn [fmt_of args_of text_of app]. destruct (Z.eqb_spec c CH_PERCENT) as [->|Hne]; [done |].
    cbn [app kprintf_loop]. destruct (Z.eqb_spec c 0); [done |].
    by destruct (Z.eqb_spec c CH_PERCENT).
  - by apply kprintf_unknown.
  - done.
  - cbn -[int_to_string buffer16 i32]. destruct (int_to_string_spec (i32 v) buffer16) as (b & -> & Hc & _);
      [pose proof (i32_range v); lia | simpl; lia |].
    cbn -[i32]. by rewrite Hc.
  - done.
  - destruct (uint_to_string_spec (u32 v) buffer16 (u32_range v) ltac:(simpl; lia)) as (b & Hb & Hc & _).
    destruct n as [|[|[|n]]]; [| | | lia]; cbn -[uint_to_string buffer16 u32]; rewrite Hb; cbn -[u32]; by rewrite Hc.
  - destruct (hex17 v 32 (or_introl eq_refl)) as (b & Hb & Hc).
    cbn -[uint64_to_hex buffer17 Z.pow]. rewrite Hb; cbn -[Z.pow]; by rewrite Hc.
  - destruct (hex17 v 64 (or_intror eq_refl)) as (b & Hb & Hc).
    destruct two; cbn -[uint64_to_hex buffer17 Z.pow]; rewrite Hb; cbn -[Z.pow]; by rewrite Hc.
  - destruct (hex17 v 64 (or_intror eq_refl)) as (b & Hb & Hc).
    destruct n as [|[|[|n]]]; [| | | lia];
      cbn -[uint64_to_hex buffer17 Z.pow]; rewrite Hb; cbn -[Z.pow]; by rewrite Hc.
Qed.

Lemma fmt_length t : (1 <= length (fmt_of t))%nat.
Proof. destruct t; simpl; try lia. destruct (c =? CH_PERCENT); simpl; lia. Qed.

(** ** Properties *)

(** the three conversions fit their buffers (10 digits, a sign and a NUL; 16
    digits and a NUL) and write a text that reads back as the number, for every
    32-bit unsigned, every 64-bit, and every [int] but the most negative. *)
Theorem number_formatting_roundtrip buffer :
  (forall v, 0 <= v < 2 ^ 32 -> (11 <= length buffer)%nat ->
     exists b, uint_to_string v buffer = Some b /\ parse 10 dec_value (cstr b) = v) /\
  (forall v, 0 <= v < 2 ^ 64 -> (17 <= length buffer)%nat ->
     exists b, uint64_to_hex v buffer = Some b /\ parse 16 hex_value (cstr b) = v) /\
  (forall v, - 2 ^ 31 < v < 2 ^ 31 -> (12 <= length buffer)%nat ->
     exists b, int_to_string v buffer = Some b /\ parse_int (cstr b) = v).
Proof.
  split_and!; intros v Hv Hl.
  - destruct (uint_to_string_spec v buffer Hv Hl) as (b & -> & Hc & _).
    exists b. split; [done | rewrite Hc; by apply dec_text_value].
  - destruct (uint64_to_hex_spec v buffer Hv Hl) as (b & -> & Hc & _).
    exists b. split; [done | rewrite Hc; by apply hex_text_value].
  - destruct (int_to_string_spec v buffer Hv Hl) as (b & -> & Hc & _).
    exists b. split; [done | rewrite Hc; by apply int_text_value].
Qed.

Lemma number_formatting_roundtrip_witness :
  exists b, int_to_string (-70) (replicate 16 1) = Some b /\ parse_int (cstr b) = -70.
Proof.
  apply (proj2 (proj2 (number_formatting_roundtrip (replicate 16 1)))); [lia | simpl; lia].
Defined.

Lemma kprintf_tokens toks extra : Forall token_ok toks ->
  kprintf (concat (fmt_of <$> toks) ++ [0]) (concat (args_of <$> toks) ++ extra) = Some (concat (text_of <$> toks)).
Proof.
  intros Hok. assert (G : forall fuel out, (length toks < fuel)%nat ->
    kprintf_loop fuel (concat (fmt_of <$> toks) ++ [0]) (concat (args_of <$> toks) ++ extra) out =
      Some (out ++ concat (text_of <$> toks))).
  { induction Hok as [|t toks Ht _ IH]; intros fuel out Hf; (destruct fuel as [|fuel]; [simpl in Hf; lia |]).
    - simpl. by rewrite app_nil_r.
    - cbn [fmap list_fmap concat]. rewrite <- !app_assoc, kprintf_token by done.
      rewrite IH by (simpl in Hf; lia). by rewrite <- app_assoc. }
  unfold kprintf. apply (G _ []). rewrite length_app.
  assert (Hl : (length toks <= length (concat (fmt_of <$> toks)))%nat).
  { clear. induction toks as [|t toks IH]; [done |]. cbn [fmap list_fmap concat length].
    rewrite length_app. pose proof (fmt_length t). lia. }
  simpl. lia.
Qed.

(** C23: on a format made of literals, the directives it knows, with one argument
    of the right kind for each, and others, which it prints without the '%', [kprintf]
    prints exactly the reference text and stops at the terminator; arguments without a
    directive are ignored. *)
Theorem kprintf_correct toks extra (Hok : Forall token_ok toks) :
  kprintf (concat (fmt_of <$> toks) ++ [0]) (concat (args_of <$> toks) ++ extra) = Some (concat (text_of <$> toks)).
Proof. by apply kprintf_tokens. Qed.

Lemma kprintf_correct_witness :
  let toks := [TLit 104; TInt (-42); TUint 2 7; TPtr 0 0xFF; TUnknown CH_0] in
  Forall token_ok toks /\
  kprintf (concat (fmt_of <$> toks) ++ [0]) (concat (args_of <$> toks) ++ [ArgZ 1]) =
    Some [104; 45; 52; 50; 55; 48; 120; 70; 70; 48].
Proof.
  intros toks.
  assert (Hok : Forall token_ok toks) by (repeat constructor; vm_compute; congruence || lia || done).
  split; [exact Hok |]. exact (kprintf_correct toks [ArgZ 1] Hok).
Defined.

(** The most negative [int] prints as a lone minus sign. *)
Example int_min_text :
  (b ← int_to_string (- 2 ^ 31) (replicate 16 0); Some (cstr b)) = Some [CH_MINUS].
Proof. reflexivity. Qed.

(** A format that ends in '%' is read past its terminator. *)
Example percent_at_end : kprintf [104; CH_PERCENT; 0] [] = None.
Proof. reflexivity. Qed.

End Convert.
