(* ===== verification/KAlloc.v ===== *)
(** * Interface: what the heap promises to its clients

    Tasks, processes, files and file-system nodes are [kmalloc]ed.  Their code
    relies only on the laws below; [HeapPages.v] discharges them for the heap
    of [mm/heap.c]. *)
From S2P Require Import Prelude.
#[local] Open Scope Z_scope.

Class KAlloc (K : Type) := {
  ka_malloc : Z -> K -> K * Z;
  ka_free : Z -> K -> K;
  (** [ka_live k L]: the live objects of [k] and their sizes *)
  ka_live : K -> gmap Z Z -> Prop;
  (** where the objects of the allocator lie: first address, end *)
  ka_region : K -> Z * Z;
}.

Class KAllocLaws (K : Type) `{KAlloc K} := {
  (** live objects are proper address ranges, and they do not overlap *)
  ka_range k L p n : ka_live k L -> L !! p = Some n ->
    0 < p /\ 0 <= n /\ p + n < 2 ^ 64 /\ p mod 16 = 0;
  ka_disjoint k L p n q m : ka_live k L -> L !! p = Some n -> L !! q = Some m -> p <> q ->
    p + n < q \/ q + m < p;
  (** NULL and no object more, or a new object of at least the size asked *)
  ka_malloc_spec k L size k' p : ka_live k L -> 0 < size <= 2 ^ 32 -> ka_malloc size k = (k', p) ->
    (p = NULL /\ ka_live k' L) \/
    (exists n, size <= n /\ L !! p = None /\ p <> NULL /\ ka_live k' (<[p := n]> L));
  ka_free_spec k L p n : ka_live k L -> L !! p = Some n -> ka_live (ka_free p k) (delete p L);
  ka_region_live k L p n : ka_live k L -> L !! p = Some n -> (ka_region k).1 <= p /\ p + n <= (ka_region k).2;
  ka_region_malloc k size : ka_region (ka_malloc size k).1 = ka_region k;
  ka_region_free k p : ka_region (ka_free p k) = ka_region k;
}.

(** ** A small instance

    An allocator that hands out ascending addresses below a limit and only
    remembers which objects are live: the interface at work in the examples of
    the components that use it. *)
Module Bump.
Record bump := mk_bump { b_next : Z; b_limit : Z; b_live : gmap Z Z }.

Definition round16 (x : Z) : Z := 16 * ((x + 15) / 16).

#[global] Instance bump_alloc : KAlloc bump := {
  ka_malloc size k :=
    if b_next k + round16 size + 16 <=? b_limit k
    then (mk_bump (b_next k + round16 size + 16) (b_limit k) (<[b_next k := size]> (b_live k)), b_next k)
    else (k, NULL);
  ka_free p k := mk_bump (b_next k) (b_limit k) (delete p (b_live k));
  ka_live k L := b_live k = L /\ 0 < b_next k /\ b_next k mod 16 = 0 /\ b_limit k < 2 ^ 64 /\
    (forall p n, L !! p = Some n -> 0 < p /\ 0 <= n /\ p + n < b_next k /\ p mod 16 = 0 /\ p + n <= b_limit k) /\
    (forall p n q m, L !! p = Some n -> L !! q = Some m -> p <> q -> p + n < q \/ q + m < p);
  ka_region k := (0, b_limit k);
}.

Lemma round16_spec x : x <= round16 x /\ round16 x mod 16 = 0.
Proof. unfold round16. word_lia. Qed.

#[global] Instance bump_laws : KAllocLaws bump.
Proof.
  split.
  - intros k L p n (_ & _ & _ & ? & H & _) Hp. apply H in Hp. lia.
  - intros k L p n q m (_ & _ & _ & _ & _ & H). apply H.
  - intros k L size k' p (<- & Hn & Hn16 & Hlim & Hr & Hd) Hs. cbn [ka_malloc bump_alloc].
    destruct (round16_spec size). destruct (Z.leb_spec (b_next k + round16 size + 16) (b_limit k));
      intros [= <- <-]; [right | by left].
    assert (Hfresh : b_live k !! b_next k = None).
    { destruct (b_live k !! b_next k) as [n|] eqn:E; [apply Hr in E; lia | done]. }
    exists size. split_and!; [lia | done | unfold NULL; lia |]. split_and!; cbn; try done; try lia.
    + word_lia.
    + intros p n. rewrite lookup_insert. case_decide; [intros [= <-]; subst | intros E; apply Hr in E];
        split_and!; try lia; tauto.
    + intros p n q m E1 E2 Hne. apply lookup_insert_Some in E1 as [[<- <-]|[Hp E1]];
        apply lookup_insert_Some in E2 as [[<- <-]|[Hq E2]];
        [done | apply Hr in E2; lia | apply Hr in E1; lia | by apply (Hd p n q m)].
  - intros k L p n (<- & Hn & Hn16 & Hlim & Hr & Hd) Hp. split_and!; cbn; try done.
    + intros q m. rewrite lookup_delete_Some. intros [_ Hq]. by apply Hr.
    + intros q m r o. rewrite !lookup_delete_Some. intros [_ Hq] [_ Hr']. by apply Hd.
  - intros k L p n (_ & _ & _ & _ & H & _) Hp. apply H in Hp. cbn. lia.
  - intros k size. cbn. by case_match.
  - done.
Qed.

Definition bump_init (start limit : Z) : bump := mk_bump start limit ∅.

Lemma bump_init_live start limit :
  0 < start -> start mod 16 = 0 -> limit < 2 ^ 64 -> ka_live (bump_init start limit) ∅.
Proof. intros. split_and!; try done; intros; by rewrite lookup_empty in *. Qed.
End Bump.
