(* ===== verification/Fd.v ===== *)
(** * File descriptor tables: [fs/fd.c]

    A table is the list of its 64 file pointers; a table pointer that may be
    NULL is an [option]. *)
From S2P Require Import Prelude.
#[local] Open Scope Z_scope.

Module Fd.

Definition FD_MAX : Z := 64.

Record fd_table_t := mk_fd_table { files : list Z }.

Definition file_at (t : fd_table_t) (fd : Z) : Z := default NULL (files t !! Z.to_nat fd).
Definition set_file (fd file : Z) (t : fd_table_t) : fd_table_t :=
  mk_fd_table (<[Z.to_nat fd := file]> (files t)).

Definition fd_init (table : option fd_table_t) : option fd_table_t :=
  match table with
  | None => None
  | Some t => Some (mk_fd_table (replicate (Z.to_nat FD_MAX) NULL))
  end.

Definition fd_get (table : option fd_table_t) (fd : Z) : Z :=
  match table with
  | None => NULL
  | Some t => if (fd <? 0) || (fd >=? FD_MAX) then NULL else file_at t fd
  end.

Definition fd_allocate (table : option fd_table_t) (file : Z) : option fd_table_t * Z :=
  match table with
  | None => (None, KERNEL_EINVAL)
  | Some t =>
    if file =? NULL then (Some t, KERNEL_EINVAL)
    else
      match find_to 0 FD_MAX (fun fd => file_at t fd =? NULL) with
      | Some fd => (Some (set_file fd file t), fd)
      | None => (Some t, KERNEL_ENOMEM)
      end
  end.

Definition fd_close (table : option fd_table_t) (fd : Z) : option fd_table_t * Z :=
  match table with
  | None => (None, KERNEL_EINVAL)
  | Some t =>
    if (fd <? 0) || (fd >=? FD_MAX) then (Some t, KERNEL_EINVAL)
    else if file_at t fd =? NULL then (Some t, KERNEL_EINVAL)
    else (Some (set_file fd NULL t), KERNEL_SUCCESS)
  end.

(** ** Lemmas *)
Definition fd_wf (t : fd_table_t) : Prop := length (files t) = 64%nat.

Lemma fd_init_wf t : fd_init (Some t) = Some (mk_fd_table (replicate 64 NULL)).
Proof. done. Qed.

Lemma file_at_set t fd file x :
  fd_wf t -> 0 <= fd < 64 -> 0 <= x ->
  file_at (set_file fd file t) x = if decide (x = fd) then file else file_at t x.
Proof.
  intros Hwf Hfd Hx. unfold file_at, set_file; simpl. case_decide as Hd.
  - subst. rewrite list_lookup_insert_eq; [done | unfold fd_wf in Hwf; lia].
  - rewrite list_lookup_insert_ne by lia. done.
Qed.

Lemma set_wf t fd file : fd_wf t -> fd_wf (set_file fd file t).
Proof. unfold fd_wf, set_file. simpl. by rewrite length_insert. Qed.

Lemma fd_get_in t fd : 0 <= fd < 64 -> fd_get (Some t) fd = file_at t fd.
Proof.
  intros Hfd. unfold fd_get, FD_MAX. rewrite Z.geb_leb.
  destruct (Z.ltb_spec fd 0), (Z.leb_spec 64 fd); try lia. done.
Qed.

Lemma fd_get_out t fd : fd < 0 \/ 64 <= fd -> fd_get (Some t) fd = NULL.
Proof.
  intros Hfd. unfold fd_get, FD_MAX. rewrite Z.geb_leb.
  by destruct (Z.ltb_spec fd 0), (Z.leb_spec 64 fd); try lia.
Qed.

(** What each call does to the map from descriptors to files. *)
Lemma allocate_spec t file t' r :
  fd_wf t -> file <> NULL -> fd_allocate (Some t) file = (t', r) ->
  (r = KERNEL_ENOMEM /\ t' = Some t /\ forall fd, 0 <= fd < 64 -> fd_get (Some t) fd <> NULL) \/
  (exists u, t' = Some u /\ fd_wf u /\ 0 <= r < 64 /\ fd_get (Some t) r = NULL /\
     (forall fd, 0 <= fd < r -> fd_get (Some t) fd <> NULL) /\
     forall fd, fd_get (Some u) fd = if decide (fd = r) then file else fd_get (Some t) fd).
Proof.
  intros Hwf Hf. unfold fd_allocate. destruct (Z.eqb_spec file NULL); [done |].
  destruct (find_to 0 FD_MAX (fun fd => file_at t fd =? NULL)) as [fd|] eqn:E; intros [= <- <-].
  - apply find_to_Some in E as (Hr & Hz & Hlow). unfold FD_MAX in Hr. bool_to_prop.
    right. exists (set_file fd file t). split_and!; try lia; try done.
    + by apply set_wf.
    + by rewrite fd_get_in by lia.
    + intros k Hk. rewrite fd_get_in by lia. pose proof (Hlow k Hk). by bool_to_prop.
    + intros x. destruct (decide (0 <= x < 64)).
      * rewrite !fd_get_in, file_at_set by (done || lia). done.
      * rewrite !fd_get_out by lia. by rewrite decide_False by lia.
  - rewrite find_to_None in E. left. split_and!; try done.
    intros k Hk. rewrite fd_get_in by lia. pose proof (E k Hk). by bool_to_prop.
Qed.

Lemma close_spec t fd t' r :
  fd_wf t -> fd_close (Some t) fd = (t', r) ->
  (r = KERNEL_EINVAL /\ t' = Some t /\ fd_get (Some t) fd = NULL) \/
  (r = KERNEL_SUCCESS /\ fd_get (Some t) fd <> NULL /\ exists u, t' = Some u /\ fd_wf u /\
     forall x, fd_get (Some u) x = if decide (x = fd) then NULL else fd_get (Some t) x).
Proof.
  intros Hwf. unfold fd_close. destruct ((fd <? 0) || (fd >=? FD_MAX)) eqn:E.
  { intros [= <- <-]. left. split_and!; try done. unfold fd_get. by rewrite E. }
  bool_to_prop. unfold FD_MAX in *. destruct (Z.eqb_spec (file_at t fd) NULL); intros [= <- <-].
  - left. split_and!; try done. by rewrite fd_get_in by lia.
  - right. split; [done |]. rewrite fd_get_in by lia. split; [done |].
    exists (set_file fd NULL t). split_and!; [done | by apply set_wf |]. intros x.
    destruct (decide (0 <= x < 64)).
    + rewrite !fd_get_in, file_at_set by (done || lia). done.
    + rewrite !fd_get_out by lia. by rewrite decide_False by lia.
Qed.

(** ** Property *)

(** C24: a descriptor table is a map from the 64 descriptors to files: [fd_allocate]
    binds the lowest free descriptor, or fails when none is free; [fd_close]
    unbinds exactly the descriptor it is given, or fails when it is not bound;
    [fd_get] reads the map. *)
Theorem fd_table_refines_map t (Hwf : fd_wf t) :
  (forall file, file <> NULL -> let '(t', r) := fd_allocate (Some t) file in
     (r = KERNEL_ENOMEM /\ t' = Some t /\ forall fd, 0 <= fd < FD_MAX -> fd_get (Some t) fd <> NULL) \/
     (0 <= r < FD_MAX /\ fd_get (Some t) r = NULL /\
      (forall fd, 0 <= fd < r -> fd_get (Some t) fd <> NULL) /\
      exists u, t' = Some u /\ fd_wf u /\
      forall fd, fd_get t' fd = if decide (fd = r) then file else fd_get (Some t) fd)) /\
  (forall fd, let '(t', r) := fd_close (Some t) fd in
     (r = KERNEL_EINVAL /\ t' = Some t /\ fd_get (Some t) fd = NULL) \/
     (r = KERNEL_SUCCESS /\ fd_get (Some t) fd <> NULL /\ exists u, t' = Some u /\ fd_wf u /\
      forall x, fd_get t' x = if decide (x = fd) then NULL else fd_get (Some t) x)).
Proof.
  split.
  - intros file Hf. destruct (fd_allocate (Some t) file) as [t' r] eqn:E.
    destruct (allocate_spec t file t' r Hwf Hf E) as [? | (u & -> & ? & ? & ? & ? & ?)]; [by left | right].
    split_and!; try done; try (unfold FD_MAX; lia). by exists u.
  - intros fd. destruct (fd_close (Some t) fd) as [t' r] eqn:E.
    destruct (close_spec t fd t' r Hwf E) as [? | (? & ? & u & -> & ? & ?)]; [by left | right].
    split_and!; try done. by exists u.
Qed.

Lemma fd_table_refines_map_witness :
  let t := mk_fd_table (replicate 64 NULL) in
  fd_wf t /\ (fd_allocate (Some t) 0x5000).2 = 0 /\
  ((fd_close (Some t) 3).2 = KERNEL_EINVAL \/ (fd_close (Some t) 3).2 = KERNEL_SUCCESS).
Proof.
  intros t. split; [reflexivity |]. split; [reflexivity |].
  pose proof (proj2 (fd_table_refines_map t eq_refl) 3) as H.
  destruct (fd_close (Some t) 3) as [t' r]. destruct H as [(H & _) | (H & _)]; [left | right]; exact H.
Defined.

End Fd.
