(* ===== verification/Elf.v ===== *)
(** * ELF images: [elf/elf.c], [elf/elf_loader.c], [elf/elf_types.h]

    An image is bytes in the kernel's memory; header fields are read from it at
    the offsets of the packed ELF structures.  The buffer the image is loaded
    into comes from the heap interface [KAlloc]. *)
From S2P Require Import Prelude Memory KAlloc.
Import Bump.
Import Mem.
#[local] Open Scope Z_scope.

Module Elf.

Definition ELFCLASS64 : Z := 2.
Definition ELFDATA2LSB : Z := 1.
Definition ET_EXEC : Z := 2.
Definition EM_X86_64 : Z := 62.
Definition EV_CURRENT : Z := 1.
Definition PT_LOAD : Z := 1.
Definition PF_W : Z := 2.

(** ** [elf64_header_t] and [elf64_program_header_t] *)
Definition e_ident (m : mem) (h i : Z) : Z := load8 m (h + i).
Definition e_type (m : mem) (h : Z) : Z := load16 m (h + 16).
Definition e_machine (m : mem) (h : Z) : Z := load16 m (h + 18).
Definition e_version (m : mem) (h : Z) : Z := load32 m (h + 20).
Definition e_entry (m : mem) (h : Z) : Z := load64 m (h + 24).
Definition e_phoff (m : mem) (h : Z) : Z := load64 m (h + 32).
Definition e_phentsize (m : mem) (h : Z) : Z := load16 m (h + 54).
Definition e_phnum (m : mem) (h : Z) : Z := load16 m (h + 56).

Definition p_type (m : mem) (ph : Z) : Z := load32 m ph.
Definition p_flags (m : mem) (ph : Z) : Z := load32 m (ph + 4).
Definition p_offset (m : mem) (ph : Z) : Z := load64 m (ph + 8).
Definition p_vaddr (m : mem) (ph : Z) : Z := load64 m (ph + 16).
Definition p_filesz (m : mem) (ph : Z) : Z := load64 m (ph + 32).
Definition p_memsz (m : mem) (ph : Z) : Z := load64 m (ph + 40).

Definition elf_validate (m : mem) (header : Z) : Z :=
  if header =? NULL then KERNEL_EINVAL
  else if negb (e_ident m header 0 =? 0x7F) || negb (e_ident m header 1 =? 69) ||
          negb (e_ident m header 2 =? 76) || negb (e_ident m header 3 =? 70)
  then KERNEL_EINVAL
  else if negb (e_ident m header 4 =? ELFCLASS64) then KERNEL_EINVAL
  else if negb (e_ident m header 5 =? ELFDATA2LSB) then KERNEL_EINVAL
  else if negb (e_version m header =? EV_CURRENT) then KERNEL_EINVAL
  else if negb (e_type m header =? ET_EXEC) then KERNEL_EINVAL
  else if negb (e_machine m header =? EM_X86_64) then KERNEL_EINVAL
  else KERNEL_SUCCESS.

(** [index * e_phentsize] is an [int] product. *)
Definition elf_program_header (m : mem) (header index : Z) : Z :=
  if header =? NULL then NULL
  else if index >=? e_phnum m header then NULL
  else u64 (header + e_phoff m header + i32 (index * e_phentsize m header)).

(** [elf_image_t] *)
Record elf_image_t := mk_image { base : Z; size : Z; entry : Z; image_base : Z }.

(** The first loop of [elf_load_image]: the lowest and highest address used. *)
Definition scan_segment (m : mem) (header i : Z) (acc : Z * Z) : Z * Z :=
  let '(lowest, highest) := acc in
  let ph := elf_program_header m header i in
  if ph =? NULL then acc
  else if negb (p_type m ph =? PT_LOAD) then acc
  else
    let lowest := if p_vaddr m ph <? lowest then p_vaddr m ph else lowest in
    let end_ := u64 (p_vaddr m ph + p_memsz m ph) in
    (lowest, if end_ >? highest then end_ else highest).

(** The second loop: copy one segment and clear its tail. *)
Definition load_segment (header lowest dest_base i : Z) (m : mem) : mem :=
  let ph := elf_program_header m header i in
  if ph =? NULL then m
  else if negb (p_type m ph =? PT_LOAD) then m
  else
    let offset := u64 (p_vaddr m ph - lowest) in
    let dest := u64 (dest_base + offset) in
    let src := u64 (header + p_offset m ph) in
    let m1 := k_memcpy dest src (p_filesz m ph) m in
    if p_memsz m1 ph >? p_filesz m1 ph
    then k_memset (u64 (dest + p_filesz m1 ph)) 0 (p_memsz m1 ph - p_filesz m1 ph) m1
    else m1.

(** The loop itself; its bound is a 16-bit field that is read again before each
    iteration, so that [2 ^ 16] of them suffice. *)
Fixpoint load_segments (fuel : nat) (header lowest dest_base i : Z) (m : mem) : mem :=
  match fuel with
  | O => m
  | S fuel' =>
    if i <? e_phnum m header
    then load_segments fuel' header lowest dest_base (i + 1) (load_segment header lowest dest_base i m)
    else m
  end.

Section load.
Context {K : Type} `{KAlloc K}.

(** State: memory and allocator; [loaded] is the caller's structure, [None]
    for a NULL pointer.  The result is the status. *)
Definition elf_load_image (image : Z) (loaded : option elf_image_t) (m : mem) (k : K)
    : mem * K * option elf_image_t * Z :=
  match loaded with
  | None => (m, k, None, KERNEL_EINVAL)
  | Some l =>
    if image =? NULL then (m, k, loaded, KERNEL_EINVAL)
    else if negb (elf_validate m image =? KERNEL_SUCCESS) then (m, k, loaded, KERNEL_EINVAL)
    else
      let l1 := mk_image NULL 0 (e_entry m image) 0 in
      let '(lowest, highest) :=
        for_to 0 (e_phnum m image) (scan_segment m image) (UINT64_MAX, 0) in
      let load l k := (load_segments (Z.to_nat (2 ^ 16)) image lowest (base l) 0 m, k, Some l,
                       KERNEL_SUCCESS) in
      if negb (lowest =? UINT64_MAX) then
        let sz := u64 (highest - lowest) in
        let '(k1, p) := ka_malloc sz k in
        let l2 := mk_image p sz (entry l1) lowest in
        if p =? NULL then (m, k1, Some l2, KERNEL_ENOMEM) else load l2 k1
      else load l1 k
  end.
End load.

(** ** Well-formed images *)

(** Segment [i] is a loadable one. *)
Definition loadable (m : mem) (image i : Z) : Prop :=
  0 <= i < e_phnum m image /\ elf_program_header m image i <> NULL /\
  p_type m (elf_program_header m image i) = PT_LOAD.

Definition vaddr (m : mem) (image i : Z) : Z := p_vaddr m (elf_program_header m image i).
Definition filesz (m : mem) (image i : Z) : Z := p_filesz m (elf_program_header m image i).
Definition memsz (m : mem) (image i : Z) : Z := p_memsz m (elf_program_header m image i).
Definition offset (m : mem) (image i : Z) : Z := p_offset m (elf_program_header m image i).

(** The image and all its parts lie in [image, image + len); loadable segments
    do not wrap, do not overlap and span at most 4 GiB. *)
Record image_ok (m : mem) (image len : Z) : Prop := {
  io_range : 0 < image /\ 64 <= len /\ image + len < 2 ^ 64;
  io_header i : 0 <= i < e_phnum m image -> elf_program_header m image i <> NULL ->
    image <= elf_program_header m image i /\ elf_program_header m image i + 56 <= image + len;
  io_segment i : loadable m image i ->
    filesz m image i <= memsz m image i /\ vaddr m image i + memsz m image i < 2 ^ 64 /\
    offset m image i + filesz m image i <= len;
  io_span i j : loadable m image i -> loadable m image j ->
    vaddr m image i + memsz m image i - vaddr m image j <= 2 ^ 32;
  io_disjoint i j : loadable m image i -> loadable m image j -> i <> j ->
    vaddr m image i + memsz m image i <= vaddr m image j \/
    vaddr m image j + memsz m image j <= vaddr m image i;
  io_some : exists i, loadable m image i /\ 0 < memsz m image i;
}.

Lemma load_le_nonneg n m a : 0 <= load_le n m a.
Proof. apply load_le_range. Qed.

Lemma seg_nonneg m image i :
  0 <= vaddr m image i /\ 0 <= filesz m image i /\ 0 <= memsz m image i /\ 0 <= offset m image i.
Proof. split_and!; apply load_le_nonneg. Qed.

(** ** The first loop *)
Lemma scan_spec m image len n :
  image_ok m image len -> 0 <= n <= e_phnum m image ->
  let '(lo, hi) := for_to 0 n (scan_segment m image) (UINT64_MAX, 0) in
  (forall i, loadable m image i -> i < n -> lo <= vaddr m image i /\ vaddr m image i + memsz m image i <= hi) /\
  (lo = UINT64_MAX \/ exists i, loadable m image i /\ lo = vaddr m image i) /\
  (hi = 0 \/ exists i, loadable m image i /\ hi = vaddr m image i + memsz m image i) /\ lo <= UINT64_MAX.
Proof.
  intros Hok Hn.
  apply (for_to_inv (fun j (acc : Z * Z) => let '(lo, hi) := acc in
    (forall i, loadable m image i -> i < j -> lo <= vaddr m image i /\ vaddr m image i + memsz m image i <= hi) /\
    (lo = UINT64_MAX \/ exists i, loadable m image i /\ lo = vaddr m image i) /\
    (hi = 0 \/ exists i, loadable m image i /\ hi = vaddr m image i + memsz m image i) /\ lo <= UINT64_MAX));
    [lia | |].
  { split_and!; [intros i [? _] ?; lia | by left | by left | lia]. }
  intros j [lo hi] Hj (Hall & Hlo & Hhi & Hmax). unfold scan_segment.
  assert (Hskip : ~ loadable m image j -> forall i, loadable m image i -> i < j + 1 ->
    lo <= vaddr m image i /\ vaddr m image i + memsz m image i <= hi).
  { intros Hnl i Hi Hlt. destruct (decide (i = j)) as [->|]; [done |]. apply Hall; [done | lia]. }
  destruct (Z.eqb_spec (elf_program_header m image j) NULL) as [Hn0|Hn0].
  { split; [apply Hskip; by intros (_ & ? & _) | done]. }
  destruct (Z.eqb_spec (p_type m (elf_program_header m image j)) PT_LOAD) as [Ht|Ht]; cbn [negb].
  2: { split; [apply Hskip; by intros (_ & _ & ?) | done]. }
  assert (Hl : loadable m image j) by (split_and!; done || lia).
  destruct (io_segment _ _ _ Hok j Hl) as (_ & Hw & _).
  pose proof (seg_nonneg m image j) as (? & ? & ? & ?).
  unfold vaddr, memsz in *. rewrite u64_id by lia. rewrite Z.gtb_ltb.
  destruct (Z.ltb_spec (p_vaddr m (elf_program_header m image j)) lo);
    destruct (Z.ltb_spec hi (p_vaddr m (elf_program_header m image j) + p_memsz m (elf_program_header m image j)));
    (split; [intros i Hi Hlt; destruct (decide (i = j)) as [->|];
             [lia | destruct (Hall i Hi ltac:(lia)); lia] |]);
    (split; [eauto |]; split; [eauto | unfold UINT64_MAX in *; lia]).
Qed.

(** ** The second loop *)
Definition same_outside (lo hi : Z) (m m' : mem) : Prop :=
  forall x, 0 <= x < 2 ^ 64 -> x < lo \/ hi <= x -> load8 m' x = load8 m x.

Lemma load_le_same n m m' lo hi a :
  same_outside lo hi m m' -> 0 <= a -> a + Z.of_nat n <= 2 ^ 64 -> a + Z.of_nat n <= lo \/ hi <= a ->
  load_le n m' a = load_le n m a.
Proof. intros Hs Ha Hn Hd. apply load_le_ext. intros x Hx. apply Hs; lia. Qed.

(** Bytes of segment [i] in memory [m'], loaded at [base]: the file's, then zeros. *)
Definition segment_loaded (m m' : mem) (image lo base i : Z) : Prop :=
  (forall k, 0 <= k < filesz m image i ->
     load8 m' (base + (vaddr m image i - lo) + k) = load8 m (image + offset m image i + k)) /\
  (forall k, filesz m image i <= k < memsz m image i ->
     load8 m' (base + (vaddr m image i - lo) + k) = 0).

Section placing.
Variables (m : mem) (image len lo sz base : Z).
Hypothesis Hok : image_ok m image len.
Hypothesis Hbase : 0 < base /\ base + sz < 2 ^ 64.
Hypothesis Hapart : base + sz <= image \/ image + len <= base.
Hypothesis Hin : forall i, loadable m image i ->
  lo <= vaddr m image i /\ vaddr m image i + memsz m image i <= lo + sz.

(** The headers read the same while only the destination changes. *)
Lemma headers_same m' :
  same_outside base (base + sz) m m' ->
  e_phnum m' image = e_phnum m image /\
  forall i, elf_program_header m' image i = elf_program_header m image i.
Proof.
  intros Hs. destruct (io_range _ _ _ Hok) as (? & ? & ?).
  assert (H16 : forall o, 0 <= o -> o + 2 <= 64 -> load16 m' (image + o) = load16 m (image + o)).
  { intros o ? ?. apply (load_le_same 2 m m' base (base + sz)); [done | | |]; simpl; lia. }
  assert (H64 : forall o, 0 <= o -> o + 8 <= 64 -> load64 m' (image + o) = load64 m (image + o)).
  { intros o ? ?. apply (load_le_same 8 m m' base (base + sz)); [done | | |]; simpl; lia. }
  unfold elf_program_header, e_phnum, e_phoff, e_phentsize.
  rewrite !H16, H64 by lia. done.
Qed.

Lemma segment_fields m' i :
  same_outside base (base + sz) m m' -> loadable m image i ->
  let ph := elf_program_header m image i in
  p_type m' ph = PT_LOAD /\ p_offset m' ph = offset m image i /\ p_vaddr m' ph = vaddr m image i /\
  p_filesz m' ph = filesz m image i /\ p_memsz m' ph = memsz m image i.
Proof.
  intros Hs Hl ph. destruct (io_range _ _ _ Hok) as (? & ? & ?).
  pose proof Hl as (Hr & Hne & Hty).
  destruct (io_header _ _ _ Hok i Hr Hne) as [? ?]. fold ph in H2, H3.
  assert (H64 : forall o, 0 <= o -> o + 8 <= 56 -> load64 m' (ph + o) = load64 m (ph + o)).
  { intros o ? ?. apply (load_le_same 8 m m' base (base + sz)); [done | | |]; simpl; lia. }
  unfold p_offset, p_vaddr, p_filesz, p_memsz, offset, vaddr, filesz, memsz. rewrite !H64 by lia.
  split_and!; try done. rewrite <- Hty.
  apply (load_le_same 4 m m' base (base + sz)); [done | | |]; simpl; fold ph; lia.
Qed.

Lemma copy_and_clear m' dest src n b :
  0 <= dest -> 0 <= src -> 0 <= n <= b -> dest + b <= 2 ^ 64 -> src + n <= 2 ^ 64 ->
  dest + b <= src \/ src + n <= dest ->
  let m1 := k_memcpy dest src n m' in
  let m2 := if b >? n then k_memset (u64 (dest + n)) 0 (b - n) m1 else m1 in
  same_outside dest (dest + b) m' m2 /\
  (forall k, 0 <= k < n -> load8 m2 (dest + k) = load8 m' (src + k)) /\
  (forall k, n <= k < b -> load8 m2 (dest + k) = 0).
Proof.
  intros Hd Hs Hn Hdb Hsn Hdis m1 m2.
  assert (H1 : forall x, 0 <= x < 2 ^ 64 -> load8 m1 x =
    if decide (dest <= x < dest + n) then load8 m' (src + (x - dest)) else load8 m' x)
    by (intros x Hx; apply memcpy_load; lia).
  assert (H2 : forall x, 0 <= x < 2 ^ 64 -> load8 m2 x =
    if decide (dest + n <= x < dest + b) then 0 else load8 m1 x).
  { intros x Hx. unfold m2. rewrite Z.gtb_ltb. destruct (Z.ltb_spec n b).
    - rewrite (u64_id (dest + n)) by lia. rewrite memset_load by lia.
      destruct (decide (dest + n <= x < dest + n + (b - n))), (decide (dest + n <= x < dest + b)); done || lia.
    - by rewrite decide_False by lia. }
  split_and!.
  - intros x Hx Ho. by rewrite H2, decide_False, H1, decide_False by lia.
  - intros k Hk. rewrite H2, decide_False, H1, decide_True by lia. f_equal. lia.
  - intros k Hk. by rewrite H2, decide_True by lia.
Qed.

(** One segment: its bytes, and nothing outside its place. *)
Lemma load_segment_spec m' i :
  same_outside base (base + sz) m m' -> loadable m image i ->
  let m2 := load_segment image lo base i m' in
  same_outside (base + (vaddr m image i - lo)) (base + (vaddr m image i - lo) + memsz m image i) m' m2 /\
  segment_loaded m m2 image lo base i.
Proof.
  intros Hs Hl. destruct (headers_same m' Hs) as [_ Hph].
  destruct (segment_fields m' i Hs Hl) as (Ht & Ho & Hv & Hf & Hm).
  destruct (io_range _ _ _ Hok) as (? & ? & ?). destruct (io_segment _ _ _ Hok i Hl) as (Hfm & Hw & Hfo).
  destruct (Hin i Hl) as [Hlow Hhi]. pose proof (seg_nonneg m image i) as (? & ? & ? & ?).
  set (dest := base + (vaddr m image i - lo)). set (src := image + offset m image i).
  destruct (copy_and_clear m' dest src (filesz m image i) (memsz m image i)) as (Hout & Hfile & Hzero);
    [subst dest src; lia .. |].
  assert (Hs1 : same_outside base (base + sz) m (k_memcpy dest src (filesz m image i) m')).
  { intros x Hx Hd. rewrite memcpy_load by (subst dest src; lia).
    rewrite decide_False by (subst dest; lia). by apply Hs. }
  destruct (segment_fields _ i Hs1 Hl) as (_ & _ & _ & Hf1 & Hm1).
  assert (E : load_segment image lo base i m' =
    if memsz m image i >? filesz m image i
    then k_memset (u64 (dest + filesz m image i)) 0 (memsz m image i - filesz m image i)
           (k_memcpy dest src (filesz m image i) m')
    else k_memcpy dest src (filesz m image i) m').
  { unfold load_segment. rewrite Hph. destruct Hl as (Hr & Hne & Hty).
    destruct (Z.eqb_spec (elf_program_header m image i) NULL); [done |].
    rewrite Ht, Hv, Ho, Hf. cbn [negb Z.eqb PT_LOAD Pos.eqb].
    rewrite (u64_id (vaddr m image i - lo)), (u64_id (base + _)), (u64_id (image + _)) by lia.
    fold dest src. by rewrite Hf1, Hm1. }
  cbv zeta. rewrite E. split; [exact Hout |]. split.
  - intros k Hk. fold dest src. rewrite Hfile by done. apply Hs; subst src; lia.
  - intros k Hk. fold dest. by apply Hzero.
Qed.

Lemma load_segment_skip m' i :
  same_outside base (base + sz) m m' -> 0 <= i < e_phnum m image -> ~ loadable m image i ->
  load_segment image lo base i m' = m'.
Proof.
  intros Hs Hi Hnl. destruct (headers_same m' Hs) as [_ Hph]. unfold load_segment. rewrite Hph.
  destruct (Z.eqb_spec (elf_program_header m image i) NULL) as [|Hne]; [done |].
  destruct (io_range _ _ _ Hok) as (? & ? & ?). destruct (io_header _ _ _ Hok i Hi Hne).
  destruct (Z.eqb_spec (p_type m' (elf_program_header m image i)) PT_LOAD) as [Ht|]; [| done].
  destruct Hnl. split_and!; try done; try lia. rewrite <- Ht. symmetry.
  apply (load_le_same 4 m m' base (base + sz)); [done | | |]; simpl; lia.
Qed.

(** Segments [0 .. j-1] are in place, the rest of memory is untouched. *)
Definition placed (j : Z) (m' : mem) : Prop :=
  same_outside base (base + sz) m m' /\
  forall i, loadable m image i -> i < j -> segment_loaded m m' image lo base i.

Lemma load_step j m' :
  0 <= j < e_phnum m image -> placed j m' -> placed (j + 1) (load_segment image lo base j m').
Proof.
  intros Hj [Hs Hall].
  assert (Hd : loadable m image j \/ ~ loadable m image j).
  { unfold loadable. destruct (decide (elf_program_header m image j = NULL)); [right; by intros (_ & ? & _) |].
    destruct (decide (p_type m (elf_program_header m image j) = PT_LOAD)); [left | right; by intros (_ & _ & ?)].
    split_and!; done || lia. }
  destruct Hd as [Hl|Hnl].
  2: { rewrite load_segment_skip by (done || lia). split; [done |]. intros i Hi Hlt.
       apply Hall; [done |]. destruct (decide (i = j)) as [->|]; [done | lia]. }
  destruct (load_segment_spec m' j Hs Hl) as [Hout Hseg].
  destruct (Hin j Hl) as [Hlow Hhi]. split.
  { intros x Hx Hxo. rewrite Hout by (done || lia). by apply Hs. }
  intros i Hi Hlt. destruct (decide (i = j)) as [->|Hij]; [done |].
  destruct (Hall i Hi ltac:(lia)) as [Hf Hz]. destruct (Hin i Hi) as [Hlowi Hhii].
  destruct (io_segment _ _ _ Hok i Hi) as (Hfm & _). pose proof (seg_nonneg m image i).
  assert (Hsame : forall k, 0 <= k < memsz m image i ->
    load8 (load_segment image lo base j m') (base + (vaddr m image i - lo) + k) =
    load8 m' (base + (vaddr m image i - lo) + k)).
  { intros k Hk. destruct (io_disjoint _ _ _ Hok i j Hi Hl Hij); apply Hout; lia. }
  split; intros k Hk; rewrite Hsame by lia; [by apply Hf | by apply Hz].
Qed.

(** The whole loop: every loadable segment is in place. *)
Lemma load_all_spec fuel : forall j m',
  0 <= j <= e_phnum m image -> e_phnum m image - j < Z.of_nat fuel -> placed j m' ->
  placed (e_phnum m image) (load_segments fuel image lo base j m').
Proof.
  induction fuel as [|fuel IH]; intros j m' Hj Hf Hp; [lia |]. cbn [load_segments].
  destruct (headers_same m' (proj1 Hp)) as [-> _]. destruct (Z.ltb_spec j (e_phnum m image)).
  - apply IH; [lia | lia |]. apply load_step; [lia | done].
  - by replace (e_phnum m image) with j by lia.
Qed.
End placing.

(** The extent the first loop finds for a well-formed image. *)
Lemma scan_all m image len :
  image_ok m image len ->
  exists lo hi, for_to 0 (e_phnum m image) (scan_segment m image) (UINT64_MAX, 0) = (lo, hi) /\
    lo <> UINT64_MAX /\ 0 <= lo /\ 0 < hi - lo <= 2 ^ 32 /\
    forall i, loadable m image i -> lo <= vaddr m image i /\ vaddr m image i + memsz m image i <= hi.
Proof.
  intros Hok. destruct (io_some _ _ _ Hok) as (s & Hs & Hpos). pose proof Hs as (Hr & _).
  pose proof (scan_spec m image len (e_phnum m image) Hok ltac:(lia)) as H.
  destruct (for_to 0 (e_phnum m image) (scan_segment m image) (UINT64_MAX, 0)) as [lo hi].
  destruct H as (Hall & Hlo & Hhi & _). exists lo, hi.
  destruct (Hall s Hs ltac:(lia)) as [H1 H2].
  destruct (io_segment _ _ _ Hok s Hs) as (_ & Hw & _). pose proof (seg_nonneg m image s) as (? & _).
  unfold UINT64_MAX in *. destruct Hlo as [->|(i & Hi & ->)]; [lia |].
  destruct Hhi as [->|(j & Hj & ->)]; [lia |]. pose proof (io_span _ _ _ Hok j i Hj Hi).
  pose proof (seg_nonneg m image i) as (? & _).
  split_and!; try done; try lia. intros t Ht. apply Hall; [done |]. apply Ht.
Qed.

(** ** Loading *)
Lemma load_image_spec {K} `{KAllocLaws K} image len l m k L q n :
  image_ok m image len -> elf_validate m image = KERNEL_SUCCESS ->
  ka_live k L -> L !! q = Some n -> q <= image /\ image + len <= q + n ->
  let '(m', k', r, st) := elf_load_image image (Some l) m k in
  ka_region k' = ka_region k /\
  ((st = KERNEL_ENOMEM /\ m' = m /\ ka_live k' L) \/
   (st = KERNEL_SUCCESS /\ exists l' alloc, r = Some l' /\ entry l' = e_entry m image /\
     ka_live k' (<[base l' := alloc]> L) /\ L !! base l' = None /\ 0 < size l' <= alloc /\
     (forall i, loadable m image i ->
        image_base l' <= vaddr m image i /\
        vaddr m image i + memsz m image i <= image_base l' + size l' /\
        segment_loaded m m' image (image_base l') (base l') i) /\
     same_outside (base l') (base l' + size l') m m')).
Proof.
  intros Hok Hvalid Hlive Hq Hin.
  destruct (scan_all m image len Hok) as (lo & hi & Hscan & Hne & Hlo & Hsz & Hall).
  destruct (io_range _ _ _ Hok) as (? & ? & ?).
  unfold elf_load_image. destruct (Z.eqb_spec image NULL); [unfold NULL in *; lia |].
  rewrite Hvalid, Hscan. cbn [negb Z.eqb KERNEL_SUCCESS].
  destruct (Z.eqb_spec lo UINT64_MAX); [done |]. cbn [negb].
  rewrite (u64_id (hi - lo)) by lia.
  pose proof (ka_region_malloc k (hi - lo)) as Hreg.
  destruct (ka_malloc (hi - lo) k) as [k1 p] eqn:Ek. cbn [fst] in Hreg.
  destruct (ka_malloc_spec _ _ _ _ _ Hlive Hsz Ek) as [(-> & Hl1) | (al & Hal & Hnew & Hp & Hl1)].
  { by split; [| left]. }
  destruct (Z.eqb_spec p NULL); [done |]. split; [exact Hreg |]. right. split; [done |].
  assert (Hpq : p <> q) by congruence.
  destruct (ka_range k1 _ p al Hl1) as (? & ? & ? & _); [apply lookup_insert_eq |].
  pose proof (ka_disjoint k1 _ p al q n Hl1 (lookup_insert_eq _ _ _)
    ltac:(by rewrite lookup_insert_ne) Hpq) as Hd.
  destruct (load_all_spec m image len lo (hi - lo) p Hok ltac:(lia) ltac:(lia)
    ltac:(intros i Hi; specialize (Hall i Hi); lia) (Z.to_nat (2 ^ 16)) 0 m) as [Hsame Hseg];
    [unfold e_phnum, load16; pose proof (load_le_range 2 m (image + 56)); lia ..| |].
  { split; [by intros x |]. intros i [? _] ?. lia. }
  exists (mk_image p (hi - lo) (e_entry m image) lo), al. cbn [base size entry image_base].
  split_and!; try done; try lia. intros i Hi. specialize (Hall i Hi).
  split_and!; [lia | lia |]. apply Hseg; [done | apply Hi].
Qed.

(** ** Property *)

(** C25: loading a well-formed image that lies in a live heap object either
    finds no memory and changes nothing, or yields a new heap object that holds
    every loadable segment at its place relative to the lowest address, its file
    bytes first and zeros up to its memory size; nothing else in memory changes. *)
Theorem elf_load_image_correct {K} `{KAllocLaws K} image len l m k L q n
    (Hok : image_ok m image len) (Hvalid : elf_validate m image = KERNEL_SUCCESS)
    (Hlive : ka_live k L) (Hq : L !! q = Some n) (Hin : q <= image /\ image + len <= q + n) :
  let '(m', k', r, st) := elf_load_image image (Some l) m k in
  (st = KERNEL_ENOMEM /\ m' = m /\ ka_live k' L) \/
  (st = KERNEL_SUCCESS /\ exists l' alloc, r = Some l' /\ entry l' = e_entry m image /\
     ka_live k' (<[base l' := alloc]> L) /\ L !! base l' = None /\ 0 < size l' <= alloc /\
     (forall i, loadable m image i ->
        image_base l' <= vaddr m image i /\
        vaddr m image i + memsz m image i <= image_base l' + size l' /\
        segment_loaded m m' image (image_base l') (base l') i) /\
     same_outside (base l') (base l' + size l') m m').
Proof.
  pose proof (load_image_spec image len l m k L q n Hok Hvalid Hlive Hq Hin) as Hl.
  by destruct (elf_load_image image (Some l) m k) as [[[m' k'] r] st], Hl as [_ Hl].
Qed.

(** ** A concrete image: one segment of four file bytes and four zeroed bytes *)
Definition bytes_at (a : Z) (l : list Z) (m : mem) : mem :=
  (foldl (fun '(a, m) b => (a + 1, store8 a b m)) (a, m) l).2.
Definition le (n : nat) (v : Z) : list Z := map (fun i => (v / 256 ^ Z.of_nat i) mod 256) (seq 0 n).

Definition demo_image : list Z :=
  [0x7F; 69; 76; 70; 2; 1; 1; 0] ++ replicate 8 0 ++ le 2 2 ++ le 2 62 ++ le 4 1 ++
  le 8 0x400000 ++ le 8 64 ++ le 8 0 ++ le 4 0 ++ le 2 64 ++ le 2 56 ++ le 2 1 ++ replicate 6 0 ++
  le 4 1 ++ le 4 5 ++ le 8 120 ++ le 8 0x400000 ++ le 8 0x400000 ++ le 8 4 ++ le 8 8 ++ le 8 16 ++
  [0xDE; 0xAD; 0xBE; 0xEF].

Definition demo_mem : mem := bytes_at 0x10000 demo_image ∅.
Definition demo_alloc : Bump.bump := (ka_malloc 16 (fst (ka_malloc 124 (Bump.bump_init 0x10000 0x20000)))).1.

Lemma demo_loadable i : loadable demo_mem 0x10000 i -> i = 0.
Proof. intros [Hi _]. replace (e_phnum demo_mem 0x10000) with 1 in Hi by (by vm_compute). lia. Qed.

Lemma demo_image_ok : image_ok demo_mem 0x10000 124.
Proof.
  assert (Hph : elf_program_header demo_mem 0x10000 0 = 0x10040) by by vm_compute.
  assert (Hf : filesz demo_mem 0x10000 0 = 4) by by vm_compute.
  assert (Hm : memsz demo_mem 0x10000 0 = 8) by by vm_compute.
  assert (Hv : vaddr demo_mem 0x10000 0 = 0x400000) by by vm_compute.
  assert (Ho : offset demo_mem 0x10000 0 = 120) by by vm_compute.
  assert (Hn : e_phnum demo_mem 0x10000 = 1) by by vm_compute.
  assert (Ht : p_type demo_mem 0x10040 = PT_LOAD) by by vm_compute.
  split.
  - lia.
  - intros i Hi _. assert (i = 0) as -> by lia. rewrite Hph. lia.
  - intros i ->%demo_loadable. rewrite Hf, Hm, Hv, Ho. lia.
  - intros i j ->%demo_loadable ->%demo_loadable. rewrite Hm, Hv. lia.
  - intros i j ->%demo_loadable ->%demo_loadable Hne. exfalso. lia.
  - exists 0. rewrite Hm. split; [| lia]. unfold loadable. rewrite Hn, Hph, Ht. unfold NULL. lia.
Qed.

Lemma demo_alloc_live : ka_live demo_alloc {[0x10000 := 124; 0x10090 := 16]}.
Proof.
  split; [by vm_compute |]. split; [by vm_compute |]. split; [by vm_compute |]. split; [by vm_compute |].
  assert (Hn : b_next demo_alloc = 0x100B0) by by vm_compute.
  assert (Hlim : b_limit demo_alloc = 0x20000) by by vm_compute. rewrite Hn, Hlim. split.
  - intros p n [[<- <-]|[_ [<- <-]%lookup_singleton_Some]]%lookup_insert_Some; split_and!; try lia; reflexivity.
  - intros p n q m [[<- <-]|[_ [<- <-]%lookup_singleton_Some]]%lookup_insert_Some
      [[<- <-]|[_ [<- <-]%lookup_singleton_Some]]%lookup_insert_Some Hne; lia.
Qed.

Lemma elf_load_image_correct_witness :
  let '(m', _, r, st) := elf_load_image 0x10000 (Some (mk_image 0 0 0 0)) demo_mem demo_alloc in
  st = KERNEL_SUCCESS /\
  exists l', r = Some l' /\ load8 m' (base l' + 3) = 0xEF /\ load8 m' (base l' + 5) = 0.
Proof.
  pose proof (elf_load_image_correct 0x10000 124 (mk_image 0 0 0 0) demo_mem demo_alloc _ 0x10000 124
    demo_image_ok eq_refl demo_alloc_live (lookup_insert_eq _ _ _) ltac:(lia)) as H.
  assert (Hst : (elf_load_image 0x10000 (Some (mk_image 0 0 0 0)) demo_mem demo_alloc).2 = KERNEL_SUCCESS)
    by (vm_compute; reflexivity).
  assert (Hv : vaddr demo_mem 0x10000 0 = 0x400000) by (vm_compute; reflexivity).
  assert (Hi : (elf_load_image 0x10000 (Some (mk_image 0 0 0 0)) demo_mem demo_alloc).1.2 =
    Some (mk_image 0x100B0 8 0x400000 0x400000)) by (vm_compute; reflexivity).
  destruct (elf_load_image 0x10000 (Some (mk_image 0 0 0 0)) demo_mem demo_alloc) as [[[m' k'] r] st].
  cbn [fst snd] in Hst, Hi. subst st r.
  destruct H as [[H _]|(_ & l' & al & [= <-] & _ & _ & _ & _ & Hseg & _)]; [discriminate H |].
  split; [reflexivity |]. eexists. split; [reflexivity |].
  assert (Hl : loadable demo_mem 0x10000 0)
    by (split; [vm_compute; split; congruence | split; [vm_compute; congruence | vm_compute; reflexivity]]).
  destruct (Hseg 0 Hl) as (_ & _ & Hfile & Hzero).
  rewrite Hv in Hfile, Hzero. cbn [base image_base] in *. split.
  - etransitivity; [exact (Hfile 3 ltac:(vm_compute; split; congruence)) | vm_compute; reflexivity].
  - exact (Hzero 5 ltac:(vm_compute; split; congruence)).
Defined.

End Elf.
