(* ===== verification/TaskQueue.v ===== *)
(** * Tasks and task queues: [scheduler/task.h], [scheduler/queue.c]

    Task structures live in a store from their addresses; a queue is a head
    pointer and the [next] fields.  An operation is a partial function: no
    result means that the code follows a pointer to no task, or that a loop of
    it does not end (on a store of [n] tasks a walk of more than [n] steps
    repeats a task). *)
From S2P Require Import Prelude.
#[local] Open Scope Z_scope.

Module Task.

(** ** [task.h], [context.h] *)
Inductive task_state_t :=
  | TASK_READY | TASK_RUNNING | TASK_BLOCKED | TASK_SLEEPING | TASK_TERMINATED | TASK_IDLE.
Inductive task_resume_mode_t := TASK_RESUME_CONTEXT | TASK_RESUME_INTERRUPT.

#[global] Instance task_state_eq_dec : EqDecision task_state_t.
Proof. solve_decision. Defined.
#[global] Instance task_resume_mode_eq_dec : EqDecision task_resume_mode_t.
Proof. solve_decision. Defined.

Record cpu_context_t := mk_context {
  c_rsp : Z; c_rbx : Z; c_rbp : Z; c_r12 : Z; c_r13 : Z; c_r14 : Z; c_r15 : Z;
}.

(** [sizeof(task_t)]; the offset of [context] is asserted in [task.c]. *)
Definition sizeof_task : Z := 136.
Definition offsetof_context : Z := 8.

Record task_t := mk_task {
  t_id : Z;
  t_context : cpu_context_t;
  t_interrupt_rsp : Z;
  t_entry : Z;
  t_kernel_stack : Z;
  t_kernel_stack_size : Z;
  t_state : task_state_t;
  t_next : Z;
  t_wake_tick : Z;
  t_resume_mode : task_resume_mode_t;
  t_process : Z;
}.

Definition set_id (v : Z) (r : task_t) : task_t :=
  mk_task v (t_context r) (t_interrupt_rsp r) (t_entry r) (t_kernel_stack r) (t_kernel_stack_size r) (t_state r) (t_next r) (t_wake_tick r) (t_resume_mode r) (t_process r).
Definition set_context (v : cpu_context_t) (r : task_t) : task_t :=
  mk_task (t_id r) v (t_interrupt_rsp r) (t_entry r) (t_kernel_stack r) (t_kernel_stack_size r) (t_state r) (t_next r) (t_wake_tick r) (t_resume_mode r) (t_process r).
Definition set_interrupt_rsp (v : Z) (r : task_t) : task_t :=
  mk_task (t_id r) (t_context r) v (t_entry r) (t_kernel_stack r) (t_kernel_stack_size r) (t_state r) (t_next r) (t_wake_tick r) (t_resume_mode r) (t_process r).
Definition set_entry (v : Z) (r : task_t) : task_t :=
  mk_task (t_id r) (t_context r) (t_interrupt_rsp r) v (t_kernel_stack r) (t_kernel_stack_size r) (t_state r) (t_next r) (t_wake_tick r) (t_resume_mode r) (t_process r).
Definition set_kernel_stack (v : Z) (r : task_t) : task_t :=
  mk_task (t_id r) (t_context r) (t_interrupt_rsp r) (t_entry r) v (t_kernel_stack_size r) (t_state r) (t_next r) (t_wake_tick r) (t_resume_mode r) (t_process r).
Definition set_kernel_stack_size (v : Z) (r : task_t) : task_t :=
  mk_task (t_id r) (t_context r) (t_interrupt_rsp r) (t_entry r) (t_kernel_stack r) v (t_state r) (t_next r) (t_wake_tick r) (t_resume_mode r) (t_process r).
Definition set_state (v : task_state_t) (r : task_t) : task_t :=
  mk_task (t_id r) (t_context r) (t_interrupt_rsp r) (t_entry r) (t_kernel_stack r) (t_kernel_stack_size r) v (t_next r) (t_wake_tick r) (t_resume_mode r) (t_process r).
Definition set_next (v : Z) (r : task_t) : task_t :=
  mk_task (t_id r) (t_context r) (t_interrupt_rsp r) (t_entry r) (t_kernel_stack r) (t_kernel_stack_size r) (t_state r) v (t_wake_tick r) (t_resume_mode r) (t_process r).
Definition set_wake_tick (v : Z) (r : task_t) : task_t :=
  mk_task (t_id r) (t_context r) (t_interrupt_rsp r) (t_entry r) (t_kernel_stack r) (t_kernel_stack_size r) (t_state r) (t_next r) v (t_resume_mode r) (t_process r).
Definition set_resume_mode (v : task_resume_mode_t) (r : task_t) : task_t :=
  mk_task (t_id r) (t_context r) (t_interrupt_rsp r) (t_entry r) (t_kernel_stack r) (t_kernel_stack_size r) (t_state r) (t_next r) (t_wake_tick r) v (t_process r).
Definition set_process (v : Z) (r : task_t) : task_t :=
  mk_task (t_id r) (t_context r) (t_interrupt_rsp r) (t_entry r) (t_kernel_stack r) (t_kernel_stack_size r) (t_state r) (t_next r) (t_wake_tick r) (t_resume_mode r) v.

Abbreviation tasks := (gmap Z task_t).

Definition task_resume_uses_interrupt_frame (task : Z) (ts : tasks) : option bool :=
  if task =? NULL then Some false
  else
    t ← ts !! task;
    Some (bool_decide (t_resume_mode t = TASK_RESUME_INTERRUPT) && negb (t_interrupt_rsp t =? NULL)).

(** Update of the task at a pointer. *)
Definition update (p : Z) (f : task_t -> task_t) (ts : tasks) : option tasks :=
  t ← ts !! p; Some (<[p := f t]> ts).

(** ** [queue.c]

    [head] is the value of the queue variable; callers always pass the
    variable's address, so the guard on it never fires. *)
Fixpoint last_loop (fuel : nat) (ts : tasks) (current : Z) : option Z :=
  match fuel with
  | O => None
  | S fuel' =>
    t ← ts !! current;
    if t_next t =? NULL then Some current else last_loop fuel' ts (t_next t)
  end.

Definition task_queue_push (head task : Z) (ts : tasks) : option (tasks * Z) :=
  if task =? NULL then Some (ts, head)
  else
    ts ← update task (set_next NULL) ts;
    if head =? NULL then Some (ts, task)
    else
      current ← last_loop (S (size ts)) ts head;
      ts ← update current (set_next task) ts;
      Some (ts, head).

Fixpoint remove_loop (fuel : nat) (task current : Z) (ts : tasks) : option tasks :=
  match fuel with
  | O => None
  | S fuel' =>
    t ← ts !! current;
    if t_next t =? NULL then Some ts
    else if t_next t =? task then
      tk ← ts !! task;
      ts ← update current (set_next (t_next tk)) ts;
      update task (set_next NULL) ts
    else remove_loop fuel' task (t_next t) ts
  end.

Definition task_queue_remove (head task : Z) (ts : tasks) : option (tasks * Z) :=
  if (head =? NULL) || (task =? NULL) then Some (ts, head)
  else if head =? task then
    t ← ts !! task;
    ts ← update task (set_next NULL) ts;
    Some (ts, t_next t)
  else
    ts ← remove_loop (S (size ts)) task head ts;
    Some (ts, head).

(** ** Queues as lists *)
Fixpoint q_rep (ts : tasks) (head : Z) (l : list Z) : Prop :=
  match l with
  | [] => head = NULL
  | p :: l' => head = p /\ p <> NULL /\ exists t, ts !! p = Some t /\ q_rep ts (t_next t) l'
  end.

(** The tasks up to their [next] fields. *)
Definition unlinked (ts : tasks) : tasks := set_next NULL <$> ts.

Lemma q_rep_ext ts ts' h l :
  (forall p, p ∈ l -> t_next <$> ts' !! p = t_next <$> ts !! p) -> q_rep ts h l -> q_rep ts' h l.
Proof.
  revert h; induction l as [|p l IH]; intros h He; simpl; [done |].
  intros (-> & Hp & t & Ht & Hl). split; [done |]. split; [done |].
  pose proof (He p ltac:(by left)) as Hn. rewrite Ht in Hn.
  destruct (ts' !! p) as [t'|]; simplify_eq/=. exists t'. split; [done |].
  match goal with E : t_next t' = _ |- _ => rewrite E end. apply IH; [| done]. intros q Hq. apply He. by right.
Qed.

Lemma q_rep_app ts h l1 p l2 :
  q_rep ts h (l1 ++ p :: l2) -> p <> NULL /\ exists t, ts !! p = Some t /\ q_rep ts (t_next t) l2.
Proof.
  revert h; induction l1 as [|q l1 IH]; intros h; simpl; [naive_solver |].
  intros (_ & _ & t & _ & Ht). by eapply IH.
Qed.

Lemma q_rep_in ts h l p : q_rep ts h l -> p ∈ l -> p <> NULL /\ is_Some (ts !! p).
Proof.
  intros Hl (l1 & l2 & ->)%list_elem_of_split. apply q_rep_app in Hl as (? & t & Ht & _). naive_solver.
Qed.

Lemma q_rep_head ts h l : q_rep ts h l -> h <> NULL -> exists l', l = h :: l'.
Proof. destruct l as [|p l]; simpl; [done | intros (-> & _) _; by exists l]. Qed.

Lemma q_rep_length ts h l : q_rep ts h l -> NoDup l -> (length l <= size ts)%nat.
Proof.
  intros Hl Hnd. rewrite <- size_dom. rewrite <- (size_list_to_set (C := gset Z)) by done.
  apply subseteq_size. intros p Hp. apply elem_of_list_to_set in Hp. apply elem_of_dom.
  by eapply q_rep_in in Hp as [_ ?].
Qed.

Lemma update_unlinked p f ts ts' :
  (forall t, set_next NULL (f t) = set_next NULL t) ->
  update p f ts = Some ts' -> unlinked ts' = unlinked ts.
Proof.
  intros Hf. unfold update, unlinked. destruct (ts !! p) as [t|] eqn:E; [| done]. intros [= <-].
  rewrite fmap_insert, Hf. apply insert_id. by rewrite lookup_fmap, E.
Qed.

Lemma unlinked_lookup ts ts' p t :
  unlinked ts' = unlinked ts -> ts !! p = Some t ->
  exists t', ts' !! p = Some t' /\ set_next NULL t' = set_next NULL t.
Proof.
  intros Hu Ht. assert (H : unlinked ts' !! p = unlinked ts !! p) by by rewrite Hu.
  unfold unlinked in H. rewrite !lookup_fmap, Ht in H. destruct (ts' !! p) as [t'|]; simplify_eq/=.
  exists t'. split; [done |]. unfold set_next. congruence.
Qed.

Lemma queue_last_spec n ts h l :
  q_rep ts h l -> l <> [] -> (length l <= n)%nat -> last_loop n ts h = last l.
Proof.
  revert h l; induction n as [|n IH]; intros h l Hl Hne Hn; [destruct l; simpl in *; done || lia |].
  destruct l as [|p l]; [done |]. destruct Hl as (-> & Hp & t & Ht & Hl). cbn [last_loop].
  rewrite Ht. cbn [mbind option_bind]. destruct (Z.eqb_spec (t_next t) NULL) as [Hz|Hz].
  - destruct l; [done |]. destruct Hl as (? & ? & _). congruence.
  - destruct l as [|q l]; [done |]. rewrite (IH (t_next t) (q :: l)) by (simpl in *; done || lia). done.
Qed.

Lemma q_rep_snoc ts h l p t :
  q_rep ts h l -> NoDup (l ++ [p]) -> p <> NULL -> ts !! p = Some t -> l <> [] ->
  exists q tq, last l = Some q /\ ts !! q = Some tq /\ q <> p /\
    q_rep (<[q := set_next p tq]> (<[p := set_next NULL t]> ts)) h (l ++ [p]).
Proof.
  revert h; induction l as [|q l IH]; intros h Hl Hnd Hp Ht Hne; [done |]. clear Hne.
  destruct Hl as (-> & Hq & tq & Htq & Hl).
  simpl in Hnd. apply NoDup_cons in Hnd as [Hqn Hnd].
  assert (Hqp : q <> p) by (intros ->; apply Hqn; set_solver).
  destruct l as [|r l].
  - exists q, tq. split_and!; try done.
    simpl. split_and!; try done. eexists. rewrite lookup_insert_eq. split; [done |].
    split_and!; [done .. |]. eexists. rewrite lookup_insert_ne, lookup_insert_eq by done. done.
  - destruct (IH _ Hl Hnd Hp Ht) as (z & tz & Hz & Htz & Hzp & Hrep); [done |].
    assert (z <> q). { intros ->. apply Hqn. apply last_Some_elem_of in Hz. set_solver. }
    exists z, tz. split_and!; try done. simpl. split_and!; try done.
    exists tq. rewrite !lookup_insert_ne by done. done.
Qed.

(** Pushing a task that is in no queue of the list appends it. *)
Lemma push_spec ts h l p t :
  q_rep ts h l -> NoDup (l ++ [p]) -> p <> NULL -> ts !! p = Some t ->
  exists ts' h', task_queue_push h p ts = Some (ts', h') /\ q_rep ts' h' (l ++ [p]) /\
    unlinked ts' = unlinked ts /\ forall q, q ∉ l ++ [p] -> ts' !! q = ts !! q.
Proof.
  intros Hl Hnd Hp Ht. unfold task_queue_push. destruct (Z.eqb_spec p NULL); [done |].
  assert (E1 : update p (set_next NULL) ts = Some (<[p := set_next NULL t]> ts)) by (unfold update; by rewrite Ht). rewrite E1. cbn [mbind option_bind].
  assert (Hu : unlinked (<[p := set_next NULL t]> ts) = unlinked ts).
  { by apply (update_unlinked p (set_next NULL)). }
  destruct (Z.eqb_spec h NULL) as [->|Hh].
  - destruct l as [|q l]; [| destruct Hl as (<- & ? & _); done].
    eexists _, _. split; [done |]. split_and!; try done.
    + simpl. split_and!; try done. eexists. by rewrite lookup_insert_eq.
    + intros q Hq. rewrite lookup_insert_ne; [done | set_solver].
  - destruct (q_rep_head _ _ _ Hl Hh) as [l' El].
    destruct (q_rep_snoc ts h l p t Hl Hnd Hp Ht ltac:(by rewrite El)) as (q & tq & Hq & Htq & Hqp & Hrep).
    assert (Hq' : q ∈ l) by by apply last_Some_elem_of.
    assert (Hl' : q_rep (<[p := set_next NULL t]> ts) h l).
    { eapply q_rep_ext; [| exact Hl]. intros r Hr. rewrite lookup_insert_ne; [done |].
      intros ->. apply NoDup_app in Hnd as (_ & Hnd & _). by apply (Hnd r Hr); left. }
    rewrite (queue_last_spec _ _ _ l Hl'); [| by rewrite El | ].
    2: { apply q_rep_length in Hl'; [lia |]. by apply NoDup_app in Hnd as (? & _). }
    rewrite Hq. cbn [mbind option_bind]. unfold update. rewrite lookup_insert_ne, Htq by done.
    eexists _, _. split; [done |]. split_and!; [done | |].
    + rewrite <- Hu. apply (update_unlinked q (set_next p)); [done |].
      unfold update. by rewrite lookup_insert_ne, Htq by done.
    + intros r Hr. rewrite !lookup_insert_ne; [done | set_solver ..].
Qed.

Lemma remove_loop_hit n ts c l1 q p l2 :
  q_rep ts c (l1 ++ q :: p :: l2) -> NoDup (l1 ++ q :: p :: l2) -> (length l1 < n)%nat ->
  exists tq tp, ts !! q = Some tq /\ ts !! p = Some tp /\
    remove_loop n p c ts = Some (<[p := set_next NULL tp]> (<[q := set_next (t_next tp) tq]> ts)).
Proof.
  revert c n; induction l1 as [|r l1 IH]; intros c n Hl Hnd Hn; (destruct n as [|n]; [simpl in Hn; lia |]).
  - destruct Hl as (-> & Hq & tq & Htq & Eqp & Hp & tp & Htp & Hl). exists tq, tp. split; [done |]. split; [done |].
    cbn [remove_loop]. rewrite Htq. cbn [mbind option_bind].
    rewrite Eqp. destruct (Z.eqb_spec p NULL); [done |]. rewrite Z.eqb_refl, Htp. cbn [mbind option_bind].
    assert (q <> p). { intros ->. apply NoDup_cons in Hnd as [Hnd _]. apply Hnd. by left. }
    unfold update. rewrite Htq. cbn [mbind option_bind]. rewrite lookup_insert_ne, Htp by done. done.
  - destruct Hl as (-> & Hr & tr & Htr & Hl). simpl in Hnd. apply NoDup_cons in Hnd as [Hrn Hnd].
    destruct (IH (t_next tr) n Hl Hnd ltac:(simpl in Hn; lia)) as (tq & tp & Htq & Htp & E).
    exists tq, tp. split_and!; try done. cbn [remove_loop]. rewrite Htr. cbn [mbind option_bind].
    destruct (Z.eqb_spec (t_next tr) NULL) as [Hz|].
    { rewrite Hz in Hl. destruct l1 as [|x ?]; destruct Hl as (<- & ? & _); done. }
    destruct (Z.eqb_spec (t_next tr) p) as [Hz|]; [| done].
    rewrite Hz in Hl. destruct l1 as [|x l1]; destruct Hl as (<- & _).
    + apply NoDup_cons in Hnd as [Hnd _]. destruct Hnd. by left.
    + apply NoDup_cons in Hnd as [Hnd _]. destruct Hnd. set_solver.
Qed.

Lemma remove_loop_miss n ts c l p :
  q_rep ts c l -> p ∉ l -> p <> NULL -> l <> [] -> (length l <= n)%nat -> remove_loop n p c ts = Some ts.
Proof.
  revert c n; induction l as [|q l IH]; intros c n Hl Hp Hp0 Hne Hn; [done |].
  destruct n as [|n]; [simpl in Hn; lia |]. destruct Hl as (-> & Hq & tq & Htq & Hl).
  cbn [remove_loop]. rewrite Htq. cbn [mbind option_bind].
  destruct (Z.eqb_spec (t_next tq) NULL) as [|Hz]; [done |].
  destruct (q_rep_head _ _ _ Hl Hz) as [l' El].
  destruct (Z.eqb_spec (t_next tq) p) as [<-|]; [set_solver |].
  apply (IH (t_next tq) n Hl); [set_solver | done | by rewrite El | simpl in Hn; lia].
Qed.

Lemma q_rep_unlink ts h l1 q p l2 tq tp :
  q_rep ts h (l1 ++ q :: p :: l2) -> NoDup (l1 ++ q :: p :: l2) ->
  ts !! q = Some tq -> ts !! p = Some tp ->
  q_rep (<[p := set_next NULL tp]> (<[q := set_next (t_next tp) tq]> ts)) h (l1 ++ q :: l2).
Proof.
  intros Hl Hnd Htq Htp. revert h Hl Hnd; induction l1 as [|r l1 IH]; intros h Hl Hnd.
  - destruct Hl as (-> & Hq & tq' & Htq' & Eqp & Hp & tp' & Htp' & Hl).
    assert (tq' = tq) as -> by congruence. assert (tp' = tp) as -> by congruence.
    apply NoDup_cons in Hnd as [Hqn Hnd]. apply NoDup_cons in Hnd as [Hpn Hnd].
    assert (Hne : p <> q) by (intros E; apply Hqn; rewrite E; left).
    simpl. split_and!; try done. eexists. rewrite lookup_insert_ne, lookup_insert_eq by done.
    split; [done |]. simpl. eapply q_rep_ext; [| exact Hl].
    intros r Hr. rewrite !lookup_insert_ne; [done | |]; intros <-; set_solver.
  - simpl in Hnd. apply NoDup_cons in Hnd as [Hrn Hnd].
    destruct Hl as (-> & Hr & tr & Htr & Hl). simpl. split_and!; try done.
    exists tr. split; [| by apply IH]. rewrite !lookup_insert_ne; [done | set_solver ..].
Qed.

Lemma filter_all (P : Z -> Prop) `{forall x, Decision (P x)} l : Forall P l -> filter P l = l.
Proof. induction 1; [done |]. rewrite filter_cons_True by done. by f_equal. Qed.

(** Removing a queued task takes it out and clears its link; removing any other
    task changes nothing. *)
Lemma remove_spec ts h l p :
  q_rep ts h l -> NoDup l -> p <> NULL ->
  exists ts' h', task_queue_remove h p ts = Some (ts', h') /\ q_rep ts' h' (filter (.≠ p) l) /\
    unlinked ts' = unlinked ts /\ (forall q, q ∉ l -> ts' !! q = ts !! q) /\
    (p ∉ l -> ts' = ts /\ h' = h).
Proof.
  intros Hl Hnd Hp. unfold task_queue_remove. destruct (Z.eqb_spec p NULL); [done |].
  destruct (Z.eqb_spec h NULL) as [Hh|Hh]; cbn [orb].
  { destruct l as [|r l]; [| destruct Hl as (<- & ? & _); done]. by eexists _, _. }
  destruct (q_rep_head _ _ _ Hl Hh) as [l' El].
  destruct (Z.eqb_spec h p) as [<-|Hhp].
  { subst l. destruct Hl as (_ & _ & t & Ht & Hl). rewrite Ht. cbn [mbind option_bind].
    assert (E1 : update h (set_next NULL) ts = Some (<[h := set_next NULL t]> ts)) by (unfold update; by rewrite Ht).
    rewrite E1. cbn [mbind option_bind]. apply NoDup_cons in Hnd as [Hn Hnd].
    eexists _, _. split; [done |]. split_and!.
    - rewrite filter_cons_False by naive_solver.
      rewrite filter_all; [| apply Forall_forall; intros x Hx ->; done].
      eapply q_rep_ext; [| exact Hl]. intros q Hq. rewrite lookup_insert_ne; [done |]. by intros ->.
    - by apply (update_unlinked h (set_next NULL)).
    - intros q Hq. rewrite lookup_insert_ne; [done | set_solver].
    - set_solver. }
  pose proof (q_rep_length _ _ _ Hl Hnd) as Hlen.
  destruct (decide (p ∈ l)) as [Hin|Hin].
  - destruct (list_elem_of_split _ _ Hin) as (l1 & l2 & ->).
    destruct l1 as [|r l1 _] using rev_ind; [simpl in El; congruence |].
    rewrite <- app_assoc in *. cbn [app] in *.
    destruct (remove_loop_hit (S (size ts)) ts h l1 r p l2 Hl Hnd) as (tq & tp & Htq & Htp & E).
    { rewrite length_app in Hlen. simpl in Hlen. lia. }
    rewrite E. cbn [mbind option_bind]. eexists _, _. split; [done |].
    assert (Hrp : r <> p). { apply NoDup_app in Hnd as (_ & _ & Hnd). apply NoDup_cons in Hnd as [Hnd _]. set_solver. }
    split_and!.
    + replace (filter (.≠ p) (l1 ++ r :: p :: l2)) with (l1 ++ r :: l2); [by apply q_rep_unlink |].
      rewrite filter_app, filter_cons_True, filter_cons_False by naive_solver.
      apply NoDup_app in Hnd as (_ & Hd & Hnd). apply NoDup_cons in Hnd as [_ Hnd]. apply NoDup_cons in Hnd as [Hnp _].
      rewrite !filter_all; [done | |]; apply Forall_forall; intros x Hx ->; [done |].
      apply (Hd p Hx). set_solver.
    + rewrite <- (update_unlinked r (set_next (t_next tp)) ts (<[r := set_next (t_next tp) tq]> ts));
        [| done | unfold update; by rewrite Htq].
      apply (update_unlinked p (set_next NULL)); [done |].
      unfold update. by rewrite lookup_insert_ne, Htp by done.
    + intros q Hq. rewrite !lookup_insert_ne; [done | set_solver ..].
    + done.
  - rewrite (remove_loop_miss _ _ _ l) by (done || (by rewrite El) || lia). cbn [mbind option_bind].
    eexists _, _. split; [done |].
    rewrite filter_all; [done |]. apply Forall_forall. intros x Hx ->. done.
Qed.
End Task.
