(* ===== verification/Pmm.v ===== *)
(** * Physical memory manager: [mm/bitmap.c], [mm/pmm.c]

    Module [Bitmap] models the one-bit-per-page map and Module [Pmm] the page
    allocator built on it: its counters, region reservation, allocation and
    the construction of its state from the boot memory map. *)
From S2P Require Import Prelude PageAllocator.

Module Bitmap.

(** The static [bitmap] pointer (its bytes, by index) and [bitmap_bits]. *)
Record bitmap_t := mk_bitmap { bytes : gmap Z Z; bitmap_bits : Z }.

Definition byte_at (b : bitmap_t) (i : Z) : Z := default 0 (bytes b !! i).

Definition store_byte (i v : Z) (b : bitmap_t) : bitmap_t :=
  mk_bitmap (<[i := u8 v]> (bytes b)) (bitmap_bits b).

Definition bitmap_init (buffer : gmap Z Z) (bits : Z) : bitmap_t :=
  let n := u64 (bits + 7) / 8 in
  for_to 0 n (fun i b => store_byte i 0xFF b) (mk_bitmap buffer bits).

Definition bitmap_set (bit : Z) (b : bitmap_t) : bitmap_t :=
  if bit >=? bitmap_bits b then b
  else store_byte (bit / 8)
         (Z.lor (byte_at b (bit / 8)) (Z.shiftl 1 (bit mod 8))) b.

Definition bitmap_clear (bit : Z) (b : bitmap_t) : bitmap_t :=
  if bit >=? bitmap_bits b then b
  else store_byte (bit / 8)
         (Z.land (byte_at b (bit / 8)) (u32 (Z.lnot (Z.shiftl 1 (bit mod 8))))) b.

Definition bitmap_test (b : bitmap_t) (bit : Z) : bool :=
  if bit >=? bitmap_bits b then true
  else negb (Z.land (byte_at b (bit / 8)) (Z.shiftl 1 (bit mod 8)) =? 0).

(** ** What the operations do to each bit *)
Lemma byte_at_store i v j b :
  byte_at (store_byte i v b) j = if decide (i = j) then u8 v else byte_at b j.
Proof.
  unfold byte_at, store_byte; simpl. rewrite lookup_insert.
  case_decide; done.
Qed.

Lemma bits_store i v b : bitmap_bits (store_byte i v b) = bitmap_bits b.
Proof. done. Qed.

Lemma test_in_range b bit :
  0 <= bit < bitmap_bits b ->
  bitmap_test b bit = Z.testbit (byte_at b (bit / 8)) (bit mod 8).
Proof.
  intros. unfold bitmap_test. rewrite Z.geb_leb.
  replace (bitmap_bits b <=? bit) with false by lia.
  apply land_bit_nonzero. word_lia.
Qed.

Lemma same_bit x y :
  0 <= x -> 0 <= y -> x / 8 = y / 8 -> x mod 8 = y mod 8 -> x = y.
Proof. intros. word_lia. Qed.

Lemma bitmap_bits_set bit b : bitmap_bits (bitmap_set bit b) = bitmap_bits b.
Proof. unfold bitmap_set. case_if_eq E; done. Qed.
Lemma bitmap_bits_clear bit b : bitmap_bits (bitmap_clear bit b) = bitmap_bits b.
Proof. unfold bitmap_clear. case_if_eq E; done. Qed.

(** A bit outside the map reads as set; inside, [bitmap_set] changes the one
    bit it names. *)
Lemma test_set bit x b :
  0 <= bit < bitmap_bits b -> 0 <= x ->
  bitmap_test (bitmap_set bit b) x = (x =? bit) || bitmap_test b x.
Proof.
  intros Hb Hx. destruct (Z.ltb_spec x (bitmap_bits b)).
  2: { unfold bitmap_test. rewrite bitmap_bits_set, Z.geb_leb.
       replace (bitmap_bits b <=? x) with true by lia. by rewrite orb_true_r. }
  rewrite !test_in_range by (rewrite ?bitmap_bits_set; lia).
  unfold bitmap_set. rewrite Z.geb_leb. replace (bitmap_bits b <=? bit) with false by lia.
  rewrite byte_at_store. case_decide as Hd.
  - unfold u8. rewrite testbit_mod_pow2 by word_lia.
    rewrite Z.lor_spec, testbit_shiftl1, <- Hd, orb_comm by word_lia. f_equal.
    destruct (Z.eqb_spec x bit) as [->|]; [lia |].
    apply Z.eqb_neq. intros ?. pose proof (same_bit x bit). lia.
  - destruct (Z.eqb_spec x bit) as [->|]; [done | done].
Qed.

Lemma test_clear bit x b :
  0 <= bit < bitmap_bits b -> 0 <= x ->
  bitmap_test (bitmap_clear bit b) x = negb (x =? bit) && bitmap_test b x.
Proof.
  intros Hb Hx. destruct (Z.ltb_spec x (bitmap_bits b)).
  2: { unfold bitmap_test. rewrite bitmap_bits_clear, Z.geb_leb.
       replace (bitmap_bits b <=? x) with true by lia. lia. }
  rewrite !test_in_range by (rewrite ?bitmap_bits_clear; lia).
  unfold bitmap_clear. rewrite Z.geb_leb. replace (bitmap_bits b <=? bit) with false by lia.
  rewrite byte_at_store. case_decide as Hd.
  - unfold u8, u32. rewrite testbit_mod_pow2 by word_lia.
    rewrite Z.land_spec, testbit_mod_pow2 by word_lia.
    rewrite Z.lnot_spec, testbit_shiftl1, <- Hd, andb_comm by word_lia. f_equal.
    destruct (Z.eqb_spec x bit) as [->|]; [lia |].
    f_equal. apply Z.eqb_neq. intros ?. pose proof (same_bit x bit). lia.
  - destruct (Z.eqb_spec x bit) as [->|]; [done | done].
Qed.

Lemma test_out_of_range b x : bitmap_bits b <= x -> bitmap_test b x = true.
Proof.
  intros. unfold bitmap_test. rewrite Z.geb_leb.
  by replace (bitmap_bits b <=? x) with true by lia.
Qed.

Lemma bits_init buffer bits : bitmap_bits (bitmap_init buffer bits) = bits.
Proof.
  unfold bitmap_init. generalize (u64 (bits + 7) / 8); intros n.
  destruct (Z.leb_spec 0 n).
  - apply (for_to_inv (fun _ t => bitmap_bits t = bits)); [lia | done |].
    intros j t _ Ht. by rewrite bits_store.
  - rewrite for_to_empty by lia. done.
Qed.

(** Every page starts reserved. *)
Lemma test_init buffer bits x :
  0 <= bits < 2 ^ 63 -> 0 <= x -> bitmap_test (bitmap_init buffer bits) x = true.
Proof.
  intros Hbits Hx. destruct (Z.ltb_spec x bits).
  2: { apply test_out_of_range. rewrite bits_init. lia. }
  rewrite test_in_range by (rewrite bits_init; lia).
  assert (Hff : byte_at (bitmap_init buffer bits) (x / 8) = 0xFF).
  { unfold bitmap_init. rewrite u64_id by lia.
    refine (for_to_inv (fun j t => forall k, 0 <= k < j -> byte_at t k = 0xFF)
              0 ((bits + 7) / 8) _ _ _ _ _ (x / 8) _); [word_lia | lia | | word_lia].
    intros j t Hj Ht k Hk. rewrite byte_at_store. case_decide; [done |].
    apply Ht. lia. }
  rewrite Hff. change 0xFF with (Z.ones 8). apply Z.ones_spec_low. word_lia.
Qed.

End Bitmap.

Module Pmm.
Import Bitmap.

Definition PMM_PAGE_SIZE : Z := 4096.
Definition PMM_BITMAP_MAX_SIZE : Z := 128 * 1024.
Definition PMM_BITMAP_MAX_BITS : Z := PMM_BITMAP_MAX_SIZE * 8.

(** The file-scope variables of [mm/pmm.c], with the bitmap they index. *)
Record pmm_t := mk_pmm {
  bitmap : bitmap_t;
  total_memory : Z;
  usable_memory : Z;
  reserved_memory : Z;
  highest_address : Z;
  highest_physical_address : Z;
  bitmap_size : Z;
  total_pages : Z;
  free_pages : Z;
  used_pages : Z;
  next_free_page : Z;
}.

(** Assignment to the variables the page operations change. *)
Definition with_pages (b : bitmap_t) (free used next : Z) (s : pmm_t) : pmm_t :=
  mk_pmm b (total_memory s) (usable_memory s) (reserved_memory s)
    (highest_address s) (highest_physical_address s) (bitmap_size s)
    (total_pages s) free used next.

Definition with_next (next : Z) (s : pmm_t) : pmm_t :=
  with_pages (bitmap s) (free_pages s) (used_pages s) next s.

Definition pmm_address_to_page (address : Z) : Z := address / PMM_PAGE_SIZE.

Definition pmm_region_page_count (length : Z) : Z :=
  if length =? 0 then 0 else u64 (length + PMM_PAGE_SIZE - 1) / PMM_PAGE_SIZE.

Definition pmm_clamp_page_count (s : pmm_t) (start_page page_count : Z) : Z :=
  if start_page >=? total_pages s then 0
  else
    let remaining := total_pages s - start_page in
    if page_count >? remaining then remaining else page_count.

Definition pmm_mark_page_used (page : Z) (s : pmm_t) : pmm_t :=
  if page >=? total_pages s then s
  else if bitmap_test (bitmap s) page then s
  else
    with_pages (bitmap_set page (bitmap s))
      (if free_pages s >? 0 then free_pages s - 1 else free_pages s)
      (u64 (used_pages s + 1)) (next_free_page s) s.

Definition pmm_mark_page_free (page : Z) (s : pmm_t) : pmm_t :=
  if (page =? 0) || (page >=? total_pages s) then s
  else if negb (bitmap_test (bitmap s) page) then s
  else
    with_pages (bitmap_clear page (bitmap s))
      (u64 (free_pages s + 1))
      (if used_pages s >? 0 then used_pages s - 1 else used_pages s)
      (if page <? next_free_page s then page else next_free_page s) s.

Definition pmm_reserve_region (base length : Z) (s : pmm_t) : pmm_t :=
  let start_page := base / PMM_PAGE_SIZE in
  let page_count := pmm_clamp_page_count s start_page (pmm_region_page_count length) in
  for_to start_page (u64 (start_page + page_count)) pmm_mark_page_used s.

Definition pmm_unreserve_region (base length : Z) (s : pmm_t) : pmm_t :=
  let start_page := base / PMM_PAGE_SIZE in
  let page_count := pmm_clamp_page_count s start_page (pmm_region_page_count length) in
  for_to start_page (u64 (start_page + page_count)) pmm_mark_page_free s.

(** One entry of the boot memory map. *)
Record memmap_entry := mk_entry { e_base : Z; e_length : Z; e_type : Z }.

Definition pmm_reserve_memmap_type (response : list memmap_entry) (type : Z) (s : pmm_t) : pmm_t :=
  foldl (fun s entry =>
           if negb (e_type entry =? type) then s
           else pmm_reserve_region (e_base entry) (e_length entry) s) s response.

(** [pmm_seek_next_free_page]: the loop on [next_free_page]; [fuel] bounds
    the distance to [total_pages]. *)
Fixpoint seek_loop (fuel : nat) (s : pmm_t) (next : Z) : Z :=
  match fuel with
  | O => next
  | S fuel' =>
      if (next <? total_pages s) && bitmap_test (bitmap s) next
      then seek_loop fuel' s (next + 1) else next
  end.

Definition pmm_seek_next_free_page (s : pmm_t) : pmm_t :=
  with_next (seek_loop (Z.to_nat (total_pages s - next_free_page s)) s (next_free_page s)) s.

Definition pmm_lock_page (address : Z) (s : pmm_t) : pmm_t :=
  pmm_mark_page_used (pmm_address_to_page address) s.

Definition pmm_unlock_page (address : Z) (s : pmm_t) : pmm_t :=
  pmm_mark_page_free (pmm_address_to_page address) s.

Definition pmm_unlock_pages (address count : Z) (s : pmm_t) : pmm_t :=
  let page := pmm_address_to_page address in
  let page_count := pmm_clamp_page_count s page count in
  for_to 0 page_count (fun i => pmm_mark_page_free (u64 (page + i))) s.

Definition pmm_lock_pages (address count : Z) (s : pmm_t) : pmm_t :=
  let page := pmm_address_to_page address in
  let page_count := pmm_clamp_page_count s page count in
  for_to 0 page_count (fun i => pmm_mark_page_used (u64 (page + i))) s.

Definition pmm_reserve_page (address : Z) (s : pmm_t) : pmm_t := pmm_lock_page address s.
Definition pmm_unreserve_page (address : Z) (s : pmm_t) : pmm_t := pmm_unlock_page address s.

(** The body of the inner loop of [pmm_alloc_page] at the page it takes. *)
Definition pmm_take_page (page : Z) (s : pmm_t) : pmm_t * Z :=
  let s1 := pmm_mark_page_used page s in
  let next := if page + 1 >=? total_pages s1 then 0 else page + 1 in
  (pmm_seek_next_free_page (with_next next s1), u64 (page * PMM_PAGE_SIZE)).

Definition pmm_alloc_page (s : pmm_t) : pmm_t * Z :=
  if free_pages s =? 0 then (s, NULL)
  else
    let start_page := next_free_page s in
    let free p := negb (bitmap_test (bitmap s) p) in
    match find_to start_page (total_pages s) free with
    | Some page => pmm_take_page page s
    | None =>
        match find_to 0 start_page free with
        | Some page => pmm_take_page page s
        | None => (s, NULL)
        end
    end.

Definition pmm_free_page (address : Z) (s : pmm_t) : pmm_t := pmm_unlock_page address s.

Definition pmm_get_free_pages (s : pmm_t) : Z := free_pages s.
Definition pmm_get_used_pages (s : pmm_t) : Z := used_pages s.
Definition pmm_get_total_pages (s : pmm_t) : Z := total_pages s.

(** *** Construction from the boot memory map

    The values of the [LIMINE_MEMMAP_*] constants and of the linker symbols
    [_kernel_start], [_kernel_end] are not part of the sources. *)
Section init.
Context (LIMINE_MEMMAP_USABLE LIMINE_MEMMAP_BOOTLOADER_RECLAIMABLE
         LIMINE_MEMMAP_EXECUTABLE_AND_MODULES LIMINE_MEMMAP_FRAMEBUFFER : Z).
Context (kernel_start kernel_end : Z).

Definition pmm_mark_usable (response : list memmap_entry) (s : pmm_t) : pmm_t :=
  foldl (fun s entry =>
           if negb (e_type entry =? LIMINE_MEMMAP_USABLE) then s
           else
             let start_page := e_base entry / PMM_PAGE_SIZE in
             let page_count :=
               pmm_clamp_page_count s start_page (pmm_region_page_count (e_length entry)) in
             for_to start_page (u64 (start_page + page_count)) pmm_mark_page_free s)
    s response.

(** The totals loop at the head of [pmm_init]. *)
Definition pmm_count_entry (s : pmm_t) (entry : memmap_entry) : pmm_t :=
  let end_ := u64 (e_base entry + e_length entry) in
  let usable := e_type entry =? LIMINE_MEMMAP_USABLE in
  mk_pmm (bitmap s)
    (u64 (total_memory s + e_length entry))
    (if usable then u64 (usable_memory s + e_length entry) else usable_memory s)
    (if usable then reserved_memory s else u64 (reserved_memory s + e_length entry))
    (if usable && (end_ >? highest_address s) then end_ else highest_address s)
    (if end_ >? highest_physical_address s then end_ else highest_physical_address s)
    (bitmap_size s) (total_pages s) (free_pages s) (used_pages s) (next_free_page s).

Definition pmm_totals (response : list memmap_entry) (s : pmm_t) : pmm_t :=
  let s0 := mk_pmm (bitmap s) 0 0 0 0 0 (bitmap_size s) (total_pages s) 0 0 0 in
  let s1 := foldl pmm_count_entry s0 response in
  let total := u64 (highest_address s1 + PMM_PAGE_SIZE - 1) / PMM_PAGE_SIZE in
  mk_pmm (bitmap s1) (total_memory s1) (usable_memory s1) (reserved_memory s1)
    (highest_address s1) (highest_physical_address s1)
    (u64 (total + 7) / 8) total (free_pages s1) (used_pages s1) (next_free_page s1).

(** [executable_response] is [Some physical_base], or [None] for NULL. *)
Definition pmm_init (response : list memmap_entry) (executable_response : option Z)
    (s : pmm_t) : pmm_t :=
  let s1 := pmm_totals response s in
  if (bitmap_size s1 >? PMM_BITMAP_MAX_SIZE) || (total_pages s1 >? PMM_BITMAP_MAX_BITS)
  then s1
  else
    let s2 := with_pages (bitmap_init (bytes (bitmap s1)) (total_pages s1))
                (free_pages s1) (used_pages s1) (next_free_page s1) s1 in
    let s3 := pmm_mark_usable response s2 in
    let s4 := pmm_reserve_region 0 PMM_PAGE_SIZE s3 in
    let s5 :=
      match executable_response with
      | Some physical_base =>
          pmm_reserve_region physical_base (u64 (kernel_end - kernel_start)) s4
      | None => s4
      end in
    let s6 := pmm_reserve_memmap_type response LIMINE_MEMMAP_BOOTLOADER_RECLAIMABLE s5 in
    let s7 := pmm_reserve_memmap_type response LIMINE_MEMMAP_EXECUTABLE_AND_MODULES s6 in
    let s8 := pmm_reserve_memmap_type response LIMINE_MEMMAP_FRAMEBUFFER s7 in
    pmm_seek_next_free_page s8.
End init.


(** ** Specification: the set of free pages *)
Definition free_set (s : pmm_t) : gset Z :=
  list_to_set (filter (fun p => bitmap_test (bitmap s) p = false) (seqZ 0 (total_pages s))).

(** Pages [a], ..., [a + n - 1]. *)
Definition page_range (a n : Z) : gset Z := list_to_set (seqZ a n).

(** The pages a region call touches. *)
Definition region_pages (s : pmm_t) (base length : Z) : gset Z :=
  page_range (base / PMM_PAGE_SIZE)
    (pmm_clamp_page_count s (base / PMM_PAGE_SIZE) (pmm_region_page_count length)).

Record pmm_wf (s : pmm_t) : Prop := {
  wf_total : 0 <= total_pages s <= PMM_BITMAP_MAX_BITS;
  wf_bits : bitmap_bits (bitmap s) = total_pages s;
  wf_free : free_pages s = Z.of_nat (size (free_set s));
  wf_used : 0 <= used_pages s <= total_pages s - free_pages s;
  wf_next : 0 <= next_free_page s <= total_pages s;
  (** no free page lies below the search hint *)
  wf_low : forall p, p ∈ free_set s -> next_free_page s <= p;
  (** page zero is never free *)
  wf_zero : 0 ∉ free_set s;
}.

Lemma max_bits_val : PMM_BITMAP_MAX_BITS = 2 ^ 20.
Proof. reflexivity. Qed.

Lemma elem_of_free_set s p :
  p ∈ free_set s <-> 0 <= p < total_pages s /\ bitmap_test (bitmap s) p = false.
Proof.
  unfold free_set. rewrite elem_of_list_to_set, list_elem_of_filter, elem_of_seqZ.
  intuition lia.
Qed.

Lemma elem_of_page_range a n p : p ∈ page_range a n <-> a <= p < a + n.
Proof. unfold page_range. rewrite elem_of_list_to_set, elem_of_seqZ. done. Qed.

Lemma free_set_bound s : (size (free_set s) <= Z.to_nat (total_pages s))%nat.
Proof.
  unfold free_set. rewrite size_list_to_set.
  - etrans; [apply length_filter |]. rewrite length_seqZ. done.
  - apply NoDup_filter, NoDup_seqZ.
Qed.

(** Two states with the same page count whose bitmaps differ on [p] only. *)
Lemma free_set_remove s s' p :
  total_pages s' = total_pages s ->
  (forall x, 0 <= x -> bitmap_test (bitmap s') x = (x =? p) || bitmap_test (bitmap s) x) ->
  free_set s' = free_set s ∖ {[p]}.
Proof.
  intros Ht Hb. apply set_eq. intros x.
  rewrite elem_of_difference, elem_of_singleton, !elem_of_free_set, Ht.
  split.
  - intros [Hr Hx]. rewrite Hb in Hx by lia. apply orb_false_iff in Hx as [Hx ?].
    apply Z.eqb_neq in Hx. auto.
  - intros [[Hr Hx] Hne]. rewrite Hb, Hx by lia. split; [done | lia].
Qed.

Lemma free_set_add s s' p :
  0 <= p < total_pages s -> total_pages s' = total_pages s ->
  (forall x, 0 <= x -> bitmap_test (bitmap s') x = negb (x =? p) && bitmap_test (bitmap s) x) ->
  free_set s' = free_set s ∪ {[p]}.
Proof.
  intros Hp Ht Hb. apply set_eq. intros x.
  rewrite elem_of_union, elem_of_singleton, !elem_of_free_set, Ht.
  destruct (Z.eqb_spec x p) as [->|Hne].
  - rewrite Hb, Z.eqb_refl by lia. simpl. intuition lia.
  - split.
    + intros [Hr Hx]. rewrite Hb in Hx by lia.
      replace (x =? p) with false in Hx by lia. auto.
    + intros [[Hr Hx]|]; [| lia]. rewrite Hb by lia.
      replace (x =? p) with false by lia. auto.
Qed.

(** *** Marking one page *)
Lemma total_mark_used p s : total_pages (pmm_mark_page_used p s) = total_pages s.
Proof. unfold pmm_mark_page_used. repeat case_match; done. Qed.
Lemma total_mark_free p s : total_pages (pmm_mark_page_free p s) = total_pages s.
Proof. unfold pmm_mark_page_free. repeat case_match; done. Qed.

Lemma mark_used_free_set p s :
  pmm_wf s -> 0 <= p -> free_set (pmm_mark_page_used p s) = free_set s ∖ {[p]}.
Proof.
  intros Hwf Hp. pose proof (wf_bits s Hwf) as Hbits.
  assert (Hnot : p ∉ free_set s -> free_set s = free_set s ∖ {[p]}) by set_solver.
  unfold pmm_mark_page_used. repeat case_match; bool_to_prop.
  - apply Hnot. rewrite elem_of_free_set. lia.
  - apply Hnot. rewrite elem_of_free_set. intros [_ ?]. congruence.
  - apply free_set_remove; [done |]. intros x Hx. simpl. apply test_set; lia.
  - apply free_set_remove; [done |]. intros x Hx. simpl. apply test_set; lia.
Qed.

Lemma mark_free_free_set p s :
  pmm_wf s -> 0 <= p ->
  free_set (pmm_mark_page_free p s) =
    if decide (1 <= p < total_pages s) then free_set s ∪ {[p]} else free_set s.
Proof.
  intros Hwf Hp. pose proof (wf_bits s Hwf) as Hbits.
  unfold pmm_mark_page_free.
  destruct ((p =? 0) || (p >=? total_pages s)) eqn:E0.
  { apply orb_true_iff in E0. case_decide; [| done].
    destruct E0; bool_to_prop; lia. }
  bool_to_prop. rewrite decide_True by lia.
  destruct (negb (bitmap_test (bitmap s) p)) eqn:E1.
  - apply negb_true_iff in E1.
    assert (p ∈ free_set s) by (rewrite elem_of_free_set; split; [lia | done]). set_solver.
  - apply free_set_add; [lia | done |]. intros x Hx. simpl. apply test_clear; lia.
Qed.

Lemma mark_used_wf p s : pmm_wf s -> 0 <= p -> pmm_wf (pmm_mark_page_used p s).
Proof.
  intros Hwf Hp. pose proof (mark_used_free_set p s Hwf Hp) as Hfs.
  revert Hfs. unfold pmm_mark_page_used.
  destruct (p >=? total_pages s) eqn:E0; [done |].
  destruct (bitmap_test (bitmap s) p) eqn:E1; [done |]. bool_to_prop. intros Hfs.
  assert (Hin : p ∈ free_set s) by (rewrite elem_of_free_set; split; [lia | done]).
  destruct Hwf as [Ht Hb Hf Hu Hn Hl Hz]. rewrite max_bits_val in Ht.
  assert (Hsz : Z.of_nat (size (free_set s ∖ {[p]})) = Z.of_nat (size (free_set s)) - 1) by (by apply size_remove).
  assert (Hpos : free_pages s > 0) by lia.
  replace (free_pages s >? 0) with true in * by lia.
  constructor; simpl; rewrite ?max_bits_val, ?Hfs.
  - done.
  - by rewrite bitmap_bits_set.
  - lia.
  - rewrite u64_id by lia. lia.
  - done.
  - intros q Hq. apply Hl. set_solver.
  - set_solver.
Qed.

Lemma mark_free_wf p s : pmm_wf s -> 0 <= p -> pmm_wf (pmm_mark_page_free p s).
Proof.
  intros Hwf Hp. pose proof (mark_free_free_set p s Hwf Hp) as Hfs.
  revert Hfs. unfold pmm_mark_page_free.
  destruct ((p =? 0) || (p >=? total_pages s)) eqn:E0; [done |].
  destruct (negb (bitmap_test (bitmap s) p)) eqn:E1; [done |]. bool_to_prop.
  rewrite decide_True by lia. intros Hfs.
  destruct Hwf as [Ht Hb Hf Hu Hn Hl Hz]. rewrite max_bits_val in Ht.
  assert (Hout : p ∉ free_set s) by (rewrite elem_of_free_set; intros [_ ?]; congruence).
  assert (Hsz : Z.of_nat (size (free_set s ∪ {[p]})) = Z.of_nat (size (free_set s)) + 1).
  { by apply size_add. }
  set (s' := with_pages _ _ _ _ _) in *.
  pose proof (free_set_bound s') as Hbd. rewrite Hfs in Hbd. simpl in Hbd.
  constructor; simpl; rewrite ?max_bits_val, ?Hfs.
  - done.
  - by rewrite bitmap_bits_clear.
  - rewrite u64_id by lia. lia.
  - rewrite u64_id by lia. destruct (used_pages s >? 0) eqn:E; lia.
  - destruct (p <? next_free_page s) eqn:E; lia.
  - intros q [Hq| ->%elem_of_singleton]%elem_of_union;
      [specialize (Hl q Hq) |]; destruct (p <? next_free_page s) eqn:E; lia.
  - set_solver by lia.
Qed.

#[export] Hint Resolve mark_used_wf mark_free_wf : zenith.

(** *** Marking a range of pages *)
Lemma mark_used_range a b s :
  pmm_wf s -> 0 <= a ->
  let s' := for_to a b pmm_mark_page_used s in
  pmm_wf s' /\ total_pages s' = total_pages s /\
  free_set s' = free_set s ∖ page_range a (b - a).
Proof.
  intros Hwf Ha s'. subst s'. destruct (Z.leb_spec a b) as [Hab|Hab].
  2: { rewrite for_to_empty by lia. split_and!; [done | done |].
       apply set_eq; intros x. rewrite elem_of_difference, elem_of_page_range.
       intuition lia. }
  apply (for_to_inv (fun j t => pmm_wf t /\ total_pages t = total_pages s /\
    free_set t = free_set s ∖ page_range a (j - a))); [lia | |].
  - split_and!; [done | done |]. apply set_eq; intros x.
    rewrite elem_of_difference, elem_of_page_range. intuition lia.
  - intros j t Hj (Hw & Ht & Hf). rewrite total_mark_used, mark_used_free_set by auto with lia.
    split_and!; [apply mark_used_wf; auto with lia | done |].
    apply set_eq; intros x. rewrite Hf, !elem_of_difference, !elem_of_page_range,
      elem_of_singleton. intuition lia.
Qed.

Lemma mark_free_range a b s :
  pmm_wf s -> 0 <= a -> b <= total_pages s ->
  let s' := for_to a b pmm_mark_page_free s in
  pmm_wf s' /\ total_pages s' = total_pages s /\
  free_set s' = free_set s ∪ (page_range a (b - a) ∖ {[0]}).
Proof.
  intros Hwf Ha Hb s'. subst s'. destruct (Z.leb_spec a b) as [Hab|Hab].
  2: { rewrite for_to_empty by lia. split_and!; [done | done |].
       apply set_eq; intros x. rewrite elem_of_union, elem_of_difference, elem_of_page_range.
       intuition lia. }
  apply (for_to_inv (fun j t => pmm_wf t /\ total_pages t = total_pages s /\
    free_set t = free_set s ∪ (page_range a (j - a) ∖ {[0]}))); [lia | |].
  - split_and!; [done | done |]. apply set_eq; intros x.
    rewrite elem_of_union, elem_of_difference, elem_of_page_range. intuition lia.
  - intros j t Hj (Hw & Ht & Hf). rewrite total_mark_free, mark_free_free_set by auto with lia.
    split_and!; [apply mark_free_wf; auto with lia | done |].
    apply set_eq; intros x.
    case_decide; rewrite Hf, !elem_of_union, !elem_of_difference, !elem_of_page_range,
      ?elem_of_singleton; intuition lia.
Qed.

Lemma clamp_range s a n :
  pmm_wf s -> 0 <= a -> 0 <= n ->
  0 <= pmm_clamp_page_count s a n /\
  (0 < pmm_clamp_page_count s a n -> a + pmm_clamp_page_count s a n <= total_pages s) /\
  (a < total_pages s -> u64 (a + pmm_clamp_page_count s a n) = a + pmm_clamp_page_count s a n).
Proof.
  intros Hwf Ha Hn. pose proof (wf_total s Hwf) as Ht. rewrite max_bits_val in Ht.
  unfold pmm_clamp_page_count.
  destruct (a >=? total_pages s) eqn:E; [split; [lia | split; [lia |]]; bool_to_prop; lia |].
  bool_to_prop. destruct (n >? total_pages s - a) eqn:E2; bool_to_prop;
    (split; [lia | split; [lia |]]); intros; apply u64_id; lia.
Qed.

Lemma clamp_loop {S} s a n (f : Z -> S -> S) t :
  pmm_wf s -> 0 <= a < 2 ^ 64 -> 0 <= n ->
  for_to a (u64 (a + pmm_clamp_page_count s a n)) f t =
  for_to a (a + pmm_clamp_page_count s a n) f t.
Proof.
  intros Hwf Ha Hn. destruct (clamp_range s a n Hwf ltac:(lia) Hn) as (_ & _ & H).
  destruct (Z.ltb_spec a (total_pages s)); [rewrite H; done |].
  unfold pmm_clamp_page_count. rewrite Z.geb_leb.
  replace (total_pages s <=? a) with true by lia.
  rewrite Z.add_0_r, u64_id by lia. done.
Qed.

Lemma region_page_count_nonneg n : 0 <= pmm_region_page_count n.
Proof.
  unfold pmm_region_page_count. case_match; [lia |].
  pose proof (u64_range (n + PMM_PAGE_SIZE - 1)). unfold PMM_PAGE_SIZE in *. word_lia.
Qed.

Lemma page_of_range base : 0 <= base < 2 ^ 64 -> 0 <= base / PMM_PAGE_SIZE < 2 ^ 52.
Proof. intros. unfold PMM_PAGE_SIZE. word_lia. Qed.

Lemma reserve_region_spec base length s :
  pmm_wf s -> 0 <= base < 2 ^ 64 ->
  let s' := pmm_reserve_region base length s in
  pmm_wf s' /\ total_pages s' = total_pages s /\
  free_set s' = free_set s ∖ region_pages s base length.
Proof.
  intros Hwf Hb. pose proof (page_of_range base Hb). unfold pmm_reserve_region.
  rewrite clamp_loop; auto using region_page_count_nonneg; [| lia].
  destruct (mark_used_range (base / PMM_PAGE_SIZE) (base / PMM_PAGE_SIZE +
    pmm_clamp_page_count s (base / PMM_PAGE_SIZE) (pmm_region_page_count length)) s)
    as (H1 & H2 & H3); [done | lia |].
  split_and!; [done | done |]. rewrite H3. unfold region_pages. do 2 f_equal. lia.
Qed.

Lemma unreserve_region_spec base length s :
  pmm_wf s -> 0 <= base < 2 ^ 64 ->
  let s' := pmm_unreserve_region base length s in
  pmm_wf s' /\ total_pages s' = total_pages s /\
  free_set s' = free_set s ∪ (region_pages s base length ∖ {[0]}).
Proof.
  intros Hwf Hb. pose proof (page_of_range base Hb). unfold pmm_unreserve_region.
  rewrite clamp_loop; auto using region_page_count_nonneg; [| lia].
  destruct (clamp_range s (base / PMM_PAGE_SIZE) (pmm_region_page_count length))
    as (C1 & C2 & _); auto using region_page_count_nonneg; [lia |].
  set (c := pmm_clamp_page_count _ _ _) in *.
  destruct (decide (c = 0)) as [E|E].
  - rewrite for_to_empty by lia. split_and!; [done | done |].
    unfold region_pages. fold c. rewrite E. apply set_eq; intros x.
    rewrite elem_of_union, elem_of_difference, elem_of_page_range. intuition lia.
  - destruct (mark_free_range (base / PMM_PAGE_SIZE) (base / PMM_PAGE_SIZE + c) s)
      as (H1 & H2 & H3); [done | lia | lia |].
    split_and!; [done | done |]. rewrite H3. unfold region_pages. fold c.
    do 3 f_equal. lia.
Qed.

(** *** Searching *)
Lemma seek_loop_spec s fuel next :
  total_pages s - next <= Z.of_nat fuel -> next <= total_pages s ->
  let r := seek_loop fuel s next in
  next <= r <= total_pages s /\
  (forall p, next <= p < r -> bitmap_test (bitmap s) p = true) /\
  (r < total_pages s -> bitmap_test (bitmap s) r = false).
Proof.
  revert next; induction fuel as [|fuel IH]; intros next Hfuel Hn; simpl.
  - split_and!; lia.
  - destruct ((next <? total_pages s) && bitmap_test (bitmap s) next) eqn:E.
    + apply andb_true_iff in E as [E1 E2]. bool_to_prop.
      destruct (IH (next + 1)) as (R1 & R2 & R3); [lia | lia |].
      split_and!; [lia | lia | | done]. intros p Hp.
      destruct (decide (p = next)) as [->|]; [done |]. apply R2. lia.
    + split_and!; [lia | lia | lia |]. intros Hlt.
      apply andb_false_iff in E as [E|E]; [bool_to_prop; lia | done].
Qed.

Lemma free_set_with_next n s : free_set (with_next n s) = free_set s.
Proof. done. Qed.

(** Moving the search hint up to the first free page keeps the state
    well formed. *)
Lemma with_next_wf n s :
  pmm_wf s -> 0 <= n <= total_pages s -> (forall q, q ∈ free_set s -> n <= q) ->
  pmm_wf (with_next n s).
Proof. intros [] Hn Hl. constructor; done. Qed.

Lemma seek_wf s :
  pmm_wf s -> pmm_wf (pmm_seek_next_free_page s) /\
  free_set (pmm_seek_next_free_page s) = free_set s /\
  total_pages (pmm_seek_next_free_page s) = total_pages s.
Proof.
  intros Hwf. split_and!; [| done | done].
  pose proof (wf_next s Hwf). pose proof (wf_low s Hwf) as Hlow.
  destruct (seek_loop_spec s (Z.to_nat (total_pages s - next_free_page s)) (next_free_page s))
    as (R1 & R2 & R3); [lia | lia |].
  apply with_next_wf; [done | lia |].
  intros q Hq. specialize (Hlow q Hq). apply elem_of_free_set in Hq as [Hr Hq].
  destruct (Z.le_gt_cases (seek_loop (Z.to_nat (total_pages s - next_free_page s)) s
    (next_free_page s)) q) as [?|Hlt]; [done |].
  rewrite R2 in Hq by lia. done.
Qed.

Lemma take_page_spec p s :
  pmm_wf s -> p ∈ free_set s -> (forall q, q ∈ free_set s -> p <= q) ->
  let '(s', a) := pmm_take_page p s in
  a = p * PMM_PAGE_SIZE /\ pmm_wf s' /\ total_pages s' = total_pages s /\
  free_set s' = free_set s ∖ {[p]}.
Proof.
  intros Hwf Hp Hlow. unfold pmm_take_page.
  pose proof (wf_total s Hwf) as Ht. rewrite max_bits_val in Ht.
  pose proof Hp as Hp'. apply elem_of_free_set in Hp' as [Hr _].
  pose proof (mark_used_wf p s Hwf ltac:(lia)) as Hwf1.
  pose proof (mark_used_free_set p s Hwf ltac:(lia)) as Hf1.
  pose proof (total_mark_used p s) as Ht1.
  set (s1 := pmm_mark_page_used p s) in *.
  set (n := if p + 1 >=? total_pages s1 then 0 else p + 1).
  assert (Hwf2 : pmm_wf (with_next n s1)).
  { apply with_next_wf; [done | subst n; rewrite Ht1; case_match; bool_to_prop; lia |].
    intros q. rewrite Hf1, elem_of_difference, elem_of_singleton. intros [Hq Hne].
    pose proof (Hlow q Hq). apply elem_of_free_set in Hq. subst n. case_match; lia. }
  destruct (seek_wf _ Hwf2) as (W & F & T).
  split_and!; [| done | rewrite T; done | rewrite F; done].
  unfold PMM_PAGE_SIZE. apply u64_id. lia.
Qed.

Lemma alloc_page_none s :
  pmm_wf s -> free_set s = ∅ -> pmm_alloc_page s = (s, NULL).
Proof.
  intros Hwf He. unfold pmm_alloc_page. rewrite (wf_free s Hwf), He.
  by rewrite size_empty.
Qed.

Lemma alloc_page_lowest s :
  pmm_wf s -> free_set s <> ∅ ->
  exists p, p ∈ free_set s /\ (forall q, q ∈ free_set s -> p <= q) /\
    pmm_alloc_page s = pmm_take_page p s.
Proof.
  intros Hwf Hne. unfold pmm_alloc_page.
  pose proof (wf_low s Hwf) as Hlow. pose proof (wf_free s Hwf) as Hf.
  pose proof (wf_next s Hwf) as Hn.
  apply set_choose_L in Hne as [x Hx].
  assert (size (free_set s) <> 0%nat) by (rewrite size_non_empty_iff; set_solver).
  replace (free_pages s =? 0) with false by lia.
  pose proof (Hlow x Hx). pose proof Hx as Hx'. apply elem_of_free_set in Hx' as [Hxr Hxf].
  destruct (find_to _ _ _) as [p|] eqn:E.
  - apply find_to_Some in E as (Hp & Hfree & Hbelow). apply negb_true_iff in Hfree.
    exists p. split_and!; [| | done].
    + rewrite elem_of_free_set. split; [lia | done].
    + intros q Hq. pose proof (Hlow q Hq). apply elem_of_free_set in Hq as [Hqr Hqf].
      destruct (Z.le_gt_cases p q); [done |].
      rewrite <- (negb_involutive (bitmap_test _ _)), Hbelow in Hqf by lia. done.
  - rewrite find_to_None in E. specialize (E x ltac:(lia)).
    by rewrite Hxf in E.
Qed.

(** *** The interface of [PageAllocator] is met *)
Definition page_addr (p : Z) : Z := p * PMM_PAGE_SIZE.
Definition free_frames (s : pmm_t) : gset Z := set_map page_addr (free_set s).

Lemma elem_of_free_frames s a :
  0 <= a -> a mod PMM_PAGE_SIZE = 0 ->
  a ∈ free_frames s <-> a / PMM_PAGE_SIZE ∈ free_set s.
Proof.
  intros Ha Hm. unfold free_frames, page_addr. rewrite elem_of_map.
  assert (Heq : a = a / PMM_PAGE_SIZE * PMM_PAGE_SIZE)
    by (unfold PMM_PAGE_SIZE in *; word_lia).
  split.
  - intros (p & -> & Hp). unfold PMM_PAGE_SIZE. rewrite Z.div_mul by lia. done.
  - intros Hp. eauto.
Qed.

#[global] Instance pmm_page_allocator : PageAllocator pmm_t := {
  pa_alloc_page := pmm_alloc_page;
  pa_free_page := pmm_free_page;
  pa_ok := pmm_wf;
  pa_free_pages := free_frames;
  pa_limit := fun s => total_pages s * PMM_PAGE_SIZE;
}.

Lemma free_frames_frame s p :
  pmm_wf s -> p ∈ free_frames s -> page_frame (total_pages s * PMM_PAGE_SIZE) p.
Proof.
  intros Hwf Hin. unfold free_frames in Hin. apply elem_of_map in Hin as (q & -> & Hq).
  unfold page_addr, page_frame, PAGE_SIZE, PMM_PAGE_SIZE.
  pose proof (wf_zero s Hwf) as Hz.
  assert (q <> 0) by (intros ->; done).
  apply elem_of_free_set in Hq as [Hr _].
  split_and!; [apply Z.mod_mul; lia | lia | lia].
Qed.

Lemma page_addr_inj p q : page_addr p = page_addr q -> p = q.
Proof. unfold page_addr, PMM_PAGE_SIZE. lia. Qed.

#[global] Instance pmm_page_allocator_laws : PageAllocatorLaws pmm_t.
Proof.
  split; simpl.
  - intros s Hwf. pose proof (wf_total s Hwf) as Ht. rewrite max_bits_val in Ht.
    unfold PMM_PAGE_SIZE. lia.
  - intros s p. apply free_frames_frame.
  - intros s Hwf He. apply alloc_page_none; [done |].
    apply set_eq. intros x. split; [| set_solver]. intros Hx.
    assert (page_addr x ∈ free_frames s) by (unfold free_frames; apply elem_of_map; eauto).
    set_solver.
  - intros s Hwf Hne. destruct (alloc_page_lowest s Hwf) as (p & Hp & Hlow & Heq).
    { intros He. apply Hne. unfold free_frames. rewrite He. set_solver. }
    pose proof (take_page_spec p s Hwf Hp Hlow) as Hspec. rewrite Heq.
    destruct (pmm_take_page p s) as [s' a]. destruct Hspec as (-> & W & T & F).
    exists s', (page_addr p). split_and!; [done | | done | | by rewrite T].
    + unfold free_frames. apply elem_of_map. eauto.
    + unfold free_frames. rewrite F. apply set_eq. intros x.
      rewrite elem_of_difference, !elem_of_map, elem_of_singleton. split.
      * intros (q & -> & Hq). split; [set_solver |]. intros ->%page_addr_inj. set_solver.
      * intros [(q & -> & Hq) Hne']. exists q. set_solver.
  - intros s p Hwf (Hal & Hpos & Hlim). unfold pmm_free_page, pmm_unlock_page, pmm_address_to_page.
    unfold PAGE_SIZE in *. unfold PMM_PAGE_SIZE in *.
    assert (Hpg : 1 <= p / 4096 < total_pages s) by word_lia.
    split_and!; [apply mark_free_wf; [done | lia] | | by rewrite total_mark_free].
    unfold free_frames. rewrite mark_free_free_set, decide_True by (done || lia).
    rewrite set_map_union_L, set_map_singleton_L. f_equal.
    unfold page_addr, PMM_PAGE_SIZE. f_equal. word_lia.
Qed.

(** *** Initialisation *)

(** The page frames [pmm.c] attributes to a region: from the page of its
    base, as many as its length rounded up. *)
Definition region_covers (base length p : Z) : Prop :=
  base / PMM_PAGE_SIZE <= p < base / PMM_PAGE_SIZE + (length + 4095) / PMM_PAGE_SIZE.

Lemma region_pages_covers s base length p :
  0 <= length < 2 ^ 63 ->
  p ∈ region_pages s base length <-> region_covers base length p /\ p < total_pages s.
Proof.
  intros Hl. unfold region_pages, region_covers. rewrite elem_of_page_range.
  unfold pmm_clamp_page_count, pmm_region_page_count.
  generalize (base / PMM_PAGE_SIZE); intros b. unfold PMM_PAGE_SIZE.
  replace (length + 4096 - 1) with (length + 4095) by lia. rewrite u64_id by lia.
  destruct (length =? 0) eqn:E0; bool_to_prop.
  - subst. change ((0 + 4095) / 4096) with 0.
    case_match; [lia |]. case_match; bool_to_prop; lia.
  - assert (1 <= (length + 4095) / 4096) by word_lia.
    case_match; bool_to_prop; [lia |]. case_match; bool_to_prop; lia.
Qed.

Definition entry_ok (e : memmap_entry) : Prop :=
  0 <= e_base e /\ 0 <= e_length e < 2 ^ 63 /\ e_base e + e_length e < 2 ^ 64.

Section init_spec.
Context (USABLE RECLAIMABLE EXECUTABLE FRAMEBUFFER : Z).
Context (kernel_start kernel_end : Z).

Lemma mark_usable_cons e response s :
  pmm_mark_usable USABLE (e :: response) s =
  pmm_mark_usable USABLE response
    (if negb (e_type e =? USABLE) then s else pmm_unreserve_region (e_base e) (e_length e) s).
Proof. unfold pmm_mark_usable; simpl. case_match; done. Qed.

Lemma reserve_type_cons e type response s :
  pmm_reserve_memmap_type (e :: response) type s =
  pmm_reserve_memmap_type response type
    (if negb (e_type e =? type) then s else pmm_reserve_region (e_base e) (e_length e) s).
Proof. unfold pmm_reserve_memmap_type; simpl. case_match; done. Qed.

Lemma mark_usable_spec response s :
  pmm_wf s -> Forall entry_ok response ->
  let s' := pmm_mark_usable USABLE response s in
  pmm_wf s' /\ total_pages s' = total_pages s /\
  forall p, p ∈ free_set s' <->
    p ∈ free_set s \/
    (p <> 0 /\ p < total_pages s /\ exists e, e ∈ response /\ e_type e = USABLE /\
       region_covers (e_base e) (e_length e) p).
Proof.
  revert s; induction response as [|e response IH]; intros s Hwf Hok.
  - split_and!; [done | done |]. intros p. set_solver.
  - apply Forall_cons in Hok as [(Hb & Hl & Hs) Hok]. rewrite mark_usable_cons.
    destruct (negb (e_type e =? USABLE)) eqn:E; bool_to_prop.
    + destruct (IH s Hwf Hok) as (W & T & F). split_and!; [done | done |].
      intros p. rewrite F. setoid_rewrite elem_of_cons. naive_solver.
    + destruct (unreserve_region_spec (e_base e) (e_length e) s) as (W1 & T1 & F1);
        [done | lia |].
      destruct (IH _ W1 Hok) as (W & T & F).
      split_and!; [done | by rewrite T |]. intros p. rewrite F, F1, T1.
      rewrite elem_of_union, elem_of_difference, elem_of_singleton, region_pages_covers by lia.
      setoid_rewrite elem_of_cons. naive_solver.
Qed.

Lemma reserve_type_spec type response s :
  pmm_wf s -> Forall entry_ok response ->
  let s' := pmm_reserve_memmap_type response type s in
  pmm_wf s' /\ total_pages s' = total_pages s /\
  forall p, p ∈ free_set s' <->
    p ∈ free_set s /\
    (forall e, e ∈ response -> e_type e = type -> ~ region_covers (e_base e) (e_length e) p).
Proof.
  revert s; induction response as [|e response IH]; intros s Hwf Hok.
  - split_and!; [done | done |]. intros p. set_solver.
  - apply Forall_cons in Hok as [(Hb & Hl & Hs) Hok]. rewrite reserve_type_cons.
    destruct (negb (e_type e =? type)) eqn:E; bool_to_prop.
    + destruct (IH s Hwf Hok) as (W & T & F). split_and!; [done | done |].
      intros p. rewrite F. set_solver.
    + destruct (reserve_region_spec (e_base e) (e_length e) s) as (W1 & T1 & F1);
        [done | lia |].
      destruct (IH _ W1 Hok) as (W & T & F).
      split_and!; [done | by rewrite T |]. intros p. rewrite F, F1.
      rewrite elem_of_difference, region_pages_covers by lia.
      assert (p ∈ free_set s -> p < total_pages s) by (rewrite elem_of_free_set; lia).
      set_solver.
Qed.

Lemma totals_range response s :
  0 <= total_pages (pmm_totals USABLE response s) < 2 ^ 52 /\
  free_pages (pmm_totals USABLE response s) = 0 /\
  used_pages (pmm_totals USABLE response s) = 0 /\
  next_free_page (pmm_totals USABLE response s) = 0.
Proof.
  unfold pmm_totals; simpl.
  set (s0 := mk_pmm _ _ _ _ _ _ _ _ _ _ _).
  assert (H : forall t, free_pages t = 0 /\ used_pages t = 0 /\ next_free_page t = 0 ->
    let t' := foldl (pmm_count_entry USABLE) t response in
    free_pages t' = 0 /\ used_pages t' = 0 /\ next_free_page t' = 0).
  { induction response as [|e response IH]; intros t Ht; [done |]. apply IH. done. }
  destruct (H s0) as (? & ? & ?); [done |]. split_and!; try done;
    pose proof (u64_range (highest_address (foldl (pmm_count_entry USABLE) s0 response)
      + PMM_PAGE_SIZE - 1)); unfold PMM_PAGE_SIZE in *; word_lia.
Qed.

(** The state right after [bitmap_init]: everything reserved. *)
Lemma fresh_bitmap_wf response s :
  let s1 := pmm_totals USABLE response s in
  total_pages s1 <= PMM_BITMAP_MAX_BITS ->
  let s2 := with_pages (bitmap_init (bytes (bitmap s1)) (total_pages s1))
              (free_pages s1) (used_pages s1) (next_free_page s1) s1 in
  pmm_wf s2 /\ free_set s2 = ∅.
Proof.
  intros s1 Hmax s2. destruct (totals_range response s) as (T & F & U & N). fold s1 in T, F, U, N.
  rewrite max_bits_val in Hmax.
  assert (He : free_set s2 = ∅).
  { apply set_eq. intros p. rewrite elem_of_free_set. split; [| set_solver].
    change (total_pages s2) with (total_pages s1). intros [Hr Hp].
    change (bitmap s2) with (bitmap_init (bytes (bitmap s1)) (total_pages s1)) in Hp.
    rewrite test_init in Hp by lia. done. }
  assert (Hf : free_pages s2 = 0) by exact F. assert (Hu : used_pages s2 = 0) by exact U.
  assert (Hn : next_free_page s2 = 0) by exact N.
  assert (Ht : total_pages s2 = total_pages s1) by done.
  split; [| done].
  constructor; rewrite ?He, ?Hf, ?Hu, ?Hn, ?Ht, ?max_bits_val; try lia.
  - apply bits_init.
  - done.
  - set_solver.
  - set_solver.
Qed.

Definition kernel_region (executable_response : option Z) (p : Z) : Prop :=
  match executable_response with
  | Some physical_base => region_covers physical_base (u64 (kernel_end - kernel_start)) p
  | None => False
  end.

(** Which pages are free after [pmm_init]. *)
Definition initially_free (response : list memmap_entry) (executable_response : option Z)
    (p : Z) : Prop :=
  p <> 0 /\
  (exists e, e ∈ response /\ e_type e = USABLE /\ region_covers (e_base e) (e_length e) p) /\
  ~ kernel_region executable_response p /\
  (forall e, e ∈ response ->
     e_type e = RECLAIMABLE \/ e_type e = EXECUTABLE \/ e_type e = FRAMEBUFFER ->
     ~ region_covers (e_base e) (e_length e) p).

Lemma init_spec response exe s :
  Forall entry_ok response ->
  total_pages (pmm_totals USABLE response s) <= PMM_BITMAP_MAX_BITS ->
  (forall b, exe = Some b -> 0 <= b < 2 ^ 64 /\ u64 (kernel_end - kernel_start) < 2 ^ 63) ->
  let s' := pmm_init USABLE RECLAIMABLE EXECUTABLE FRAMEBUFFER kernel_start kernel_end
              response exe s in
  pmm_wf s' /\ total_pages s' = total_pages (pmm_totals USABLE response s) /\
  forall p, p ∈ free_set s' <->
    initially_free response exe p /\ p < total_pages s'.
Proof.
  intros Hok Hmax Hexe. unfold pmm_init.
  destruct (totals_range response s) as (T & _).
  destruct (fresh_bitmap_wf response s Hmax) as [W2 F2].
  set (s1 := pmm_totals USABLE response s) in *.
  assert (Hg : (bitmap_size s1 >? PMM_BITMAP_MAX_SIZE) || (total_pages s1 >? PMM_BITMAP_MAX_BITS)
    = false).
  { apply orb_false_iff. split; [| lia]. rewrite max_bits_val in Hmax.
    change (bitmap_size s1) with (u64 (total_pages s1 + 7) / 8).
    unfold PMM_BITMAP_MAX_SIZE. word_lia. }
  rewrite Hg. set (s2 := with_pages _ _ _ _ s1) in *.
  assert (T2 : total_pages s2 = total_pages s1) by done.
  destruct (mark_usable_spec response s2 W2 Hok) as (W3 & T3 & F3).
  set (s3 := pmm_mark_usable USABLE response s2) in *.
  destruct (reserve_region_spec 0 PMM_PAGE_SIZE s3 W3) as (W4 & T4 & F4); [lia |].
  set (s4 := pmm_reserve_region 0 PMM_PAGE_SIZE s3) in *.
  set (s5 := match exe with Some _ => _ | None => _ end).
  assert (H5 : pmm_wf s5 /\ total_pages s5 = total_pages s4 /\
    forall p, p ∈ free_set s5 <-> p ∈ free_set s4 /\ ~ kernel_region exe p).
  { subst s5. destruct exe as [b|]; simpl; [| naive_solver].
    destruct (Hexe b eq_refl) as [Hb Hk].
    destruct (reserve_region_spec b (u64 (kernel_end - kernel_start)) s4 W4 Hb) as (W & Tt & F).
    split_and!; [done | done |]. intros p.
    pose proof (u64_range (kernel_end - kernel_start)).
    rewrite F, elem_of_difference, region_pages_covers by lia.
    assert (p ∈ free_set s4 -> p < total_pages s4) by (rewrite elem_of_free_set; lia).
    naive_solver. }
  destruct H5 as (W5 & T5 & F5).
  destruct (reserve_type_spec RECLAIMABLE response s5 W5 Hok) as (W6 & T6 & F6).
  set (s6 := pmm_reserve_memmap_type response RECLAIMABLE s5) in *.
  destruct (reserve_type_spec EXECUTABLE response s6 W6 Hok) as (W7 & T7 & F7).
  set (s7 := pmm_reserve_memmap_type response EXECUTABLE s6) in *.
  destruct (reserve_type_spec FRAMEBUFFER response s7 W7 Hok) as (W8 & T8 & F8).
  set (s8 := pmm_reserve_memmap_type response FRAMEBUFFER s7) in *.
  destruct (seek_wf s8 W8) as (W9 & F9 & T9).
  split_and!; [done | by rewrite T9, T8, T7, T6, T5, T4, T3, T2 |].
  intros p. rewrite F9, F8, F7, F6, F5, F4, elem_of_difference, F3, F2, T9, T8, T7, T6, T5, T4, T3.
  rewrite region_pages_covers by (unfold PMM_PAGE_SIZE; lia).
  unfold initially_free.
  assert (H0 : region_covers 0 PMM_PAGE_SIZE p <-> p = 0).
  { unfold region_covers, PMM_PAGE_SIZE. change (0 / 4096) with 0.
    change ((4096 + 4095) / 4096) with 1. lia. }
  rewrite H0. split.
  - intros (((((Hfree & _) & ?) & A) & B) & C).
    destruct Hfree as [[]%not_elem_of_empty | (? & ? & ?)].
    split; [| done]. split_and!; [done | done | done |].
    intros e He [?|[?|?]]; eauto.
  - intros ((? & ? & ? & Hres) & ?).
    split_and!; [right; auto | tauto | done | ..]; intros e He ?; eauto.
Qed.
End init_spec.

(** *** Sequences of calls *)
Inductive pmm_op :=
| OpAllocPage
| OpFreePage (address : Z)
| OpLockPage (address : Z)
| OpUnlockPage (address : Z)
| OpReserveRegion (base length : Z)
| OpUnreserveRegion (base length : Z)
| OpLockPages (address count : Z)
| OpUnlockPages (address count : Z).

(** The arguments are [uint64_t]. *)
Definition op_args_ok (op : pmm_op) : Prop :=
  match op with
  | OpAllocPage => True
  | OpFreePage a | OpLockPage a | OpUnlockPage a => 0 <= a < 2 ^ 64
  | OpReserveRegion a n | OpUnreserveRegion a n
  | OpLockPages a n | OpUnlockPages a n => 0 <= a < 2 ^ 64 /\ 0 <= n < 2 ^ 64
  end.

(** Calls that never make a page free. *)
Definition op_only_takes (op : pmm_op) : bool :=
  match op with
  | OpAllocPage | OpLockPage _ | OpReserveRegion _ _ | OpLockPages _ _ => true
  | _ => false
  end.

(** One call; the pages handed out so far are accumulated. *)
Definition run_op (op : pmm_op) (st : pmm_t * list Z) : pmm_t * list Z :=
  let '(s, out) := st in
  match op with
  | OpAllocPage =>
      let '(s', a) := pmm_alloc_page s in
      (s', if a =? NULL then out else a :: out)
  | OpFreePage a => (pmm_free_page a s, out)
  | OpLockPage a => (pmm_lock_page a s, out)
  | OpUnlockPage a => (pmm_unlock_page a s, out)
  | OpReserveRegion b n => (pmm_reserve_region b n s, out)
  | OpUnreserveRegion b n => (pmm_unreserve_region b n s, out)
  | OpLockPages a n => (pmm_lock_pages a n s, out)
  | OpUnlockPages a n => (pmm_unlock_pages a n s, out)
  end.

Definition run_ops (ops : list pmm_op) (st : pmm_t * list Z) : pmm_t * list Z :=
  foldl (fun st op => run_op op st) st ops.

(** The counting loops of [pmm_lock_pages] and [pmm_unlock_pages] are the
    region loops started at the page. *)
Lemma pages_loop {S} s page count (f : Z -> S -> S) t :
  pmm_wf s -> 0 <= page -> 0 <= count ->
  for_to 0 (pmm_clamp_page_count s page count) (fun i => f (u64 (page + i))) t =
  for_to page (page + pmm_clamp_page_count s page count) f t.
Proof.
  intros Hwf Hp Hc. destruct (clamp_range s page count Hwf Hp Hc) as (C1 & C2 & _).
  pose proof (wf_total s Hwf) as Ht. rewrite max_bits_val in Ht.
  set (c := pmm_clamp_page_count s page count) in *.
  unfold for_to. replace (Z.to_nat (c - 0)) with (Z.to_nat (page + c - page)) by lia.
  trans (for_range (Z.to_nat (page + c - page)) 0 (fun j => f (page + j)) t).
  - apply for_range_ext. intros j u Hj. f_equal. apply u64_id. lia.
  - rewrite for_range_shift. f_equal. lia.
Qed.

Lemma lock_pages_spec address count s :
  pmm_wf s -> 0 <= address < 2 ^ 64 -> 0 <= count ->
  let s' := pmm_lock_pages address count s in
  pmm_wf s' /\ free_set s' ⊆ free_set s.
Proof.
  intros Hwf Ha Hc. unfold pmm_lock_pages, pmm_address_to_page.
  pose proof (page_of_range address Ha). rewrite pages_loop by (done || lia).
  destruct (mark_used_range (address / PMM_PAGE_SIZE) (address / PMM_PAGE_SIZE +
    pmm_clamp_page_count s (address / PMM_PAGE_SIZE) count) s Hwf) as (W & _ & F); [lia |].
  split; [done |]. rewrite F. set_solver.
Qed.

Lemma unlock_pages_wf address count s :
  pmm_wf s -> 0 <= address < 2 ^ 64 -> 0 <= count -> pmm_wf (pmm_unlock_pages address count s).
Proof.
  intros Hwf Ha Hc. unfold pmm_unlock_pages, pmm_address_to_page.
  pose proof (page_of_range address Ha). rewrite pages_loop by (done || lia).
  destruct (clamp_range s (address / PMM_PAGE_SIZE) count Hwf) as (C1 & C2 & _); [lia | lia |].
  destruct (decide (pmm_clamp_page_count s (address / PMM_PAGE_SIZE) count = 0)) as [->|?].
  - rewrite for_to_empty by lia. done.
  - apply mark_free_range; [done | lia | lia].
Qed.

Lemma address_page_nonneg a : 0 <= a -> 0 <= pmm_address_to_page a.
Proof. intros. unfold pmm_address_to_page, PMM_PAGE_SIZE. word_lia. Qed.

#[export] Hint Resolve address_page_nonneg unlock_pages_wf : zenith.

(** Allocation through the interface's laws. *)
Lemma alloc_page_cases s s' a :
  pmm_wf s -> pmm_alloc_page s = (s', a) ->
  (a = NULL /\ s' = s) \/
  (a <> NULL /\ a ∈ free_frames s /\ pmm_wf s' /\ free_frames s' = free_frames s ∖ {[a]}).
Proof.
  intros Hwf Ha. pose proof (pa_alloc_cases (A:=pmm_t) s s' a) as H. simpl in H.
  destruct (H Hwf Ha) as [(? & ? & ?)|(? & ? & ? & ? & ? & ?)]; [left | right]; auto.
Qed.

Lemma run_op_wf op s out :
  pmm_wf s -> op_args_ok op -> pmm_wf (run_op op (s, out)).1.
Proof.
  intros Hwf Hok. destruct op; simpl in *.
  - destruct (pmm_alloc_page s) as [s' a] eqn:E.
    destruct (alloc_page_cases s s' a Hwf E) as [(? & ->)|(_ & _ & ? & _)]; done.
  - apply mark_free_wf; [done | apply address_page_nonneg; lia].
  - apply mark_used_wf; [done | apply address_page_nonneg; lia].
  - apply mark_free_wf; [done | apply address_page_nonneg; lia].
  - apply reserve_region_spec; [done | lia].
  - apply unreserve_region_spec; [done | lia].
  - apply lock_pages_spec; [done | lia | lia].
  - apply unlock_pages_wf; [done | lia | lia].
Qed.

Lemma frames_subset s s' : free_set s' ⊆ free_set s -> free_frames s' ⊆ free_frames s.
Proof. intros H. unfold free_frames. set_solver. Qed.

(** Pages handed out stay out of the free pages while nothing is given back. *)
Lemma run_op_takes op s out :
  pmm_wf s -> op_args_ok op -> op_only_takes op = true ->
  NoDup out -> (forall a, a ∈ out -> a ∉ free_frames s) ->
  let '(s', out') := run_op op (s, out) in
  NoDup out' /\ (forall a, a ∈ out' -> a ∉ free_frames s') /\
  free_frames s' ⊆ free_frames s /\ (forall a, a ∈ out' -> a ∈ out \/ a ∈ free_frames s).
Proof.
  intros Hwf Hok Ht Hnd Hout.
  assert (Hsub : forall s', free_set s' ⊆ free_set s ->
    NoDup out /\ (forall a, a ∈ out -> a ∉ free_frames s') /\
    free_frames s' ⊆ free_frames s /\ (forall a, a ∈ out -> a ∈ out \/ a ∈ free_frames s)).
  { intros s' Hs%frames_subset. split_and!; [done | | done | auto].
    intros a Ha Hin. apply (Hout a Ha). auto. }
  destruct op; simpl in *; try done.
  - destruct (pmm_alloc_page s) as [s' a] eqn:E.
    destruct (alloc_page_cases s s' a Hwf E) as [(-> & ->)|(Hn & Hin & W & F)].
    + rewrite Z.eqb_refl. auto.
    + replace (a =? NULL) with false by (symmetry; by apply Z.eqb_neq).
      rewrite F. split_and!.
      * constructor; [| done]. intros Ha. by apply (Hout a Ha).
      * intros b [->|Hb]%elem_of_cons; [set_solver |]. specialize (Hout b Hb). set_solver.
      * set_solver.
      * intros b [->|Hb]%elem_of_cons; auto.
  - apply Hsub. unfold pmm_lock_page.
    rewrite mark_used_free_set by (done || apply address_page_nonneg; lia). set_solver.
  - apply Hsub. destruct (reserve_region_spec base length s Hwf) as (_ & _ & ->); [lia |].
    set_solver.
  - apply Hsub. apply lock_pages_spec; [done | lia | lia].
Qed.

(** ** Properties *)

(** after [pmm_init] on a memory map that fits the static bitmap, the
    allocator state is well formed and the free pages are exactly the pages
    covered by a usable entry that are not page zero, not in the kernel image
    and not in a bootloader, executable or framebuffer entry. *)
Theorem pmm_init_free_pages USABLE RECLAIMABLE EXECUTABLE FRAMEBUFFER kernel_start kernel_end
    response exe s
    (Hentries : Forall entry_ok response)
    (Hfits : total_pages (pmm_totals USABLE response s) <= PMM_BITMAP_MAX_BITS)
    (Hkernel : forall b, exe = Some b -> 0 <= b < 2 ^ 64 /\ u64 (kernel_end - kernel_start) < 2 ^ 63) :
  let s' := pmm_init USABLE RECLAIMABLE EXECUTABLE FRAMEBUFFER kernel_start kernel_end
              response exe s in
  pmm_wf s' /\
  pmm_get_free_pages s' = Z.of_nat (size (free_set s')) /\
  forall p, (0 <= p < total_pages s' /\ bitmap_test (bitmap s') p = false) <->
    initially_free USABLE RECLAIMABLE EXECUTABLE FRAMEBUFFER kernel_start kernel_end
      response exe p /\ p < total_pages s'.
Proof.
  destruct (init_spec USABLE RECLAIMABLE EXECUTABLE FRAMEBUFFER kernel_start kernel_end
    response exe s Hentries Hfits Hkernel) as (W & T & F).
  split_and!; [done | apply (wf_free _ W) |].
  intros p. rewrite <- elem_of_free_set. apply F.
Qed.

(** A machine with eight usable pages, a bootloader region over the last of
    them and the kernel on page 2. *)
Definition demo_memmap : list memmap_entry :=
  [mk_entry 0 0x8000 0; mk_entry 0x7000 0x1000 5; mk_entry 0x8000 0x10000 1].
Definition zero_pmm : pmm_t := mk_pmm (mk_bitmap ∅ 0) 0 0 0 0 0 0 0 0 0 0.
Definition demo_pmm : pmm_t := pmm_init 0 5 6 7 0 0x1000 demo_memmap (Some 0x2000) zero_pmm.

Lemma demo_pmm_wf : pmm_wf demo_pmm.
Proof.
  apply init_spec.
  - repeat constructor; simpl; lia.
  - vm_compute. congruence.
  - intros b [= <-]. split; [lia | vm_compute; done].
Qed.

Lemma pmm_init_free_pages_witness :
  let s' := pmm_init 0 5 6 7 0 0x1000 demo_memmap (Some 0x2000) zero_pmm in
  Forall entry_ok demo_memmap /\ pmm_get_free_pages s' = 5 /\ pmm_wf s'.
Proof.
  assert (Hok : Forall entry_ok demo_memmap) by (repeat constructor; simpl; lia).
  split; [exact Hok |]. split; [reflexivity |].
  refine (proj1 (pmm_init_free_pages 0 5 6 7 0 0x1000 demo_memmap (Some 0x2000) zero_pmm Hok _ _)).
  - vm_compute. congruence.
  - intros b [= <-]. split; [lia | vm_compute; done].
Defined.

(** [pmm_alloc_page] either returns NULL and changes nothing, exactly when
    no page is free, or returns the lowest free page, which it marks used
    while every other page keeps its status; the counters follow. *)
Theorem pmm_alloc_page_correct s s' a
    (Hwf : pmm_wf s) (Halloc : pmm_alloc_page s = (s', a)) :
  pmm_wf s' /\
  ((a = NULL /\ s' = s /\ pmm_get_free_pages s = 0) \/
   (a <> NULL /\ a mod PMM_PAGE_SIZE = 0 /\
    a / PMM_PAGE_SIZE ∈ free_set s /\
    (forall q, q ∈ free_set s -> a / PMM_PAGE_SIZE <= q) /\
    free_set s' = free_set s ∖ {[a / PMM_PAGE_SIZE]} /\
    pmm_get_free_pages s' = pmm_get_free_pages s - 1)).
Proof.
  destruct (decide (free_set s = ∅)) as [He|Hne].
  - rewrite alloc_page_none in Halloc by done. simplify_eq. split; [done |]. left.
    split_and!; [done | done |]. unfold pmm_get_free_pages.
    by rewrite (wf_free _ Hwf), He, size_empty.
  - destruct (alloc_page_lowest s Hwf Hne) as (p & Hp & Hlow & Heq).
    pose proof (take_page_spec p s Hwf Hp Hlow) as Hs. rewrite <- Heq, Halloc in Hs.
    destruct Hs as (-> & W & T & F). split; [done |]. right.
    pose proof (wf_zero s Hwf) as Hz. assert (p <> 0) by (intros ->; done).
    unfold PMM_PAGE_SIZE in *. rewrite Z.div_mul, Z.mod_mul by lia.
    split_and!; try done; [unfold NULL; lia |].
    unfold pmm_get_free_pages. rewrite (wf_free _ W), (wf_free _ Hwf), F.
    by apply size_remove.
Qed.

Lemma pmm_alloc_page_correct_witness :
  pmm_wf demo_pmm /\ (pmm_alloc_page demo_pmm).2 = 0x1000 /\
  pmm_wf (pmm_alloc_page demo_pmm).1.
Proof.
  split; [exact demo_pmm_wf |]. split; [reflexivity |].
  destruct (pmm_alloc_page demo_pmm) as [s' a] eqn:E.
  exact (proj1 (pmm_alloc_page_correct demo_pmm s' a demo_pmm_wf E)).
Defined.

(** freeing the page an allocation returned restores the free pages and
    their count. *)
Theorem pmm_alloc_free_roundtrip s s' a
    (Hwf : pmm_wf s) (Halloc : pmm_alloc_page s = (s', a)) (Hnn : a <> NULL) :
  pmm_wf (pmm_free_page a s') /\
  free_set (pmm_free_page a s') = free_set s /\
  pmm_get_free_pages (pmm_free_page a s') = pmm_get_free_pages s.
Proof.
  destruct (decide (free_set s = ∅)) as [He|Hne].
  { rewrite alloc_page_none in Halloc by done. simplify_eq. }
  destruct (alloc_page_lowest s Hwf Hne) as (p & Hp & Hlow & Heq).
  pose proof (take_page_spec p s Hwf Hp Hlow) as Hs. rewrite <- Heq, Halloc in Hs.
  destruct Hs as (-> & W & T & F).
  pose proof (wf_zero s Hwf) as Hz. assert (p <> 0) by (intros ->; done).
  pose proof Hp as Hp'. apply elem_of_free_set in Hp' as [Hr _].
  unfold pmm_free_page, pmm_unlock_page, pmm_address_to_page.
  rewrite Z.div_mul by (unfold PMM_PAGE_SIZE; lia).
  assert (Wf : pmm_wf (pmm_mark_page_free p s')) by (apply mark_free_wf; [done | lia]).
  assert (Ff : free_set (pmm_mark_page_free p s') = free_set s).
  { rewrite mark_free_free_set, decide_True, F by (done || lia).
    apply set_eq. intros x. rewrite elem_of_union, elem_of_difference, elem_of_singleton.
    destruct (decide (x = p)) as [->|]; tauto. }
  split_and!; [done | done |].
  unfold pmm_get_free_pages. by rewrite (wf_free _ Wf), (wf_free _ Hwf), Ff.
Qed.

Lemma pmm_alloc_free_roundtrip_witness :
  let '(s', a) := pmm_alloc_page demo_pmm in
  a <> NULL /\ pmm_get_free_pages (pmm_free_page a s') = pmm_get_free_pages demo_pmm.
Proof.
  destruct (pmm_alloc_page demo_pmm) as [s' a] eqn:E.
  assert (Ha : a = 0x1000) by (change a with (s', a).2; rewrite <- E; reflexivity).
  assert (Hn : a <> NULL) by (rewrite Ha; vm_compute; discriminate).
  split; [exact Hn |].
  exact (proj2 (proj2 (pmm_alloc_free_roundtrip demo_pmm s' a demo_pmm_wf E Hn))).
Defined.

(** reserving a region takes exactly its pages out of the free pages and
    unreserving gives exactly its pages back (page zero excepted), clamped to
    the managed range, keeping the state well formed. *)
Theorem pmm_region_operations base length s
    (Hwf : pmm_wf s) (Hbase : 0 <= base < 2 ^ 64) (Hlength : 0 <= length < 2 ^ 63) :
  (pmm_wf (pmm_reserve_region base length s) /\
   forall p, p ∈ free_set (pmm_reserve_region base length s) <->
     p ∈ free_set s /\ ~ region_covers base length p) /\
  (pmm_wf (pmm_unreserve_region base length s) /\
   forall p, p ∈ free_set (pmm_unreserve_region base length s) <->
     p ∈ free_set s \/ (region_covers base length p /\ p < total_pages s /\ p <> 0)).
Proof.
  destruct (reserve_region_spec base length s Hwf Hbase) as (W1 & _ & F1).
  destruct (unreserve_region_spec base length s Hwf Hbase) as (W2 & _ & F2).
  split; (split; [done |]); intros p.
  - rewrite F1, elem_of_difference, region_pages_covers by lia.
    assert (p ∈ free_set s -> p < total_pages s) by (rewrite elem_of_free_set; lia). tauto.
  - rewrite F2, elem_of_union, elem_of_difference, region_pages_covers, elem_of_singleton by lia.
    tauto.
Qed.

Lemma pmm_region_operations_witness :
  pmm_wf (pmm_reserve_region 0x3000 0x2000 demo_pmm) /\
  pmm_get_free_pages (pmm_reserve_region 0x3000 0x2000 demo_pmm) = 3.
Proof.
  split; [| reflexivity].
  exact (proj1 (proj1 (pmm_region_operations 0x3000 0x2000 demo_pmm demo_pmm_wf
    ltac:(lia) ltac:(lia)))).
Defined.

(** C7: every sequence of calls keeps the allocator well formed; and as long as
    the calls only take pages, no page is ever handed out twice. *)
Theorem pmm_calls_safe ops s
    (Hwf : pmm_wf s) (Hops : Forall op_args_ok ops) :
  pmm_wf (run_ops ops (s, [])).1 /\
  (forallb op_only_takes ops = true -> NoDup (run_ops ops (s, [])).2).
Proof.
  assert (G : forall out, pmm_wf (run_ops ops (s, out)).1 /\
    (forallb op_only_takes ops = true -> NoDup out ->
     (forall a, a ∈ out -> a ∉ free_frames s) -> NoDup (run_ops ops (s, out)).2)).
  { revert s Hwf. induction ops as [|op ops IH]; intros s Hwf out; [done |].
    apply Forall_cons in Hops as [Hop Hops].
    change (run_ops (op :: ops) (s, out)) with (run_ops ops (run_op op (s, out))).
    pose proof (run_op_wf op s out Hwf Hop) as W.
    pose proof (run_op_takes op s out Hwf Hop) as R.
    destruct (run_op op (s, out)) as [s1 out1].
    destruct (IH Hops s1 W out1) as [W1 N1]. split; [exact W1 |].
    intros [Ht Hts]%andb_true_iff Hnd Hout.
    destruct (R Ht Hnd Hout) as (? & ? & _). apply N1; done. }
  destruct (G []) as [W N]. split; [done |]. intros Ht.
  apply N; [done | constructor | set_solver].
Qed.

Lemma pmm_calls_safe_witness :
  let ops := [OpAllocPage; OpLockPage 0x3000; OpAllocPage; OpAllocPage] in
  Forall op_args_ok ops /\ NoDup (run_ops ops (demo_pmm, [])).2 /\
  (run_ops ops (demo_pmm, [])).2 = [0x5000; 0x4000; 0x1000].
Proof.
  intros ops. assert (Hops : Forall op_args_ok ops) by (repeat constructor; simpl; lia).
  split; [exact Hops |]. split; [| reflexivity].
  exact (proj2 (pmm_calls_safe ops demo_pmm demo_pmm_wf Hops) eq_refl).
Defined.

(** [pmm_get_used_pages] counts from zero although [bitmap_init] starts with
    every page reserved: after initialisation free and used pages do not add
    up to the total. *)
Example pmm_used_pages_undercount :
  pmm_get_free_pages demo_pmm + pmm_get_used_pages demo_pmm < pmm_get_total_pages demo_pmm.
Proof. reflexivity. Qed.

End Pmm.
