(* ===== verification/Vma.v ===== *)
(** * Virtual memory areas: [vmm/vma/vma.c]

    A table of at most 32 areas.  The abstract view of the table is the list
    of its used entries; the operations are shown to append to, delete from
    and update that list while no two areas overlap. *)
From S2P Require Import Prelude.

Module Vma.

Definition VMA_READ : Z := Z.shiftl 1 0.
Definition VMA_WRITE : Z := Z.shiftl 1 1.
Definition VMA_EXECUTE : Z := Z.shiftl 1 2.
Definition VMA_DEMAND_PAGED : Z := Z.shiftl 1 3.

Record vma_t := mk_vma { start : Z; end_ : Z; flags : Z }.

Definition VMA_MAX_COUNT : Z := 32.

(** [vma_table] and [vma_count]. *)
Record vma_state := mk_state { vma_table : list vma_t; vma_count : Z }.

Definition zero_vma : vma_t := mk_vma 0 0 0.

(** [vma_table[i]] and its assignment. *)
Definition entry (t : list vma_t) (i : Z) : vma_t := default zero_vma (t !! Z.to_nat i).
Definition set_entry (i : Z) (v : vma_t) (t : list vma_t) : list vma_t := <[Z.to_nat i := v]> t.

Definition vma_init (s : vma_state) : vma_state :=
  mk_state (for_to 0 VMA_MAX_COUNT (fun i t => set_entry i zero_vma t) (vma_table s)) 0.

(** The overlap test of the loops: [start, stop) against an entry. *)
Definition overlaps (start stop : Z) (v : vma_t) : bool :=
  (start <? end_ v) && (stop >? Vma.start v).

Definition vma_create (start size flags : Z) (s : vma_state) : vma_state * bool :=
  if vma_count s >=? VMA_MAX_COUNT then (s, false)
  else
    let new_end := u64 (start + size) in
    match find_to 0 (vma_count s) (fun i => overlaps start new_end (entry (vma_table s) i)) with
    | Some _ => (s, false)
    | None =>
        (mk_state (set_entry (vma_count s) (mk_vma start (u64 (start + size)) flags) (vma_table s))
           (u32 (vma_count s + 1)), true)
    end.

(** The result points into the table: the index, or [None] for NULL. *)
Definition vma_find (address : Z) (s : vma_state) : option Z :=
  find_to 0 (vma_count s)
    (fun i => (address >=? start (entry (vma_table s) i)) &&
              (address <? end_ (entry (vma_table s) i))).

Definition vma_destroy (start : Z) (s : vma_state) : vma_state * bool :=
  match find_to 0 (vma_count s) (fun i => Vma.start (entry (vma_table s) i) =? start) with
  | None => (s, false)
  | Some i =>
      let t1 := for_to i (vma_count s - 1) (fun j t => set_entry j (entry t (j + 1)) t)
                  (vma_table s) in
      (mk_state (set_entry (vma_count s - 1) zero_vma t1) (vma_count s - 1), true)
  end.

Definition vma_resize (start new_size : Z) (s : vma_state) : vma_state * bool :=
  match find_to 0 (vma_count s) (fun i => Vma.start (entry (vma_table s) i) =? start) with
  | None => (s, false)
  | Some target =>
      let new_end := u64 (start + new_size) in
      match find_to 0 (vma_count s)
              (fun i => negb (i =? target) && overlaps start new_end (entry (vma_table s) i)) with
      | Some _ => (s, false)
      | None =>
          let v := entry (vma_table s) target in
          (mk_state (set_entry target (mk_vma (Vma.start v) new_end (flags v)) (vma_table s))
             (vma_count s), true)
      end
  end.

(** ** The abstract list of areas *)
Definition areas (s : vma_state) : list vma_t := take (Z.to_nat (vma_count s)) (vma_table s).

Definition contains (v : vma_t) (a : Z) : Prop := start v <= a < end_ v.

(** Areas at different positions do not overlap (in the code's sense, which
    for non-empty areas is having no address in common). *)
Definition disjoint_areas (l : list vma_t) : Prop :=
  forall i j v w, l !! i = Some v -> l !! j = Some w -> i <> j ->
    overlaps (start v) (end_ v) w = false.

Record vma_wf (s : vma_state) : Prop := {
  wf_length : length (vma_table s) = 32%nat;
  wf_count : 0 <= vma_count s <= VMA_MAX_COUNT;
  wf_disjoint : disjoint_areas (areas s);
}.

Lemma overlaps_true a b v : overlaps a b v = true <-> a < end_ v /\ start v < b.
Proof. unfold overlaps. rewrite andb_true_iff, Z.ltb_lt, Z.gtb_lt. done. Qed.

Lemma overlaps_false a b v : overlaps a b v = false <-> ~ (a < end_ v /\ start v < b).
Proof. rewrite <- overlaps_true. destruct (overlaps a b v); naive_solver. Qed.

Lemma areas_length s : vma_wf s -> length (areas s) = Z.to_nat (vma_count s).
Proof.
  intros Hwf. unfold areas. rewrite length_take, (wf_length s Hwf).
  pose proof (wf_count s Hwf). unfold VMA_MAX_COUNT in *. lia.
Qed.

Lemma areas_lookup s i :
  vma_wf s -> 0 <= i < vma_count s ->
  areas s !! Z.to_nat i = Some (entry (vma_table s) i).
Proof.
  intros Hwf Hi. unfold areas, entry. rewrite lookup_take_lt by lia.
  pose proof (wf_count s Hwf). pose proof (wf_length s Hwf).
  destruct (vma_table s !! Z.to_nat i) eqn:E; [done |].
  apply lookup_ge_None in E. unfold VMA_MAX_COUNT in *. lia.
Qed.

Lemma areas_lookup_inv s k v :
  vma_wf s -> areas s !! k = Some v ->
  0 <= Z.of_nat k < vma_count s /\ entry (vma_table s) (Z.of_nat k) = v.
Proof.
  intros Hwf Hk. pose proof (lookup_lt_Some _ _ _ Hk) as Hlt. rewrite areas_length in Hlt by done.
  split; [lia |]. pose proof (areas_lookup s (Z.of_nat k) Hwf ltac:(lia)) as H.
  rewrite Nat2Z.id in H. congruence.
Qed.

(** A search over the used entries is a search over the list. *)
Lemma find_areas s p i :
  vma_wf s ->
  find_to 0 (vma_count s) (fun i => p (entry (vma_table s) i)) = Some i ->
  0 <= i < vma_count s /\ exists v, areas s !! Z.to_nat i = Some v /\ p v = true.
Proof.
  intros Hwf (Hi & Hp & _)%find_to_Some. split; [done |].
  exists (entry (vma_table s) i). split; [by apply areas_lookup | done].
Qed.

Lemma find_areas_None s p :
  vma_wf s ->
  find_to 0 (vma_count s) (fun i => p (entry (vma_table s) i)) = None <->
  forall k v, areas s !! k = Some v -> p v = false.
Proof.
  intros Hwf. rewrite find_to_None. split.
  - intros H k v Hk. destruct (areas_lookup_inv s k v Hwf Hk) as [Hr <-]. apply H. lia.
  - intros H i Hi. apply (H (Z.to_nat i)). by apply areas_lookup.
Qed.

Lemma areas_push s v :
  vma_wf s -> vma_count s < VMA_MAX_COUNT ->
  areas (mk_state (set_entry (vma_count s) v (vma_table s)) (u32 (vma_count s + 1))) =
    areas s ++ [v].
Proof.
  intros Hwf Hc. pose proof (wf_count s Hwf). pose proof (wf_length s Hwf).
  unfold VMA_MAX_COUNT in *. unfold areas, set_entry; simpl. rewrite u32_id by lia.
  replace (Z.to_nat (vma_count s + 1)) with (S (Z.to_nat (vma_count s))) by lia.
  assert (Hlt : (Z.to_nat (vma_count s) < length (vma_table s))%nat) by lia.
  erewrite take_S_r by (apply list_lookup_insert_eq; done).
  by rewrite take_insert_ge by lia.
Qed.

Lemma disjoint_app l v :
  disjoint_areas l -> (forall k w, l !! k = Some w -> overlaps (start v) (end_ v) w = false) ->
  disjoint_areas (l ++ [v]).
Proof.
  intros Hl Hv i j x y Hi Hj Hne.
  apply lookup_app_Some in Hi as [Hi | [Hi1 Hi2]]; apply lookup_app_Some in Hj as [Hj | [Hj1 Hj2]].
  - by apply (Hl i j).
  - apply list_lookup_singleton_Some in Hj2 as [Hj2 <-].
    specialize (Hv i x Hi). rewrite overlaps_false in *. lia.
  - apply list_lookup_singleton_Some in Hi2 as [Hi2 <-]. by apply (Hv j).
  - apply list_lookup_singleton_Some in Hi2 as [Hi2 <-].
    apply list_lookup_singleton_Some in Hj2 as [Hj2 <-]. lia.
Qed.

(** The shifting loop of [vma_destroy]. *)
Lemma shift_lookup i n t k :
  0 <= i <= n -> Z.of_nat (length t) = 32 -> n < 32 ->
  for_to i n (fun j t => set_entry j (entry t (j + 1)) t) t !! k =
    if decide (i <= Z.of_nat k < n) then t !! S k else t !! k.
Proof.
  intros Hi Hlen Hn.
  loop_invariant (fun j (u : list vma_t) => length u = length t /\
    forall k, u !! k = if decide (i <= Z.of_nat k < j) then t !! S k else t !! k) H.
  apply H; [lia | | ]; clear H.
  { split; [done |]. intros k'. rewrite decide_False by lia. done. }
  intros j u Hj [Hl Hu]. unfold set_entry. split; [by rewrite length_insert |]. intros k'.
  destruct (decide (k' = Z.to_nat j)) as [->|Hne].
  - rewrite list_lookup_insert_eq by lia. rewrite decide_True by lia.
    unfold entry. rewrite Hu, decide_False by lia.
    replace (Z.to_nat (j + 1)) with (S (Z.to_nat j)) by lia.
    destruct (t !! S (Z.to_nat j)) eqn:E; [done |]. apply lookup_ge_None in E. lia.
  - rewrite list_lookup_insert_ne by done. rewrite Hu.
    destruct (decide (i <= Z.of_nat k' < j)), (decide (i <= Z.of_nat k' < j + 1)); done || lia.
Qed.

Lemma shift_length i n t :
  length (for_to i n (fun j t => set_entry j (entry t (j + 1)) t) t) = length t.
Proof.
  destruct (Z.leb_spec i n); [| by rewrite for_to_empty by lia].
  loop_invariant (fun (j : Z) (u : list vma_t) => length u = length t) H0.
  apply H0; [lia | done |]. intros j u _ <-. apply length_insert.
Qed.

Lemma areas_delete s i :
  vma_wf s -> 0 <= i < vma_count s ->
  areas (mk_state (set_entry (vma_count s - 1) zero_vma
           (for_to i (vma_count s - 1) (fun j t => set_entry j (entry t (j + 1)) t) (vma_table s)))
         (vma_count s - 1)) = delete (Z.to_nat i) (areas s).
Proof.
  intros Hwf Hi. pose proof (wf_count s Hwf). pose proof (wf_length s Hwf).
  unfold VMA_MAX_COUNT in *. apply list_eq. intros k. unfold areas; simpl.
  set (c := vma_count s) in *.
  destruct (decide (Z.of_nat k < c - 1)).
  - rewrite lookup_take_lt by lia. unfold set_entry at 1.
    rewrite list_lookup_insert_ne by lia. rewrite shift_lookup by lia.
    destruct (decide (i <= Z.of_nat k < c - 1)).
    + rewrite list_lookup_delete_ge by lia. by rewrite lookup_take_lt by lia.
    + rewrite list_lookup_delete_lt by lia. by rewrite lookup_take_lt by lia.
  - rewrite lookup_take_ge by lia. rewrite list_lookup_delete_ge by lia.
    by rewrite lookup_take_ge by lia.
Qed.

Lemma disjoint_delete l i : disjoint_areas l -> disjoint_areas (delete i l).
Proof.
  assert (H : forall c z, delete i l !! c = Some z ->
    l !! (if decide (c < i)%nat then c else S c) = Some z).
  { intros c z. case_decide.
    - by rewrite list_lookup_delete_lt by lia.
    - by rewrite list_lookup_delete_ge by lia. }
  intros Hl a b v w Ha%H Hb%H Hne. eapply Hl; eauto. repeat case_decide; lia.
Qed.

Lemma areas_update s i v :
  vma_wf s -> 0 <= i < vma_count s ->
  areas (mk_state (set_entry i v (vma_table s)) (vma_count s)) = <[Z.to_nat i := v]> (areas s).
Proof. intros Hwf Hi. unfold areas, set_entry; simpl. by rewrite take_insert_lt by lia. Qed.

Lemma disjoint_update l i v :
  disjoint_areas l ->
  (forall k w, l !! k = Some w -> k <> i -> overlaps (start v) (end_ v) w = false) ->
  disjoint_areas (<[i := v]> l).
Proof.
  intros Hl Hv a b x y Ha Hb Hne.
  destruct (decide (a = i)) as [->|Hai]; destruct (decide (b = i)) as [->|Hbi]; [done | ..].
  - apply list_lookup_insert_Some in Ha as [(_ & <- & _)|(? & _)]; [| done].
    rewrite list_lookup_insert_ne in Hb by done. by apply (Hv b).
  - apply list_lookup_insert_Some in Hb as [(_ & <- & _)|(? & _)]; [| done].
    rewrite list_lookup_insert_ne in Ha by done.
    specialize (Hv a x Ha Hai). rewrite overlaps_false in *. lia.
  - rewrite list_lookup_insert_ne in Ha, Hb by done. by apply (Hl a b).
Qed.

(** ** Abstract specification: operations on the list of areas *)
Inductive vma_op :=
| OpCreate (start size flags : Z)
| OpDestroy (start : Z)
| OpResize (start new_size : Z).

Definition run_op (op : vma_op) (s : vma_state) : vma_state * bool :=
  match op with
  | OpCreate start size flags => vma_create start size flags s
  | OpDestroy start => vma_destroy start s
  | OpResize start new_size => vma_resize start new_size s
  end.

(** [None] when the operation is refused. *)
Definition spec_op (op : vma_op) (l : list vma_t) : option (list vma_t) :=
  match op with
  | OpCreate st size fl =>
      if bool_decide (length l = 32%nat) then None
      else if existsb (overlaps st (u64 (st + size))) l then None
      else Some (l ++ [mk_vma st (u64 (st + size)) fl])
  | OpDestroy st =>
      '(i, _) ← list_find (fun v => start v = st) l; Some (delete i l)
  | OpResize st size =>
      '(i, v) ← list_find (fun v => start v = st) l;
      if existsb (overlaps st (u64 (st + size))) (delete i l) then None
      else Some (<[i := mk_vma st (u64 (st + size)) (flags v)]> l)
  end.

Lemma existsb_lookup (p : vma_t -> bool) l :
  existsb p l = false <-> forall k v, l !! k = Some v -> p v = false.
Proof.
  induction l as [|x l IH]; simpl; [done |].
  rewrite orb_false_iff, IH. split.
  - intros [Hx Hl] [|k] v Hk; simpl in Hk; [congruence | eauto].
  - intros H. split; [apply (H 0%nat); done |]. intros k v Hk. apply (H (S k)). done.
Qed.

Lemma existsb_true (p : vma_t -> bool) l k v :
  l !! k = Some v -> p v = true -> existsb p l = true.
Proof.
  intros Hk Hp. destruct (existsb p l) eqn:E; [done |].
  rewrite existsb_lookup in E. rewrite (E _ _ Hk) in Hp. done.
Qed.

(** The first used entry starting at an address is what [list_find] finds. *)
Lemma find_start s st :
  vma_wf s ->
  match find_to 0 (vma_count s) (fun i => Vma.start (entry (vma_table s) i) =? st) with
  | Some i => 0 <= i < vma_count s /\
      exists v, areas s !! Z.to_nat i = Some v /\ start v = st /\ v = entry (vma_table s) i /\
        list_find (fun v => start v = st) (areas s) = Some (Z.to_nat i, v)
  | None => list_find (fun v => start v = st) (areas s) = None
  end.
Proof.
  intros Hwf. destruct (find_to _ _ _) as [i|] eqn:E.
  - apply find_to_Some in E as (Hi & Hp & Hlt). bool_to_prop. split; [lia |].
    exists (entry (vma_table s) i). pose proof (areas_lookup s i Hwf Hi) as Hl.
    split_and!; [done | done | done |]. apply list_find_Some. split_and!; [done | done |].
    intros k w Hk Hki Hw. destruct (areas_lookup_inv s k w Hwf Hk) as [Hr <-].
    specialize (Hlt (Z.of_nat k) ltac:(lia)). bool_to_prop. done.
  - pose proof (proj1 (find_areas_None s (fun v => Vma.start v =? st) Hwf) E) as E'. clear E.
    rename E' into E.
    apply list_find_None, Forall_forall. intros v Hv Heq.
    apply list_elem_of_lookup in Hv as [k Hk]. specialize (E k v Hk). simpl in E. lia.
Qed.

(** Skipping the target in the overlap loop is searching the other areas. *)
Lemma find_others s p t :
  vma_wf s -> 0 <= t < vma_count s ->
  match find_to 0 (vma_count s) (fun i => negb (i =? t) && p (entry (vma_table s) i)) with
  | Some _ => existsb p (delete (Z.to_nat t) (areas s)) = true
  | None => existsb p (delete (Z.to_nat t) (areas s)) = false /\
      forall k v, areas s !! k = Some v -> k <> Z.to_nat t -> p v = false
  end.
Proof.
  intros Hwf Ht. destruct (find_to _ _ _) as [i|] eqn:E.
  - apply find_to_Some in E as (Hi & Hp & _). apply andb_true_iff in Hp as [Hne Hp].
    bool_to_prop. pose proof (areas_lookup s i Hwf Hi) as Hl.
    destruct (decide (i < t)).
    + apply (existsb_true p _ (Z.to_nat i) (entry (vma_table s) i)); [| done].
      rewrite list_lookup_delete_lt by lia. done.
    + apply (existsb_true p _ (Z.to_nat (i - 1)) (entry (vma_table s) i)); [| done].
      rewrite list_lookup_delete_ge by lia. rewrite <- Hl. f_equal. lia.
  - rewrite find_to_None in E.
    assert (Ho : forall k v, areas s !! k = Some v -> k <> Z.to_nat t -> p v = false).
    { intros k v Hk Hne. destruct (areas_lookup_inv s k v Hwf Hk) as [Hr <-].
      specialize (E (Z.of_nat k) ltac:(lia)). apply andb_false_iff in E as [E|E]; [| done].
      bool_to_prop. lia. }
    split; [| done]. apply existsb_lookup. intros k v Hk.
    destruct (decide (k < Z.to_nat t)%nat).
    + rewrite list_lookup_delete_lt in Hk by lia. eapply Ho; [done | lia].
    + rewrite list_lookup_delete_ge in Hk by lia. eapply Ho; [done | lia].
Qed.

Lemma create_refines st size fl s :
  vma_wf s ->
  match vma_create st size fl s with
  | (s', true) => vma_wf s' /\ spec_op (OpCreate st size fl) (areas s) = Some (areas s')
  | (s', false) => s' = s /\ spec_op (OpCreate st size fl) (areas s) = None
  end.
Proof.
  intros Hwf. unfold vma_create, spec_op. pose proof (wf_count s Hwf) as Hc.
  unfold VMA_MAX_COUNT in *. destruct (vma_count s >=? 32) eqn:Efull; bool_to_prop.
  { rewrite bool_decide_true by (rewrite areas_length by done; lia). done. }
  rewrite bool_decide_false by (rewrite areas_length by done; lia).
  destruct (find_to _ _ _) as [i|] eqn:E.
  - destruct (find_areas s _ i Hwf E) as (_ & v & Hv & Ho).
    rewrite (existsb_true _ _ _ _ Hv Ho). done.
  - pose proof (proj1 (find_areas_None s (overlaps st (u64 (st + size))) Hwf) E) as E'. clear E.
    rename E' into E.
    assert (He : existsb (overlaps st (u64 (st + size))) (areas s) = false)
      by (by apply existsb_lookup).
    rewrite He. pose proof (areas_push s (mk_vma st (u64 (st + size)) fl) Hwf Efull) as Hp.
    split; [| by rewrite Hp]. constructor; simpl.
    + unfold set_entry. rewrite length_insert. apply (wf_length s Hwf).
    + unfold VMA_MAX_COUNT. rewrite u32_id by lia. lia.
    + rewrite Hp. apply disjoint_app; [apply (wf_disjoint s Hwf) |]. apply E.
Qed.

Lemma destroy_refines st s :
  vma_wf s ->
  match vma_destroy st s with
  | (s', true) => vma_wf s' /\ spec_op (OpDestroy st) (areas s) = Some (areas s')
  | (s', false) => s' = s /\ spec_op (OpDestroy st) (areas s) = None
  end.
Proof.
  intros Hwf. unfold vma_destroy, spec_op. pose proof (find_start s st Hwf) as Hf.
  destruct (find_to _ _ _) as [i|]; [| by rewrite Hf].
  destruct Hf as (Hi & v & Hv & _ & _ & ->). simpl.
  pose proof (areas_delete s i Hwf Hi) as Hd. pose proof (wf_count s Hwf) as Hc.
  split; [| by rewrite Hd]. constructor; simpl.
  - unfold set_entry at 1. rewrite length_insert, shift_length. apply (wf_length s Hwf).
  - lia.
  - rewrite Hd. apply disjoint_delete, (wf_disjoint s Hwf).
Qed.

Lemma resize_refines st size s :
  vma_wf s ->
  match vma_resize st size s with
  | (s', true) => vma_wf s' /\ spec_op (OpResize st size) (areas s) = Some (areas s')
  | (s', false) => s' = s /\ spec_op (OpResize st size) (areas s) = None
  end.
Proof.
  intros Hwf. unfold vma_resize, spec_op. pose proof (find_start s st Hwf) as Hf.
  destruct (find_to 0 (vma_count s) (fun i => Vma.start (entry (vma_table s) i) =? st))
    as [i|]; [| by rewrite Hf].
  destruct Hf as (Hi & v & Hv & Hst & Hve & ->). simpl. rewrite <- Hve.
  pose proof (find_others s (overlaps st (u64 (st + size))) i Hwf Hi) as Ho.
  destruct (find_to _ _ _); [by rewrite Ho |]. destruct Ho as [-> Ho].
  rewrite Hst. pose proof (areas_update s i (mk_vma st (u64 (st + size)) (flags v)) Hwf Hi) as Hu.
  split; [| by rewrite Hu]. constructor; simpl.
  - unfold set_entry. rewrite length_insert. apply (wf_length s Hwf).
  - apply (wf_count s Hwf).
  - rewrite Hu. apply disjoint_update; [apply (wf_disjoint s Hwf) | done].
Qed.

Lemma init_wf s : length (vma_table s) = 32%nat -> vma_wf (vma_init s) /\ areas (vma_init s) = [].
Proof.
  intros Hl. assert (Ha : areas (vma_init s) = []) by exact (take_0 _).
  split; [| exact Ha]. constructor.
  - unfold vma_init, vma_table.
    loop_invariant (fun (j : Z) (u : list vma_t) => length u = 32%nat) H.
    apply H; [unfold VMA_MAX_COUNT; lia | done |]. intros j u _ <-. apply length_insert.
  - unfold vma_init, vma_count, VMA_MAX_COUNT. lia.
  - rewrite Ha. intros i j v w Hi. done.
Qed.

(** ** Properties *)

(** C21: every operation on the VMA table is its specification on the list of
    areas: it succeeds exactly when the specification does, with the specified
    list as result, and otherwise leaves the table unchanged; the table stays
    well formed, so that no two areas ever overlap. *)
Theorem vma_refines_list op s (Hwf : vma_wf s) :
  match run_op op s with
  | (s', true) => vma_wf s' /\ spec_op op (areas s) = Some (areas s')
  | (s', false) => s' = s /\ spec_op op (areas s) = None
  end.
Proof. destruct op; [apply create_refines | apply destroy_refines | apply resize_refines]; done. Qed.

Definition demo_vma : vma_state :=
  (vma_create 0x1000 0x1000 3 (vma_init (mk_state (replicate 32 zero_vma) 0))).1.

Lemma demo_vma_wf : vma_wf demo_vma.
Proof.
  pose proof (create_refines 0x1000 0x1000 3 (vma_init (mk_state (replicate 32 zero_vma) 0))) as H.
  apply H. by apply init_wf.
Qed.

Lemma vma_refines_list_witness :
  vma_wf demo_vma /\
  match run_op (OpResize 0x1000 0x3000) demo_vma with
  | (s', true) =>
      vma_wf s' /\ spec_op (OpResize 0x1000 0x3000) (areas demo_vma) = Some (areas s')
  | (s', false) => s' = demo_vma /\ spec_op (OpResize 0x1000 0x3000) (areas demo_vma) = None
  end.
Proof. exact (conj demo_vma_wf (vma_refines_list (OpResize 0x1000 0x3000) demo_vma demo_vma_wf)). Defined.

(** [vma_find] returns the one area that contains the address, and NULL
    exactly when no area does. *)
Theorem vma_find_correct address s (Hwf : vma_wf s) :
  match vma_find address s with
  | Some i =>
      0 <= i < vma_count s /\ contains (entry (vma_table s) i) address /\
      forall j, 0 <= j < vma_count s -> contains (entry (vma_table s) j) address -> j = i
  | None => forall j, 0 <= j < vma_count s -> ~ contains (entry (vma_table s) j) address
  end.
Proof.
  unfold vma_find, contains. destruct (find_to _ _ _) as [i|] eqn:E.
  - apply find_to_Some in E as (Hi & Hp & _). apply andb_true_iff in Hp as [H1 H2]. bool_to_prop.
    split_and!; [lia | lia | lia | lia |]. intros j Hj Hc.
    destruct (decide (j = i)) as [|Hne]; [done |]. exfalso.
    pose proof (wf_disjoint s Hwf (Z.to_nat j) (Z.to_nat i) _ _ (areas_lookup s j Hwf Hj)
      (areas_lookup s i Hwf Hi) ltac:(lia)) as Hd.
    rewrite overlaps_false in Hd. lia.
  - rewrite find_to_None in E. intros j Hj Hc. specialize (E j Hj).
    apply andb_false_iff in E as [E|E]; bool_to_prop; lia.
Qed.

Lemma vma_find_correct_witness :
  vma_find 0x1fff demo_vma = Some 0 /\ contains (entry (vma_table demo_vma) 0) 0x1fff.
Proof.
  split; [reflexivity |].
  pose proof (vma_find_correct 0x1fff demo_vma demo_vma_wf) as H.
  exact (proj1 (proj2 H)).
Defined.

End Vma.
