(* ===== verification/PageTable.v ===== *)
(** * Four-level page tables: [vmm/page_table.c], [vmm/page_table.h]

    The tables live in physical memory, which the kernel reads and writes
    through the higher-half direct map (physical address + [hhdm_offset]).
    The definitions are generic in the page allocator, an instance of
    [PageAllocator]. *)
From Stdlib Require Import Ascii String.
From S2P Require Import Prelude PageAllocator Memory.
Import Mem.
#[local] Open Scope Z_scope.

(** ** Constants of [page_table.h] *)
Definition PAGE_TABLE_ENTRIES : Z := 512.

Definition PAGE_PRESENT : Z := Z.shiftl 1 0.
Definition PAGE_WRITABLE : Z := Z.shiftl 1 1.
Definition PAGE_USER : Z := Z.shiftl 1 2.
Definition PAGE_HUGE : Z := Z.shiftl 1 7.
Definition PAGE_NO_EXECUTE : Z := Z.shiftl 1 63.

Definition PML4_INDEX (addr : Z) : Z := Z.land (Z.shiftr addr 39) 0x1FF.
Definition PDPT_INDEX (addr : Z) : Z := Z.land (Z.shiftr addr 30) 0x1FF.
Definition PD_INDEX (addr : Z) : Z := Z.land (Z.shiftr addr 21) 0x1FF.
Definition PT_INDEX (addr : Z) : Z := Z.land (Z.shiftr addr 12) 0x1FF.

Definition PAGE_TABLE_ADDRESS_MASK : Z := 0x000FFFFFFFFFF000.
Definition PAGE_2MIB_SIZE : Z := Z.shiftl 1 21.
Definition PAGE_1GIB_SIZE : Z := Z.shiftl 1 30.

(** [entry & FLAG] used as a condition. *)
Definition flag_set (entry flag : Z) : bool := negb (Z.land entry flag =? 0).

Definition page_is_present (entry : Z) : bool := flag_set entry PAGE_PRESENT.
Definition page_is_writable (entry : Z) : bool := flag_set entry PAGE_WRITABLE.
Definition page_is_user (entry : Z) : bool := flag_set entry PAGE_USER.
Definition page_is_executable (entry : Z) : bool := Z.land entry PAGE_NO_EXECUTE =? 0.

Inductive page_walk_level_t :=
| PAGE_WALK_LEVEL_NONE
| PAGE_WALK_LEVEL_PT
| PAGE_WALK_LEVEL_PD
| PAGE_WALK_LEVEL_PDPT.

Inductive page_walk_status_t :=
| PAGE_WALK_OK
| PAGE_WALK_INVALID_ROOT
| PAGE_WALK_MISSING_PML4_ENTRY
| PAGE_WALK_MISSING_PDPT_ENTRY
| PAGE_WALK_MISSING_PD_ENTRY
| PAGE_WALK_MISSING_PT_ENTRY
| PAGE_WALK_HUGE_PAGE_PDPT
| PAGE_WALK_HUGE_PAGE_PD
| PAGE_WALK_ALLOCATION_FAILED
| PAGE_WALK_HHDM_UNCONFIGURED.

#[global] Instance page_walk_level_eq_dec : EqDecision page_walk_level_t.
Proof. solve_decision. Defined.
#[global] Instance page_walk_status_eq_dec : EqDecision page_walk_status_t.
Proof. solve_decision. Defined.

Definition page_walk_level_name (level : page_walk_level_t) : string :=
  match level with
  | PAGE_WALK_LEVEL_PT => "PT (4 KiB)"
  | PAGE_WALK_LEVEL_PD => "PD (2 MiB)"
  | PAGE_WALK_LEVEL_PDPT => "PDPT (1 GiB)"
  | PAGE_WALK_LEVEL_NONE => "Unknown"
  end%string.

Definition page_walk_status_name (status : page_walk_status_t) : string :=
  match status with
  | PAGE_WALK_OK => "OK"
  | PAGE_WALK_INVALID_ROOT => "Invalid root page table"
  | PAGE_WALK_MISSING_PML4_ENTRY => "PML4 entry not present"
  | PAGE_WALK_MISSING_PDPT_ENTRY => "PDPT entry not present"
  | PAGE_WALK_MISSING_PD_ENTRY => "PD entry not present"
  | PAGE_WALK_MISSING_PT_ENTRY => "PT entry not present"
  | PAGE_WALK_HUGE_PAGE_PDPT => "Hit 1 GiB large page"
  | PAGE_WALK_HUGE_PAGE_PD => "Hit 2 MiB large page"
  | PAGE_WALK_ALLOCATION_FAILED => "Failed to allocate a page table"
  | PAGE_WALK_HHDM_UNCONFIGURED => "HHDM is not configured"
  end%string.

Definition page_size_for_level (level : page_walk_level_t) : Z :=
  match level with
  | PAGE_WALK_LEVEL_PT => PAGE_SIZE
  | PAGE_WALK_LEVEL_PD => PAGE_2MIB_SIZE
  | PAGE_WALK_LEVEL_PDPT => PAGE_1GIB_SIZE
  | PAGE_WALK_LEVEL_NONE => 0
  end.

(** ** State: the file-scope variables, the memory and registers they act on.
    [invalidated] logs the addresses given to [invlpg]. *)
Record pt_state (A : Type) := mk_pt {
  pt_mem : mem;
  pt_alloc : A;
  hhdm_offset : Z;
  hhdm_ready : bool;
  active_pml4_physical : Z;
  kernel_pml4 : Z;
  kernel_pml4_physical : Z;
  cr3 : Z;
  invalidated : list Z;
}.
Arguments mk_pt {A}.
Arguments pt_mem {A}.
Arguments pt_alloc {A}.
Arguments hhdm_offset {A}.
Arguments hhdm_ready {A}.
Arguments active_pml4_physical {A}.
Arguments kernel_pml4 {A}.
Arguments kernel_pml4_physical {A}.
Arguments cr3 {A}.
Arguments invalidated {A}.

Section page_table.
Context {A : Type} `{PageAllocator A}.
Implicit Types s : pt_state A.

Definition with_mem (m : mem) s : pt_state A :=
  mk_pt m (pt_alloc s) (hhdm_offset s) (hhdm_ready s) (active_pml4_physical s)
    (kernel_pml4 s) (kernel_pml4_physical s) (cr3 s) (invalidated s).

Definition with_alloc (a : A) s : pt_state A :=
  mk_pt (pt_mem s) a (hhdm_offset s) (hhdm_ready s) (active_pml4_physical s)
    (kernel_pml4 s) (kernel_pml4_physical s) (cr3 s) (invalidated s).

Definition with_kernel (pml4 physical : Z) s : pt_state A :=
  mk_pt (pt_mem s) (pt_alloc s) (hhdm_offset s) (hhdm_ready s) (active_pml4_physical s)
    pml4 physical (cr3 s) (invalidated s).

(** [write_cr3] followed by the assignment to [active_pml4_physical]. *)
Definition with_cr3 (physical : Z) s : pt_state A :=
  mk_pt (pt_mem s) (pt_alloc s) (hhdm_offset s) (hhdm_ready s) physical
    (kernel_pml4 s) (kernel_pml4_physical s) physical (invalidated s).

Definition invalidate_page (virtual_address : Z) s : pt_state A :=
  mk_pt (pt_mem s) (pt_alloc s) (hhdm_offset s) (hhdm_ready s) (active_pml4_physical s)
    (kernel_pml4 s) (kernel_pml4_physical s) (cr3 s) (virtual_address :: invalidated s).

(** [pmm_alloc_page] and [pmm_free_page] on the allocator inside the state. *)
Definition alloc_page s : pt_state A * Z :=
  let '(a, p) := pa_alloc_page (pt_alloc s) in (with_alloc a s, p).
Definition free_page (p : Z) s : pt_state A := with_alloc (pa_free_page p (pt_alloc s)) s.

Definition page_table_set_hhdm_offset (offset : Z) s : pt_state A :=
  mk_pt (pt_mem s) (pt_alloc s) offset true (active_pml4_physical s)
    (kernel_pml4 s) (kernel_pml4_physical s) (cr3 s) (invalidated s).

Definition page_table_physical_to_virtual s (physical_address : Z) : Z :=
  u64 (physical_address + hhdm_offset s).

(** [&table->entries[index]], its value and an assignment through it. *)
Definition entry_ptr (table index : Z) : Z := u64 (table + 8 * index).
Definition read_entry s (ptr : Z) : Z := load64 (pt_mem s) ptr.
Definition write_entry (ptr value : Z) s : pt_state A :=
  with_mem (store64 ptr value (pt_mem s)) s.

(** Result: new state, table pointer (NULL on failure) and [*status]. *)
Definition ensure_next_table (table index : Z) (create : bool)
    (missing_status status : page_walk_status_t) s : pt_state A * Z * page_walk_status_t :=
  if table =? NULL then (s, NULL, PAGE_WALK_INVALID_ROOT)
  else
    let entry := read_entry s (entry_ptr table index) in
    if flag_set entry PAGE_PRESENT then
      (s, page_table_physical_to_virtual s (Z.land entry PAGE_TABLE_ADDRESS_MASK), status)
    else if negb create then (s, NULL, missing_status)
    else
      let '(s1, physical_page) := alloc_page s in
      if physical_page =? NULL then (s1, NULL, PAGE_WALK_ALLOCATION_FAILED)
      else
        let new_table := page_table_physical_to_virtual s1 physical_page in
        if new_table =? NULL then (free_page physical_page s1, NULL, PAGE_WALK_HHDM_UNCONFIGURED)
        else
          let s2 := with_mem (k_memset new_table 0 PAGE_SIZE (pt_mem s1)) s1 in
          let s3 := write_entry (entry_ptr table index)
                      (Z.lor (Z.lor physical_page PAGE_PRESENT) PAGE_WRITABLE) s2 in
          (s3, new_table, status).

Definition page_table_current_root s : Z :=
  if negb (hhdm_ready s) then NULL
  else page_table_physical_to_virtual s (Z.land (cr3 s) PAGE_TABLE_ADDRESS_MASK).

Definition page_table_active_root s : Z :=
  if negb (kernel_pml4 s =? NULL) then kernel_pml4 s else page_table_current_root s.

(** What a walk returns: the entry pointer, [*level_out] and [*status_out]. *)
Record walk_result := mk_walk {
  w_entry : Z; w_level : page_walk_level_t; w_status : page_walk_status_t
}.

Definition walk_fail (status : page_walk_status_t) : walk_result :=
  mk_walk NULL PAGE_WALK_LEVEL_NONE status.

(** The walk from a page directory (third level) on. *)
Definition walk_pd (pd virtual_address : Z) (create : bool) (status : page_walk_status_t) s
    : pt_state A * walk_result :=
  let pd_entry := entry_ptr pd (PD_INDEX virtual_address) in
  let entry := read_entry s pd_entry in
  let descend :=
    let '(s1, pt, status1) := ensure_next_table pd (PD_INDEX virtual_address) create
                                PAGE_WALK_MISSING_PD_ENTRY status s in
    if pt =? NULL then (s1, walk_fail status1)
    else
      let pt_entry := entry_ptr pt (PT_INDEX virtual_address) in
      if negb create && negb (flag_set (read_entry s1 pt_entry) PAGE_PRESENT)
      then (s1, walk_fail PAGE_WALK_MISSING_PT_ENTRY)
      else (s1, mk_walk pt_entry PAGE_WALK_LEVEL_PT status1) in
  if flag_set entry PAGE_PRESENT then
    if flag_set entry PAGE_HUGE then
      if create then (s, walk_fail PAGE_WALK_HUGE_PAGE_PD)
      else (s, mk_walk pd_entry PAGE_WALK_LEVEL_PD status)
    else descend
  else if negb create then (s, walk_fail PAGE_WALK_MISSING_PD_ENTRY)
  else descend.

(** The walk from a page directory pointer table (second level) on. *)
Definition walk_pdpt (pdpt virtual_address : Z) (create : bool) (status : page_walk_status_t) s
    : pt_state A * walk_result :=
  let pdpt_entry := entry_ptr pdpt (PDPT_INDEX virtual_address) in
  let entry := read_entry s pdpt_entry in
  let descend :=
    let '(s1, pd, status1) := ensure_next_table pdpt (PDPT_INDEX virtual_address) create
                                PAGE_WALK_MISSING_PDPT_ENTRY status s in
    if pd =? NULL then (s1, walk_fail status1)
    else walk_pd pd virtual_address create status1 s1 in
  if flag_set entry PAGE_PRESENT then
    if flag_set entry PAGE_HUGE then
      if create then (s, walk_fail PAGE_WALK_HUGE_PAGE_PDPT)
      else (s, mk_walk pdpt_entry PAGE_WALK_LEVEL_PDPT status)
    else descend
  else if negb create then (s, walk_fail PAGE_WALK_MISSING_PDPT_ENTRY)
  else descend.

Definition page_walk_internal (pml4 virtual_address : Z) (create : bool) s
    : pt_state A * walk_result :=
  if pml4 =? NULL then (s, walk_fail PAGE_WALK_INVALID_ROOT)
  else
    let '(s1, pdpt, status1) := ensure_next_table pml4 (PML4_INDEX virtual_address) create
                                  PAGE_WALK_MISSING_PML4_ENTRY PAGE_WALK_OK s in
    if pdpt =? NULL then (s1, walk_fail status1)
    else walk_pdpt pdpt virtual_address create status1 s1.

Definition page_walk (pml4 virtual_address : Z) (create : bool) s : pt_state A * Z :=
  let '(s1, r) := page_walk_internal pml4 virtual_address create s in (s1, w_entry r).

Definition page_table_get_pml4 s : Z := page_table_active_root s.

(** Result: state, table pointer, and what was stored to [*physical_out]. *)
Definition page_table_create s : pt_state A * Z * option Z :=
  let '(s1, physical_page) := alloc_page s in
  if physical_page =? NULL then (s1, NULL, None)
  else
    let new_pml4 := page_table_physical_to_virtual s1 physical_page in
    if new_pml4 =? NULL then (free_page physical_page s1, NULL, Some physical_page)
    else
      let s2 := with_mem (k_memset new_pml4 0 PAGE_SIZE (pt_mem s1)) s1 in
      let s3 := if negb (kernel_pml4 s2 =? NULL)
                then with_mem (k_memcpy new_pml4 (kernel_pml4 s2) PAGE_SIZE (pt_mem s2)) s2
                else s2 in
      (s3, new_pml4, Some physical_page).

Definition page_table_init s : pt_state A :=
  if negb (kernel_pml4 s =? NULL) then s
  else
    let '(s1, pml4_physical) := alloc_page s in
    if pml4_physical =? NULL then s1
    else
      let s2 := with_kernel (page_table_physical_to_virtual s1 pml4_physical) pml4_physical s1 in
      if kernel_pml4 s2 =? NULL then
        with_kernel (kernel_pml4 s2) 0 (free_page pml4_physical s2)
      else
        let current_pml4 := page_table_current_root s2 in
        if current_pml4 =? NULL then with_kernel NULL 0 (free_page pml4_physical s2)
        else with_mem (k_memcpy (kernel_pml4 s2) current_pml4 PAGE_SIZE (pt_mem s2)) s2.

Definition page_table_map (virtual_address physical_address flags : Z) s : pt_state A * bool :=
  let '(s1, r) := page_walk_internal (page_table_active_root s) virtual_address true s in
  if w_entry r =? NULL then (s1, false)
  else if negb (bool_decide (w_level r = PAGE_WALK_LEVEL_PT)) then (s1, false)
  else
    let value :=
      Z.lor (Z.lor (Z.land physical_address PAGE_TABLE_ADDRESS_MASK)
               (Z.land (Z.land flags (u64 (Z.lnot PAGE_PRESENT))) (u64 (Z.lnot PAGE_HUGE))))
        PAGE_PRESENT in
    (invalidate_page virtual_address (write_entry (w_entry r) value s1), true).

(** Following an entry without a check, and setting its user bit. *)
Definition user_table s (table index : Z) : Z :=
  page_table_physical_to_virtual s
    (Z.land (read_entry s (entry_ptr table index)) PAGE_TABLE_ADDRESS_MASK).
Definition user_mark (table index : Z) s : pt_state A :=
  write_entry (entry_ptr table index)
    (Z.lor (read_entry s (entry_ptr table index)) PAGE_USER) s.

Definition page_table_map_user (pml4 virtual_address physical_address : Z) (writable : bool) s
    : pt_state A * bool :=
  let flags0 := Z.lor PAGE_PRESENT PAGE_USER in
  let flags := if writable then Z.lor flags0 PAGE_WRITABLE else flags0 in
  let '(s1, entry) := page_walk pml4 virtual_address true s in
  if entry =? NULL then (s1, false)
  else
    let pdpt := user_table s1 pml4 (PML4_INDEX virtual_address) in
    let s2 := user_mark pml4 (PML4_INDEX virtual_address) s1 in
    let pd := user_table s2 pdpt (PDPT_INDEX virtual_address) in
    let s3 := user_mark pdpt (PDPT_INDEX virtual_address) s2 in
    let s4 := user_mark pd (PD_INDEX virtual_address) s3 in
    (write_entry entry (Z.lor physical_address flags) s4, true).

Definition page_table_map_page (virtual_address physical_address : Z) (writable : bool) s
    : pt_state A * bool :=
  page_table_map virtual_address physical_address
    (if writable then Z.lor 0 PAGE_WRITABLE else 0) s.

Definition page_table_unmap (virtual_address : Z) s : pt_state A * bool :=
  let '(s1, r) := page_walk_internal (page_table_active_root s) virtual_address false s in
  if w_entry r =? NULL then (s1, false)
  else if negb (bool_decide (w_level r = PAGE_WALK_LEVEL_PT)) then (s1, false)
  else if negb (flag_set (read_entry s1 (w_entry r)) PAGE_PRESENT) then (s1, false)
  else (invalidate_page virtual_address (write_entry (w_entry r) 0 s1), true).

Definition page_table_translate (virtual_address : Z) s : pt_state A * Z :=
  let '(s1, r) := page_walk_internal (page_table_active_root s) virtual_address false s in
  if w_entry r =? NULL then (s1, 0)
  else if negb (flag_set (read_entry s1 (w_entry r)) PAGE_PRESENT) then (s1, 0)
  else
    let page_size := page_size_for_level (w_level r) in
    if page_size =? 0 then (s1, 0)
    else
      let physical := Z.land (read_entry s1 (w_entry r)) PAGE_TABLE_ADDRESS_MASK in
      (s1, Z.lor physical (Z.land virtual_address (page_size - 1))).

Definition page_table_activate s : pt_state A :=
  if kernel_pml4_physical s =? 0 then s else with_cr3 (kernel_pml4_physical s) s.

Definition page_table_switch (physical_pml4 : Z) s : pt_state A :=
  if physical_pml4 =? 0 then s
  else if active_pml4_physical s =? physical_pml4 then s
  else with_cr3 physical_pml4 s.

Definition page_table_is_mapped (virtual_address : Z) s : pt_state A * bool :=
  let '(s1, r) := page_walk_internal (page_table_get_pml4 s) virtual_address false s in
  if w_entry r =? NULL then (s1, false)
  else (s1, flag_set (read_entry s1 (w_entry r)) PAGE_PRESENT).

(** [paging_init] of [vmm/paging.c]. *)
Definition paging_init s : pt_state A := page_table_activate (page_table_init s).

End page_table.
