(* ===== verification/PageTableSpec.v ===== *)
(** * Correctness of the page tables of [PageTable.v]

    The specification is the processor's own walk ([mmu_slot], [mmu_walk]) over
    the same physical memory.  The invariant [pt_wf] names the tables of an
    address space by the path of indexes that leads to them, so two entries
    never share a table, and keeps them out of the allocator's free pages. *)
From S2P Require Import Prelude PageAllocator Memory PageTable Pmm.
Import Mem.
#[local] Open Scope Z_scope.

(** ** The processor's view of an entry *)
Inductive entry_kind := Absent | Large | Table (frame : Z).

Definition frame_of (e : Z) : Z := Z.land e PAGE_TABLE_ADDRESS_MASK.

(** [top] is true in the PML4, whose entries are never large pages. *)
Definition kind_of (top : bool) (e : Z) : entry_kind :=
  if negb (flag_set e PAGE_PRESENT) then Absent
  else if negb top && flag_set e PAGE_HUGE then Large
  else Table (frame_of e).

Section mmu.
Variables (m : mem) (h : Z).

Definition ent (f i : Z) : Z := load64 m (f + h + 8 * i).

(** Index of [va] in the table at level [l] (0 = page table, 3 = PML4). *)
Definition idx (l : nat) (va : Z) : Z := Z.land (Z.shiftr va (12 + 9 * Z.of_nat l)) 0x1FF.

Definition is_top (l : nat) : bool := (l =? 3)%nat.

(** The slot that maps [va]: its table, level, and whether every table entry
    above it allows user access. *)
Fixpoint mmu_slot (l : nat) (f va : Z) : option (Z * nat) :=
  match l with
  | O => Some (f, O)
  | S l' =>
    match kind_of (is_top l) (ent f (idx l va)) with
    | Absent => None
    | Large => Some (f, l)
    | Table g => mmu_slot l' g va
    end
  end.

Fixpoint mmu_user (l : nat) (f va : Z) : bool :=
  flag_set (ent f (idx l va)) PAGE_USER &&
  match l with
  | O => true
  | S l' =>
    match kind_of (is_top l) (ent f (idx l va)) with
    | Table g => mmu_user l' g va
    | _ => true
    end
  end.

(** The leaf entry of [va] and its level, when it is present. *)
Definition mmu_walk (root va : Z) : option (Z * nat) :=
  match mmu_slot 3 root va with
  | Some (f, l) =>
    let e := ent f (idx l va) in
    if flag_set e PAGE_PRESENT then Some (e, l) else None
  | None => None
  end.

(** Physical address of [va]. *)
Definition mmu_translate (root va : Z) : option Z :=
  match mmu_walk root va with
  | Some (e, l) => Some (frame_of e + va mod 2 ^ (12 + 9 * Z.of_nat l))
  | None => None
  end.
End mmu.

(** Index path of [va] from level [l] down. *)
Fixpoint path (l : nat) (va : Z) : list Z :=
  idx l va :: match l with O => [] | S l' => path l' va end.

(** The 4 KiB page of [va]: the 36 address bits the tables look at. *)
Definition page_of (va : Z) : Z := (va / 4096) mod 2 ^ 36.

(** ** Arithmetic of entries *)
Lemma flag_set_bit e k : 0 <= k -> flag_set e (Z.shiftl 1 k) = Z.testbit e k.
Proof. apply land_bit_nonzero. Qed.

Lemma idx_div l va : idx l va = (va / 2 ^ (12 + 9 * Z.of_nat l)) mod 512.
Proof.
  unfold idx. change 0x1FF with (Z.ones 9).
  rewrite Z.land_ones, Z.shiftr_div_pow2 by lia. done.
Qed.

Lemma idx_range l va : 0 <= idx l va < 512.
Proof. rewrite idx_div. apply Z.mod_pos_bound. lia. Qed.

Lemma index_macros va :
  PML4_INDEX va = idx 3 va /\ PDPT_INDEX va = idx 2 va /\
  PD_INDEX va = idx 1 va /\ PT_INDEX va = idx 0 va.
Proof. done. Qed.

Lemma aligned_bit f k n : 0 <= k < n -> f mod 2 ^ n = 0 -> Z.testbit f k = false.
Proof.
  intros Hk Hf. rewrite <- (testbit_mod_pow2 f n k) by lia. rewrite Hf. apply Z.testbit_0_l.
Qed.

(** Masking keeps bits 12 to 51. *)
Lemma frame_of_bits e k :
  Z.testbit (frame_of e) k = Z.testbit e k && ((12 <=? k) && (k <? 52)).
Proof.
  unfold frame_of. rewrite Z.land_spec. f_equal.
  change PAGE_TABLE_ADDRESS_MASK with (Z.shiftl (Z.ones 40) 12).
  destruct (Z.ltb_spec k 0); [rewrite Z.testbit_neg_r by lia; lia |].
  rewrite Z.shiftl_spec by lia.
  destruct (Z.leb_spec 12 k).
  - rewrite Z.testbit_ones_nonneg by lia. lia.
  - rewrite Z.testbit_neg_r by lia. lia.
Qed.

Lemma frame_of_frame f : f mod 4096 = 0 -> 0 <= f < 2 ^ 52 -> frame_of f = f.
Proof.
  intros Hf Hr. apply Z.bits_inj'. intros k Hk. rewrite frame_of_bits.
  destruct (Z.leb_spec 12 k); [destruct (Z.ltb_spec k 52) |].
  - by rewrite andb_true_r.
  - rewrite <- (Z.mod_small f (2 ^ 52)) by lia.
    rewrite testbit_mod_pow2_high by lia. done.
  - rewrite andb_false_r. symmetry. apply (aligned_bit f k 12); [lia | done].
Qed.

Lemma frame_of_range e : 0 <= e -> frame_of e mod 4096 = 0 /\ 0 <= frame_of e < 2 ^ 52.
Proof.
  intros He.
  assert (Heq : frame_of e = (e mod 2 ^ 52) / 4096 * 4096).
  { apply Z.bits_inj'. intros k Hk. rewrite frame_of_bits.
    change 4096 with (2 ^ 12).
    rewrite <- Z.shiftr_div_pow2, <- Z.shiftl_mul_pow2, Z.shiftl_spec by lia.
    destruct (Z.leb_spec 12 k).
    - rewrite Z.shiftr_spec by lia. replace (k - 12 + 12) with k by lia.
      destruct (Z.ltb_spec k 52).
      + rewrite testbit_mod_pow2 by lia. by rewrite andb_true_r.
      + rewrite testbit_mod_pow2_high by lia. by rewrite andb_false_r.
    - rewrite (Z.testbit_neg_r _ (k - 12)) by lia. by rewrite andb_false_r. }
  rewrite Heq. word_lia.
Qed.

Lemma frame_of_lor a b : frame_of (Z.lor a b) = Z.lor (frame_of a) (frame_of b).
Proof. apply Z.land_lor_distr_l. Qed.

Lemma lor_low f x n : 0 <= n -> 0 <= x < 2 ^ n -> f mod 2 ^ n = 0 -> Z.lor f x = f + x.
Proof.
  intros Hn Hx Hf.
  assert (Hl : Z.land f x = 0).
  { apply Z.bits_inj'. intros k Hk. rewrite Z.land_spec, Z.testbit_0_l.
    destruct (Z.ltb_spec k n).
    - rewrite (aligned_bit f k n) by lia. done.
    - rewrite <- (Z.mod_small x (2 ^ n)) by lia. rewrite testbit_mod_pow2_high by lia.
      apply andb_false_r. }
  pose proof (Z.add_lor_land f x). lia.
Qed.

Lemma idx_page_of va va' :
  path 3 va = path 3 va' <-> page_of va = page_of va'.
Proof.
  cbn [path]. rewrite !idx_div.
  assert (Hd : forall v, page_of v = (v / 2 ^ 12) mod 512
      + 512 * ((v / 2 ^ 21) mod 512) + 512 * 512 * ((v / 2 ^ 30) mod 512)
      + 512 * 512 * 512 * ((v / 2 ^ 39) mod 512)).
  { intros v. unfold page_of. change (2 ^ 12) with 4096.
    change (2 ^ 39) with (4096 * 134217728). change (2 ^ 30) with (4096 * 262144).
    change (2 ^ 21) with (4096 * 512).
    rewrite <- !(Z.div_div v 4096) by lia. generalize (v / 4096). intros w.
    change (2 ^ 36) with 68719476736. word_lia. }
  rewrite !Hd.
  change (12 + 9 * Z.of_nat 0) with 12. change (12 + 9 * Z.of_nat 1) with 21.
  change (12 + 9 * Z.of_nat 2) with 30. change (12 + 9 * Z.of_nat 3) with 39.
  pose proof (fun x => Z.mod_pos_bound x 512 ltac:(lia)) as Hb.
  pose proof (Hb (va / 2 ^ 12)); pose proof (Hb (va / 2 ^ 21));
  pose proof (Hb (va / 2 ^ 30)); pose proof (Hb (va / 2 ^ 39));
  pose proof (Hb (va' / 2 ^ 12)); pose proof (Hb (va' / 2 ^ 21));
  pose proof (Hb (va' / 2 ^ 30)); pose proof (Hb (va' / 2 ^ 39)).
  split.
  - intros [= -> -> -> ->]. done.
  - intros He.
    generalize dependent ((va / 2 ^ 12) mod 512). generalize dependent ((va / 2 ^ 21) mod 512).
    generalize dependent ((va / 2 ^ 30) mod 512). generalize dependent ((va / 2 ^ 39) mod 512).
    intros. repeat f_equal; lia.
Qed.

(** ** Tables in memory *)
Definition table_frame (h f : Z) : Prop :=
  f mod 4096 = 0 /\ 0 < f /\ f + 4096 <= 2 ^ 52 /\ f + 4096 + h <= 2 ^ 64.

Lemma ent_range m h f i : 0 <= ent m h f i < 2 ^ 64.
Proof. apply load64_range. Qed.

Lemma entry_ptr_eq h f i :
  0 <= h -> table_frame h f -> 0 <= i < 512 -> entry_ptr (f + h) i = f + h + 8 * i.
Proof. intros Hh (? & ? & ? & ?) Hi. apply u64_id. lia. Qed.

Lemma frames_apart h f g :
  table_frame h f -> table_frame h g -> f <> g -> f + 4096 <= g \/ g + 4096 <= f.
Proof. intros (? & ? & ? & ?) (? & ? & ? & ?) Hne. word_lia. Qed.

Lemma ent_store m h f i g j v :
  0 <= h -> table_frame h f -> table_frame h g -> 0 <= i < 512 -> 0 <= j < 512 ->
  0 <= v < 2 ^ 64 ->
  ent (store64 (g + h + 8 * j) v m) h f i =
    if decide (f = g /\ i = j) then v else ent m h f i.
Proof.
  intros Hh Hf Hg Hi Hj Hv. unfold ent.
  pose proof Hf as (? & ? & ? & ?). pose proof Hg as (? & ? & ? & ?).
  case_decide as Hd.
  - destruct Hd as [-> ->]. apply load64_store64; lia.
  - apply load64_store64_ne; try lia.
    destruct (decide (f = g)) as [->|Hne]; [lia |].
    pose proof (frames_apart h f g Hf Hg Hne). lia.
Qed.

Lemma ent_memset m h f g i :
  0 <= h -> table_frame h f -> table_frame h g -> 0 <= i < 512 ->
  ent (k_memset (g + h) 0 PAGE_SIZE m) h f i = if decide (f = g) then 0 else ent m h f i.
Proof.
  intros Hh Hf Hg Hi. unfold ent, PAGE_SIZE.
  pose proof Hf as (? & ? & ? & ?). pose proof Hg as (? & ? & ? & ?).
  case_decide as Hd.
  - subst. apply load64_memset0; lia.
  - pose proof (frames_apart h f g Hf Hg Hd). apply load64_memset_ne; lia.
Qed.

Lemma ent_memcpy m h f g k i :
  0 <= h -> table_frame h f -> table_frame h g -> table_frame h k -> g <> k -> 0 <= i < 512 ->
  ent (k_memcpy (g + h) (k + h) PAGE_SIZE m) h f i =
    if decide (f = g) then ent m h k i else ent m h f i.
Proof.
  intros Hh Hf Hg Hk Hne Hi. unfold ent, PAGE_SIZE.
  pose proof Hf as (? & ? & ? & ?). pose proof Hg as (? & ? & ? & ?).
  pose proof Hk as (? & ? & ? & ?). pose proof (frames_apart h g k Hg Hk Hne).
  case_decide as Hd.
  - subst. apply load64_memcpy; lia.
  - pose proof (frames_apart h f g Hf Hg Hd). apply load64_memcpy_ne; lia.
Qed.

#[local] Opaque k_memset k_memcpy store64.

(** ** The tree of tables *)
Definition top_of (p : list Z) : bool := (length p =? 0)%nat.

Definition tree_ok (T : gmap Z (list Z)) (m : mem) (h : Z) : Prop :=
  forall f p i g, T !! f = Some p -> (length p < 3)%nat -> 0 <= i < 512 ->
    kind_of (top_of p) (ent m h f i) = Table g -> T !! g = Some (p ++ [i]).

(** Two memories in which the tables of [T] lead to the same places. *)
Definition same_kinds (T : gmap Z (list Z)) (m m' : mem) (h : Z) : Prop :=
  forall f p i, T !! f = Some p -> (length p < 3)%nat -> 0 <= i < 512 ->
    kind_of (top_of p) (ent m' h f i) = kind_of (top_of p) (ent m h f i).

Lemma top_level p l : (length p + l = 3)%nat -> is_top l = top_of p.
Proof.
  intros Hl. unfold is_top, top_of.
  destruct (Nat.eqb_spec l 3), (Nat.eqb_spec (length p) 0); lia || done.
Qed.

Lemma tree_ok_same T m m' h : tree_ok T m h -> same_kinds T m m' h -> tree_ok T m' h.
Proof. intros Ht Hs f p i g Hf Hp Hi Hk. rewrite (Hs f p i) in Hk by done. by apply (Ht f). Qed.

Lemma slot_same T m m' h l f p va :
  tree_ok T m h -> same_kinds T m m' h -> T !! f = Some p -> (length p + l = 3)%nat ->
  mmu_slot m' h l f va = mmu_slot m h l f va.
Proof.
  intros Ht Hs. revert f p; induction l as [|l IH]; intros f p Hf Hl; [done |].
  cbn [mmu_slot]. rewrite (top_level p) by lia.
  rewrite (Hs f p) by (done || lia || apply idx_range).
  case_match_eq E; [done | done |].
  apply (IH _ (p ++ [idx (S l) va])).
  - apply (Ht f); [done | lia | apply idx_range | done].
  - rewrite length_app; simpl; lia.
Qed.

Lemma slot_in_tree T m h l f p va g l' :
  tree_ok T m h -> T !! f = Some p -> (length p + l = 3)%nat ->
  mmu_slot m h l f va = Some (g, l') ->
  exists q, T !! g = Some q /\ (length q + l' = 3)%nat /\ q ++ path l' va = p ++ path l va.
Proof.
  intros Ht. revert f p; induction l as [|l IH]; intros f p Hf Hl Hs.
  - injection Hs as <- <-. by exists p.
  - cbn [mmu_slot] in Hs. rewrite (top_level p) in Hs by lia.
    destruct (kind_of _ _) as [| |f'] eqn:E; [done | |].
    + injection Hs as <- <-. by exists p.
    + destruct (IH f' (p ++ [idx (S l) va])) as (q & Hq & Hlq & Hpq).
      * apply (Ht f); [done | lia | apply idx_range | done].
      * rewrite length_app; simpl; lia.
      * done.
      * exists q. split_and!; try done. rewrite Hpq, <- app_assoc. done.
Qed.

(** The walk reads the same result when the path and the leaf slot do. *)
Lemma walk_same T m m' h root va :
  tree_ok T m h -> same_kinds T m m' h -> T !! root = Some [] ->
  (forall f l, mmu_slot m h 3 root va = Some (f, l) ->
     ent m' h f (idx l va) = ent m h f (idx l va)) ->
  mmu_walk m' h root va = mmu_walk m h root va.
Proof.
  intros Ht Hs Hr Hl. unfold mmu_walk. rewrite (slot_same T m m' h 3 root []) by done.
  destruct (mmu_slot m h 3 root va) as [[f l]|]; [| done]. by rewrite (Hl f l).
Qed.

Lemma kind_of_zero top : kind_of top 0 = Absent.
Proof. by destruct top. Qed.

(** The walk from any level, of which [mmu_walk] is the one from the root. *)
Definition walk_from (m : mem) (h : Z) (l : nat) (f va : Z) : option (Z * nat) :=
  match mmu_slot m h l f va with
  | Some (g, l') =>
    let e := ent m h g (idx l' va) in
    if flag_set e PAGE_PRESENT then Some (e, l') else None
  | None => None
  end.

Lemma walk_from_root m h root va : mmu_walk m h root va = walk_from m h 3 root va.
Proof. done. Qed.

Lemma walk_from_zero m h l g va :
  (forall i, 0 <= i < 512 -> ent m h g i = 0) -> walk_from m h l g va = None.
Proof.
  intros Hz. unfold walk_from. destruct l as [|l]; cbn [mmu_slot].
  - by rewrite Hz by apply idx_range.
  - rewrite Hz by apply idx_range. by rewrite kind_of_zero.
Qed.

(** Hanging an empty table on an absent entry changes no translation. *)
Section new_table.
Variables (T : gmap Z (list Z)) (m m' : mem) (h f i g v : Z) (p : list Z).
Hypothesis Htree : tree_ok T m h.
Hypothesis Hf : T !! f = Some p.
Hypothesis Hp : (length p < 3)%nat.
Hypothesis Hi : 0 <= i < 512.
Hypothesis Habs : kind_of (top_of p) (ent m h f i) = Absent.
Hypothesis Hg : T !! g = None.
Hypothesis Hv : kind_of (top_of p) v = Table g.
Hypothesis Hold : forall f' q j, T !! f' = Some q -> 0 <= j < 512 ->
  ent m' h f' j = if decide (f' = f /\ j = i) then v else ent m h f' j.
Hypothesis Hnew : forall j, 0 <= j < 512 -> ent m' h g j = 0.

Lemma new_table_tree : tree_ok (<[g := p ++ [i]]> T) m' h.
Proof.
  intros f' q j g' Hf' Hq Hj Hk.
  destruct (decide (f' = g)) as [->|Hne].
  - rewrite Hnew in Hk by done. by rewrite kind_of_zero in Hk.
  - rewrite lookup_insert_ne in Hf' by done.
    rewrite (Hold f' q j) in Hk by done. case_decide as Hd.
    + destruct Hd as [-> ->]. simplify_eq. rewrite Hv in Hk. injection Hk as <-.
      by rewrite lookup_insert_eq.
    + destruct (decide (g' = g)) as [->|].
      * rewrite (Htree f' q j g) in Hg by done. done.
      * rewrite lookup_insert_ne by done. by apply (Htree f' q j).
Qed.

Lemma new_table_walk_from l f0 p0 va :
  T !! f0 = Some p0 -> (length p0 + l = 3)%nat ->
  walk_from m' h l f0 va = walk_from m h l f0 va.
Proof.
  revert f0 p0; induction l as [|l IH]; intros f0 p0 Hf0 Hl.
  - unfold walk_from; cbn [mmu_slot].
    rewrite (Hold f0 p0) by (done || apply idx_range). rewrite decide_False; [done |].
    intros [-> _]. simplify_eq. lia.
  - unfold walk_from; cbn [mmu_slot]. rewrite (top_level p0) by lia.
    rewrite (Hold f0 p0) by (done || apply idx_range).
    case_decide as Hd.
    + destruct Hd as [-> Hix]. assert (p0 = p) as -> by congruence. rewrite Hv, Hix, Habs.
      apply (walk_from_zero m' h l g). done.
    + destruct (kind_of (top_of p0) (ent m h f0 (idx (S l) va))) as [| |g'] eqn:E; [done | |].
      * rewrite (Hold f0 p0) by (done || apply idx_range). by rewrite decide_False by done.
      * apply (IH g' (p0 ++ [idx (S l) va])).
        -- apply (Htree f0); [done | lia | apply idx_range | done].
        -- rewrite length_app; simpl; lia.
Qed.

Lemma new_table_walk root va :
  T !! root = Some [] -> mmu_walk m' h root va = mmu_walk m h root va.
Proof. intros Hr. apply (new_table_walk_from 3 root []); done. Qed.
End new_table.

(** Reduces the accessors of an updated state. *)
Ltac pt_simpl :=
  cbn [pt_mem pt_alloc hhdm_offset hhdm_ready active_pml4_physical kernel_pml4
       kernel_pml4_physical cr3 invalidated with_mem with_alloc with_kernel with_cr3
       invalidate_page write_entry free_page fst snd].

(** ** Invariant and progress of a state *)
Section states.
Context {A : Type} `{PageAllocatorLaws A}.
Implicit Types s : pt_state A.
Implicit Types T : gmap Z (list Z).

(** Entry [i] of table [f], the processor's results, in state [s]. *)
Definition s_ent s : Z -> Z -> Z := ent (pt_mem s) (hhdm_offset s).
Definition s_slot s : nat -> Z -> Z -> option (Z * nat) := mmu_slot (pt_mem s) (hhdm_offset s).
Definition s_walk s : Z -> Z -> option (Z * nat) := mmu_walk (pt_mem s) (hhdm_offset s).

Record pt_wf T s : Prop := {
  wf_alloc : pa_ok (pt_alloc s);
  wf_ready : hhdm_ready s = true;
  wf_hhdm : 0 <= hhdm_offset s /\ hhdm_offset s + pa_limit (pt_alloc s) <= 2 ^ 64;
  wf_frame f p : T !! f = Some p ->
    table_frame (hhdm_offset s) f /\ (f ∉ pa_free_pages (pt_alloc s)) /\ (length p <= 3)%nat;
  wf_tree : tree_ok T (pt_mem s) (hhdm_offset s);
}.

(** Registers and variables that building tables leaves alone. *)
Definition same_config s s' : Prop :=
  hhdm_offset s' = hhdm_offset s /\ hhdm_ready s' = hhdm_ready s /\
  active_pml4_physical s' = active_pml4_physical s /\ kernel_pml4 s' = kernel_pml4 s /\
  kernel_pml4_physical s' = kernel_pml4_physical s /\ cr3 s' = cr3 s /\
  pa_limit (pt_alloc s') = pa_limit (pt_alloc s) /\
  pa_free_pages (pt_alloc s') ⊆ pa_free_pages (pt_alloc s).

(** The tables of [T'] that [T] lacks were free pages, every other page that was
    free still is, and no byte outside the tables changed. *)
Definition tables_grow T s T' s' : Prop :=
  (forall g q, T' !! g = Some q -> T !! g = Some q \/ g ∈ pa_free_pages (pt_alloc s)) /\
  (forall g, g ∈ pa_free_pages (pt_alloc s) ->
     g ∈ pa_free_pages (pt_alloc s') \/ is_Some (T' !! g)) /\
  (forall x, 0 <= x < 2 ^ 64 ->
     (forall g q, T' !! g = Some q -> x < g + hhdm_offset s \/ g + hhdm_offset s + 4096 <= x) ->
     load8 (pt_mem s') x = load8 (pt_mem s) x).

(** [s'] has the tables of [s], maybe more, and the same translations. *)
Record pt_ext T s T' s' : Prop := {
  ext_sub : T ⊆ T';
  ext_config : same_config s s';
  ext_invalidated : invalidated s' = invalidated s;
  ext_grow : tables_grow T s T' s';
  ext_table f p i g : T !! f = Some p -> (length p < 3)%nat -> 0 <= i < 512 ->
    kind_of (top_of p) (s_ent s f i) = Table g -> kind_of (top_of p) (s_ent s' f i) = Table g;
  ext_walk root va : T !! root = Some [] -> s_walk s' root va = s_walk s root va;
}.

Lemma same_config_refl s : same_config s s.
Proof. by split_and!. Qed.

Lemma same_config_trans s1 s2 s3 : same_config s1 s2 -> same_config s2 s3 -> same_config s1 s3.
Proof.
  intros (? & ? & ? & ? & ? & ? & ? & ?) (? & ? & ? & ? & ? & ? & ? & ?).
  split_and!; try congruence. set_solver.
Qed.

Lemma tables_grow_refl T s : tables_grow T s T s.
Proof. split_and!; [by left | by left | done]. Qed.

Lemma tables_grow_trans T1 s1 T2 s2 T3 s3 :
  same_config s1 s2 -> T2 ⊆ T3 -> tables_grow T1 s1 T2 s2 -> tables_grow T2 s2 T3 s3 ->
  tables_grow T1 s1 T3 s3.
Proof.
  intros (Hh & _ & _ & _ & _ & _ & _ & Hfree) Hsub (N1 & F1 & M1) (N2 & F2 & M2). split_and!.
  - intros g q Hg. destruct (N2 g q Hg) as [Hg2 | Hg2]; [by apply N1 | right; set_solver].
  - intros g Hg. destruct (F1 g Hg) as [Hg2 | [q Hg2]]; [by apply F2 | right].
    exists q. by eapply lookup_weaken.
  - intros x Hx Hout. rewrite M2, M1; try done.
    + intros g q Hg. apply (Hout g q). by eapply lookup_weaken.
    + by rewrite Hh.
Qed.

Lemma pt_ext_refl T s : pt_ext T s T s.
Proof. split; try done. apply tables_grow_refl. Qed.

Lemma pt_ext_trans T1 s1 T2 s2 T3 s3 :
  pt_ext T1 s1 T2 s2 -> pt_ext T2 s2 T3 s3 -> pt_ext T1 s1 T3 s3.
Proof.
  intros H12 H23. split.
  - transitivity T2; [apply H12 | apply H23].
  - eapply same_config_trans; [apply H12 | apply H23].
  - rewrite (ext_invalidated _ _ _ _ H23). apply H12.
  - apply (tables_grow_trans T1 s1 T2 s2); [apply H12 | apply H23 | apply H12 | apply H23].
  - intros f p i g Hf Hp Hi Hk.
    apply (ext_table _ _ _ _ H23); [| done | done | by apply (ext_table _ _ _ _ H12)].
    eapply lookup_weaken; [done | apply H12].
  - intros root va Hr. rewrite (ext_walk _ _ _ _ H23), (ext_walk _ _ _ _ H12); try done.
    eapply lookup_weaken; [done | apply H12].
Qed.

Lemma free_frame T s p :
  pt_wf T s -> page_frame (pa_limit (pt_alloc s)) p -> table_frame (hhdm_offset s) p.
Proof.
  intros Hwf (Hp1 & Hp2 & Hp3). pose proof (wf_hhdm _ _ Hwf).
  pose proof (pa_limit_ok _ (wf_alloc _ _ Hwf)). unfold PAGE_SIZE in *.
  split_and!; lia || done.
Qed.

Lemma p2v_frame T s f :
  pt_wf T s -> table_frame (hhdm_offset s) f ->
  page_table_physical_to_virtual s f = f + hhdm_offset s /\ f + hhdm_offset s <> NULL.
Proof.
  intros Hwf (? & ? & ? & ?). pose proof (wf_hhdm _ _ Hwf).
  unfold page_table_physical_to_virtual. rewrite u64_id by lia. unfold NULL. lia.
Qed.

Lemma frame_virtual T s f p :
  pt_wf T s -> T !! f = Some p -> f + hhdm_offset s <> NULL.
Proof.
  intros Hwf Hf. apply (p2v_frame T s f); [done | by apply (wf_frame _ _ Hwf f p)].
Qed.

(** Reading an entry through its pointer. *)
Lemma read_entry_eq T s f p i :
  pt_wf T s -> T !! f = Some p -> 0 <= i < 512 ->
  entry_ptr (f + hhdm_offset s) i = f + hhdm_offset s + 8 * i /\
  read_entry s (entry_ptr (f + hhdm_offset s) i) = s_ent s f i.
Proof.
  intros Hwf Hf Hi. destruct (wf_frame _ _ Hwf f p Hf) as (Hfr & _ & _).
  assert (Hptr : entry_ptr (f + hhdm_offset s) i = f + hhdm_offset s + 8 * i).
  { apply entry_ptr_eq; [apply (wf_hhdm _ _ Hwf) | done | done]. }
  rewrite Hptr. done.
Qed.

(** The entry a new table is linked with. *)
Lemma link_entry f :
  f mod 4096 = 0 -> 0 < f < 2 ^ 52 ->
  let e := Z.lor (Z.lor f PAGE_PRESENT) PAGE_WRITABLE in
  0 <= e < 2 ^ 64 /\ forall top, kind_of top e = Table f.
Proof.
  intros Hm Hr e.
  assert (He : e = f + 3).
  { unfold e. rewrite <- Z.lor_assoc. apply (lor_low f 3 12); done. }
  split; [lia |]. intros top. unfold kind_of.
  assert (Hp : flag_set e PAGE_PRESENT = true).
  { unfold PAGE_PRESENT. rewrite flag_set_bit by lia. unfold e.
    rewrite !Z.lor_spec. change (Z.testbit PAGE_PRESENT 0) with true.
    by rewrite orb_true_r. }
  assert (Hh : flag_set e PAGE_HUGE = false).
  { unfold PAGE_HUGE. rewrite flag_set_bit by lia. unfold e.
    rewrite !Z.lor_spec, (aligned_bit f 7 12) by (lia || done). done. }
  rewrite Hp, Hh, andb_false_r. simpl. f_equal. unfold e.
  rewrite !frame_of_lor, (frame_of_frame f) by (done || lia).
  by rewrite !Z.lor_0_r.
Qed.

Lemma kind_Table top e g :
  kind_of top e = Table g -> flag_set e PAGE_PRESENT = true /\ g = frame_of e.
Proof.
  unfold kind_of. destruct (flag_set e PAGE_PRESENT); [| done].
  destruct (negb top && _); [done |]. by intros [= <-].
Qed.

Lemma kind_Absent top e : kind_of top e = Absent <-> flag_set e PAGE_PRESENT = false.
Proof.
  unfold kind_of. destruct (flag_set e PAGE_PRESENT); [| done].
  by destruct (negb top && _).
Qed.

(** Following a present entry, in either mode. *)
Lemma ensure_present T s f p i g create miss st :
  pt_wf T s -> T !! f = Some p -> (length p < 3)%nat -> 0 <= i < 512 ->
  kind_of (top_of p) (s_ent s f i) = Table g ->
  ensure_next_table (f + hhdm_offset s) i create miss st s = (s, g + hhdm_offset s, st) /\
  T !! g = Some (p ++ [i]).
Proof.
  intros Hwf Hf Hp Hi Hk.
  assert (Hg : T !! g = Some (p ++ [i])) by (by apply (wf_tree _ _ Hwf f)).
  split; [| done]. unfold ensure_next_table.
  pose proof (frame_virtual T s f p Hwf Hf).
  destruct (Z.eqb_spec (f + hhdm_offset s) NULL); [done |].
  destruct (read_entry_eq T s f p i Hwf Hf Hi) as [Hptr Hread]. rewrite Hread.
  destruct (kind_Table _ _ _ Hk) as [Hpr ->]. rewrite Hpr.
  destruct (wf_frame _ _ Hwf _ _ Hg) as (Hfr & _ & _).
  destruct (p2v_frame T s _ Hwf Hfr) as [Hp2v _].
  change (Z.land (s_ent s f i) PAGE_TABLE_ADDRESS_MASK) with (frame_of (s_ent s f i)).
  by rewrite Hp2v.
Qed.
(** What linking table [g] writes. *)
Lemma link_grow T s a g f i v p :
  0 <= hhdm_offset s -> table_frame (hhdm_offset s) f -> table_frame (hhdm_offset s) g ->
  T !! f = Some p -> T !! g = None -> g ∈ pa_free_pages (pt_alloc s) -> 0 <= i < 512 ->
  pa_free_pages a = pa_free_pages (pt_alloc s) ∖ {[g]} ->
  tables_grow T s (<[g := p ++ [i]]> T)
    (write_entry (f + hhdm_offset s + 8 * i) v
       (with_mem (k_memset (g + hhdm_offset s) 0 PAGE_SIZE (pt_mem s)) (with_alloc a s))).
Proof.
  intros Hh (? & ? & ? & ?) (? & ? & ? & ?) Hf Hg Hfree Hi Ha. split_and!.
  - intros k q. destruct (decide (k = g)) as [->|Hne]; [by right |].
    rewrite lookup_insert_ne by done. by left.
  - intros k Hk. pt_simpl. rewrite Ha. destruct (decide (k = g)) as [->|Hne].
    + right. rewrite lookup_insert_eq. by eexists.
    + left. set_solver.
  - intros x Hx Hout. pt_simpl.
    pose proof (Hout g _ (lookup_insert_eq _ _ _)) as Hog.
    assert (Hne : g <> f) by congruence.
    pose proof (Hout f p ltac:(by rewrite lookup_insert_ne)) as Hof.
    rewrite load8_store64_ne by lia. unfold PAGE_SIZE.
    rewrite memset_load, decide_False by lia. done.
Qed.

(** Linking a fresh table under an absent entry. *)
(** Hanging the fresh, cleared page [g] on the absent entry [i] of the table [f]. *)
Lemma hang_table T s a f p i g :
  pt_wf T s -> T !! f = Some p -> (length p < 3)%nat -> 0 <= i < 512 ->
  kind_of (top_of p) (s_ent s f i) = Absent ->
  g <> NULL -> g ∈ pa_free_pages (pt_alloc s) -> page_frame (pa_limit (pt_alloc s)) g -> pa_ok a ->
  pa_free_pages a = pa_free_pages (pt_alloc s) ∖ {[g]} -> pa_limit a = pa_limit (pt_alloc s) ->
  let v := Z.lor (Z.lor g PAGE_PRESENT) PAGE_WRITABLE in
  let s' := write_entry (f + hhdm_offset s + 8 * i) v
              (with_mem (k_memset (g + hhdm_offset s) 0 PAGE_SIZE (pt_mem s)) (with_alloc a s)) in
  pt_wf (<[g := p ++ [i]]> T) s' /\ pt_ext T s (<[g := p ++ [i]]> T) s' /\ T !! g = None /\
  kind_of (top_of p) (s_ent s' f i) = Table g.
Proof.
  intros Hwf Hf Hp Hi Hk Hg0 Hgf Hgp Hok Hfr Hlim v s'. subst s'.
  pose proof (free_frame T s g Hwf Hgp) as Hgt.
  assert (HgT : T !! g = None).
  { destruct (T !! g) eqn:E; [| done]. by destruct (wf_frame _ _ Hwf _ _ E) as (_ & [] & _). }
  pose proof (wf_hhdm _ _ Hwf) as Hh.
  destruct (link_entry g) as [Hvr Hvk]; [apply Hgt | destruct Hgt as (? & ? & ? & ?); lia |].
  fold v in Hvr, Hvk.
  destruct (wf_frame _ _ Hwf _ _ Hf) as (Hff & _ & _).
  set (m' := store64 (f + hhdm_offset s + 8 * i) v
               (k_memset (g + hhdm_offset s) 0 PAGE_SIZE (pt_mem s))).
  assert (Hold : forall f' q j, T !! f' = Some q -> 0 <= j < 512 ->
    ent m' (hhdm_offset s) f' j = if decide (f' = f /\ j = i) then v else s_ent s f' j).
  { intros f' q j Hf' Hj. destruct (wf_frame _ _ Hwf _ _ Hf') as (Hff' & _ & _).
    unfold m'. rewrite ent_store by (done || lia). case_decide; [done |].
    rewrite ent_memset by (done || lia). rewrite decide_False by congruence. done. }
  assert (Hnew : forall j, 0 <= j < 512 -> ent m' (hhdm_offset s) g j = 0).
  { intros j Hj. unfold m'. rewrite ent_store, decide_False by (done || lia || naive_solver).
    rewrite ent_memset, decide_True by (done || lia). done. }
  split; [| split; [| split; [exact HgT |]]].
  - split; pt_simpl.
    + done.
    + apply (wf_ready _ _ Hwf).
    + by rewrite Hlim.
    + intros f' q. rewrite Hfr. destruct (decide (f' = g)) as [->|Hne].
      * rewrite lookup_insert_eq. intros [= <-]. split_and!; [done | set_solver |].
        rewrite length_app; simpl; lia.
      * rewrite lookup_insert_ne by done. intros Hf'.
        destruct (wf_frame _ _ Hwf _ _ Hf') as (? & ? & ?). split_and!; [done | set_solver | done].
    + apply (new_table_tree T (pt_mem s) m' _ f i g v p); auto using wf_tree.
  - split; pt_simpl.
    + by apply insert_subseteq.
    + unfold same_config; pt_simpl. rewrite Hfr, Hlim. split_and!; try reflexivity. set_solver.
    + reflexivity.
    + exact (link_grow T s a g f i v p (proj1 Hh) Hff Hgt Hf HgT Hgf Hi Hfr).
    + intros f' q j g' Hf' Hq Hj Hk'.
      change (kind_of (top_of q) (ent m' (hhdm_offset s) f' j) = Table g').
      rewrite (Hold f' q j) by done. case_decide as Hd; [| done].
      destruct Hd as [-> ->]. congruence.
    + intros root va Hr.
      change (mmu_walk m' (hhdm_offset s) root va = s_walk s root va).
      apply (new_table_walk T (pt_mem s) m' _ f i g v p); auto using wf_tree.
  - change (kind_of (top_of p) (ent m' (hhdm_offset s) f i) = Table g).
    rewrite (Hold f p i), decide_True by done. done.
Qed.

Lemma ensure_absent T s s' f p i miss st t st' :
  pt_wf T s -> T !! f = Some p -> (length p < 3)%nat -> 0 <= i < 512 ->
  kind_of (top_of p) (s_ent s f i) = Absent ->
  ensure_next_table (f + hhdm_offset s) i true miss st s = (s', t, st') ->
  (t = NULL /\ s' = s /\ pa_free_pages (pt_alloc s) = ∅) \/
  exists g, t = g + hhdm_offset s /\ st' = st /\ pt_wf (<[g := p ++ [i]]> T) s' /\
    pt_ext T s (<[g := p ++ [i]]> T) s' /\ T !! g = None /\
    kind_of (top_of p) (s_ent s' f i) = Table g.
Proof.
  intros Hwf Hf Hp Hi Hk. unfold ensure_next_table.
  pose proof (frame_virtual T s f p Hwf Hf).
  destruct (Z.eqb_spec (f + hhdm_offset s) NULL); [done |].
  destruct (read_entry_eq T s f p i Hwf Hf Hi) as [Hptr Hread]. rewrite Hread, Hptr.
  rewrite (proj1 (kind_Absent _ _) Hk). cbn [negb].
  unfold alloc_page. destruct (pa_alloc_page (pt_alloc s)) as [a g] eqn:Ea.
  destruct (pa_alloc_cases _ _ _ (wf_alloc _ _ Hwf) Ea)
    as [(-> & -> & He) | (Hg0 & Hgf & Hgp & Hok & Hfr & Hlim)].
  { intros [= <- <- <-]. left. destruct s; done. }
  destruct (Z.eqb_spec g NULL) as [|_]; [done |].
  pose proof (free_frame T s g Hwf Hgp) as Hgt.
  destruct (p2v_frame T s g Hwf Hgt) as [Hv Hvn].
  unfold page_table_physical_to_virtual in *; cbn [with_alloc hhdm_offset]. rewrite Hv.
  destruct (Z.eqb_spec (g + hhdm_offset s) NULL); [done |].
  intros [= <- <- <-]. right. exists g.
  do 2 (split; [reflexivity |]). exact (hang_table T s a f p i g Hwf Hf Hp Hi Hk Hg0 Hgf Hgp Hok Hfr Hlim).
Qed.

Definition level_of (l : nat) : page_walk_level_t :=
  match l with
  | O => PAGE_WALK_LEVEL_PT
  | S O => PAGE_WALK_LEVEL_PD
  | S (S O) => PAGE_WALK_LEVEL_PDPT
  | _ => PAGE_WALK_LEVEL_NONE
  end.

(** What a creating walk from table [f] at level [l] delivers: a slot in a page
    table, or nothing because memory ran out or a large page is in the way. *)
Definition walk_post T s (l : nat) (f va : Z) (out : pt_state A * walk_result) : Prop :=
  let '(s', r) := out in
  exists T', pt_wf T' s' /\ pt_ext T s T' s' /\
    ((w_entry r = NULL /\
      (pa_free_pages (pt_alloc s') = ∅ \/ exists g l', s_slot s' l f va = Some (g, S l'))) \/
     (exists g, w_entry r = g + hhdm_offset s' + 8 * idx 0 va /\
        w_level r = PAGE_WALK_LEVEL_PT /\ s_slot s' l f va = Some (g, O))).

Lemma walk_post_null T s l f va st :
  pt_wf T s -> pa_free_pages (pt_alloc s) = ∅ -> walk_post T s l f va (s, walk_fail st).
Proof. intros Hwf He. exists T. split_and!; [done | apply pt_ext_refl | left; auto]. Qed.

Lemma walk_post_large T s l f p va st :
  pt_wf T s -> T !! f = Some p -> (length p + S l = 3)%nat ->
  kind_of (top_of p) (s_ent s f (idx (S l) va)) = Large ->
  walk_post T s (S l) f va (s, walk_fail st).
Proof.
  intros Hwf Hf Hl Hk. exists T. split_and!; [done | apply pt_ext_refl |].
  left. split; [done |]. right. exists f, l. unfold s_slot; cbn [mmu_slot].
  change (ent (pt_mem s) (hhdm_offset s)) with (s_ent s).
  rewrite (top_level p) by lia. by rewrite Hk.
Qed.

(** One level: get the next table, then whatever the walk below delivers. *)
Lemma walk_post_step T s l f p va miss st (k : Z -> page_walk_status_t -> pt_state A ->
    pt_state A * walk_result) :
  pt_wf T s -> T !! f = Some p -> (length p + S l = 3)%nat ->
  kind_of (top_of p) (s_ent s f (idx (S l) va)) <> Large ->
  (forall T1 s1 g st1, pt_wf T1 s1 -> T1 !! g = Some (p ++ [idx (S l) va]) ->
     walk_post T1 s1 l g va (k (g + hhdm_offset s1) st1 s1)) ->
  walk_post T s (S l) f va
    (let '(s1, t, st1) := ensure_next_table (f + hhdm_offset s) (idx (S l) va) true miss st s in
     if t =? NULL then (s1, walk_fail st1) else k t st1 s1).
Proof.
  intros Hwf Hf Hl Hk Hrest.
  pose proof (idx_range (S l) va) as Hi.
  assert (Hstep : forall T1 s1 g st1, pt_wf T1 s1 -> pt_ext T s T1 s1 ->
    T1 !! g = Some (p ++ [idx (S l) va]) ->
    kind_of (top_of p) (s_ent s1 f (idx (S l) va)) = Table g ->
    walk_post T s (S l) f va
      (if g + hhdm_offset s1 =? NULL then (s1, walk_fail st1) else k (g + hhdm_offset s1) st1 s1)).
  { intros T1 s1 g st1 Hwf1 Hext Hg Hkg.
    pose proof (frame_virtual T1 s1 g _ Hwf1 Hg).
    destruct (Z.eqb_spec (g + hhdm_offset s1) NULL); [done |].
    specialize (Hrest T1 s1 g st1 Hwf1 Hg).
    destruct (k (g + hhdm_offset s1) st1 s1) as [s2 r].
    destruct Hrest as (T2 & Hwf2 & Hext2 & Hout).
    exists T2. split; [done |]. split; [by apply (pt_ext_trans T s T1 s1) |].
    assert (Hslot : s_slot s2 (S l) f va = s_slot s2 l g va).
    { unfold s_slot; cbn [mmu_slot].
      change (ent (pt_mem s2) (hhdm_offset s2)) with (s_ent s2).
      rewrite (top_level p) by lia.
      rewrite (ext_table _ _ _ _ Hext2 f p _ g); [done | | lia | done | done].
      eapply lookup_weaken; [exact Hf | apply Hext]. }
    rewrite Hslot. exact Hout. }
  destruct (kind_of (top_of p) (s_ent s f (idx (S l) va))) as [| |g] eqn:E; [| done |].
  - destruct (ensure_next_table _ _ _ _ _ _) as [[s1 t] st1] eqn:En.
    destruct (ensure_absent T s s1 f p _ miss st t st1 Hwf Hf ltac:(lia) Hi E En)
      as [(-> & -> & He) | (g & -> & -> & Hwf1 & Hext & _ & Hkg)].
    + by apply walk_post_null.
    + replace (hhdm_offset s) with (hhdm_offset s1) by apply Hext.
      apply (Hstep (<[g := p ++ [idx (S l) va]]> T)); [done | done | | done].
      apply lookup_insert_eq.
  - destruct (ensure_present T s f p _ g true miss st Hwf Hf ltac:(lia) Hi E) as [-> Hg].
    apply (Hstep T); [done | apply pt_ext_refl | done | done].
Qed.

Lemma kind_cases T s f p i :
  pt_wf T s -> T !! f = Some p -> 0 <= i < 512 ->
  read_entry s (entry_ptr (f + hhdm_offset s) i) = s_ent s f i.
Proof. intros Hwf Hf Hi. apply (read_entry_eq T s f p i Hwf Hf Hi). Qed.

(** Present with the huge bit, below the PML4, is a large page. *)
Lemma kind_flags e :
  kind_of false e =
    if flag_set e PAGE_PRESENT
    then if flag_set e PAGE_HUGE then Large else Table (frame_of e) else Absent.
Proof. unfold kind_of. by destruct (flag_set e PAGE_PRESENT). Qed.

Lemma walk_pd_create T s f p va st :
  pt_wf T s -> T !! f = Some p -> length p = 2%nat ->
  walk_post T s 1 f va (walk_pd (f + hhdm_offset s) va true st s).
Proof.
  intros Hwf Hf Hl. unfold walk_pd. cbn [negb andb].
  change (PD_INDEX va) with (idx 1 va).
  rewrite (kind_cases T s f p) by (done || apply idx_range).
  pose proof (kind_flags (s_ent s f (idx 1 va))) as Hk.
  assert (Htop : top_of p = false) by (unfold top_of; by rewrite Hl).
  destruct (flag_set (s_ent s f (idx 1 va)) PAGE_PRESENT) eqn:Ep;
    [destruct (flag_set (s_ent s f (idx 1 va)) PAGE_HUGE) eqn:Eh |].
  1: { apply (walk_post_large T s 0 f p); [done | done | lia | by rewrite Htop]. }
  all: apply (walk_post_step T s 0 f p va _ st (fun pt status1 s1 =>
         (s1, mk_walk (entry_ptr pt (PT_INDEX va)) PAGE_WALK_LEVEL_PT status1)));
       [done | done | lia | rewrite Htop; congruence |];
       intros T1 s1 g st1 Hwf1 Hg; exists T1; split; [done |]; split; [apply pt_ext_refl |];
       right; exists g; split_and!; [| done | done];
       apply (read_entry_eq T1 s1 g _ (idx 0 va) Hwf1 Hg); apply idx_range.
Qed.

Lemma walk_pdpt_create T s f p va st :
  pt_wf T s -> T !! f = Some p -> length p = 1%nat ->
  walk_post T s 2 f va (walk_pdpt (f + hhdm_offset s) va true st s).
Proof.
  intros Hwf Hf Hl. unfold walk_pdpt. cbn [negb].
  change (PDPT_INDEX va) with (idx 2 va).
  rewrite (kind_cases T s f p) by (done || apply idx_range).
  pose proof (kind_flags (s_ent s f (idx 2 va))) as Hk.
  assert (Htop : top_of p = false) by (unfold top_of; by rewrite Hl).
  destruct (flag_set (s_ent s f (idx 2 va)) PAGE_PRESENT) eqn:Ep;
    [destruct (flag_set (s_ent s f (idx 2 va)) PAGE_HUGE) eqn:Eh |].
  1: { apply (walk_post_large T s 1 f p); [done | done | lia | by rewrite Htop]. }
  all: apply (walk_post_step T s 1 f p va _ st (fun pd status1 s1 => walk_pd pd va true status1 s1));
       [done | done | lia | rewrite Htop; congruence |];
       intros T1 s1 g st1 Hwf1 Hg; apply (walk_pd_create T1 s1 g _ va st1 Hwf1 Hg);
       rewrite length_app; simpl; lia.
Qed.

Lemma walk_create T s root va :
  pt_wf T s -> T !! root = Some [] ->
  walk_post T s 3 root va (page_walk_internal (root + hhdm_offset s) va true s).
Proof.
  intros Hwf Hr. unfold page_walk_internal.
  pose proof (frame_virtual T s root _ Hwf Hr).
  destruct (Z.eqb_spec (root + hhdm_offset s) NULL); [done |].
  change (PML4_INDEX va) with (idx 3 va).
  apply (walk_post_step T s 2 root [] va _ PAGE_WALK_OK (fun pdpt status1 s1 =>
           walk_pdpt pdpt va true status1 s1)); [done | done | done | |].
  - unfold kind_of. cbn. by destruct (negb (flag_set _ PAGE_PRESENT)).
  - intros T1 s1 g st1 Hwf1 Hg. by apply (walk_pdpt_create T1 s1 g _ va st1 Hwf1 Hg).
Qed.

(** The walk without creation is the processor's. *)
Definition read_post s (l : nat) (f va : Z) (out : pt_state A * walk_result) : Prop :=
  exists r, out = (s, r) /\
    match s_slot s l f va with
    | Some (g, l') =>
      if flag_set (s_ent s g (idx l' va)) PAGE_PRESENT
      then w_entry r = g + hhdm_offset s + 8 * idx l' va /\ w_level r = level_of l'
      else w_entry r = NULL
    | None => w_entry r = NULL
    end.

Lemma read_post_fail s l f va st :
  s_slot s l f va = None -> read_post s l f va (s, walk_fail st).
Proof. intros Hs. eexists; split; [done |]. by rewrite Hs. Qed.

Lemma walk_pd_read T s f p va st :
  pt_wf T s -> T !! f = Some p -> length p = 2%nat ->
  read_post s 1 f va (walk_pd (f + hhdm_offset s) va false st s).
Proof.
  intros Hwf Hf Hl. unfold walk_pd. cbn [negb andb].
  change (PD_INDEX va) with (idx 1 va). pose proof (idx_range 1 va) as Hi.
  destruct (read_entry_eq T s f p (idx 1 va) Hwf Hf Hi) as [Hptr Hread].
  rewrite Hread.
  assert (Hslot : s_slot s 1 f va = match kind_of false (s_ent s f (idx 1 va)) with
    | Absent => None | Large => Some (f, 1%nat) | Table g => Some (g, O) end) by done.
  pose proof (kind_flags (s_ent s f (idx 1 va))) as Hk.
  assert (Htop : top_of p = false) by (unfold top_of; by rewrite Hl).
  destruct (flag_set (s_ent s f (idx 1 va)) PAGE_PRESENT) eqn:Ep;
    [destruct (flag_set (s_ent s f (idx 1 va)) PAGE_HUGE) eqn:Eh |].
  - eexists; split; [done |]. rewrite Hslot, Hk, Ep. done.
  - rewrite <- Htop in Hk.
    destruct (ensure_present T s f p _ _ false PAGE_WALK_MISSING_PD_ENTRY st Hwf Hf ltac:(lia) Hi Hk)
      as [-> Hg]. rewrite <- Htop in Hslot. rewrite Hk in Hslot.
    set (g := frame_of _) in *.
    pose proof (frame_virtual T s g _ Hwf Hg).
    destruct (Z.eqb_spec (g + hhdm_offset s) NULL); [done |].
    change (PT_INDEX va) with (idx 0 va).
    destruct (read_entry_eq T s g _ (idx 0 va) Hwf Hg (idx_range 0 va)) as [Hptr' Hread'].
    rewrite Hread'.
    destruct (flag_set (s_ent s g (idx 0 va)) PAGE_PRESENT) eqn:Ep'; cbn [negb];
      eexists; (split; [done |]); rewrite Hslot, Ep'; done.
  - apply read_post_fail. by rewrite Hslot, Hk.
Qed.

Lemma walk_pdpt_read T s f p va st :
  pt_wf T s -> T !! f = Some p -> length p = 1%nat ->
  read_post s 2 f va (walk_pdpt (f + hhdm_offset s) va false st s).
Proof.
  intros Hwf Hf Hl. unfold walk_pdpt. cbn [negb].
  change (PDPT_INDEX va) with (idx 2 va). pose proof (idx_range 2 va) as Hi.
  destruct (read_entry_eq T s f p (idx 2 va) Hwf Hf Hi) as [Hptr Hread].
  rewrite Hread.
  assert (Hslot : s_slot s 2 f va = match kind_of false (s_ent s f (idx 2 va)) with
    | Absent => None | Large => Some (f, 2%nat) | Table g => s_slot s 1 g va end) by done.
  pose proof (kind_flags (s_ent s f (idx 2 va))) as Hk.
  assert (Htop : top_of p = false) by (unfold top_of; by rewrite Hl).
  destruct (flag_set (s_ent s f (idx 2 va)) PAGE_PRESENT) eqn:Ep;
    [destruct (flag_set (s_ent s f (idx 2 va)) PAGE_HUGE) eqn:Eh |].
  - eexists; split; [done |]. rewrite Hslot, Hk, Ep. done.
  - rewrite <- Htop in Hk.
    destruct (ensure_present T s f p _ _ false PAGE_WALK_MISSING_PDPT_ENTRY st Hwf Hf ltac:(lia) Hi Hk)
      as [-> Hg]. rewrite <- Htop in Hslot. rewrite Hk in Hslot.
    set (g := frame_of _) in *.
    pose proof (frame_virtual T s g _ Hwf Hg).
    destruct (Z.eqb_spec (g + hhdm_offset s) NULL); [done |].
    unfold read_post. rewrite Hslot. apply (walk_pd_read T s g _ va st Hwf Hg).
    rewrite length_app; simpl; lia.
  - apply read_post_fail. by rewrite Hslot, Hk.
Qed.

Lemma walk_read T s root va :
  pt_wf T s -> T !! root = Some [] ->
  read_post s 3 root va (page_walk_internal (root + hhdm_offset s) va false s).
Proof.
  intros Hwf Hr. unfold page_walk_internal.
  pose proof (frame_virtual T s root _ Hwf Hr).
  destruct (Z.eqb_spec (root + hhdm_offset s) NULL); [done |].
  change (PML4_INDEX va) with (idx 3 va). pose proof (idx_range 3 va) as Hi.
  assert (Hslot : s_slot s 3 root va = match kind_of true (s_ent s root (idx 3 va)) with
    | Absent => None | Large => Some (root, 3%nat) | Table g => s_slot s 2 g va end) by done.
  destruct (kind_of true (s_ent s root (idx 3 va))) as [| |g] eqn:Ek.
  - unfold ensure_next_table.
    destruct (Z.eqb_spec (root + hhdm_offset s) NULL); [done |].
    rewrite (kind_cases T s root []) by done.
    rewrite (proj1 (kind_Absent _ _) Ek). cbn. by apply read_post_fail.
  - unfold kind_of in Ek. by destruct (negb (flag_set _ PAGE_PRESENT)).
  - destruct (ensure_present T s root [] _ g false PAGE_WALK_MISSING_PML4_ENTRY PAGE_WALK_OK
                Hwf Hr ltac:(simpl; lia) Hi Ek) as [-> Hg].
    pose proof (frame_virtual T s g _ Hwf Hg).
    destruct (Z.eqb_spec (g + hhdm_offset s) NULL); [done |].
    unfold read_post. rewrite Hslot. by apply (walk_pdpt_read T s g _ va _ Hwf Hg).
Qed.

(** ** Writing one entry *)
Lemma slot_path m h l f va va' :
  path l va = path l va' -> mmu_slot m h l f va = mmu_slot m h l f va'.
Proof.
  revert f; induction l as [|l IH]; intros f Hp; [done |].
  injection Hp as Hi Hp. cbn [mmu_slot]. rewrite Hi.
  destruct (kind_of _ _); [done | done | by apply IH].
Qed.

Lemma slot_large m h l f va g l' :
  mmu_slot m h l f va = Some (g, S l') -> kind_of (is_top (S l')) (ent m h g (idx (S l') va)) = Large.
Proof.
  revert f; induction l as [|l IH]; intros f Hs; [done |].
  cbn [mmu_slot] in Hs.
  destruct (kind_of (is_top (S l)) (ent m h f (idx (S l) va))) eqn:E; [done | | by eapply IH].
  by injection Hs as -> <-.
Qed.

Lemma entry_write T s f p i v :
  pt_wf T s -> T !! f = Some p -> 0 <= i < 512 -> 0 <= v < 2 ^ 64 ->
  ((length p < 3)%nat -> kind_of (top_of p) v = kind_of (top_of p) (s_ent s f i)) ->
  let s' := write_entry (f + hhdm_offset s + 8 * i) v s in
  pt_wf T s' /\
  same_kinds T (pt_mem s) (pt_mem s') (hhdm_offset s) /\
  (forall g q j, T !! g = Some q -> 0 <= j < 512 ->
     s_ent s' g j = if decide (g = f /\ j = i) then v else s_ent s g j).
Proof.
  intros Hwf Hf Hi Hv Hk s'.
  destruct (wf_frame _ _ Hwf _ _ Hf) as (Hff & _ & _).
  pose proof (wf_hhdm _ _ Hwf) as Hh.
  assert (Hent : forall g q j, T !! g = Some q -> 0 <= j < 512 ->
     s_ent s' g j = if decide (g = f /\ j = i) then v else s_ent s g j).
  { intros g q j Hg Hj. destruct (wf_frame _ _ Hwf _ _ Hg) as (Hgf & _ & _).
    unfold s_ent, s'. pt_simpl. apply ent_store; done || lia. }
  assert (Hsame : same_kinds T (pt_mem s) (pt_mem s') (hhdm_offset s)).
  { intros g q j Hg Hq Hj.
    change (ent (pt_mem s') (hhdm_offset s) g j) with (s_ent s' g j).
    rewrite (Hent g q j Hg Hj). case_decide as Hd; [| done].
    destruct Hd as [-> ->]. rewrite Hf in Hg; injection Hg as <-. by apply Hk. }
  split; [| by split]. split.
  - apply (wf_alloc _ _ Hwf).
  - apply (wf_ready _ _ Hwf).
  - exact Hh.
  - intros g q Hg. apply (wf_frame _ _ Hwf _ _ Hg).
  - apply (tree_ok_same T (pt_mem s)); [apply (wf_tree _ _ Hwf) | exact Hsame].
Qed.

(** A write to the page-table slot of [va] changes the walk of its page only. *)
Lemma leaf_write T s root f va v :
  pt_wf T s -> T !! root = Some [] -> s_slot s 3 root va = Some (f, O) -> 0 <= v < 2 ^ 64 ->
  let s' := write_entry (f + hhdm_offset s + 8 * idx 0 va) v s in
  pt_wf T s' /\
  (forall r va', T !! r = Some [] -> page_of va' <> page_of va -> s_walk s' r va' = s_walk s r va') /\
  (forall va', page_of va' = page_of va ->
     s_walk s' root va' = if flag_set v PAGE_PRESENT then Some (v, O) else None).
Proof.
  intros Hwf Hr Hs Hv s'.
  destruct (slot_in_tree T (pt_mem s) (hhdm_offset s) 3 root [] va f 0) as (q & Hq & Hl & Hpq);
    [apply (wf_tree _ _ Hwf) | done | done | done |].
  destruct (entry_write T s f q (idx 0 va) v) as (Hwf' & Hsame & Hent);
    [done | done | apply idx_range | done | lia |]. fold s' in Hwf', Hsame, Hent.
  split; [exact Hwf' |]. split.
  - intros r va' Hr' Hne. apply (walk_same T (pt_mem s)); [apply (wf_tree _ _ Hwf) | exact Hsame | done |].
    intros g l Hg.
    destruct (slot_in_tree T (pt_mem s) (hhdm_offset s) 3 r [] va' g l) as (q' & Hq' & Hl' & Hpq');
      [apply (wf_tree _ _ Hwf) | done | done | done |].
    change (s_ent s' g (idx l va') = s_ent s g (idx l va')).
    rewrite (Hent g q') by (done || apply idx_range). apply decide_False.
    intros [-> Hix]. rewrite Hq in Hq'. injection Hq' as <-.
    assert (l = 0%nat) as -> by lia. apply Hne, idx_page_of.
    rewrite <- (app_nil_l (path 3 va')), <- (app_nil_l (path 3 va)), <- Hpq, <- Hpq'.
    cbn [path]. by rewrite Hix.
  - intros va' Heq. apply idx_page_of in Heq.
    unfold s_walk, mmu_walk.
    rewrite (slot_same T (pt_mem s) (pt_mem s') (hhdm_offset s') 3 root [])
      by (apply (wf_tree _ _ Hwf) || done).
    rewrite (slot_path _ _ 3 root va' va) by done.
    change (mmu_slot (pt_mem s) (hhdm_offset s') 3 root va) with (s_slot s 3 root va).
    rewrite Hs.
    change (ent (pt_mem s') (hhdm_offset s') f (idx 0 va')) with (s_ent s' f (idx 0 va')).
    assert (Hi : idx 0 va' = idx 0 va) by (by injection Heq as _ _ _ ->).
    rewrite Hi, (Hent f q), decide_True by (done || apply idx_range). done.
Qed.

(** ** Entry values *)
Lemma lor_range a b : 0 <= a < 2 ^ 64 -> 0 <= b < 2 ^ 64 -> 0 <= Z.lor a b < 2 ^ 64.
Proof.
  intros Ha Hb.
  replace (Z.lor a b) with (Z.lor a b mod 2 ^ 64); [apply Z.mod_pos_bound; lia |].
  apply Z.bits_inj'. intros k Hk. destruct (Z.ltb_spec k 64).
  - by rewrite testbit_mod_pow2 by lia.
  - rewrite testbit_mod_pow2_high, Z.lor_spec by lia.
    rewrite <- (Z.mod_small a (2 ^ 64)), <- (Z.mod_small b (2 ^ 64)) by lia.
    by rewrite !testbit_mod_pow2_high by lia.
Qed.

Lemma land_range a b : 0 <= a < 2 ^ 64 -> 0 <= Z.land a b < 2 ^ 64.
Proof.
  intros Ha.
  replace (Z.land a b) with (Z.land a b mod 2 ^ 64); [apply Z.mod_pos_bound; lia |].
  apply Z.bits_inj'. intros k Hk. destruct (Z.ltb_spec k 64).
  - by rewrite testbit_mod_pow2 by lia.
  - rewrite testbit_mod_pow2_high, Z.land_spec by lia.
    rewrite <- (Z.mod_small a (2 ^ 64)) by lia.
    by rewrite testbit_mod_pow2_high by lia.
Qed.

(** The value [page_table_map] stores. *)
Definition map_entry (pa flags : Z) : Z :=
  Z.lor (Z.lor (Z.land pa PAGE_TABLE_ADDRESS_MASK)
           (Z.land (Z.land flags (u64 (Z.lnot PAGE_PRESENT))) (u64 (Z.lnot PAGE_HUGE))))
    PAGE_PRESENT.

Lemma map_entry_range pa flags :
  0 <= pa < 2 ^ 64 -> 0 <= flags < 2 ^ 64 -> 0 <= map_entry pa flags < 2 ^ 64.
Proof.
  intros Hpa Hfl. unfold map_entry.
  apply lor_range; [apply lor_range |]; [by apply land_range | | by vm_compute].
  by do 2 apply land_range.
Qed.

Lemma lor_present e : flag_set (Z.lor e PAGE_PRESENT) PAGE_PRESENT = true.
Proof.
  unfold PAGE_PRESENT. rewrite flag_set_bit by lia. rewrite Z.lor_spec.
  by rewrite orb_true_r.
Qed.

Lemma map_entry_present pa flags : flag_set (map_entry pa flags) PAGE_PRESENT = true.
Proof. apply lor_present. Qed.

Lemma land_frame_idem e : frame_of (frame_of e) = frame_of e.
Proof. unfold frame_of. rewrite <- Z.land_assoc. by rewrite Z.land_diag. Qed.

(** Flags without address bits leave the frame as given. *)
Lemma map_entry_frame pa flags :
  frame_of flags = 0 -> frame_of (map_entry pa flags) = frame_of pa.
Proof.
  intros Hfl. unfold map_entry. rewrite !frame_of_lor.
  change (Z.land pa PAGE_TABLE_ADDRESS_MASK) with (frame_of pa). rewrite land_frame_idem.
  assert (Hz : frame_of (Z.land (Z.land flags (u64 (Z.lnot PAGE_PRESENT)))
                           (u64 (Z.lnot PAGE_HUGE))) = 0).
  { unfold frame_of in *. rewrite (Z.land_comm flags), <- !Z.land_assoc.
    rewrite (Z.land_comm flags), (Z.land_comm _ flags), <- ?Z.land_assoc.
    rewrite (Z.land_comm (u64 _) PAGE_TABLE_ADDRESS_MASK), ?Z.land_assoc.
    rewrite <- (Z.land_assoc _ flags), Hfl. by rewrite Z.land_0_r. }
  rewrite Hz. change (frame_of PAGE_PRESENT) with 0. by rewrite !Z.lor_0_r.
Qed.

Lemma wf_invalidate T s va : pt_wf T s -> pt_wf T (invalidate_page va s).
Proof. intros [? ? ? ? ?]. by split. Qed.

Lemma walk_slot s root va e l :
  s_walk s root va = Some (e, l) ->
  exists f, s_slot s 3 root va = Some (f, l) /\ e = s_ent s f (idx l va) /\
    flag_set e PAGE_PRESENT = true.
Proof.
  unfold s_walk, mmu_walk. change (mmu_slot (pt_mem s) (hhdm_offset s)) with (s_slot s).
  destruct (s_slot s 3 root va) as [[f l']|]; [| done].
  change (ent (pt_mem s) (hhdm_offset s)) with (s_ent s).
  destruct (flag_set _ _) eqn:E; [| done]. intros [= <- <-]. by exists f.
Qed.

Lemma large_slot_walk s root va g l :
  s_slot s 3 root va = Some (g, S l) -> exists e, s_walk s root va = Some (e, S l).
Proof.
  intros Hs. pose proof (slot_large _ _ _ _ _ _ _ Hs) as Hk.
  exists (s_ent s g (idx (S l) va)). unfold s_walk, mmu_walk.
  change (mmu_slot _ _ 3 root va) with (s_slot s 3 root va). rewrite Hs.
  change (ent (pt_mem s) (hhdm_offset s)) with (s_ent s) in *.
  unfold kind_of in Hk. by destruct (flag_set (s_ent s g (idx (S l) va)) PAGE_PRESENT).
Qed.

(** The read-only walk against [s_walk]. *)
Lemma walk_read_cases T s root va :
  pt_wf T s -> T !! root = Some [] ->
  exists r, page_walk_internal (root + hhdm_offset s) va false s = (s, r) /\
    match s_walk s root va with
    | Some (e, l) =>
      exists f, s_slot s 3 root va = Some (f, l) /\ w_entry r = f + hhdm_offset s + 8 * idx l va /\
        w_entry r <> NULL /\ read_entry s (w_entry r) = e /\ w_level r = level_of l /\
        flag_set e PAGE_PRESENT = true /\ (l <= 2)%nat
    | None => w_entry r = NULL
    end.
Proof.
  intros Hwf Hr. destruct (walk_read T s root va Hwf Hr) as (r & Hw & Hpost).
  exists r. split; [done |].
  unfold s_walk, mmu_walk. change (mmu_slot (pt_mem s) (hhdm_offset s)) with (s_slot s).
  change (ent (pt_mem s) (hhdm_offset s)) with (s_ent s).
  destruct (s_slot s 3 root va) as [[f l]|] eqn:Es; [| done].
  destruct (flag_set (s_ent s f (idx l va)) PAGE_PRESENT) eqn:E; [| done].
  destruct Hpost as [He Hl]. exists f.
  destruct (slot_in_tree T (pt_mem s) (hhdm_offset s) 3 root [] va f l) as (q & Hq & Hlq & _);
    [apply (wf_tree _ _ Hwf) | done | done | done |].
  destruct (wf_frame _ _ Hwf _ _ Hq) as ((? & ? & ? & ?) & _ & _).
  pose proof (wf_hhdm _ _ Hwf). pose proof (idx_range l va).
  split_and!; try done.
  - rewrite He. unfold NULL. lia.
  - by rewrite He.
  - destruct l as [|l]; [lia |].
    pose proof (slot_large _ _ _ _ _ _ _ Es) as Hk.
    destruct (decide (l = 2%nat)) as [->|]; [| lia].
    unfold kind_of in Hk. cbn in Hk. by destruct (negb (flag_set _ PAGE_PRESENT)).
Qed.

(** [page_table_map], in terms of the processor's walk. *)
Lemma map_spec T s root va pa flags s' ok :
  pt_wf T s -> T !! root = Some [] -> page_table_active_root s = root + hhdm_offset s ->
  0 <= pa < 2 ^ 64 -> 0 <= flags < 2 ^ 64 ->
  page_table_map va pa flags s = (s', ok) ->
  exists T', pt_wf T' s' /\ T ⊆ T' /\ same_config s s' /\ tables_grow T s T' s' /\
    (forall r va', T !! r = Some [] -> page_of va' <> page_of va ->
       s_walk s' r va' = s_walk s r va') /\
    (if ok then
       invalidated s' = va :: invalidated s /\
       forall va', page_of va' = page_of va -> s_walk s' root va' = Some (map_entry pa flags, O)
     else
       invalidated s' = invalidated s /\
       (forall r va', T !! r = Some [] -> s_walk s' r va' = s_walk s r va') /\
       (pa_free_pages (pt_alloc s') = ∅ \/ exists g l, s_slot s' 3 root va = Some (g, S l))).
Proof.
  intros Hwf Hr Hact Hpa Hfl. unfold page_table_map. rewrite Hact.
  pose proof (walk_create T s root va Hwf Hr) as Hpost.
  destruct (page_walk_internal _ va true s) as [s1 r].
  destruct Hpost as (T1 & Hwf1 & Hext & [[Hn Hwhy] | (g & He & Hlv & Hs1)]).
  - rewrite Hn. cbn. intros [= <- <-]. exists T1.
    split; [done |]. split; [apply Hext |]. split; [apply Hext |]. split; [apply Hext |].
    split; [intros; by apply (ext_walk _ _ _ _ Hext) |].
    split; [apply Hext |]. split; [intros; by apply (ext_walk _ _ _ _ Hext) | done].
  - assert (Hr1 : T1 !! root = Some []) by (eapply lookup_weaken; [exact Hr | apply Hext]).
    destruct (leaf_write T1 s1 root g va (map_entry pa flags)) as (Hwf2 & Hother & Hsame);
      [done | done | done | by apply map_entry_range |].
    destruct (slot_in_tree T1 (pt_mem s1) (hhdm_offset s1) 3 root [] va g 0) as (q & Hq & _);
      [apply (wf_tree _ _ Hwf1) | done | done | done |].
    destruct (wf_frame _ _ Hwf1 _ _ Hq) as ((? & ? & ? & ?) & _ & _).
    pose proof (wf_hhdm _ _ Hwf1). pose proof (idx_range 0 va).
    destruct (Z.eqb_spec (w_entry r) NULL) as [Hn|_]; [unfold NULL in Hn; lia |].
    rewrite Hlv. rewrite bool_decide_true by done. cbn [negb]. rewrite He.
    change (Z.lor (Z.lor _ _) PAGE_PRESENT) with (map_entry pa flags).
    intros [= <- <-]. exists T1.
    split; [by apply wf_invalidate |]. split; [apply Hext |].
    split; [exact (ext_config _ _ _ _ Hext) |]. split.
    { eapply tables_grow_trans; [exact (ext_config _ _ _ _ Hext) | reflexivity | apply Hext |].
      split_and!; [by left | by left |]. intros x Hx Hout. pt_simpl. specialize (Hout g q Hq).
      apply load8_store64_ne; lia. }
    split.
    + intros r' va' Hr' Hne. rewrite <- (ext_walk _ _ _ _ Hext r' va' Hr').
      apply Hother; [| done]. eapply lookup_weaken; [exact Hr' | apply Hext].
    + split; [cbn; f_equal; apply Hext |].
      intros va' Heq. pose proof (Hsame va' Heq) as Hw.
      rewrite map_entry_present in Hw. exact Hw.
Qed.

Lemma active_root_same s s' :
  same_config s s' -> page_table_active_root s' = page_table_active_root s.
Proof.
  intros (Hh & Hrd & _ & Hk & _ & Hc & _).
  unfold page_table_active_root, page_table_current_root, page_table_physical_to_virtual.
  by rewrite Hk, Hrd, Hc, Hh.
Qed.

Lemma level_size l : (l <= 2)%nat -> page_size_for_level (level_of l) = 2 ^ (12 + 9 * Z.of_nat l).
Proof. intros Hl. do 3 (destruct l as [|l]; [done |]). lia. Qed.

(** Large pages start at a multiple of their size. *)
Definition large_aligned s root : Prop :=
  forall va e l, s_walk s root va = Some (e, l) -> frame_of e mod 2 ^ (12 + 9 * Z.of_nat l) = 0.

Lemma translate_spec T s root va :
  pt_wf T s -> T !! root = Some [] -> page_table_active_root s = root + hhdm_offset s ->
  (forall e l, s_walk s root va = Some (e, l) -> frame_of e mod 2 ^ (12 + 9 * Z.of_nat l) = 0) ->
  page_table_translate va s =
    (s, default 0 (mmu_translate (pt_mem s) (hhdm_offset s) root va)).
Proof.
  intros Hwf Hr Hact Hal. unfold page_table_translate. rewrite Hact.
  destruct (walk_read_cases T s root va Hwf Hr) as (r & -> & Hpost).
  unfold mmu_translate. change (mmu_walk (pt_mem s) (hhdm_offset s)) with (s_walk s).
  destruct (s_walk s root va) as [[e l]|] eqn:Ew.
  2: { by rewrite Hpost. }
  destruct Hpost as (f & _ & _ & Hne & Hrd & Hlv & Hpr & Hl2).
  destruct (Z.eqb_spec (w_entry r) NULL); [done |].
  rewrite Hrd, Hpr, Hlv. cbn [negb]. rewrite level_size by done.
  destruct (Z.eqb_spec (2 ^ (12 + 9 * Z.of_nat l)) 0); [lia |].
  cbn [default]. f_equal.
  change (Z.land e PAGE_TABLE_ADDRESS_MASK) with (frame_of e).
  replace (2 ^ (12 + 9 * Z.of_nat l) - 1) with (Z.ones (12 + 9 * Z.of_nat l)) by (rewrite Z.ones_equiv; lia).
  rewrite Z.land_ones by lia. simpl.
  apply (lor_low _ _ (12 + 9 * Z.of_nat l)); [lia | apply Z.mod_pos_bound; lia |].
  by apply Hal.
Qed.

(** Physical address [page_table_translate] should give: 0 where nothing is mapped. *)
Definition s_translate s root va : Z :=
  default 0 (mmu_translate (pt_mem s) (hhdm_offset s) root va).

Lemma s_translate_walk s s' root va :
  s_walk s' root va = s_walk s root va -> s_translate s' root va = s_translate s root va.
Proof. unfold s_translate, mmu_translate. unfold s_walk. by intros ->. Qed.

(** ** Properties *)

(** C12: [page_table_map] either maps exactly the 4 KiB page of [va] to the frame
    of [pa], leaving every other translation of the address space as it was, or
    fails without changing any translation, and then memory ran out or a large
    page covers [va].  The page-table invariant is kept in both cases. *)
Theorem page_table_map_correct T s root va pa flags s' ok
    (Hwf : pt_wf T s) (Hr : T !! root = Some [])
    (Hact : page_table_active_root s = root + hhdm_offset s)
    (Hpa : 0 <= pa < 2 ^ 64) (Hfl : 0 <= flags < 2 ^ 64) (Hfa : frame_of flags = 0)
    (Hmap : page_table_map va pa flags s = (s', ok)) :
  exists T', pt_wf T' s' /\ T ⊆ T' /\
    (forall va', page_of va' <> page_of va -> s_translate s' root va' = s_translate s root va') /\
    (if ok then forall va', page_of va' = page_of va ->
       page_table_translate va' s' = (s', frame_of pa + va' mod 4096)
     else (forall va', s_translate s' root va' = s_translate s root va') /\
       (pa_free_pages (pt_alloc s') = ∅ \/ exists e l, s_walk s root va = Some (e, S l))).
Proof.
  destruct (map_spec T s root va pa flags s' ok Hwf Hr Hact Hpa Hfl Hmap)
    as (T' & Hwf' & Hsub & Hcfg & _ & Hother & Hok).
  assert (Hr' : T' !! root = Some []) by (by eapply lookup_weaken).
  exists T'. split; [done |]. split; [done |].
  split; [intros; by apply s_translate_walk, Hother |].
  destruct ok; destruct Hok as [Hinv Hok].
  - intros va' Heq. rewrite (translate_spec T' s' root va' Hwf' Hr').
    + f_equal. unfold mmu_translate. change (mmu_walk _ _) with (s_walk s').
      rewrite Hok by done. cbn [default]. by rewrite map_entry_frame.
    + rewrite (active_root_same s s') by done. rewrite Hact. f_equal. symmetry. apply Hcfg.
    + intros e l. rewrite Hok by done. intros [= <- <-].
      rewrite map_entry_frame by done. apply frame_of_range; lia.
  - destruct Hok as [Hsame Hwhy]. split; [intros; by apply s_translate_walk, Hsame |].
    destruct Hwhy as [He | (g & l & Hs)]; [by left | right].
    rewrite <- (Hsame root va Hr). destruct (large_slot_walk _ _ _ _ _ Hs) as [e He].
    by exists e, l.
Qed.


(** [page_table_unmap] succeeds exactly on the addresses a 4 KiB page maps;
    it then removes that page and no other, and otherwise changes nothing. *)
Theorem page_table_unmap_correct T s root va
    (Hwf : pt_wf T s) (Hr : T !! root = Some [])
    (Hact : page_table_active_root s = root + hhdm_offset s) :
  let '(s', ok) := page_table_unmap va s in
  pt_wf T s' /\
  (ok = true <-> exists e, s_walk s root va = Some (e, O)) /\
  (ok = false -> s' = s) /\
  (forall r va', T !! r = Some [] -> page_of va' <> page_of va ->
     s_walk s' r va' = s_walk s r va') /\
  (ok = true -> invalidated s' = va :: invalidated s /\
     forall va', page_of va' = page_of va -> s_walk s' root va' = None).
Proof.
  unfold page_table_unmap. rewrite Hact.
  destruct (walk_read_cases T s root va Hwf Hr) as (r & -> & Hpost).
  destruct (s_walk s root va) as [[e l]|].
  2: { rewrite Hpost. cbn. split_and!; try done. split; [done | by intros [? ?]]. }
  destruct Hpost as (f & Hs & He & Hne & Hrd & Hlv & Hpr & Hl2).
  destruct (Z.eqb_spec (w_entry r) NULL); [done |].
  destruct l as [|l].
  2: { rewrite bool_decide_false by (rewrite Hlv; destruct l as [|[|[|]]]; done).
       cbn. split_and!; try done. split; [done | by intros [? ?]]. }
  rewrite bool_decide_true by done. rewrite Hrd, Hpr. cbn [negb]. rewrite He.
  destruct (leaf_write T s root f va 0) as (Hwf' & Hother & Hsame);
    [done | done | done | lia |].
  split; [by apply wf_invalidate |]. split; [split; [by exists e | done] |].
  split; [done |]. split; [exact Hother |]. intros _. split; [done |]. exact Hsame.
Qed.

(** The three tables between the root and a page-table slot. *)
Lemma slot_chain T s root va g :
  pt_wf T s -> T !! root = Some [] -> s_slot s 3 root va = Some (g, O) ->
  exists t2 t1, kind_of true (s_ent s root (idx 3 va)) = Table t2 /\
    kind_of false (s_ent s t2 (idx 2 va)) = Table t1 /\
    kind_of false (s_ent s t1 (idx 1 va)) = Table g /\
    T !! t2 = Some [idx 3 va] /\ T !! t1 = Some [idx 3 va; idx 2 va] /\
    T !! g = Some [idx 3 va; idx 2 va; idx 1 va].
Proof.
  intros Hwf Hr Hs. unfold s_slot in Hs. cbn [mmu_slot is_top Nat.eqb] in Hs.
  change (ent (pt_mem s) (hhdm_offset s)) with (s_ent s) in Hs.
  pose proof (wf_tree _ _ Hwf) as Ht.
  destruct (kind_of true (s_ent s root (idx 3 va))) as [| |t2] eqn:E3; [done | done |].
  destruct (kind_of false (s_ent s t2 (idx 2 va))) as [| |t1] eqn:E2; [done | done |].
  destruct (kind_of false (s_ent s t1 (idx 1 va))) as [| |t0] eqn:E1; [done | done |].
  injection Hs as ->. exists t2, t1.
  assert (H2 : T !! t2 = Some [idx 3 va])
    by (apply (Ht root [] (idx 3 va)); [done | simpl; lia | apply idx_range | done]).
  assert (H1 : T !! t1 = Some [idx 3 va; idx 2 va])
    by (apply (Ht t2 [idx 3 va] (idx 2 va)); [done | simpl; lia | apply idx_range | done]).
  split_and!; try done.
  apply (Ht t1 [idx 3 va; idx 2 va] (idx 1 va)); [done | simpl; lia | apply idx_range | done].
Qed.

Lemma kind_user top e g : kind_of top e = Table g -> kind_of top (Z.lor e PAGE_USER) = Table g.
Proof.
  unfold kind_of, PAGE_PRESENT, PAGE_HUGE. rewrite !flag_set_bit by lia.
  rewrite !Z.lor_spec, frame_of_lor. change (frame_of PAGE_USER) with 0.
  change (Z.testbit PAGE_USER 0) with false. change (Z.testbit PAGE_USER 7) with false.
  by rewrite !orb_false_r, Z.lor_0_r.
Qed.

Lemma lor_user e : flag_set (Z.lor e PAGE_USER) PAGE_USER = true.
Proof.
  unfold PAGE_USER. rewrite flag_set_bit by lia. rewrite Z.lor_spec.
  by rewrite orb_true_r.
Qed.

(** Setting the user bit of a table entry changes no walk. *)
Lemma mark_user T s f p i g :
  pt_wf T s -> T !! f = Some p -> (length p < 3)%nat -> 0 <= i < 512 ->
  kind_of (top_of p) (s_ent s f i) = Table g ->
  let s' := write_entry (entry_ptr (f + hhdm_offset s) i)
              (Z.lor (read_entry s (entry_ptr (f + hhdm_offset s) i)) PAGE_USER) s in
  pt_wf T s' /\ pt_ext T s T s' /\
  (forall g' q j, T !! g' = Some q -> 0 <= j < 512 ->
     s_ent s' g' j = if decide (g' = f /\ j = i) then Z.lor (s_ent s f i) PAGE_USER
                     else s_ent s g' j).
Proof.
  intros Hwf Hf Hp Hi Hk.
  destruct (read_entry_eq T s f p i Hwf Hf Hi) as [Hptr Hrd]. rewrite Hrd, Hptr. cbv zeta.
  set (v := Z.lor (s_ent s f i) PAGE_USER).
  assert (Hkv : kind_of (top_of p) v = Table g) by (by apply kind_user).
  destruct (entry_write T s f p i v) as (Hwf' & Hsame & Hent); [done | done | done | | congruence |].
  { apply lor_range; [apply ent_range | by vm_compute]. }
  set (s' := write_entry _ v s) in *.
  split; [done |]. split; [| exact Hent]. split.
  - done.
  - exact (same_config_refl s).
  - done.
  - split_and!; [by left | by left |]. intros x Hx Hout. unfold s'. pt_simpl.
    destruct (wf_frame _ _ Hwf _ _ Hf) as ((? & ? & ? & ?) & _ & _).
    pose proof (wf_hhdm _ _ Hwf). specialize (Hout f p Hf). apply load8_store64_ne; lia.
  - intros f' q j g' Hf' Hq Hj. change (pt_mem s') with (pt_mem s') in Hsame.
    intros Hk'. rewrite <- Hk'. by apply (Hsame f' q j).
  - intros root va Hr. apply (walk_same T (pt_mem s)); [apply (wf_tree _ _ Hwf) | exact Hsame | done |].
    intros f' l Hs.
    destruct (slot_in_tree T (pt_mem s) (hhdm_offset s) 3 root [] va f' l) as (q & Hq & Hlq & _);
      [apply (wf_tree _ _ Hwf) | done | done | done |].
    change (s_ent s' f' (idx l va) = s_ent s f' (idx l va)).
    rewrite (Hent f' q) by (done || apply idx_range). apply decide_False.
    intros [-> Hix]. rewrite Hf in Hq; injection Hq as <-.
    destruct l as [|l]; [lia |].
    pose proof (slot_large _ _ _ _ _ _ _ Hs) as Hlg.
    rewrite (top_level p) in Hlg by lia. rewrite Hix in Hlg.
    change (ent (pt_mem s) (hhdm_offset s') f i) with (s_ent s f i) in Hlg. by rewrite Hlg in Hk.
Qed.

Lemma table_of_eq T s f p i g :
  pt_wf T s -> T !! f = Some p -> T !! g = Some (p ++ [i]) -> 0 <= i < 512 ->
  kind_of (top_of p) (s_ent s f i) = Table g ->
  page_table_physical_to_virtual s
    (Z.land (read_entry s (entry_ptr (f + hhdm_offset s) i)) PAGE_TABLE_ADDRESS_MASK) =
  g + hhdm_offset s.
Proof.
  intros Hwf Hf Hg Hi Hk. rewrite (kind_cases T s f p) by done.
  destruct (kind_Table _ _ _ Hk) as [_ ->].
  apply (p2v_frame T); [done |]. apply (wf_frame _ _ Hwf _ _ Hg).
Qed.

Lemma user_path m h l f va va' :
  path l va = path l va' -> mmu_user m h l f va = mmu_user m h l f va'.
Proof.
  revert f; induction l as [|l IH]; intros f Hp; injection Hp as Hi; cbn [mmu_user]; rewrite Hi.
  - done.
  - destruct (kind_of _ _); [done | done |]. f_equal. by apply IH.
Qed.

Definition user_entry (pa : Z) (writable : bool) : Z :=
  Z.lor pa (if writable then Z.lor (Z.lor PAGE_PRESENT PAGE_USER) PAGE_WRITABLE
            else Z.lor PAGE_PRESENT PAGE_USER).

Lemma user_entry_eq pa writable :
  pa mod 4096 = 0 -> 0 <= pa < 2 ^ 52 ->
  user_entry pa writable = pa + (if writable then 7 else 5) /\
  flag_set (user_entry pa writable) PAGE_PRESENT = true /\
  flag_set (user_entry pa writable) PAGE_USER = true.
Proof.
  intros Hm Hr.
  assert (Heq : user_entry pa writable = pa + (if writable then 7 else 5)).
  { unfold user_entry. destruct writable; by apply (lor_low pa _ 12). }
  split; [done |]. unfold PAGE_PRESENT, PAGE_USER. rewrite !flag_set_bit by lia.
  unfold user_entry. rewrite !Z.lor_spec. by destruct writable; rewrite !orb_true_r.
Qed.

(** Marking one entry on the way: its user bit is set, nothing else moves. *)
Lemma marked T s f p i g s' :
  pt_wf T s -> T !! f = Some p -> (length p < 3)%nat -> 0 <= i < 512 ->
  kind_of (top_of p) (s_ent s f i) = Table g -> s' = user_mark (f + hhdm_offset s) i s ->
  pt_wf T s' /\ pt_ext T s T s' /\
  flag_set (s_ent s' f i) PAGE_USER = true /\
  (forall g' q j, T !! g' = Some q -> 0 <= j < 512 -> g' <> f -> s_ent s' g' j = s_ent s g' j).
Proof.
  intros Hwf Hf Hp Hi Hk ->.
  destruct (mark_user T s f p i g Hwf Hf Hp Hi Hk) as (W & X & E).
  split; [exact W |]. split; [exact X |]. split.
  - unfold user_mark. rewrite (E f p i), decide_True by done. apply lor_user.
  - intros g' q j Hg' Hj Hne. unfold user_mark. rewrite (E g' q j), decide_False by naive_solver.
    done.
Qed.

Lemma map_user_marks T s root va g :
  pt_wf T s -> T !! root = Some [] -> s_slot s 3 root va = Some (g, O) ->
  let pml4 := root + hhdm_offset s in
  let pdpt := user_table s pml4 (idx 3 va) in
  let s2 := user_mark pml4 (idx 3 va) s in
  let pd := user_table s2 pdpt (idx 2 va) in
  let s4 := user_mark pd (idx 1 va) (user_mark pdpt (idx 2 va) s2) in
  pt_wf T s4 /\ pt_ext T s T s4 /\
  exists t2 t1, T !! t2 = Some [idx 3 va] /\ T !! t1 = Some [idx 3 va; idx 2 va] /\
    T !! g = Some [idx 3 va; idx 2 va; idx 1 va] /\
    kind_of true (s_ent s4 root (idx 3 va)) = Table t2 /\
    kind_of false (s_ent s4 t2 (idx 2 va)) = Table t1 /\
    kind_of false (s_ent s4 t1 (idx 1 va)) = Table g /\
    flag_set (s_ent s4 root (idx 3 va)) PAGE_USER = true /\
    flag_set (s_ent s4 t2 (idx 2 va)) PAGE_USER = true /\
    flag_set (s_ent s4 t1 (idx 1 va)) PAGE_USER = true.
Proof.
  intros Hwf Hr Hs pml4 pdpt s2 pd s4.
  destruct (slot_chain T s root va g Hwf Hr Hs) as (t2 & t1 & K3 & K2 & K1 & T2 & T1 & T0).
  assert (root <> t2 /\ root <> t1 /\ t2 <> t1) as (D1 & D2 & D3) by (split_and!; congruence).
  assert (Hpdpt : pdpt = t2 + hhdm_offset s)
    by (apply (table_of_eq T s root []); done || apply idx_range).
  destruct (marked T s root [] (idx 3 va) t2 s2) as (W2 & X2 & U2 & E2);
    [done | done | simpl; lia | apply idx_range | done | done |].
  assert (K2' : kind_of false (s_ent s2 t2 (idx 2 va)) = Table t1)
    by (rewrite (E2 t2 _ _ T2); [done | apply idx_range | done]).
  assert (Hpd : pd = t1 + hhdm_offset s2).
  { unfold pd. rewrite Hpdpt. apply (table_of_eq T s2 t2 [idx 3 va]); done || apply idx_range. }
  set (s3 := user_mark pdpt (idx 2 va) s2) in *.
  destruct (marked T s2 t2 [idx 3 va] (idx 2 va) t1 s3) as (W3 & X3 & U3 & E3);
    [done | done | simpl; lia | apply idx_range | done | by unfold s3; rewrite Hpdpt |].
  destruct (marked T s3 t1 [idx 3 va; idx 2 va] (idx 1 va) g s4) as (W4 & X4 & U4 & E4);
    [done | done | simpl; lia | apply idx_range | | by unfold s4; rewrite Hpd |].
  { rewrite (E3 t1 _ _ T1), (E2 t1 _ _ T1) by (done || apply idx_range). done. }
  assert (X : pt_ext T s T s4) by (eapply pt_ext_trans; [exact X2 | eapply pt_ext_trans; eassumption]).
  split; [done |]. split; [done |]. exists t2, t1. split_and!; try done.
  - apply (ext_table _ _ _ _ X root []); done || apply idx_range || (simpl; lia).
  - apply (ext_table _ _ _ _ X t2 [idx 3 va]); done || apply idx_range || (simpl; lia).
  - apply (ext_table _ _ _ _ X t1 [idx 3 va; idx 2 va]); done || apply idx_range || (simpl; lia).
  - rewrite (E4 root _ _ Hr), (E3 root _ _ Hr) by (done || apply idx_range). done.
  - rewrite (E4 t2 _ _ T2) by (done || apply idx_range). done.
Qed.

(** Writing the leaf entry once the path is marked. *)
Lemma user_leaf T s root va t2 t1 g v :
  pt_wf T s -> T !! root = Some [] -> T !! t2 = Some [idx 3 va] ->
  T !! t1 = Some [idx 3 va; idx 2 va] -> T !! g = Some [idx 3 va; idx 2 va; idx 1 va] ->
  kind_of true (s_ent s root (idx 3 va)) = Table t2 ->
  kind_of false (s_ent s t2 (idx 2 va)) = Table t1 ->
  kind_of false (s_ent s t1 (idx 1 va)) = Table g ->
  flag_set (s_ent s root (idx 3 va)) PAGE_USER = true ->
  flag_set (s_ent s t2 (idx 2 va)) PAGE_USER = true ->
  flag_set (s_ent s t1 (idx 1 va)) PAGE_USER = true ->
  0 <= v < 2 ^ 64 -> flag_set v PAGE_PRESENT = true -> flag_set v PAGE_USER = true ->
  let s' := write_entry (g + hhdm_offset s + 8 * idx 0 va) v s in
  pt_wf T s' /\
  (forall r va', T !! r = Some [] -> page_of va' <> page_of va -> s_walk s' r va' = s_walk s r va') /\
  (forall va', page_of va' = page_of va ->
     s_walk s' root va' = Some (v, O) /\ mmu_user (pt_mem s') (hhdm_offset s') 3 root va' = true).
Proof.
  intros Hwf Hr T2 T1 T0 K3 K2 K1 U3 U2 U1 Hv Hvp Hvu s'.
  assert (Hs : s_slot s 3 root va = Some (g, O)).
  { unfold s_slot; cbn [mmu_slot is_top Nat.eqb].
    change (ent (pt_mem s) (hhdm_offset s)) with (s_ent s). by rewrite K3, K2, K1. }
  destruct (leaf_write T s root g va v Hwf Hr Hs Hv) as (W & Hother & Hsame).
  destruct (entry_write T s g _ (idx 0 va) v Hwf T0 (idx_range 0 va) Hv) as (_ & _ & E0);
    [simpl; lia |]. fold s' in W, Hother, Hsame, E0.
  split; [done |]. split; [done |].
  intros va' Heq. split; [rewrite Hsame, Hvp by done; done |].
  rewrite (user_path _ _ 3 root va' va) by (by apply idx_page_of).
  cbn [mmu_user is_top Nat.eqb]. change (ent (pt_mem s') (hhdm_offset s')) with (s_ent s').
  assert (g <> root /\ g <> t2 /\ g <> t1) as (D1 & D2 & D3) by (split_and!; congruence).
  rewrite (E0 root [] _ Hr), decide_False by (apply idx_range || naive_solver). rewrite K3.
  rewrite (E0 t2 _ _ T2), decide_False by (apply idx_range || naive_solver). rewrite K2.
  rewrite (E0 t1 _ _ T1), decide_False by (apply idx_range || naive_solver). rewrite K1.
  rewrite (E0 g _ _ T0), decide_True by (apply idx_range || done).
  by rewrite U3, U2, U1, Hvu.
Qed.

Definition user_marks s root_v va : pt_state A :=
  let pdpt := user_table s root_v (idx 3 va) in
  let s2 := user_mark root_v (idx 3 va) s in
  let pd := user_table s2 pdpt (idx 2 va) in
  user_mark pd (idx 1 va) (user_mark pdpt (idx 2 va) s2).

Lemma map_user_eq pml4 va pa writable s :
  page_table_map_user pml4 va pa writable s =
    let '(s1, entry) := page_walk pml4 va true s in
    if entry =? NULL then (s1, false)
    else (write_entry entry (user_entry pa writable) (user_marks s1 pml4 va), true).
Proof. reflexivity. Qed.

(** [page_table_map_user], in terms of the processor's walk. *)
Lemma map_user_spec T s root va pa writable s' ok :
  pt_wf T s -> T !! root = Some [] -> pa mod 4096 = 0 -> 0 <= pa < 2 ^ 52 ->
  page_table_map_user (root + hhdm_offset s) va pa writable s = (s', ok) ->
  exists T', pt_wf T' s' /\ T ⊆ T' /\ same_config s s' /\ tables_grow T s T' s' /\
    (forall r va', T !! r = Some [] -> page_of va' <> page_of va ->
       s_walk s' r va' = s_walk s r va') /\
    (if ok then forall va', page_of va' = page_of va ->
       s_walk s' root va' = Some (pa + (if writable then 7 else 5), O) /\
       mmu_user (pt_mem s') (hhdm_offset s') 3 root va' = true
     else forall r va', T !! r = Some [] -> s_walk s' r va' = s_walk s r va').
Proof.
  intros Hwf Hr Hm Hpa Hmap.
  rewrite map_user_eq in Hmap. unfold page_walk in Hmap.
  pose proof (walk_create T s root va Hwf Hr) as Hpost.
  destruct (page_walk_internal _ va true s) as [s1 r].
  destruct Hpost as (T1 & Hwf1 & Hext & [[Hn _] | (g & He & _ & Hs1)]).
  { rewrite Hn in Hmap. cbn in Hmap. injection Hmap as <- <-. exists T1.
    split; [done |]. do 3 (split; [apply Hext |]).
    split; intros; by apply (ext_walk _ _ _ _ Hext). }
  assert (Hr1 : T1 !! root = Some []) by (eapply lookup_weaken; [exact Hr | apply Hext]).
  assert (Hh : hhdm_offset s = hhdm_offset s1) by (symmetry; apply Hext).
  destruct (slot_chain T1 s1 root va g Hwf1 Hr1 Hs1) as (_ & _ & _ & _ & _ & _ & _ & Hg).
  destruct (wf_frame _ _ Hwf1 _ _ Hg) as ((? & ? & ? & ?) & _ & _).
  pose proof (wf_hhdm _ _ Hwf1). pose proof (idx_range 0 va).
  destruct (Z.eqb_spec (w_entry r) NULL) as [Hn|_]; [unfold NULL in Hn; lia |].
  destruct (user_entry_eq pa writable Hm Hpa) as (Hv & Hvp & Hvu).
  destruct (map_user_marks T1 s1 root va g Hwf1 Hr1 Hs1)
    as (W4 & X4 & t2 & t1 & T2 & T1' & T0 & K3 & K2 & K1 & U3 & U2 & U1).
  rewrite He, Hh in Hmap. injection Hmap as <- <-.
  fold (user_marks s1 (root + hhdm_offset s1) va) in *.
  generalize dependent (user_marks s1 (root + hhdm_offset s1) va). intros s4 W4 X4 K3 K2 K1 U3 U2 U1.
  destruct (user_leaf T1 s4 root va t2 t1 g (user_entry pa writable) W4 Hr1 T2 T1' T0 K3 K2 K1 U3 U2 U1)
    as (W & Hother & Hsame); [destruct writable; lia | done | done |].
  replace (hhdm_offset s4) with (hhdm_offset s1) in W, Hother, Hsame by (symmetry; apply X4).
  pose proof (pt_ext_trans _ _ _ _ _ _ Hext X4) as X14.
  exists T1. split; [exact W |]. split; [apply Hext |]. split; [exact (ext_config _ _ _ _ X14) |]. split.
  { eapply tables_grow_trans; [exact (ext_config _ _ _ _ X14) | reflexivity | apply X14 |].
    split_and!; [by left | by left |]. intros x Hx Hout. pt_simpl. specialize (Hout g _ Hg).
    replace (hhdm_offset s4) with (hhdm_offset s1) in Hout by (symmetry; apply X4).
    apply load8_store64_ne; lia. }
  split.
  - intros r' va' Hr' Hne. rewrite <- (ext_walk _ _ _ _ X14 r' va' Hr'). apply Hother; [| done].
    eapply lookup_weaken; [exact Hr' | apply Hext].
  - rewrite <- Hv. exact Hsame.
Qed.


Lemma walk_root_eq s r r' va :
  s_ent s r (idx 3 va) = s_ent s r' (idx 3 va) -> s_walk s r va = s_walk s r' va.
Proof.
  intros He. unfold s_walk, mmu_walk. cbn [mmu_slot is_top Nat.eqb].
  change (ent (pt_mem s) (hhdm_offset s)) with (s_ent s). rewrite He.
  destruct (kind_of true _) as [| |g] eqn:E; [done | | done]. by rewrite He.
Qed.

(** What a fresh page [p] gives that holds the entries of the top table [kroot]. *)
Lemma copied_root T s kroot p a m' :
  pt_wf T s -> T !! kroot = Some [] -> page_frame (pa_limit (pt_alloc s)) p ->
  p ∈ pa_free_pages (pt_alloc s) -> pa_ok a -> pa_limit a = pa_limit (pt_alloc s) ->
  pa_free_pages a = pa_free_pages (pt_alloc s) ∖ {[p]} ->
  (forall f q i, T !! f = Some q -> 0 <= i < 512 -> ent m' (hhdm_offset s) f i = s_ent s f i) ->
  (forall i, 0 <= i < 512 -> ent m' (hhdm_offset s) p i = s_ent s kroot i) ->
  let s' := with_mem m' (with_alloc a s) in
  T !! p = None /\ pt_wf (<[p := []]> T) s' /\
  (forall r va, T !! r = Some [] -> s_walk s' r va = s_walk s r va) /\
  (forall va, s_walk s' p va = s_walk s kroot va).
Proof.
  intros Hwf Hk Hpf Hin Hok Hlim Hfree Hold Hnew s'. change (ent m' (hhdm_offset s)) with (s_ent s') in *.
  pose proof (wf_hhdm _ _ Hwf) as Hh. pose proof (free_frame T s p Hwf Hpf) as Hpt.
  assert (HpT : T !! p = None).
  { destruct (T !! p) eqn:E; [| done]. by destruct (wf_frame _ _ Hwf _ _ E) as (_ & [] & _). }
  assert (Hsame : same_kinds T (pt_mem s) (pt_mem s') (hhdm_offset s)).
  { intros f q i Hf _ Hi. change (ent (pt_mem s')  (hhdm_offset s) f i) with (s_ent s' f i).
    by rewrite (Hold f q i). }
  assert (Hwalk : forall r va, T !! r = Some [] -> s_walk s' r va = s_walk s r va).
  { intros r va Hr. apply (walk_same T (pt_mem s)); [apply (wf_tree _ _ Hwf) | exact Hsame | done |].
    intros f l Hs.
    destruct (slot_in_tree T (pt_mem s) (hhdm_offset s) 3 r [] va f l) as (q & Hq & _);
      [apply (wf_tree _ _ Hwf) | done | done | done |].
    apply (Hold f q); [done | apply idx_range]. }
  split; [done |]. split; [| split; [done |]].
  - split.
    + exact Hok.
    + apply (wf_ready _ _ Hwf).
    + change (0 <= hhdm_offset s /\ hhdm_offset s + pa_limit a <= 2 ^ 64). by rewrite Hlim.
    + intros f q. change (pt_alloc s') with a. rewrite Hfree.
      destruct (decide (f = p)) as [->|Hfp].
      * rewrite lookup_insert_eq. intros [= <-]. split_and!; [exact Hpt | set_solver | simpl; lia].
      * rewrite lookup_insert_ne by done. intros Hf.
        destruct (wf_frame _ _ Hwf _ _ Hf) as (? & ? & ?). split_and!; [done | set_solver | done].
    + intros f q i g Hf Hq Hi Hg.
      change (ent (pt_mem s') (hhdm_offset s')) with (s_ent s') in Hg.
      assert (HgT : T !! g = Some (q ++ [i])).
      { destruct (decide (f = p)) as [->|Hfp].
        - rewrite lookup_insert_eq in Hf. injection Hf as <-. rewrite Hnew in Hg by done.
          by apply (wf_tree _ _ Hwf kroot []).
        - rewrite lookup_insert_ne in Hf by done. rewrite (Hold f q) in Hg by done.
          by apply (wf_tree _ _ Hwf f). }
      rewrite lookup_insert_ne by congruence. done.
  - intros va. rewrite <- (Hwalk kroot va Hk). apply walk_root_eq.
    rewrite Hnew by apply idx_range. symmetry. apply (Hold kroot []); [done | apply idx_range].
Qed.

(** Copying the top table over the page, cleared before or not. *)
Lemma copied_entries T s kroot p m :
  pt_wf T s -> T !! kroot = Some [] -> table_frame (hhdm_offset s) p -> T !! p = None ->
  (forall f q i, T !! f = Some q -> 0 <= i < 512 -> ent m (hhdm_offset s) f i = s_ent s f i) ->
  let m' := k_memcpy (p + hhdm_offset s) (kroot + hhdm_offset s) PAGE_SIZE m in
  (forall f q i, T !! f = Some q -> 0 <= i < 512 -> ent m' (hhdm_offset s) f i = s_ent s f i) /\
  (forall i, 0 <= i < 512 -> ent m' (hhdm_offset s) p i = s_ent s kroot i).
Proof.
  intros Hwf Hk Hp HpT Hm m'. pose proof (wf_hhdm _ _ Hwf) as [Hh _].
  destruct (wf_frame _ _ Hwf _ _ Hk) as (Hkf & _ & _). assert (p <> kroot) by congruence.
  split.
  - intros f q i Hf Hi. destruct (wf_frame _ _ Hwf _ _ Hf) as (Hff & _ & _). unfold m'.
    rewrite ent_memcpy, decide_False by (done || lia || congruence). by apply (Hm f q).
  - intros i Hi. unfold m'. rewrite ent_memcpy, decide_True by (done || lia). by apply (Hm kroot []).
Qed.

Lemma clone_root T s kroot p a :
  pt_wf T s -> T !! kroot = Some [] -> page_frame (pa_limit (pt_alloc s)) p ->
  p ∈ pa_free_pages (pt_alloc s) -> pa_ok a -> pa_limit a = pa_limit (pt_alloc s) ->
  pa_free_pages a = pa_free_pages (pt_alloc s) ∖ {[p]} ->
  let s' := with_mem (k_memcpy (p + hhdm_offset s) (kroot + hhdm_offset s) PAGE_SIZE
              (k_memset (p + hhdm_offset s) 0 PAGE_SIZE (pt_mem s))) (with_alloc a s) in
  T !! p = None /\ pt_wf (<[p := []]> T) s' /\
  (forall r va, T !! r = Some [] -> s_walk s' r va = s_walk s r va) /\
  (forall va, s_walk s' p va = s_walk s kroot va).
Proof.
  intros Hwf Hk Hpf Hin Hok Hlim Hfree. pose proof (free_frame T s p Hwf Hpf) as Hpt.
  assert (HpT : T !! p = None).
  { destruct (T !! p) eqn:E; [| done]. by destruct (wf_frame _ _ Hwf _ _ E) as (_ & [] & _). }
  destruct (copied_entries T s kroot p (k_memset (p + hhdm_offset s) 0 PAGE_SIZE (pt_mem s)))
    as [Hold Hnew]; [done.. | |].
  - intros f q i Hf Hi. destruct (wf_frame _ _ Hwf _ _ Hf) as (Hff & _ & _).
    pose proof (wf_hhdm _ _ Hwf) as [Hh _].
    rewrite ent_memset, decide_False by (done || lia || congruence). done.
  - by apply copied_root.
Qed.

(** [page_table_create] returns a new root that translates every address as
    the kernel's tables do, without disturbing any existing address space; or
    NULL with nothing changed when no page is free. *)
Theorem page_table_create_correct T s kroot
    (Hwf : pt_wf T s) (Hk : T !! kroot = Some [])
    (Hker : kernel_pml4 s = kroot + hhdm_offset s) :
  let '(s', table, physical) := page_table_create s in
  (table = NULL /\ physical = None /\ s' = s /\ pa_free_pages (pt_alloc s) = ∅) \/
  exists p, physical = Some p /\ table = p + hhdm_offset s /\ T !! p = None /\
    pt_wf (<[p := []]> T) s' /\
    (forall r va, T !! r = Some [] -> s_walk s' r va = s_walk s r va) /\
    (forall va, s_walk s' p va = s_walk s kroot va).
Proof.
  unfold page_table_create, alloc_page.
  destruct (pa_alloc_page (pt_alloc s)) as [a p] eqn:Ea.
  destruct (pa_alloc_cases _ _ _ (wf_alloc _ _ Hwf) Ea)
    as [(-> & -> & He) | (Hp0 & Hpf & Hpp & Hok & Hfr & Hlim)].
  { cbn. left. split_and!; try done. by destruct s. }
  destruct (Z.eqb_spec p NULL) as [|_]; [done |].
  pose proof (free_frame T s p Hwf Hpp) as Hpt.
  destruct (p2v_frame T s p Hwf Hpt) as [Hv Hvn].
  unfold page_table_physical_to_virtual in *; cbn [with_alloc hhdm_offset]. rewrite Hv.
  destruct (Z.eqb_spec (p + hhdm_offset s) NULL); [done |].
  pose proof (frame_virtual T s kroot _ Hwf Hk) as Hkn.
  cbn [kernel_pml4 with_mem with_alloc]. rewrite Hker.
  destruct (Z.eqb_spec (kroot + hhdm_offset s) NULL); [done |]. cbn [negb].
  right. exists p. split; [done |]. split; [done |].
  exact (clone_root T s kroot p a Hwf Hk Hpp Hpf Hok Hlim Hfr).
Qed.

End states.

(** ** A concrete address space: one empty PML4 at [0x7000], on the allocator
    of [Pmm.demo_pmm]. *)
Definition demo_hhdm : Z := 0xFFFF800000000000.
Definition demo_pt : pt_state Pmm.pmm_t :=
  mk_pt ∅ Pmm.demo_pmm demo_hhdm true 0 (0x7000 + demo_hhdm) 0x7000 0x7000 [].
Definition demo_tables : gmap Z (list Z) := {[0x7000 := []]}.

Lemma load_empty n a : load_le n ∅ a = 0.
Proof. revert a; induction n as [|n IH]; intros a; cbn; [done | by rewrite IH]. Qed.

Lemma demo_pt_wf : pt_wf demo_tables demo_pt.
Proof.
  split.
  - exact Pmm.demo_pmm_wf.
  - reflexivity.
  - vm_compute. split; discriminate.
  - intros f p. unfold demo_tables. rewrite lookup_singleton_Some. intros [<- <-].
    split; [by vm_compute | split; [| simpl; lia]].
    cbn. unfold Pmm.free_frames. intros (q & Hq & Hin)%elem_of_map.
    apply Pmm.elem_of_free_set in Hin as [_ Hin].
    unfold Pmm.page_addr, Pmm.PMM_PAGE_SIZE in Hq.
    replace q with 7 in Hin by lia. by vm_compute in Hin.
  - intros f p i g _ _ _. unfold ent, load64. cbn [pt_mem demo_pt].
    rewrite load_empty. by rewrite kind_of_zero.
Qed.

Lemma demo_large_aligned (s : pt_state Pmm.pmm_t) root :
  (forall va, s_walk s root va = None) -> large_aligned s root.
Proof. intros Hn va e l. by rewrite Hn. Qed.

Lemma demo_walk va : s_walk demo_pt 0x7000 va = None.
Proof.
  apply (walk_from_zero (pt_mem demo_pt) demo_hhdm 3 0x7000 va). intros i _. apply load_empty.
Qed.

Lemma page_table_map_correct_witness :
  let out := page_table_map 0x400000 0x123000 2 demo_pt in
  pt_wf demo_tables demo_pt /\ out.2 = true /\
  page_table_translate 0x400ABC out.1 = (out.1, 0x123ABC).
Proof.
  intros out. assert (Hok : out.2 = true) by (vm_compute; reflexivity).
  split; [exact demo_pt_wf |]. split; [exact Hok |].
  destruct (page_table_map_correct demo_tables demo_pt 0x7000 0x400000 0x123000 2 out.1 out.2
              demo_pt_wf eq_refl eq_refl ltac:(lia) ltac:(lia) eq_refl
              (surjective_pairing out)) as (T' & _ & _ & _ & H).
  rewrite Hok in H. exact (H 0x400ABC eq_refl).
Defined.


(** Unmapping what was just mapped. *)
Lemma page_table_unmap_correct_witness :
  let s1 := (page_table_map 0x400000 0x123000 2 demo_pt).1 in
  let out := page_table_unmap 0x400000 s1 in
  out.2 = true /\ exists T1, pt_wf T1 s1 /\ pt_wf T1 out.1 /\ s_walk out.1 0x7000 0x400ABC = None.
Proof.
  intros s1 out. assert (Hok : out.2 = true) by (vm_compute; reflexivity).
  split; [exact Hok |].
  destruct (map_spec demo_tables demo_pt 0x7000 0x400000 0x123000 2 s1
              (page_table_map 0x400000 0x123000 2 demo_pt).2 demo_pt_wf eq_refl eq_refl
              ltac:(lia) ltac:(lia) (surjective_pairing _)) as (T1 & Hwf1 & Hsub & Hcfg & _).
  assert (Hr : T1 !! 0x7000 = Some []) by (apply (lookup_weaken demo_tables); [reflexivity | exact Hsub]).
  assert (Hact : page_table_active_root s1 = 0x7000 + hhdm_offset s1).
  { rewrite (active_root_same demo_pt s1 Hcfg), (proj1 Hcfg). reflexivity. }
  pose proof (page_table_unmap_correct T1 s1 0x7000 0x400000 Hwf1 Hr Hact) as H.
  change (page_table_unmap 0x400000 s1) with out in H.
  destruct out as [s' ok]. cbn in Hok. subst ok.
  destruct H as (Hwf' & _ & _ & _ & H). exists T1. split; [exact Hwf1 |]. split; [exact Hwf' |].
  exact (proj2 (H eq_refl) 0x400ABC eq_refl).
Defined.


Lemma page_table_create_correct_witness :
  pt_wf demo_tables demo_pt /\
  let '(s', table, physical) := page_table_create demo_pt in
  (table = NULL /\ physical = None /\ s' = demo_pt /\ pa_free_pages (pt_alloc demo_pt) = ∅) \/
  exists p, physical = Some p /\ table = p + demo_hhdm /\ demo_tables !! p = None /\
    pt_wf (<[p := []]> demo_tables) s' /\
    (forall r va, demo_tables !! r = Some [] -> s_walk s' r va = s_walk demo_pt r va) /\
    (forall va, s_walk s' p va = s_walk demo_pt 0x7000 va).
Proof.
  split; [exact demo_pt_wf |].
  exact (page_table_create_correct demo_tables demo_pt 0x7000 demo_pt_wf eq_refl eq_refl).
Defined.
