(* ===== verification/DemandPaging.v ===== *)
(** * Demand paging: [vmm/demand_paging.c]

    The page-fault handler joins the areas of [Vma.v], the page allocator and
    the page tables: it backs a demand-paged area with a zeroed page the first
    time the page is touched. *)
From S2P Require Import Prelude PageAllocator Memory Pmm Vma PageTable PageTableSpec.
Import Mem.
#[local] Open Scope Z_scope.
#[local] Opaque k_memset k_memcpy store64.

Section demand_paging.
Context {A : Type} `{PageAllocatorLaws A}.
Implicit Types s : pt_state A.
Implicit Types T : gmap Z (list Z).

Definition vmm_handle_page_fault (vs : Vma.vma_state) (fault_address error_code : Z) s
    : pt_state A * bool :=
  let present := flag_set error_code (Z.shiftl 1 0) in
  if present then (s, false)
  else
    match Vma.vma_find fault_address vs with
    | None => (s, false)
    | Some i =>
      let vma := Vma.entry (Vma.vma_table vs) i in
      if negb (flag_set (Vma.flags vma) Vma.VMA_DEMAND_PAGED) then (s, false)
      else
        let page_base := Z.land fault_address (u64 (Z.lnot (PAGE_SIZE - 1))) in
        let '(s1, physical_page) := alloc_page s in
        if physical_page =? NULL then (s1, false)
        else
          let virtual_page := page_table_physical_to_virtual s1 physical_page in
          let s2 := with_mem (k_memset virtual_page 0 PAGE_SIZE (pt_mem s1)) s1 in
          let '(s3, ok) := page_table_map page_base physical_page PAGE_WRITABLE s2 in
          if negb ok then (free_page physical_page s3, false)
          else (s3, true)
    end.

(** ** A fresh zeroed page *)
Lemma fresh_page T s a p :
  pt_wf T s -> pa_alloc_page (pt_alloc s) = (a, p) -> p <> NULL ->
  let s2 := with_mem (k_memset (page_table_physical_to_virtual (with_alloc a s) p) 0 PAGE_SIZE
              (pt_mem (with_alloc a s))) (with_alloc a s) in
  T !! p = None /\ p ∈ pa_free_pages (pt_alloc s) /\ page_frame (pa_limit (pt_alloc s)) p /\
  pt_wf T s2 /\ same_config s s2 /\
  pa_free_pages (pt_alloc s2) = pa_free_pages (pt_alloc s) ∖ {[p]} /\
  (forall r va, T !! r = Some [] -> s_walk s2 r va = s_walk s r va) /\
  (forall k, 0 <= k < 4096 -> load8 (pt_mem s2) (p + hhdm_offset s + k) = 0).
Proof.
  intros Hwf Ea Hp0.
  destruct (pa_alloc_cases _ _ _ (wf_alloc _ _ Hwf) Ea)
    as [(-> & _) | (_ & Hpf & Hpp & Hok & Hfr & Hlim)]; [done |].
  pose proof (wf_hhdm _ _ Hwf) as Hh. pose proof (free_frame T s p Hwf Hpp) as Hpt.
  change (page_table_physical_to_virtual (with_alloc a s) p)
    with (page_table_physical_to_virtual s p).
  destruct (p2v_frame T s p Hwf Hpt) as [-> _].
  change (pt_mem (with_alloc a s)) with (pt_mem s).
  set (m2 := k_memset (p + hhdm_offset s) 0 PAGE_SIZE (pt_mem s)). intros s2.
  assert (HpT : T !! p = None).
  { destruct (T !! p) eqn:E; [| done]. by destruct (wf_frame _ _ Hwf _ _ E) as (_ & [] & _). }
  assert (Hold : forall f q i, T !! f = Some q -> 0 <= i < 512 ->
    ent m2 (hhdm_offset s) f i = s_ent s f i).
  { intros f q i Hf Hi. destruct (wf_frame _ _ Hwf _ _ Hf) as (Hff & _ & _).
    unfold m2. rewrite ent_memset, decide_False by (done || lia || congruence). done. }
  assert (Hsame : same_kinds T (pt_mem s) m2 (hhdm_offset s)).
  { intros f q i Hf _ Hi. by rewrite (Hold f q i). }
  split; [exact HpT |]. split; [exact Hpf |]. split; [exact Hpp |].
  split; [| split; [| split; [exact Hfr | split]]].
  - split; [exact Hok | apply (wf_ready _ _ Hwf) | by simpl; rewrite Hlim | |].
    + intros f q Hf. change (pt_alloc s2) with a. rewrite Hfr.
      destruct (wf_frame _ _ Hwf _ _ Hf) as (? & ? & ?). split_and!; [done | set_solver | done].
    + apply (tree_ok_same T (pt_mem s)); [apply (wf_tree _ _ Hwf) | exact Hsame].
  - unfold s2, same_config. pt_simpl. rewrite Hfr, Hlim. split_and!; try reflexivity. set_solver.
  - intros r va Hr. apply (walk_same T (pt_mem s) m2 (hhdm_offset s));
      [apply (wf_tree _ _ Hwf) | exact Hsame | done |].
    intros f l Hs.
    destruct (slot_in_tree T (pt_mem s) (hhdm_offset s) 3 r [] va f l) as (q & Hq & _);
      [apply (wf_tree _ _ Hwf) | done | done | done |].
    apply (Hold f q); [done | apply idx_range].
  - intros k Hk. change (pt_mem s2) with m2. unfold m2, PAGE_SIZE.
    destruct Hpt as (? & ? & ? & ?).
    rewrite memset_load, decide_True by lia. done.
Qed.

Lemma page_base_page va :
  0 <= va < 2 ^ 64 ->
  let base := Z.land va (u64 (Z.lnot (PAGE_SIZE - 1))) in
  base = va - va mod 4096 /\ page_of base = page_of va.
Proof.
  intros Hva base.
  assert (Hb : base = va - va mod 4096) by (apply (land_u64_lnot_low va 12); lia).
  split; [done |]. unfold page_of. rewrite Hb. f_equal. word_lia.
Qed.

Lemma map_entry_writable p :
  p mod 4096 = 0 -> 0 <= p < 2 ^ 52 -> map_entry p PAGE_WRITABLE = p + 3.
Proof.
  intros Hm Hr. unfold map_entry.
  change (Z.land p PAGE_TABLE_ADDRESS_MASK) with (frame_of p). rewrite frame_of_frame by done.
  change (Z.land (Z.land PAGE_WRITABLE _) _) with 2. rewrite <- Z.lor_assoc.
  by apply (lor_low p 3 12).
Qed.

(** The handler's guards, as one condition. *)
Definition fault_handled (vs : Vma.vma_state) (fault_address error_code : Z) : Prop :=
  Z.testbit error_code 0 = false /\
  exists i, Vma.vma_find fault_address vs = Some i /\
    flag_set (Vma.flags (Vma.entry (Vma.vma_table vs) i)) Vma.VMA_DEMAND_PAGED = true.

(** Either the guards refuse the fault or the handler goes on to allocate. *)
Lemma fault_guards vs va ec s s' ok :
  vmm_handle_page_fault vs va ec s = (s', ok) ->
  (~ fault_handled vs va ec /\ s' = s /\ ok = false) \/
  (fault_handled vs va ec /\
   (let '(s1, physical_page) := alloc_page s in
    if physical_page =? NULL then (s1, false)
    else
      let s2 := with_mem (k_memset (page_table_physical_to_virtual s1 physical_page) 0 PAGE_SIZE
                  (pt_mem s1)) s1 in
      let '(s3, ok) := page_table_map (Z.land va (u64 (Z.lnot (PAGE_SIZE - 1))))
                         physical_page PAGE_WRITABLE s2 in
      if negb ok then (free_page physical_page s3, false) else (s3, true)) = (s', ok)).
Proof.
  unfold vmm_handle_page_fault, fault_handled. rewrite flag_set_bit by lia.
  destruct (Z.testbit ec 0); [intros [= <- <-]; left; naive_solver |].
  destruct (Vma.vma_find va vs) as [i|]; [| intros [= <- <-]; left; naive_solver].
  destruct (flag_set _ Vma.VMA_DEMAND_PAGED) eqn:E; cbn [negb].
  - intros Hr. right. split; [naive_solver | exact Hr].
  - intros [= <- <-]. left. split; [| done]. intros (_ & j & Hj & Hd).
    injection Hj as ->. congruence.
Qed.

(** Giving the page back after a mapping that failed. *)
Lemma give_back T s p :
  pt_wf T s -> page_frame (pa_limit (pt_alloc s)) p -> T !! p = None ->
  pt_wf T (free_page p s) /\
  pa_free_pages (pt_alloc (free_page p s)) = pa_free_pages (pt_alloc s) ∪ {[p]}.
Proof.
  intros Hwf Hp HpT.
  destruct (pa_free_spec _ p (wf_alloc _ _ Hwf) Hp) as (Hok & Hfr & Hlim).
  split; [| exact Hfr]. split.
  - exact Hok.
  - apply (wf_ready _ _ Hwf).
  - cbn. rewrite Hlim. apply (wf_hhdm _ _ Hwf).
  - intros f q Hf. cbn. rewrite Hfr. destruct (wf_frame _ _ Hwf _ _ Hf) as (? & ? & ?).
    split_and!; [done | | done]. assert (f <> p) by congruence. set_solver.
  - apply (wf_tree _ _ Hwf).
Qed.

(** Building tables leaves the bytes of a page that is no table alone. *)
Lemma page_kept T s T' s' p :
  pt_wf T' s' -> same_config s s' -> tables_grow T s T' s' ->
  table_frame (hhdm_offset s) p -> T' !! p = None ->
  forall k, 0 <= k < 4096 ->
    load8 (pt_mem s') (p + hhdm_offset s' + k) = load8 (pt_mem s) (p + hhdm_offset s + k).
Proof.
  intros Hwf' Hcfg (_ & _ & Hmem) Hp HpT k Hk. pose proof (wf_hhdm _ _ Hwf') as [Hh _].
  pose proof Hp as (_ & Hp0 & _ & Hp1). pose proof (proj1 Hcfg) as E. rewrite E in Hh |- *.
  apply Hmem; [lia |].
  intros g q Hg. destruct (wf_frame _ _ Hwf' _ _ Hg) as (Hgf & _ & _). rewrite E in Hgf.
  assert (p <> g) by congruence.
  destruct (frames_apart (hhdm_offset s) p g) as [?|?]; try done; lia.
Qed.

(** Why the mapping failed, in terms of the state before the fault: the walk hits
    a large page, or only the page that was given back is left. *)
Lemma failed_why s s2 s3 p root va base :
  page_of base = page_of va ->
  (forall va', s_walk s3 root va' = s_walk s2 root va') -> s_walk s2 root va = s_walk s root va ->
  (pa_free_pages (pt_alloc s3) = ∅ \/ exists g l, s_slot s3 3 root base = Some (g, S l)) ->
  pa_free_pages (pt_alloc (free_page p s3)) = pa_free_pages (pt_alloc s3) ∪ {[p]} ->
  (exists e l, s_walk s root va = Some (e, S l)) \/
  exists q, pa_free_pages (pt_alloc (free_page p s3)) ⊆ {[q]}.
Proof.
  intros Hpg Hsame Hw2 [He | (g & l & Hs)] Hfr3; [right; exists p; rewrite Hfr3, He; set_solver | left].
  rewrite <- Hw2, <- (Hsame va).
  assert (Hs' : s_slot s3 3 root va = Some (g, S l))
    by (unfold s_slot in *; rewrite <- Hs; apply slot_path; by apply idx_page_of).
  destruct (large_slot_walk _ _ _ _ _ Hs') as [e He]. by exists e, l.
Qed.

(** C4: the page-fault handler accepts a fault exactly when it is a missing page
    in a demand-paged area and memory lasts: it then backs the faulting page,
    and no other, with a fresh page that reads as zero, writable and private to
    the kernel.  In every other case no translation changes and no page leaks:
    what was free is free or has become a page table. *)
Theorem vmm_handle_page_fault_correct T s root vs va ec s' ok
    (Hwf : pt_wf T s) (Hr : T !! root = Some [])
    (Hact : page_table_active_root s = root + hhdm_offset s)
    (Hva : 0 <= va < 2 ^ 64)
    (Hrun : vmm_handle_page_fault vs va ec s = (s', ok)) :
  exists T', pt_wf T' s' /\ T ⊆ T' /\
    (forall va', page_of va' <> page_of va -> s_walk s' root va' = s_walk s root va') /\
    (if ok then
       fault_handled vs va ec /\
       exists p, p ∈ pa_free_pages (pt_alloc s) /\ T' !! p = None /\
         (p ∉ pa_free_pages (pt_alloc s')) /\
         (forall va', page_of va' = page_of va -> s_walk s' root va' = Some (p + 3, O)) /\
         (forall k, 0 <= k < 4096 -> load8 (pt_mem s') (p + hhdm_offset s' + k) = 0)
     else
       (forall va', s_walk s' root va' = s_walk s root va') /\
       (forall g, g ∈ pa_free_pages (pt_alloc s) ->
          g ∈ pa_free_pages (pt_alloc s') \/ is_Some (T' !! g)) /\
       (fault_handled vs va ec -> (exists e l, s_walk s root va = Some (e, S l)) \/
          exists p, pa_free_pages (pt_alloc s') ⊆ {[p]})).
Proof.
  destruct (fault_guards _ _ _ _ _ _ Hrun) as [(Hn & -> & ->) | [Hh Hgo]].
  { exists T. split_and!; try done. by left. }
  clear Hrun. unfold alloc_page in Hgo.
  destruct (pa_alloc_page (pt_alloc s)) as [a p] eqn:Ea.
  destruct (Z.eqb_spec p NULL) as [->|Hp0].
  { injection Hgo as <- <-.
    destruct (pa_alloc_cases _ _ _ (wf_alloc _ _ Hwf) Ea) as [(_ & -> & He) | (? & _)]; [| done].
    replace (with_alloc (pt_alloc s) s) with s by (by destruct s).
    exists T. split_and!; try done; [by left |]. intros _. right. exists 0. set_solver. }
  destruct (fresh_page T s a p Hwf Ea Hp0)
    as (HpT & Hpf & Hpp & Hwf2 & Hcfg2 & Hfr2 & Hw2 & Hz2).
  cbv zeta in Hgo.
  destruct (page_table_map _ p PAGE_WRITABLE _) as [s3 ok3] eqn:Em.
  set (s2 := with_mem _ (with_alloc a s)) in *.
  destruct (page_base_page va Hva) as [Hbase Hpg].
  pose proof (free_frame T s p Hwf Hpp) as Hpt. pose proof Hpt as (Hpm & Hp1 & Hp2 & Hp3).
  assert (Hact2 : page_table_active_root s2 = root + hhdm_offset s2)
    by (rewrite (active_root_same s s2 Hcfg2); exact Hact).
  destruct (map_spec T s2 root _ p PAGE_WRITABLE s3 ok3 Hwf2 Hr Hact2 ltac:(lia) ltac:(by vm_compute) Em)
    as (T' & Hwf' & Hsub & Hcfg & Hgrow & Hother & Hok).
  assert (HpT' : T' !! p = None).
  { destruct (T' !! p) as [q|] eqn:E; [| done]. destruct (proj1 Hgrow p q E) as [Hc|Hc]; [congruence |].
    rewrite Hfr2 in Hc. set_solver. }
  assert (Hpfree : p ∉ pa_free_pages (pt_alloc s3)).
  { intros Hin. destruct Hcfg as (_ & _ & _ & _ & _ & _ & _ & Hs). apply Hs in Hin.
    rewrite Hfr2 in Hin. set_solver. }
  assert (Hout : forall va', page_of va' <> page_of va -> s_walk s3 root va' = s_walk s root va').
  { intros va' Hne. rewrite Hother by (done || congruence). by apply Hw2. }
  destruct ok3; cbn [negb] in Hgo; injection Hgo as <- <-; destruct Hok as [_ Hok]; exists T'.
  - do 4 (split; [done |]). exists p. split_and!; try done.
    + intros va' Heq. rewrite Hok by congruence. rewrite map_entry_writable by (done || lia). done.
    + intros k Hk. rewrite (page_kept T s2 T' s3 p) by done. by apply Hz2.
  - destruct Hok as [Hsame Hwhy].
    assert (Hlim3 : pa_limit (pt_alloc s3) = pa_limit (pt_alloc s)).
    { etransitivity; [apply Hcfg | apply Hcfg2]. }
    destruct (give_back T' s3 p Hwf' ltac:(by rewrite Hlim3) HpT') as [Hwf3 Hfr3].
    do 3 (split; [done |]). split; [| split].
    + intros va'. exact (eq_trans (Hsame root va' Hr) (Hw2 root va' Hr)).
    + intros g Hg. rewrite Hfr3. destruct (decide (g = p)) as [->|Hne]; [set_solver |].
      assert (Hg2 : g ∈ pa_free_pages (pt_alloc s2)) by (rewrite Hfr2; set_solver).
      destruct (proj1 (proj2 Hgrow) g Hg2); [left; set_solver | by right].
    + intros _. apply (failed_why s s2 s3 p root va _ Hpg); [| by apply Hw2 | done | done].
      intros va'. by apply Hsame.
Qed.

End demand_paging.

(** A touched page of a demand-paged area of [demo_pt]'s address space. *)
Definition demo_areas : Vma.vma_state :=
  (Vma.vma_create 0x400000 0x2000 (Z.lor Vma.VMA_WRITE Vma.VMA_DEMAND_PAGED)
     (Vma.vma_init (Vma.mk_state (replicate 32 Vma.zero_vma) 0))).1.

Lemma vmm_handle_page_fault_correct_witness :
  let out := vmm_handle_page_fault demo_areas 0x400ABC 2 demo_pt in
  pt_wf demo_tables demo_pt /\ out.2 = true /\
  exists p, s_walk out.1 0x7000 0x400ABC = Some (p + 3, O).
Proof.
  intros out. assert (Hok : out.2 = true) by (vm_compute; reflexivity).
  split; [exact demo_pt_wf |]. split; [exact Hok |].
  destruct (vmm_handle_page_fault_correct demo_tables demo_pt 0x7000 demo_areas 0x400ABC 2
              out.1 out.2 demo_pt_wf eq_refl eq_refl ltac:(lia) (surjective_pairing out))
    as (T' & _ & _ & _ & H).
  rewrite Hok in H. destruct H as (_ & p & _ & _ & _ & Hw & _).
  exists p. exact (Hw 0x400ABC eq_refl).
Defined.
