(* ===== verification/Heap.v ===== *)
(** * Kernel heap: [mm/heap.c]

    Blocks are headers of 32 bytes in the heap's own virtual memory, linked in
    both directions, each followed by its payload.  Pages come from a
    [PageBackend]: the frame allocator and the mapping of one page, which
    [PageTable.v] provides.  Loops that follow the links return [None] when
    their fuel runs out; the theorems of [HeapSpec.v] show they never do. *)
From S2P Require Import Prelude PageAllocator Memory Vma.
Import Mem.
#[local] Open Scope Z_scope.

(** [pmm_alloc_page] and [page_table_map_page], as the heap calls them, and the
    number of pages that can still be obtained. *)
Class PageBackend (B : Type) := {
  pb_alloc_page : B -> B * Z;
  pb_map_page : Z -> Z -> bool -> B -> B * bool;
  pb_ok : B -> Prop;
  pb_budget : B -> Z;
}.

Class PageBackendLaws (B : Type) `{PageBackend B} := {
  pb_budget_nonneg b : 0 <= pb_budget b;
  pb_alloc_ok b : pb_ok b -> pb_ok (pb_alloc_page b).1;
  pb_alloc_budget b : pb_ok b ->
    pb_budget (pb_alloc_page b).1 + (if (pb_alloc_page b).2 =? NULL then 0 else 1) <= pb_budget b;
  pb_map_ok b va pa w : pb_ok b -> 0 <= pa < 2 ^ 64 -> pb_ok (pb_map_page va pa w b).1;
  pb_map_budget b va pa w : pb_ok b -> pb_budget (pb_map_page va pa w b).1 <= pb_budget b;
  pb_alloc_range b : pb_ok b -> 0 <= (pb_alloc_page b).2 < 2 ^ 64;
}.

Definition HEAP_START_ADDRESS : Z := 0xFFFF900000000000.
Definition HEAP_INITIAL_SIZE : Z := 4 * 1024.
Definition HEAP_GROW_SIZE : Z := 4096.
Definition HEAP_ALIGNMENT : Z := 16.

(** ** [heap_block_t]: fields at offsets 0, 8, 16 and 24 *)
Definition sizeof_heap_block : Z := 32.
Definition blk_size (m : mem) (b : Z) : Z := load64 m b.
Definition blk_free (m : mem) (b : Z) : bool := negb (load8 m (b + 8) =? 0).
Definition blk_next (m : mem) (b : Z) : Z := load64 m (b + 16).
Definition blk_prev (m : mem) (b : Z) : Z := load64 m (b + 24).
Definition set_size (b v : Z) (m : mem) : mem := store64 b v m.
Definition set_free (b : Z) (v : bool) (m : mem) : mem := store8 (b + 8) (if v then 1 else 0) m.
Definition set_next (b v : Z) (m : mem) : mem := store64 (b + 16) v m.
Definition set_prev (b v : Z) (m : mem) : mem := store64 (b + 24) v m.

(** ** Operations on the chain of blocks *)
Fixpoint find_free_loop (fuel : nat) (current size : Z) (m : mem) : option Z :=
  match fuel with
  | O => None
  | S fuel' =>
    if current =? NULL then Some NULL
    else if blk_free m current && (blk_size m current >=? size) then Some current
    else find_free_loop fuel' (blk_next m current) size m
  end.

Definition split_block (block size : Z) (m : mem) : mem :=
  if blk_size m block <=? u64 (size + sizeof_heap_block) then m
  else
    let new_block := u64 (block + sizeof_heap_block + size) in
    let m1 := set_size new_block (u64 (blk_size m block - size - sizeof_heap_block)) m in
    let m2 := set_free new_block true m1 in
    let m3 := set_next new_block (blk_next m2 block) m2 in
    let m4 := set_prev new_block block m3 in
    let m5 := if negb (blk_next m4 block =? NULL)
              then set_prev (blk_next m4 block) new_block m4 else m4 in
    let m6 := set_next block new_block m5 in
    set_size block size m6.

Definition merge_with_next (block : Z) (m : mem) : mem :=
  if block =? NULL then m
  else
    let next := blk_next m block in
    if next =? NULL then m
    else if negb (blk_free m next) then m
    else
      let m1 := set_size block (u64 (blk_size m block + (sizeof_heap_block + blk_size m next))) m in
      let m2 := set_next block (blk_next m1 next) m1 in
      if negb (blk_next m2 next =? NULL) then set_prev (blk_next m2 next) block m2 else m2.

Definition merge_with_previous (block : Z) (m : mem) : mem :=
  if block =? NULL then m
  else
    let prev := blk_prev m block in
    if prev =? NULL then m
    else if negb (blk_free m prev) then m
    else
      let m1 := set_size prev (u64 (blk_size m prev + (sizeof_heap_block + blk_size m block))) m in
      let m2 := set_next prev (blk_next m1 block) m1 in
      if negb (blk_next m2 block =? NULL) then set_prev (blk_next m2 block) prev m2 else m2.

(** The inner [while] of [coalesce_free_blocks]. *)
Fixpoint absorb_loop (fuel : nat) (current : Z) (m : mem) : option mem :=
  match fuel with
  | O => None
  | S fuel' =>
    if blk_free m current && negb (blk_next m current =? NULL) && blk_free m (blk_next m current)
    then absorb_loop fuel' current (merge_with_next current m)
    else Some m
  end.

Fixpoint coalesce_loop (fuel : nat) (current : Z) (m : mem) : option mem :=
  match fuel with
  | O => None
  | S fuel' =>
    if current =? NULL then Some m
    else m' ← absorb_loop fuel current m; coalesce_loop fuel' (blk_next m' current) m'
  end.

Definition align_size (size : Z) : Z :=
  Z.land (u64 (size + (HEAP_ALIGNMENT - 1))) (u64 (Z.lnot (HEAP_ALIGNMENT - 1))).

Fixpoint last_block_loop (fuel : nat) (current : Z) (m : mem) : option Z :=
  match fuel with
  | O => None
  | S fuel' =>
    if blk_next m current =? NULL then Some current
    else last_block_loop fuel' (blk_next m current) m
  end.

Definition heap_create_block (virtual_address size : Z) (m : mem) : mem :=
  let block := virtual_address in
  set_prev block NULL (set_next block NULL
    (set_free block true (set_size block (u64 (size - sizeof_heap_block)) m))).

(** ** The heap's variables.  [h_mem] is the kernel's virtual memory, [vmas] the
    area table, [heap_vma] the index of the heap's area in it. *)
Record heap_t (B : Type) := mk_heap {
  h_mem : mem;
  heap_head : Z;
  heap_start : Z;
  heap_size : Z;
  heap_virtual_start : Z;
  heap_virtual_end : Z;
  heap_committed_end : Z;
  heap_vma : option Z;
  vmas : Vma.vma_state;
  backend : B;
}.
Arguments mk_heap {B}.
Arguments h_mem {B}.
Arguments heap_head {B}.
Arguments heap_start {B}.
Arguments heap_size {B}.
Arguments heap_virtual_start {B}.
Arguments heap_virtual_end {B}.
Arguments heap_committed_end {B}.
Arguments heap_vma {B}.
Arguments vmas {B}.
Arguments backend {B}.

Section heap.
Context {B : Type} `{PageBackend B}.
Implicit Types s : heap_t B.

Definition with_mem (m : mem) s : heap_t B :=
  mk_heap m (heap_head s) (heap_start s) (heap_size s) (heap_virtual_start s)
    (heap_virtual_end s) (heap_committed_end s) (heap_vma s) (vmas s) (backend s).
Definition with_backend (b : B) s : heap_t B :=
  mk_heap (h_mem s) (heap_head s) (heap_start s) (heap_size s) (heap_virtual_start s)
    (heap_virtual_end s) (heap_committed_end s) (heap_vma s) (vmas s) b.
Definition with_committed_end (e : Z) s : heap_t B :=
  mk_heap (h_mem s) (heap_head s) (heap_start s) (heap_size s) (heap_virtual_start s)
    (heap_virtual_end s) e (heap_vma s) (vmas s) (backend s).
(** [heap_size] and [heap_virtual_end], and the resized area table. *)
Definition with_extent (size vend : Z) (v : Vma.vma_state) s : heap_t B :=
  mk_heap (h_mem s) (heap_head s) (heap_start s) size (heap_virtual_start s)
    vend (heap_committed_end s) (heap_vma s) v (backend s).

Definition heap_committed_size s : Z := u64 (heap_committed_end s - heap_virtual_start s).
Definition heap_next_commit_address s : Z := heap_committed_end s.

(** A header takes 32 bytes, so this many steps reach the end of any chain. *)
Definition chain_fuel s : nat := S (S (Z.to_nat (heap_committed_size s / sizeof_heap_block))).

Definition find_free_block (size : Z) s : option Z :=
  find_free_loop (chain_fuel s) (heap_head s) size (h_mem s).

Definition coalesce_free_blocks s : option (heap_t B) :=
  m ← coalesce_loop (chain_fuel s) (heap_head s) (h_mem s); Some (with_mem m s).

Definition find_last_block s : option Z :=
  last_block_loop (chain_fuel s) (heap_head s) (h_mem s).

Definition heap_commit_page (virtual_address : Z) s : heap_t B * Z :=
  let '(b1, physical) := pb_alloc_page (backend s) in
  let s1 := with_backend b1 s in
  if physical =? NULL then (s1, NULL)
  else
    let '(b2, ok) := pb_map_page virtual_address physical true (backend s1) in
    let s2 := with_backend b2 s1 in
    if negb ok then (s2, NULL)
    else (with_committed_end (u64 (heap_committed_end s2 + PAGE_SIZE)) s2, virtual_address).

Definition heap_expand s : option (heap_t B * bool) :=
  match heap_vma s with
  | None => Some (s, false)
  | Some vma =>
    let commit_address := heap_next_commit_address s in
    let '(s1, virtual_page) := heap_commit_page commit_address s in
    if virtual_page =? NULL then Some (s1, false)
    else
      last ← find_last_block s1;
      let m1 := heap_create_block virtual_page PAGE_SIZE (h_mem s1) in
      let new_block := virtual_page in
      let m2 := set_next last new_block m1 in
      let m3 := set_prev new_block last m2 in
      let m4 := if blk_free m3 last then merge_with_next last m3 else m3 in
      let s2 := with_mem m4 s1 in
      let new_heap_size := u64 (heap_committed_end s2 - heap_virtual_start s2) in
      let start := Vma.start (Vma.entry (Vma.vma_table (vmas s2)) vma) in
      let '(v, _) := Vma.vma_resize start new_heap_size (vmas s2) in
      Some (with_extent new_heap_size (heap_committed_end s2) v s2, true)
  end.

(** [while (heap_committed_size() < bytes) if (!heap_expand()) return false;] *)
Fixpoint heap_grow_loop (fuel : nat) (bytes : Z) s : option (heap_t B * bool) :=
  match fuel with
  | O => None
  | S fuel' =>
    if heap_committed_size s <? bytes then
      '(s1, ok) ← heap_expand s;
      if negb ok then Some (s1, false) else heap_grow_loop fuel' bytes s1
    else Some (s, true)
  end.

Definition heap_grow (bytes : Z) s : option (heap_t B * bool) :=
  heap_grow_loop (S (S (Z.to_nat ((bytes - heap_committed_size s) / PAGE_SIZE)))) bytes s.

Definition heap_init (s : heap_t B) : heap_t B :=
  let '(b1, heap_physical) := pb_alloc_page (backend s) in
  let s1 := with_backend b1 s in
  if heap_physical =? NULL then s1
  else
    let '(b2, ok) := pb_map_page HEAP_START_ADDRESS heap_physical true (backend s1) in
    let s2 := with_backend b2 s1 in
    if negb ok then s2
    else
      let vma := Vma.vma_find HEAP_START_ADDRESS (vmas s2) in
      let s3 := mk_heap (h_mem s2) (heap_head s2) HEAP_START_ADDRESS (heap_size s2)
                  HEAP_START_ADDRESS (HEAP_START_ADDRESS + HEAP_INITIAL_SIZE)
                  (HEAP_START_ADDRESS + HEAP_INITIAL_SIZE) vma (vmas s2) (backend s2) in
      match vma with
      | None => s3
      | Some _ =>
        let head := heap_start s3 in
        let m1 := set_size head (HEAP_INITIAL_SIZE - sizeof_heap_block) (h_mem s3) in
        let m2 := set_prev head NULL (set_next head NULL (set_free head true m1)) in
        mk_heap m2 head (heap_start s3) HEAP_INITIAL_SIZE (heap_virtual_start s3)
          (heap_virtual_end s3) (heap_committed_end s3) vma (vmas s3) (backend s3)
      end.

(** The [while (true)] of [kmalloc]; every round adds a page, so [size] bounds
    the rounds. *)
Fixpoint kmalloc_loop (fuel : nat) (size : Z) s : option (heap_t B * Z) :=
  match fuel with
  | O => None
  | S fuel' =>
    s1 ← coalesce_free_blocks s;
    block ← find_free_block size s1;
    if negb (block =? NULL) then
      let m1 := split_block block size (h_mem s1) in
      Some (with_mem (set_free block false m1) s1, block + sizeof_heap_block)
    else
      '(s2, ok) ← heap_grow (u64 (heap_committed_size s1 + HEAP_GROW_SIZE)) s1;
      if negb ok then Some (s2, NULL) else kmalloc_loop fuel' size s2
  end.

Definition kmalloc (size : Z) s : option (heap_t B * Z) :=
  if size =? 0 then Some (s, NULL)
  else
    let size := align_size size in
    kmalloc_loop (3 + Z.to_nat (size / PAGE_SIZE)) size s.

Definition kcalloc (count size : Z) s : option (heap_t B * Z) :=
  if (count =? 0) || (size =? 0) then Some (s, NULL)
  else if count >? SIZE_MAX / size then Some (s, NULL)
  else
    let total := u64 (count * size) in
    '(s1, ptr) ← kmalloc total s;
    if ptr =? NULL then Some (s1, NULL)
    else Some (with_mem (k_memset ptr 0 total (h_mem s1)) s1, ptr).

Definition kfree (ptr : Z) s : heap_t B :=
  if ptr =? NULL then s
  else
    let block := ptr - sizeof_heap_block in
    let m1 := set_free block true (h_mem s) in
    let m2 := merge_with_next block m1 in
    with_mem (merge_with_previous block m2) s.

Definition krealloc (ptr size : Z) s : option (heap_t B * Z) :=
  if ptr =? NULL then kmalloc size s
  else if size =? 0 then Some (kfree ptr s, NULL)
  else
    let size := align_size size in
    let block := ptr - sizeof_heap_block in
    if blk_size (h_mem s) block >=? size then Some (s, ptr)
    else
      '(s1, new_ptr) ← kmalloc size s;
      if new_ptr =? NULL then Some (s1, NULL)
      else
        let s2 := with_mem (k_memcpy new_ptr ptr (blk_size (h_mem s1) block) (h_mem s1)) s1 in
        Some (kfree ptr s2, new_ptr).

End heap.
