(* ===== verification/HeapSpec.v ===== *)
(** * Correctness of the heap of [Heap.v]

    The specification is a list of blocks that tile the heap.  Each operation
    is shown to act on that list, and to leave every byte outside the headers
    alone, so the payloads of the allocated blocks survive every operation. *)
From S2P Require Import Prelude PageAllocator Memory Vma Heap.
Import Mem.
#[local] Open Scope Z_scope.
#[local] Opaque k_memset k_memcpy store64.

Record block := mk_block { b_addr : Z; b_size : Z; b_free : bool }.

(** ** Headers in memory *)
Definition header_at (m : mem) (a size : Z) (free : bool) (next prev : Z) : Prop :=
  blk_size m a = size /\ blk_free m a = free /\ blk_next m a = next /\ blk_prev m a = prev.

Definition addr_ok (a : Z) : Prop := 0 < a /\ a + sizeof_heap_block <= 2 ^ 64.

(** No byte outside [a, a+n) changed. *)
Definition outside (a n : Z) (m m' : mem) : Prop :=
  forall x, 0 <= x < 2 ^ 64 -> x < a \/ a + n <= x -> load8 m' x = load8 m x.

Lemma load64_agree m m' a :
  (forall x, a <= x < a + 8 -> load8 m' x = load8 m x) -> load64 m' a = load64 m a.
Proof. intros Hx. by apply load_le_ext. Qed.

Lemma header_agree m m' a sz fr nx pv :
  (forall x, a <= x < a + sizeof_heap_block -> load8 m' x = load8 m x) ->
  header_at m a sz fr nx pv -> header_at m' a sz fr nx pv.
Proof.
  intros Hx (Hs & Hf & Hn & Hp). unfold sizeof_heap_block in Hx.
  unfold header_at, blk_size, blk_free, blk_next, blk_prev in *.
  rewrite !(load64_agree m m') by (intros; apply Hx; lia).
  rewrite (Hx (a + 8)) by lia. done.
Qed.

Lemma load8_store8_ne a v x m :
  0 <= a < 2 ^ 64 -> 0 <= x < 2 ^ 64 -> x <> a -> load8 (store8 a v m) x = load8 m x.
Proof. intros Ha Hx Hne. rewrite load8_store8 by lia. by rewrite decide_False by lia. Qed.

Lemma set_size_spec m a v sz fr nx pv :
  addr_ok a -> 0 <= v < 2 ^ 64 -> header_at m a sz fr nx pv ->
  header_at (set_size a v m) a v fr nx pv /\ outside a 32 m (set_size a v m).
Proof.
  intros [Ha Hb] Hv (Hs & Hf & Hn & Hp). unfold sizeof_heap_block in Hb.
  unfold header_at, blk_size, blk_free, blk_next, blk_prev, set_size in *.
  split; [| intros x Hx Hd; apply load8_store64_ne; lia].
  rewrite load64_store64, load8_store64_ne, !load64_store64_ne by lia. done.
Qed.

Lemma set_free_spec m a v sz fr nx pv :
  addr_ok a -> header_at m a sz fr nx pv ->
  header_at (set_free a v m) a sz v nx pv /\ outside a 32 m (set_free a v m).
Proof.
  intros [Ha Hb] (Hs & Hf & Hn & Hp). unfold sizeof_heap_block in Hb.
  unfold header_at, blk_size, blk_free, blk_next, blk_prev, set_free in *.
  split; [| intros x Hx Hd; apply load8_store8_ne; lia].
  assert (Hl : forall b, a <= b -> b + 8 <= a + 32 -> b + 8 <= a + 8 \/ a + 9 <= b ->
    load64 (store8 (a + 8) (if v then 1 else 0) m) b = load64 m b).
  { intros b Hb1 Hb2 Hd. apply load64_agree. intros x Hx. apply load8_store8_ne; lia. }
  rewrite !Hl by lia. rewrite load8_store8, decide_True by lia. by destruct v.
Qed.

Lemma set_next_spec m a v sz fr nx pv :
  addr_ok a -> 0 <= v < 2 ^ 64 -> header_at m a sz fr nx pv ->
  header_at (set_next a v m) a sz fr v pv /\ outside a 32 m (set_next a v m).
Proof.
  intros [Ha Hb] Hv (Hs & Hf & Hn & Hp). unfold sizeof_heap_block in Hb.
  unfold header_at, blk_size, blk_free, blk_next, blk_prev, set_next in *.
  split; [| intros x Hx Hd; apply load8_store64_ne; lia].
  rewrite load64_store64, load8_store64_ne, !load64_store64_ne by lia. done.
Qed.

Lemma set_prev_spec m a v sz fr nx pv :
  addr_ok a -> 0 <= v < 2 ^ 64 -> header_at m a sz fr nx pv ->
  header_at (set_prev a v m) a sz fr nx v /\ outside a 32 m (set_prev a v m).
Proof.
  intros [Ha Hb] Hv (Hs & Hf & Hn & Hp). unfold sizeof_heap_block in Hb.
  unfold header_at, blk_size, blk_free, blk_next, blk_prev, set_prev in *.
  split; [| intros x Hx Hd; apply load8_store64_ne; lia].
  rewrite load64_store64, load8_store64_ne, !load64_store64_ne by lia. done.
Qed.

(** ** Chains *)
Definition hd_addr (l : list block) (n : Z) : Z :=
  match l with [] => n | b :: _ => b_addr b end.

Fixpoint last_addr (l : list block) (p : Z) : Z :=
  match l with [] => p | b :: l' => last_addr l' (b_addr b) end.

(** The headers of [l], linked to each other, to [p] before and [n] after. *)
Fixpoint seg (m : mem) (p : Z) (l : list block) (n : Z) : Prop :=
  match l with
  | [] => True
  | b :: l' =>
    header_at m (b_addr b) (b_size b) (b_free b) (hd_addr l' n) p /\ seg m (b_addr b) l' n
  end.

(** The blocks of [l] fill [a, e), header then payload, in multiples of 16. *)
Fixpoint layout (a : Z) (l : list block) (e : Z) : Prop :=
  match l with
  | [] => a = e
  | b :: l' =>
    b_addr b = a /\ 0 <= b_size b /\ b_size b mod 16 = 0 /\
    layout (a + sizeof_heap_block + b_size b) l' e
  end.

Lemma seg_app m p l1 l2 n :
  seg m p (l1 ++ l2) n <-> seg m p l1 (hd_addr l2 n) /\ seg m (last_addr l1 p) l2 n.
Proof.
  revert p; induction l1 as [|b l1 IH]; intros p; simpl; [tauto |].
  rewrite IH. destruct l1; simpl; tauto.
Qed.

Lemma layout_app a l1 l2 e :
  layout a (l1 ++ l2) e <-> exists d, layout a l1 d /\ layout d l2 e.
Proof.
  revert a; induction l1 as [|b l1 IH]; intros a; simpl.
  - split; [intros; by exists a | by intros (d & -> & ?)].
  - rewrite IH. naive_solver.
Qed.

Lemma layout_le a l e : layout a l e -> a <= e.
Proof.
  revert a; induction l as [|b l IH]; intros a; simpl; [lia |].
  intros (_ & Hs & _ & Hl). apply IH in Hl. unfold sizeof_heap_block in Hl. lia.
Qed.

Lemma layout_in a l e b :
  layout a l e -> b ∈ l ->
  a <= b_addr b /\ b_addr b + sizeof_heap_block + b_size b <= e /\ 0 <= b_size b.
Proof.
  revert a; induction l as [|c l IH]; intros a; simpl; [by intros _ ?%elem_of_nil |].
  intros (Hc & Hs & _ & Hl) [->|Hin]%elem_of_cons; pose proof (layout_le _ _ _ Hl) as Hle;
    unfold sizeof_heap_block in *.
  - lia.
  - destruct (IH _ Hl Hin). lia.
Qed.

(** A segment depends on the bytes of its headers only. *)
Definition headers_agree (l : list block) (m m' : mem) : Prop :=
  forall b x, b ∈ l -> b_addr b <= x < b_addr b + sizeof_heap_block -> load8 m' x = load8 m x.

Lemma seg_agree m m' p l n : headers_agree l m m' -> seg m p l n -> seg m' p l n.
Proof.
  revert p; induction l as [|b l IH]; intros p Hx; simpl; [done |].
  intros [Hh Hs]. split.
  - eapply header_agree; [| exact Hh]. intros x. apply Hx. by left.
  - apply IH; [| done]. intros c x Hc. apply Hx. by right.
Qed.

Lemma seg_outside m m' p l n a e lo len :
  layout a l e -> 0 <= a -> e <= 2 ^ 64 -> outside lo len m m' -> e <= lo \/ lo + len <= a ->
  seg m p l n -> seg m' p l n.
Proof.
  intros Hl Ha He Ho Hd. apply seg_agree. intros b x Hb Hx.
  destruct (layout_in _ _ _ _ Hl Hb). unfold sizeof_heap_block in *. apply Ho; lia.
Qed.

(** Bytes that may change: those of the headers of [l]. *)
Definition only_headers (l : list block) (m m' : mem) : Prop :=
  forall x, 0 <= x < 2 ^ 64 ->
    (forall b, b ∈ l -> x < b_addr b \/ b_addr b + sizeof_heap_block <= x) ->
    load8 m' x = load8 m x.

Lemma only_headers_refl l m : only_headers l m m.
Proof. done. Qed.

Lemma only_headers_trans l m1 m2 m3 :
  only_headers l m1 m2 -> only_headers l m2 m3 -> only_headers l m1 m3.
Proof. intros H12 H23 x Hx Ho. by rewrite H23, H12. Qed.

Lemma outside_only l m m' b :
  b ∈ l -> outside (b_addr b) 32 m m' -> only_headers l m m'.
Proof. intros Hb Ho x Hx Hl. apply Ho; [done |]. by apply Hl. Qed.

(** ** Merging *)
Definition merged (b c : block) : block :=
  mk_block (b_addr b) (b_size b + (sizeof_heap_block + b_size c)) (b_free b).

Lemma header_outside m m' a b sz fr nx pv :
  outside b 32 m m' -> 0 <= a -> a + 32 <= 2 ^ 64 -> a + 32 <= b \/ b + 32 <= a ->
  header_at m a sz fr nx pv -> header_at m' a sz fr nx pv.
Proof.
  intros Ho Ha Ha' Hd. apply header_agree. unfold sizeof_heap_block.
  intros x Hx. apply Ho; lia.
Qed.

Lemma hd_null l a e : layout a l e -> 0 < a -> hd_addr l NULL = NULL <-> l = [].
Proof.
  destruct l as [|b l]; [done |]. intros (Hb & _) Ha. unfold NULL; simpl. split; [lia | done].
Qed.

(** The C addition on sizes does not wrap: everything fits below [e]. *)
Lemma layout_two a b c l e :
  layout a (b :: c :: l) e -> 0 < a -> e <= 2 ^ 64 ->
  b_addr b = a /\ b_addr c = a + 32 + b_size b /\ 0 <= b_size b /\ 0 <= b_size c /\
  b_addr c + 32 + b_size c <= e /\ layout (b_addr c + 32 + b_size c) l e.
Proof.
  simpl. unfold sizeof_heap_block. intros (-> & ? & ? & -> & ? & ? & Hl) ? ?.
  pose proof (layout_le _ _ _ Hl). split_and!; lia || done.
Qed.

(** The first block of [l], if any, gets a new predecessor. *)
Definition relink (l : list block) (p : Z) (m : mem) : mem :=
  if negb (hd_addr l NULL =? NULL) then set_prev (hd_addr l NULL) p m else m.

Lemma relink_spec m q p l a e :
  seg m q l NULL -> layout a l e -> 0 < a -> e <= 2 ^ 64 -> 0 <= p < 2 ^ 64 ->
  seg (relink l p m) p l NULL /\ only_headers l m (relink l p m) /\
  (forall x, 0 <= x < a -> load8 (relink l p m) x = load8 m x).
Proof.
  intros Hs Hl Ha He Hp. unfold relink. destruct l as [|c l]; [done |].
  cbn [hd_addr]. simpl in Hl. destruct Hl as (Hca & Hcs & Hcm & Hl).
  pose proof (layout_le _ _ _ Hl) as Hle. unfold sizeof_heap_block in *.
  destruct (Z.eqb_spec (b_addr c) NULL) as [Hn|_]; [unfold NULL in Hn; lia |]. cbn [negb].
  destruct Hs as [Hh Hs].
  destruct (set_prev_spec m (b_addr c) p _ _ _ _
              ltac:(split; unfold sizeof_heap_block; lia) Hp Hh) as [Hh' Ho].
  split_and!.
  - split; [exact Hh' |]. eapply (seg_outside m _ _ _ _ _ _ (b_addr c) 32); eauto; lia.
  - apply (outside_only _ _ _ c); [by left | done].
  - intros x Hx. apply Ho; lia.
Qed.

Lemma merge_next_local m p b c l a e :
  seg m p (b :: c :: l) NULL -> layout a (b :: c :: l) e -> 0 < a -> e <= 2 ^ 64 ->
  b_free c = true ->
  let m' := merge_with_next (b_addr b) m in
  seg m' p (merged b c :: l) NULL /\ only_headers (merged b c :: l) m m' /\
  (forall x, 0 <= x < a -> load8 m' x = load8 m x).
Proof.
  intros (Hb & Hc & Hs) Hl Ha He Hf.
  destruct (layout_two _ _ _ _ _ Hl Ha He) as (Hab & Hac & Hsb & Hsc & Hend & Hl').
  pose proof (layout_le _ _ _ Hl') as Hle.
  cbn [hd_addr] in Hb. pose proof Hb as (Eb1 & _ & Eb3 & _).
  pose proof Hc as (Ec1 & Ec2 & Ec3 & _).
  assert (Hhd : 0 <= hd_addr l NULL < 2 ^ 64).
  { destruct l as [|d l]; [unfold NULL; simpl; lia |].
    cbn [hd_addr]. destruct Hl' as (Hd & ? & _ & Hl''). pose proof (layout_le _ _ _ Hl'').
    unfold sizeof_heap_block in *. lia. }
  unfold merge_with_next. rewrite Eb1, Eb3, Ec1, Ec2, Hf. unfold NULL in *.
  destruct (Z.eqb_spec (b_addr b) 0); [lia |]. destruct (Z.eqb_spec (b_addr c) 0); [lia |].
  cbn [negb]. unfold sizeof_heap_block in *. rewrite u64_id by lia.
  set (sz := b_size b + (32 + b_size c)).
  destruct (set_size_spec m (b_addr b) sz _ _ _ _ ltac:(split; unfold sizeof_heap_block; lia)
              ltac:(lia) Hb) as [Hb1 O1].
  set (m1 := set_size (b_addr b) sz m) in *.
  assert (Hc1 : header_at m1 (b_addr c) (b_size c) (b_free c) (hd_addr l 0) (b_addr b))
    by (apply (header_outside m m1 _ (b_addr b)); done || lia).
  pose proof Hc1 as (_ & _ & -> & _).
  destruct (set_next_spec m1 (b_addr b) (hd_addr l 0) _ _ _ _
              ltac:(split; unfold sizeof_heap_block; lia) Hhd Hb1) as [Hb2 O2].
  set (m2 := set_next (b_addr b) (hd_addr l 0) m1) in *.
  assert (Hc2 : header_at m2 (b_addr c) (b_size c) (b_free c) (hd_addr l 0) (b_addr b))
    by (apply (header_outside m1 m2 _ (b_addr b)); done || lia).
  pose proof Hc2 as (_ & _ & -> & _).
  assert (Hs2 : seg m2 (b_addr c) l 0).
  { eapply (seg_outside m1 m2 _ _ _ _ _ (b_addr b) 32); [exact Hl' | lia | lia | done | lia |].
    eapply (seg_outside m m1 _ _ _ _ _ (b_addr b) 32); [exact Hl' | lia | lia | done | lia | done]. }
  destruct (relink_spec m2 _ (b_addr b) l _ e Hs2 Hl' ltac:(lia) He ltac:(lia)) as (Hs3 & O3 & B3).
  change (if negb (hd_addr l 0 =? 0) then set_prev (hd_addr l 0) (b_addr b) m2 else m2)
    with (relink l (b_addr b) m2).
  split_and!.
  - split; [| exact Hs3]. eapply header_agree; [| exact Hb2].
    unfold sizeof_heap_block. change (b_addr (merged b c)) with (b_addr b). intros x Hx. apply B3. lia.
  - intros x Hx Hout. assert (x < b_addr b \/ b_addr b + 32 <= x) by (apply (Hout (merged b c)); by left).
    rewrite O3 by (done || (intros d Hd; apply Hout; by right)).
    rewrite O2, O1; [done | lia | lia | lia | lia].
  - intros x Hx. rewrite B3, O2, O1; [done | lia | lia | lia | lia | lia].
Qed.

(** A chain: headers linked from NULL to NULL over [a, e). *)
Definition chain (m : mem) (a e : Z) (l : list block) : Prop :=
  seg m NULL l NULL /\ layout a l e /\ 0 < a /\ e <= 2 ^ 64.

Lemma layout_merged a b c l e : layout a (b :: c :: l) e -> layout a (merged b c :: l) e.
Proof.
  simpl. unfold sizeof_heap_block. intros (Hb & Hs & Hm & Hc & Hs' & Hm' & Hl).
  split_and!; [done | lia | word_lia |].
  replace (a + 32 + (b_size b + (32 + b_size c))) with (a + 32 + b_size b + 32 + b_size c) by lia.
  done.
Qed.

Lemma chain_merge m a e pre b c l :
  chain m a e (pre ++ b :: c :: l) -> b_free c = true ->
  let m' := merge_with_next (b_addr b) m in
  chain m' a e (pre ++ merged b c :: l) /\ only_headers (pre ++ merged b c :: l) m m'.
Proof.
  intros (Hs & Hl & Ha & He) Hf m'. apply seg_app in Hs as [Hs1 Hs2].
  apply layout_app in Hl as (d & Hl1 & Hl2). pose proof (layout_le _ _ _ Hl1).
  destruct (merge_next_local m _ b c l d e Hs2 Hl2 ltac:(lia) He Hf) as (Hs2' & Ho & Hb).
  fold m' in Hs2', Ho, Hb. split; [split |].
  - apply seg_app. split; [| done].
    eapply seg_agree; [| exact Hs1]. intros b' x Hin Hx.
    destruct (layout_in _ _ _ _ Hl1 Hin). unfold sizeof_heap_block in *. apply Hb. lia.
  - split; [| done]. apply layout_app. exists d. split; [done |]. by apply layout_merged.
  - intros x Hx Hout. apply Ho; [done |]. intros b' Hin. apply Hout. apply elem_of_app. by right.
Qed.

(** The chain's links, as the code reads them. *)
Lemma chain_header m a e pre b l :
  chain m a e (pre ++ b :: l) ->
  header_at m (b_addr b) (b_size b) (b_free b) (hd_addr l NULL) (last_addr pre NULL) /\
  0 < b_addr b /\ b_addr b + 32 + b_size b <= e /\ 0 <= b_size b.
Proof.
  intros (Hs & Hl & Ha & He). apply seg_app in Hs as [_ [Hh _]].
  split; [done |].
  destruct (layout_in _ _ _ b Hl) as (? & ? & ?); [apply elem_of_app; right; by left |].
  unfold sizeof_heap_block in *. lia.
Qed.

Lemma chain_next_null m a e pre b l :
  chain m a e (pre ++ b :: l) -> blk_next m (b_addr b) = NULL <-> l = [].
Proof.
  intros Hc. pose proof (chain_header _ _ _ _ _ _ Hc) as ((_ & _ & -> & _) & _).
  destruct Hc as (_ & Hl & Ha & _). apply layout_app in Hl as (d & Hl1 & _ & ? & _ & Hl2).
  pose proof (layout_le _ _ _ Hl1). apply (hd_null l _ e Hl2). unfold sizeof_heap_block. lia.
Qed.

(** [merge_with_previous] on a free block does what [merge_with_next] does on
    its free predecessor. *)
Lemma merge_previous_eq m a e pre b c l :
  chain m a e (pre ++ b :: c :: l) -> b_free b = true -> b_free c = true ->
  merge_with_previous (b_addr c) m = merge_with_next (b_addr b) m.
Proof.
  intros Hc Hb Hf.
  pose proof (chain_header _ _ _ _ _ _ Hc) as ((B1 & B2 & B3 & _) & Hb0 & _).
  assert (Hc' : chain m a e ((pre ++ [b]) ++ c :: l)) by (by rewrite <- app_assoc).
  pose proof (chain_header _ _ _ _ _ _ Hc') as ((C1 & C2 & C3 & C4) & Hc0 & _).
  assert (Hla : last_addr (pre ++ [b]) NULL = b_addr b).
  { clear. generalize NULL. induction pre; intros z; [done | apply IHpre]. }
  rewrite Hla in C4. cbn [hd_addr] in B3.
  unfold merge_with_previous, merge_with_next. rewrite C4, B3, B2, C2, Hb, Hf.
  destruct (Z.eqb_spec (b_addr b) NULL) as [Hn|_]; [unfold NULL in Hn; lia |].
  destruct (Z.eqb_spec (b_addr c) NULL) as [Hn|_]; [unfold NULL in Hn; lia |]. done.
Qed.

Lemma merge_next_keeps m a e pre b l :
  chain m a e (pre ++ b :: l) ->
  match l with c :: _ => b_free c = false | [] => True end ->
  merge_with_next (b_addr b) m = m.
Proof.
  intros Hc Hf. pose proof (chain_header _ _ _ _ _ _ Hc) as ((_ & _ & B3 & _) & Hb0 & _).
  unfold merge_with_next. rewrite B3.
  destruct (Z.eqb_spec (b_addr b) NULL); [done |].
  destruct l as [|c l]; [done |]. cbn [hd_addr].
  destruct (Z.eqb_spec (b_addr c) NULL); [done |].
  assert (Hc' : chain m a e ((pre ++ [b]) ++ c :: l)) by (by rewrite <- app_assoc).
  pose proof (chain_header _ _ _ _ _ _ Hc') as ((_ & -> & _) & _). by rewrite Hf.
Qed.

Lemma merge_previous_keeps m a e pre c l :
  chain m a e (pre ++ c :: l) ->
  (forall pre' b, pre = pre' ++ [b] -> b_free b = false) ->
  merge_with_previous (b_addr c) m = m.
Proof.
  intros Hc Hf. pose proof (chain_header _ _ _ _ _ _ Hc) as ((_ & _ & _ & C4) & Hc0 & _).
  unfold merge_with_previous. rewrite C4.
  destruct (Z.eqb_spec (b_addr c) NULL); [done |].
  induction pre as [|b pre' _] using rev_ind; [done |].
  assert (Hla : last_addr (pre' ++ [b]) NULL = b_addr b).
  { clear. generalize NULL. induction pre'; intros z; [done | apply IHpre']. }
  rewrite Hla. destruct (Z.eqb_spec (b_addr b) NULL); [done |].
  rewrite <- app_assoc in Hc. simpl in Hc.
  pose proof (chain_header _ _ _ _ _ _ Hc) as ((_ & -> & _) & _). by rewrite (Hf pre' b).
Qed.

(** ** Allocated blocks and their payloads *)
Definition allocs (l : list block) : list block := filter (fun b => b_free b = false) l.

(** Every payload byte of an allocated block of [l] is as it was. *)
Definition keeps (l : list block) (m m' : mem) : Prop :=
  forall b x, b ∈ allocs l -> b_addr b + 32 <= x < b_addr b + 32 + b_size b ->
    load8 m' x = load8 m x.

Lemma elem_of_allocs l b : b ∈ allocs l <-> b_free b = false /\ b ∈ l.
Proof. unfold allocs. by rewrite list_elem_of_filter. Qed.

Lemma allocs_app l1 l2 : allocs (l1 ++ l2) = allocs l1 ++ allocs l2.
Proof. apply filter_app. Qed.

Lemma allocs_free b l : b_free b = true -> allocs (b :: l) = allocs l.
Proof. intros Hb. unfold allocs. rewrite filter_cons_False; [done | by rewrite Hb]. Qed.

Lemma allocs_used b l : b_free b = false -> allocs (b :: l) = b :: allocs l.
Proof. intros Hb. unfold allocs. by rewrite filter_cons_True. Qed.

Lemma keeps_refl l m : keeps l m m.
Proof. done. Qed.

Lemma keeps_trans l l' m1 m2 m3 :
  (forall b, b ∈ allocs l -> b ∈ allocs l') ->
  keeps l m1 m2 -> keeps l' m2 m3 -> keeps l m1 m3.
Proof.
  intros Hsub H12 H23 b x Hb Hx. rewrite (H23 b x) by auto. by apply (H12 b x).
Qed.

Lemma layout_disjoint a l e b c :
  layout a l e -> b ∈ l -> c ∈ l ->
  b = c \/ b_addr b + 32 + b_size b <= b_addr c \/ b_addr c + 32 + b_size c <= b_addr b.
Proof.
  revert a; induction l as [|d l IH]; intros a; simpl; [by intros _ ?%elem_of_nil |].
  unfold sizeof_heap_block.
  intros (Hd & Hs & _ & Hl) [->|Hb]%elem_of_cons [->|Hc]%elem_of_cons.
  - by left.
  - destruct (layout_in _ _ _ _ Hl Hc). lia.
  - destruct (layout_in _ _ _ _ Hl Hb). lia.
  - by apply (IH _ Hl).
Qed.

Lemma keeps_sub l' l m m' :
  (forall b, b ∈ allocs l' -> b ∈ allocs l) -> keeps l m m' -> keeps l' m m'.
Proof. intros Hsub Hk b x Hb. apply Hk. by apply Hsub. Qed.

Lemma layout_nodup a l e : layout a l e -> NoDup l.
Proof.
  revert a; induction l as [|b l IH]; intros a; simpl; [constructor |].
  unfold sizeof_heap_block. intros (Hb & Hs & _ & Hl). constructor; [| by eapply IH].
  intros Hin. destruct (layout_in _ _ _ _ Hl Hin). lia.
Qed.

(** Writing headers only keeps the payloads. *)
Lemma keeps_headers m m' a e l l' :
  layout a l e -> 0 < a -> e <= 2 ^ 64 ->
  (forall b, b ∈ l' -> exists c, c ∈ l /\ b_addr c = b_addr b) ->
  only_headers l' m m' -> keeps l m m'.
Proof.
  intros Hl Ha He Hsub Ho b x [_ Hb]%elem_of_allocs Hx.
  destruct (layout_in _ _ _ _ Hl Hb). unfold sizeof_heap_block in *.
  apply Ho; [lia |]. intros c' Hc'. destruct (Hsub c' Hc') as (c & Hc & <-).
  destruct (layout_in _ _ _ _ Hl Hc) as (_ & _ & ?). unfold sizeof_heap_block.
  destruct (layout_disjoint _ _ _ _ _ Hl Hb Hc) as [->|[?|?]]; lia.
Qed.

(** Merging two free blocks. *)
Lemma chain_merge_free m a e pre b c l :
  chain m a e (pre ++ b :: c :: l) -> b_free b = true -> b_free c = true ->
  let m' := merge_with_next (b_addr b) m in
  chain m' a e (pre ++ merged b c :: l) /\ keeps (pre ++ b :: c :: l) m m' /\
  allocs (pre ++ merged b c :: l) = allocs (pre ++ b :: c :: l).
Proof.
  intros Hc Hb Hf m'. destruct (chain_merge m a e pre b c l Hc Hf) as [Hc' Ho]. fold m' in Hc', Ho.
  split; [done |]. split.
  - destruct Hc as (_ & Hl & Ha & He). eapply keeps_headers; [exact Hl | done | done | | exact Ho].
    intros d. rewrite elem_of_app, elem_of_cons. intros [Hd | [-> | Hd]].
    + exists d. split; [apply elem_of_app; by left | done].
    + exists b. split; [apply elem_of_app; right; by left | done].
    + exists d. split; [apply elem_of_app; right; by do 2 right | done].
  - rewrite !allocs_app. by rewrite !allocs_free.
Qed.

(** ** Coalescing *)
Fixpoint coalesce (b : block) (l : list block) : list block :=
  match l with
  | [] => [b]
  | c :: l' => if b_free b && b_free c then coalesce (merged b c) l' else b :: coalesce c l'
  end.

Fixpoint absorb (b : block) (l : list block) : block * list block :=
  match l with
  | [] => (b, [])
  | c :: l' => if b_free b && b_free c then absorb (merged b c) l' else (b, c :: l')
  end.

Lemma coalesce_absorb b l :
  coalesce b l =
    (absorb b l).1 :: match (absorb b l).2 with [] => [] | c :: l' => coalesce c l' end.
Proof.
  revert b; induction l as [|c l IH]; intros b; [done |].
  cbn. destruct (b_free b && b_free c); [apply IH | done].
Qed.

Lemma absorb_length b l : (length (absorb b l).2 <= length l)%nat.
Proof.
  revert b; induction l as [|c l IH]; intros b; [done |].
  cbn. destruct (b_free b && b_free c); [| done]. etransitivity; [apply IH | lia].
Qed.

Lemma absorb_addr b l : b_addr (absorb b l).1 = b_addr b.
Proof.
  revert b; induction l as [|c l IH]; intros b; [done |].
  cbn. destruct (b_free b && b_free c); [by rewrite IH | done].
Qed.

Lemma absorb_loop_spec fuel m a e pre b l :
  chain m a e (pre ++ b :: l) -> (length l < fuel)%nat ->
  exists m', absorb_loop fuel (b_addr b) m = Some m' /\
    chain m' a e (pre ++ (absorb b l).1 :: (absorb b l).2) /\ keeps (pre ++ b :: l) m m' /\
    allocs (pre ++ (absorb b l).1 :: (absorb b l).2) = allocs (pre ++ b :: l).
Proof.
  revert m b l; induction fuel as [|fuel IH]; intros m b l Hc Hf; [lia |]. cbn [absorb_loop].
  pose proof (chain_header _ _ _ _ _ _ Hc) as ((_ & Hbf & Hbn & _) & _).
  rewrite Hbf, Hbn. destruct l as [|c l]; cbn [hd_addr absorb].
  { rewrite andb_false_r. cbn. exists m. split; [done |]. by split. }
  assert (Hc' : chain m a e ((pre ++ [b]) ++ c :: l)) by (by rewrite <- app_assoc).
  pose proof (chain_header _ _ _ _ _ _ Hc') as ((_ & Hcf & _) & Hc0 & _).
  rewrite Hcf. destruct (Z.eqb_spec (b_addr c) NULL) as [Hn|_]; [unfold NULL in Hn; lia |].
  rewrite andb_true_r.
  destruct (b_free b) eqn:Eb; [destruct (b_free c) eqn:Ec |]; cbn [andb fst snd].
  2, 3: exists m; split; [done |]; by split.
  destruct (chain_merge_free m a e pre b c l Hc Eb Ec) as (Hm & Hk & Hal).
  destruct (IH _ (merged b c) l Hm ltac:(simpl in Hf; lia)) as (m' & Hrun & Hch & Hk' & Hal').
  exists m'. split; [exact Hrun |]. split; [exact Hch |]. split; [| congruence].
  eapply keeps_trans; [| exact Hk | exact Hk']. intros d. by rewrite Hal.
Qed.

Lemma coalesce_loop_spec fuel m a e pre b l :
  chain m a e (pre ++ b :: l) -> (S (length l) < fuel)%nat ->
  exists m', coalesce_loop fuel (b_addr b) m = Some m' /\
    chain m' a e (pre ++ coalesce b l) /\ keeps (pre ++ b :: l) m m' /\
    allocs (pre ++ coalesce b l) = allocs (pre ++ b :: l).
Proof.
  revert m pre b l; induction fuel as [|fuel IH]; intros m pre b l Hc Hf; [lia |].
  cbn [coalesce_loop].
  pose proof (chain_header _ _ _ _ _ _ Hc) as (_ & Hb0 & _).
  destruct (Z.eqb_spec (b_addr b) NULL) as [Hn|_]; [unfold NULL in Hn; lia |].
  destruct (absorb_loop_spec (S fuel) m a e pre b l Hc ltac:(lia)) as (m1 & -> & Hc1 & Hk1 & Hal1).
  cbn [mbind option_bind]. rewrite coalesce_absorb.
  pose proof (absorb_length b l) as Hlen. rewrite <- (absorb_addr b l).
  destruct (absorb b l) as [b' l']. cbn [fst snd] in *.
  pose proof (chain_header _ _ _ _ _ _ Hc1) as ((_ & _ & -> & _) & _).
  destruct l' as [|c l'].
  - destruct fuel as [|fuel]; [lia |]. exists m1. cbn [hd_addr coalesce_loop].
    split; [done |]. by split.
  - cbn [hd_addr].
    assert (Hc1' : chain m1 a e ((pre ++ [b']) ++ c :: l')) by (by rewrite <- app_assoc).
    destruct (IH m1 _ c l' Hc1' ltac:(simpl in Hlen; lia)) as (m2 & -> & Hc2 & Hk2 & Hal2).
    rewrite <- !app_assoc in *. cbn [app] in *.
    exists m2. split; [done |]. split; [done |]. split; [| congruence].
    eapply keeps_trans; [| exact Hk1 | exact Hk2]. intros d. by rewrite Hal1.
Qed.

(** ** Searching and splitting *)
Definition fits (n : Z) (b : block) : bool := b_free b && (b_size b >=? n).

Lemma find_free_loop_spec fuel m a e pre l n :
  chain m a e (pre ++ l) -> (length l < fuel)%nat ->
  find_free_loop fuel (hd_addr l NULL) n m =
    Some (match List.find (fits n) l with Some b => b_addr b | None => NULL end).
Proof.
  revert pre l; induction fuel as [|fuel IH]; intros pre l Hc Hf; [lia |].
  destruct l as [|b l]; [done |]. cbn [find_free_loop hd_addr].
  pose proof (chain_header _ _ _ _ _ _ Hc) as ((-> & -> & -> & _) & Hb0 & _).
  destruct (Z.eqb_spec (b_addr b) NULL) as [Hn|_]; [unfold NULL in Hn; lia |].
  cbn [List.find]. change (b_free b && (b_size b >=? n)) with (fits n b).
  destruct (fits n b); [done |]. apply (IH (pre ++ [b])); [by rewrite <- app_assoc | simpl in Hf; lia].
Qed.

Lemma find_fits n l b :
  List.find (fits n) l = Some b ->
  exists l1 l2, l = l1 ++ b :: l2 /\ b_free b = true /\ n <= b_size b.
Proof.
  induction l as [|c l IH]; [done |]. simpl. destruct (fits n c) eqn:E.
  - intros [= ->]. unfold fits in E. bool_to_prop. by exists [], l.
  - intros H. destruct (IH H) as (l1 & l2 & -> & Hb). by exists (c :: l1), l2.
Qed.

Lemma find_none n l b : List.find (fits n) l = None -> b ∈ l -> b_free b = true -> b_size b < n.
Proof.
  intros Hn Hb Hf. assert (Hx : fits n b = false).
  { apply (List.find_none _ _ Hn b). by apply list_elem_of_In. }
  unfold fits in Hx. rewrite Hf in Hx. cbn in Hx. bool_to_prop. lia.
Qed.

Lemma last_loop_spec fuel m a e pre b l :
  chain m a e (pre ++ b :: l) -> (length l < fuel)%nat ->
  last_block_loop fuel (b_addr b) m = Some (last_addr l (b_addr b)).
Proof.
  revert pre b l; induction fuel as [|fuel IH]; intros pre b l Hc Hf; [lia |].
  cbn [last_block_loop].
  pose proof (chain_header _ _ _ _ _ _ Hc) as ((_ & _ & -> & _) & _).
  destruct l as [|c l]; [done |]. cbn [hd_addr].
  assert (Hc' : chain m a e ((pre ++ [b]) ++ c :: l)) by (by rewrite <- app_assoc).
  pose proof (chain_header _ _ _ _ _ _ Hc') as (_ & Hc0 & _).
  destruct (Z.eqb_spec (b_addr c) NULL) as [Hn|_]; [unfold NULL in Hn; lia |].
  apply (IH (pre ++ [b]) c l Hc'). simpl in Hf. lia.
Qed.

(** What [split_block] makes of a block. *)
Definition split_of (b : block) (n : Z) : list block :=
  if b_size b <=? n + 32 then [b]
  else [mk_block (b_addr b) n (b_free b); mk_block (b_addr b + 32 + n) (b_size b - n - 32) true].

Lemma header_self m a :
  header_at m a (blk_size m a) (blk_free m a) (blk_next m a) (blk_prev m a).
Proof. done. Qed.

(** Writing a whole header. *)
Lemma write_header m a sz fr nx pv :
  addr_ok a -> 0 <= sz < 2 ^ 64 -> 0 <= nx < 2 ^ 64 -> 0 <= pv < 2 ^ 64 ->
  let m' := set_prev a pv (set_next a nx (set_free a fr (set_size a sz m))) in
  header_at m' a sz fr nx pv /\ outside a 32 m m'.
Proof.
  intros Ha Hs Hn Hp m'.
  destruct (set_size_spec m a sz _ _ _ _ Ha Hs (header_self m a)) as [H1 O1].
  destruct (set_free_spec _ a fr _ _ _ _ Ha H1) as [H2 O2].
  destruct (set_next_spec _ a nx _ _ _ _ Ha Hn H2) as [H3 O3].
  destruct (set_prev_spec _ a pv _ _ _ _ Ha Hp H3) as [H4 O4].
  split; [exact H4 |]. intros x Hx Hd. unfold m'. by rewrite O4, O3, O2, O1.
Qed.

Lemma split_local m p b l a e n :
  seg m p (b :: l) NULL -> layout a (b :: l) e -> 0 < a -> e <= 2 ^ 64 ->
  0 <= n -> n + 32 < b_size b -> n mod 16 = 0 ->
  let m' := split_block (b_addr b) n m in
  seg m' p (split_of b n ++ l) NULL /\ layout a (split_of b n ++ l) e /\
  (forall x, 0 <= x < 2 ^ 64 -> x < b_addr b \/ b_addr b + 32 + b_size b <= x ->
     (forall d, d ∈ l -> x < b_addr d \/ b_addr d + 32 <= x) -> load8 m' x = load8 m x).
Proof.
  intros (Hb & Hs) Hl Ha He Hn Hsz Hnm. simpl in Hl. destruct Hl as (Hab & Hs0 & Hsm & Hl).
  pose proof (layout_le _ _ _ Hl) as Hle. unfold sizeof_heap_block in *.
  pose proof Hb as (Eb1 & _ & Eb3 & _).
  assert (Hhd : 0 <= hd_addr l NULL < 2 ^ 64).
  { destruct l as [|d l]; [unfold NULL; simpl; lia |]. cbn [hd_addr].
    destruct Hl as (? & ? & _ & Hl'). pose proof (layout_le _ _ _ Hl').
    unfold sizeof_heap_block in *. lia. }
  unfold split_block, split_of. rewrite Eb1. unfold sizeof_heap_block.
  rewrite (u64_id (n + 32)), (u64_id (b_addr b + 32 + n)) by lia.
  destruct (Z.leb_spec (b_size b) (n + 32)); [lia |].
  rewrite u64_id by lia. set (nb := b_addr b + 32 + n). set (ns := b_size b - n - 32).
  assert (Hbok : addr_ok (b_addr b)) by (split; unfold sizeof_heap_block; lia).
  assert (Hnok : addr_ok nb) by (split; unfold sizeof_heap_block, nb; lia).
  (* the header of the remainder *)
  destruct (write_header m nb ns true (hd_addr l NULL) (b_addr b) Hnok ltac:(lia) Hhd ltac:(lia))
    as [H4 O4].
  assert (Hn2 : blk_next (set_free nb true (set_size nb ns m)) (b_addr b) = hd_addr l NULL).
  { destruct (set_size_spec m nb ns _ _ _ _ Hnok ltac:(lia) (header_self m nb)) as [H1 O1].
    destruct (set_free_spec _ nb true _ _ _ _ Hnok H1) as [_ O2].
    apply (header_outside _ _ (b_addr b) nb _ _ _ _ O1) in Hb; [| lia | lia | lia].
    by apply (header_outside _ _ (b_addr b) nb _ _ _ _ O2) in Hb as (_ & _ & -> & _); [| lia | lia | lia]. }
  rewrite Hn2. set (m4 := set_prev nb (b_addr b) _) in *.
  assert (Hb4 : header_at m4 (b_addr b) (b_size b) (b_free b) (hd_addr l NULL) p)
    by (apply (header_outside m m4 _ nb); done || lia).
  assert (Hs4 : seg m4 (b_addr b) l NULL)
    by (eapply (seg_outside m m4 _ _ _ _ _ nb 32); [exact Hl | lia | lia | done | lia | done]).
  pose proof Hb4 as (_ & _ & -> & _).
  change (if negb (hd_addr l NULL =? NULL) then set_prev (hd_addr l NULL) nb m4 else m4)
    with (relink l nb m4).
  destruct (relink_spec m4 _ nb l _ e Hs4 Hl ltac:(lia) He ltac:(lia)) as (Hs5 & O5 & B5).
  set (m5 := relink l nb m4) in *.
  assert (Hb5 : header_at m5 (b_addr b) (b_size b) (b_free b) (hd_addr l NULL) p)
    by (eapply header_agree; [| exact Hb4]; unfold sizeof_heap_block; intros; apply B5; lia).
  assert (H5 : header_at m5 nb ns true (hd_addr l NULL) (b_addr b))
    by (eapply header_agree; [| exact H4]; unfold sizeof_heap_block; intros; apply B5; lia).
  destruct (set_next_spec m5 (b_addr b) nb _ _ _ _ Hbok ltac:(lia) Hb5) as [Hb6 O6].
  destruct (set_size_spec _ (b_addr b) n _ _ _ _ Hbok ltac:(lia) Hb6) as [Hb7 O7].
  split_and!.
  - split; [exact Hb7 |]. split.
    + apply (header_outside _ _ nb (b_addr b) _ _ _ _ O7); [lia | lia | lia |].
      by apply (header_outside _ _ nb (b_addr b) _ _ _ _ O6); [lia | lia | lia |].
    + eapply (seg_outside _ _ _ _ _ _ _ (b_addr b) 32); [exact Hl | lia | lia | exact O7 | lia |].
      by eapply (seg_outside _ _ _ _ _ _ _ (b_addr b) 32); [exact Hl | lia | lia | exact O6 | lia |].
  - simpl. unfold sizeof_heap_block. split_and!; try lia; try done.
    + unfold ns. word_lia.
    + by replace (a + 32 + n + 32 + ns) with (a + 32 + b_size b) by (unfold ns; lia).
  - intros x Hx Hd Hout. rewrite O7, O6, O5, O4; [done | lia | lia | lia | done | lia | lia | lia | lia].
Qed.

Lemma chain_split m a e pre b l n :
  chain m a e (pre ++ b :: l) -> b_free b = true -> 0 <= n <= b_size b -> n mod 16 = 0 ->
  let m' := split_block (b_addr b) n m in
  chain m' a e (pre ++ split_of b n ++ l) /\ keeps (pre ++ b :: l) m m' /\
  allocs (pre ++ split_of b n ++ l) = allocs (pre ++ b :: l).
Proof.
  intros Hc Hf Hn Hnm m'. unfold m', split_of.
  destruct (Z.leb_spec (b_size b) (n + 32)) as [Hle|Hlt].
  { pose proof (chain_header _ _ _ _ _ _ Hc) as ((E1 & _) & Hb0 & Hbe & _).
    pose proof Hc as (_ & _ & _ & He).
    unfold split_block, sizeof_heap_block. rewrite E1, u64_id by lia.
    destruct (Z.leb_spec (b_size b) (n + 32)); [by split | lia]. }
  pose proof Hc as (Hs & Hl & Ha & He). apply seg_app in Hs as [Hs1 Hs2].
  apply layout_app in Hl as (d & Hl1 & Hl2). pose proof (layout_le _ _ _ Hl1).
  pose proof (layout_le _ _ _ Hl2) as Hde.
  destruct (split_local m _ b l d e n Hs2 Hl2 ltac:(lia) He ltac:(lia) ltac:(lia) Hnm)
    as (Hs2' & Hl2' & Ho).
  unfold split_of in Hs2', Hl2'.
  destruct (Z.leb_spec (b_size b) (n + 32)); [lia |]. fold m' in Hs2', Ho |- *.
  pose proof Hl2 as (Hbd & Hb0 & _ & Hl3). unfold sizeof_heap_block in *.
  split; [split |].
  - apply seg_app. split; [| done].
    eapply seg_agree; [| exact Hs1]. intros c x Hin Hx.
    destruct (layout_in _ _ _ _ Hl1 Hin). unfold sizeof_heap_block in *. apply Ho; [lia | lia |].
    intros k Hk. destruct (layout_in _ _ _ _ Hl3 Hk). lia.
  - split; [| done]. apply layout_app. by exists d.
  - split.
    + intros c x [Hcf Hcin]%elem_of_allocs Hx.
      pose proof (proj1 (proj2 Hc)) as Hl.
      destruct (layout_in _ _ _ _ Hl Hcin). unfold sizeof_heap_block in *.
      assert (Hbin : b ∈ pre ++ b :: l) by (apply elem_of_app; right; by left).
      assert (Hne : c <> b) by congruence.
      apply Ho; [lia | |].
      * destruct (layout_disjoint _ _ _ _ _ Hl Hcin Hbin) as [?|[?|?]]; [done | lia | lia].
      * intros k Hk. assert (Hkin : k ∈ pre ++ b :: l) by (apply elem_of_app; right; by right).
        destruct (layout_in _ _ _ _ Hl Hkin).
        destruct (layout_disjoint _ _ _ _ _ Hl Hcin Hkin) as [->|[?|?]]; lia.
    + rewrite !allocs_app. f_equal. by rewrite !allocs_free.
Qed.

Lemma seg_set_free m p b l v a e :
  seg m p (b :: l) NULL -> layout a (b :: l) e -> 0 < a -> e <= 2 ^ 64 ->
  let m' := set_free (b_addr b) v m in
  seg m' p (mk_block (b_addr b) (b_size b) v :: l) NULL /\ outside (b_addr b) 32 m m'.
Proof.
  intros (Hb & Hs) (Hab & Hs0 & Hsm & Hl) Ha He m'. pose proof (layout_le _ _ _ Hl).
  unfold sizeof_heap_block in *.
  destruct (set_free_spec m (b_addr b) v _ _ _ _ ltac:(split; unfold sizeof_heap_block; lia) Hb)
    as [Hb' Ho].
  split; [| done]. split; [exact Hb' |].
  eapply (seg_outside _ _ _ _ _ _ _ (b_addr b) 32); [exact Hl | lia | lia | exact Ho | lia | done].
Qed.

Lemma chain_set_free m a e pre b l v :
  chain m a e (pre ++ b :: l) ->
  let m' := set_free (b_addr b) v m in
  chain m' a e (pre ++ mk_block (b_addr b) (b_size b) v :: l) /\ keeps (pre ++ b :: l) m m'.
Proof.
  intros Hc m'. pose proof Hc as (Hs & Hl & Ha & He). apply seg_app in Hs as [Hs1 Hs2].
  apply layout_app in Hl as (d & Hl1 & Hl2). pose proof (layout_le _ _ _ Hl1).
  destruct (seg_set_free m _ b l v d e Hs2 Hl2 ltac:(lia) He) as (Hs2' & Ho). fold m' in Hs2', Ho.
  pose proof Hl2 as (Hbd & Hb0 & Hbm & Hl3).
  split; [split |].
  - apply seg_app. split; [| done]. cbn [hd_addr b_addr].
    assert (d <= e) by (apply (layout_le _ _ _ Hl2)).
    eapply (seg_outside m m' _ _ _ _ _ (b_addr b) 32); [exact Hl1 | lia | lia | exact Ho | lia | exact Hs1].
  - split; [| done]. apply layout_app. by exists d.
  - pose proof (proj1 (proj2 Hc)) as Hl. eapply keeps_headers; [exact Hl | done | done | |].
    + intros c Hc'. by exists c.
    + apply (outside_only _ _ _ b); [apply elem_of_app; right; by left | exact Ho].
Qed.

(** ** Lists after coalescing *)
Lemma coalesce_cons b l : exists b' l', coalesce b l = b' :: l' /\ b_addr b' = b_addr b.
Proof.
  rewrite coalesce_absorb. eexists _, _. split; [done |]. apply absorb_addr.
Qed.

(** No two neighbours are both free. *)
Fixpoint no_free_pair (l : list block) : Prop :=
  match l with
  | b :: ((c :: _) as l') => ~ (b_free b = true /\ b_free c = true) /\ no_free_pair l'
  | _ => True
  end.

Lemma coalesce_free b l b' l' : coalesce b l = b' :: l' -> b_free b' = b_free b.
Proof.
  revert b; induction l as [|c l IH]; intros b; cbn.
  - by intros [= <- <-].
  - destruct (b_free b && b_free c); [| by intros [= <- <-]].
    intros H. by apply IH in H.
Qed.

Lemma coalesce_no_pair b l : no_free_pair (coalesce b l).
Proof.
  revert b; induction l as [|c l IH]; intros b; [done |].
  cbn [coalesce]. destruct (b_free b && b_free c) eqn:E; [apply IH |].
  specialize (IH c). destruct (coalesce_cons c l) as (c' & l' & Hcl & _).
  pose proof (coalesce_free _ _ _ _ Hcl) as Hf. rewrite Hcl in IH |- *. cbn. split; [| done].
  rewrite Hf. intros [Hb Hc]. by rewrite Hb, Hc in E.
Qed.

(** Bytes of the last block, header included, when it is free. *)
Definition tail_free (l : list block) : Z :=
  match last l with
  | Some b => if b_free b then 32 + b_size b else 0
  | None => 0
  end.

Lemma tail_free_cons b c l : tail_free (b :: c :: l) = tail_free (c :: l).
Proof. unfold tail_free. by rewrite last_cons_cons. Qed.

Lemma coalesce_tail b l :
  Forall (fun c => 0 <= b_size c) (b :: l) -> tail_free (b :: l) <= tail_free (coalesce b l).
Proof.
  revert b; induction l as [|c l IH]; intros b Hs; [done |].
  apply Forall_cons in Hs as [Hb Hs]. pose proof Hs as [Hc Hl]%Forall_cons.
  rewrite tail_free_cons. cbn [coalesce].
  destruct (b_free b && b_free c) eqn:E.
  - bool_to_prop. etransitivity; [| apply IH; constructor; [|done]].
    + destruct l as [|d l]; [| by rewrite !tail_free_cons].
      unfold tail_free; cbn. rewrite H, H0. unfold sizeof_heap_block. lia.
    + cbn. unfold sizeof_heap_block. lia.
  - destruct (coalesce_cons c l) as (c' & l' & Hcl & _).
    specialize (IH c Hs). rewrite Hcl in *. by rewrite tail_free_cons.
Qed.

Lemma layout_sizes a l e : layout a l e -> Forall (fun c => 0 <= b_size c) l.
Proof.
  intros Hl. apply Forall_forall. intros c Hc. by destruct (layout_in _ _ _ _ Hl Hc) as (_ & _ & ?).
Qed.

Lemma find_none_tail n l : List.find (fits n) l = None -> 0 < n -> tail_free l < n + 32.
Proof.
  intros Hf Hn. unfold tail_free. destruct (last l) as [b|] eqn:E; [| lia].
  destruct (b_free b) eqn:Eb; [| lia].
  assert (Hin : b ∈ l) by (by apply last_Some_elem_of).
  pose proof (find_none _ _ _ Hf Hin Eb). lia.
Qed.

(** ** Growing *)
Lemma last_addr_snoc pre z p : last_addr (pre ++ [z]) p = b_addr z.
Proof. revert p; induction pre as [|b pre IH]; intros p; [done | apply IH]. Qed.

Definition page_block (e : Z) : block := mk_block e (PAGE_SIZE - sizeof_heap_block) true.

(** [heap_expand]'s new block, linked after the last one. *)
Definition link_page (z_addr page : Z) (m : mem) : mem :=
  set_prev page z_addr (set_next z_addr page (heap_create_block page PAGE_SIZE m)).

Lemma chain_append m a e pre z :
  chain m a e (pre ++ [z]) -> e mod 16 = 0 -> e + PAGE_SIZE <= 2 ^ 64 ->
  let m' := link_page (b_addr z) e m in
  chain m' a (e + PAGE_SIZE) (pre ++ [z; page_block e]) /\ keeps (pre ++ [z]) m m'.
Proof.
  intros Hc Hem He m'. pose proof (chain_header _ _ _ _ _ _ Hc) as (Hz & Hz0 & Hze & Hzs).
  pose proof Hc as (Hs & Hl & Ha & _). pose proof Hs as Hs'.
  apply seg_app in Hs as [Hs1 _]. pose proof Hl as Hl'.
  apply layout_app in Hl as (d & Hl1 & Hl2). pose proof (layout_le _ _ _ Hl1).
  pose proof Hl2 as (Hzd & _ & Hzm & Hend). simpl in Hend. unfold PAGE_SIZE, sizeof_heap_block in *.
  assert (Hpok : addr_ok e) by (split; unfold sizeof_heap_block; lia).
  assert (Hzok : addr_ok (b_addr z)) by (split; unfold sizeof_heap_block; lia).
  destruct (write_header m e (4096 - 32) true NULL NULL Hpok ltac:(lia) ltac:(unfold NULL; lia)
              ltac:(unfold NULL; lia)) as [H1 O1].
  assert (Hm1 : heap_create_block e PAGE_SIZE m =
    set_prev e NULL (set_next e NULL (set_free e true (set_size e (4096 - 32) m)))) by done.
  unfold m', link_page. rewrite Hm1. set (m1 := set_prev e NULL _) in *.
  assert (Hz1 : header_at m1 (b_addr z) (b_size z) (b_free z) (hd_addr [] NULL) (last_addr pre NULL))
    by (apply (header_outside m m1 _ e); done || lia).
  destruct (set_next_spec m1 (b_addr z) e _ _ _ _ Hzok ltac:(lia) Hz1) as [Hz2 O2].
  set (m2 := set_next (b_addr z) e m1) in *.
  assert (H2 : header_at m2 e (4096 - 32) true NULL NULL)
    by (apply (header_outside m1 m2 _ (b_addr z)); done || lia).
  destruct (set_prev_spec m2 e (b_addr z) _ _ _ _ Hpok ltac:(lia) H2) as [H3 O3].
  set (m3 := set_prev e (b_addr z) m2) in *.
  split; [split |].
  - apply seg_app. split.
    + cbn [hd_addr]. eapply (seg_outside m2 m3 _ _ _ _ _ e 32); [exact Hl1 | lia | lia | exact O3 | lia |].
      eapply (seg_outside m1 m2 _ _ _ _ _ (b_addr z) 32); [exact Hl1 | lia | lia | exact O2 | lia |].
      by eapply (seg_outside m m1 _ _ _ _ _ e 32); [exact Hl1 | lia | lia | exact O1 | lia |].
    + simpl. split_and!; [| exact H3 | done].
      apply (header_outside m2 m3 _ e _ _ _ _ O3); [lia | lia | lia | exact Hz2].
  - split; [| unfold PAGE_SIZE; lia]. apply layout_app. exists d. split; [done |].
    simpl. unfold sizeof_heap_block. unfold PAGE_SIZE. split_and!; try lia; try done.
  - intros c x [_ Hcin]%elem_of_allocs Hx.
    destruct (layout_in _ _ _ _ Hl' Hcin) as (Hc1 & Hc2 & Hc3). unfold sizeof_heap_block in *.
    rewrite O3, O2, O1; [done | lia | lia | lia | | lia | lia].
    destruct (layout_disjoint _ _ _ c z Hl' Hcin) as [->|[?|?]]; try lia.
    apply elem_of_app; right; by left.
Qed.

(** ** The invariant of the heap's state *)
Section state.
Context {B : Type} `{PageBackendLaws B}.
Implicit Types s : heap_t B.

Record heap_wf s (l : list block) : Prop := {
  hw_chain : chain (h_mem s) HEAP_START_ADDRESS (heap_committed_end s) l;
  hw_nonempty : l <> [];
  hw_start : heap_virtual_start s = HEAP_START_ADDRESS;
  hw_head : heap_head s = HEAP_START_ADDRESS;
  hw_extent : heap_size s = heap_committed_end s - HEAP_START_ADDRESS /\
              heap_virtual_end s = heap_committed_end s;
  hw_vma : is_Some (heap_vma s);
  hw_backend : pb_ok (backend s);
  (** the heap can never run into the end of the address space *)
  hw_room : heap_committed_end s + 4096 * (pb_budget (backend s) + 1) <= 2 ^ 64;
}.

Lemma layout_mod a l e : layout a l e -> a mod 16 = 0 -> e mod 16 = 0.
Proof.
  revert a; induction l as [|b l IH]; intros a; simpl; [by intros -> |].
  unfold sizeof_heap_block. intros (_ & _ & Hm & Hl) Ha. apply (IH _ Hl). word_lia.
Qed.

Lemma layout_length a l e : layout a l e -> 32 * Z.of_nat (length l) <= e - a.
Proof.
  revert a; induction l as [|b l IH]; intros a; cbn [layout length]; [lia |].
  unfold sizeof_heap_block. intros (_ & Hs & _ & Hl). apply IH in Hl. lia.
Qed.

Lemma wf_committed s l :
  heap_wf s l -> heap_committed_size s = heap_committed_end s - HEAP_START_ADDRESS /\
    HEAP_START_ADDRESS <= heap_committed_end s <= 2 ^ 64 /\ heap_committed_end s mod 16 = 0.
Proof.
  intros Hwf. destruct (hw_chain _ _ Hwf) as (_ & Hl & _ & He). pose proof (layout_le _ _ _ Hl).
  unfold heap_committed_size. rewrite (hw_start _ _ Hwf).
  pose proof (layout_mod _ _ _ Hl eq_refl). unfold HEAP_START_ADDRESS in *.
  rewrite u64_id by lia. lia.
Qed.

(** The fuel of the loops over the chain is enough. *)
Lemma wf_fuel s l : heap_wf s l -> (S (length l) < chain_fuel s)%nat.
Proof.
  intros Hwf. destruct (wf_committed _ _ Hwf) as (Hc & _).
  destruct (hw_chain _ _ Hwf) as (_ & Hl & _ & _). pose proof (layout_length _ _ _ Hl).
  unfold chain_fuel. rewrite Hc. unfold sizeof_heap_block.
  assert (Z.of_nat (length l) <= (heap_committed_end s - HEAP_START_ADDRESS) / 32)
    by (apply Z.div_le_lower_bound; lia).
  lia.
Qed.

Lemma wf_cons s l : heap_wf s l -> exists b l', l = b :: l' /\ b_addr b = heap_head s.
Proof.
  intros Hwf. destruct l as [|b l]; [by destruct (hw_nonempty _ _ Hwf) |].
  exists b, l. split; [done |]. rewrite (hw_head _ _ Hwf).
  by destruct (hw_chain _ _ Hwf) as (_ & (? & _) & _).
Qed.

(** Changing memory only. *)
Lemma wf_with_mem s l m l' :
  heap_wf s l -> chain m HEAP_START_ADDRESS (heap_committed_end s) l' -> l' <> [] ->
  heap_wf (with_mem m s) l'.
Proof. intros [? ? ? ? ? ? ? ?] Hc Hn. by split. Qed.

Lemma coalesce_spec s l :
  heap_wf s l ->
  exists m' b l', coalesce_free_blocks s = Some (with_mem m' s) /\
    heap_wf (with_mem m' s) (b :: l') /\ keeps l (h_mem s) m' /\ allocs (b :: l') = allocs l /\
    no_free_pair (b :: l') /\ tail_free l <= tail_free (b :: l').
Proof.
  intros Hwf. destruct (wf_cons _ _ Hwf) as (b & l' & -> & Hb).
  pose proof (wf_fuel _ _ Hwf) as Hf. pose proof (hw_chain _ _ Hwf) as Hc.
  destruct (coalesce_loop_spec (chain_fuel s) (h_mem s) _ _ [] b l' Hc ltac:(simpl in Hf; lia))
    as (m' & Hrun & Hc' & Hk & Hal).
  destruct (coalesce_cons b l') as (b' & k & Hk' & _). cbn [app] in *.
  exists m', b', k. unfold coalesce_free_blocks. rewrite <- Hb, Hrun, <- Hk'.
  split; [done |]. split; [| split; [done | split; [done | split]]].
  - apply (wf_with_mem s (b :: l')); [done | done | by rewrite Hk'].
  - apply coalesce_no_pair.
  - apply coalesce_tail. destruct Hc as (_ & Hl & _). by eapply layout_sizes.
Qed.

(** One page more for the last block, or nothing. *)
Lemma chain_grow m a e pre z :
  chain m a e (pre ++ [z]) -> e mod 16 = 0 -> e + PAGE_SIZE <= 2 ^ 64 ->
  let m3 := link_page (b_addr z) e m in
  let m4 := if blk_free m3 (b_addr z) then merge_with_next (b_addr z) m3 else m3 in
  exists l', chain m4 a (e + PAGE_SIZE) l' /\ keeps (pre ++ [z]) m m4 /\
    allocs l' = allocs (pre ++ [z]) /\ l' <> [] /\ tail_free (pre ++ [z]) + 4096 <= tail_free l'.
Proof.
  intros Hc Hem He m3 m4. destruct (chain_append m a e pre z Hc Hem He) as [Hc3 Hk3].
  fold m3 in Hc3, Hk3.
  pose proof (chain_header _ _ _ _ _ _ Hc3) as ((_ & Hf & _) & _).
  assert (Hal : allocs (pre ++ [z; page_block e]) = allocs (pre ++ [z])).
  { by rewrite !allocs_app. }
  unfold m4. rewrite Hf. destruct (b_free z) eqn:Ez.
  - destruct (chain_merge_free m3 a _ pre z (page_block e) [] Hc3 Ez eq_refl) as (Hc4 & Hk4 & Hal4).
    exists (pre ++ [merged z (page_block e)]). split_and!.
    + done.
    + eapply keeps_trans; [| exact Hk3 | exact Hk4]. intros d. by rewrite Hal.
    + congruence.
    + by destruct pre.
    + unfold tail_free. rewrite !last_snoc. cbn. rewrite Ez. unfold PAGE_SIZE, sizeof_heap_block. lia.
  - exists (pre ++ [z; page_block e]). split_and!; try done.
    + by destruct pre.
    + unfold tail_free. rewrite last_snoc, Ez.
      change [z; page_block e] with ([z] ++ [page_block e]). rewrite app_assoc, last_snoc. done.
Qed.

Lemma commit_cases s s' p :
  pb_ok (backend s) -> heap_committed_end s + 4096 * (pb_budget (backend s) + 1) <= 2 ^ 64 ->
  0 < heap_committed_end s ->
  heap_commit_page (heap_committed_end s) s = (s', p) ->
  pb_ok (backend s') /\ pb_budget (backend s') <= pb_budget (backend s) /\
  ((p = NULL /\ s' = with_backend (backend s') s) \/
   (p = heap_committed_end s /\ pb_budget (backend s') < pb_budget (backend s) /\
    s' = with_committed_end (heap_committed_end s + PAGE_SIZE) (with_backend (backend s') s))).
Proof.
  intros Hok Hroom Hpos. unfold heap_commit_page.
  pose proof (pb_alloc_ok _ Hok) as H1. pose proof (pb_alloc_budget _ Hok) as H2.
  pose proof (pb_alloc_range _ Hok) as H3.
  destruct (pb_alloc_page (backend s)) as [b1 phys]. cbn [fst snd] in *.
  destruct (Z.eqb_spec phys NULL) as [->|Hp].
  { intros [= <- <-]. cbn. split; [done |]. split; [lia |]. by left. }
  pose proof (pb_map_ok _ (heap_committed_end s) phys true H1 H3) as H4.
  pose proof (pb_map_budget _ (heap_committed_end s) phys true H1) as H5.
  change (backend (with_backend b1 s)) with b1.
  destruct (pb_map_page _ phys true b1) as [b2 ok]. cbn [fst] in *.
  destruct ok; cbn [negb]; intros [= <- <-]; cbn.
  - split; [done |]. split; [lia |]. right. split; [done |]. split; [lia |].
    pose proof (pb_budget_nonneg b2). unfold PAGE_SIZE. by rewrite u64_id by lia.
  - split; [done |]. split; [lia |]. by left.
Qed.

(** [heap_expand] adds one page at the end, or fails and changes no block. *)
Lemma expand_spec s l :
  heap_wf s l ->
  exists s' ok, heap_expand s = Some (s', ok) /\
    (if ok : bool then
       exists l', heap_wf s' l' /\ keeps l (h_mem s) (h_mem s') /\ allocs l' = allocs l /\
         tail_free l + 4096 <= tail_free l' /\
         heap_committed_end s' = heap_committed_end s + PAGE_SIZE /\
         pb_budget (backend s') < pb_budget (backend s)
     else heap_wf s' l /\ h_mem s' = h_mem s).
Proof.
  intros Hwf. destruct (hw_vma _ _ Hwf) as [v Hv]. unfold heap_expand. rewrite Hv.
  destruct (wf_committed _ _ Hwf) as (Hcs & Hce & Hcm).
  unfold heap_next_commit_address.
  destruct (heap_commit_page (heap_committed_end s) s) as [s1 p] eqn:Ec.
  destruct (commit_cases s s1 p (hw_backend _ _ Hwf) (hw_room _ _ Hwf)
              ltac:(unfold HEAP_START_ADDRESS in Hce; lia) Ec)
    as (Hok1 & Hb1 & [[-> Hs1] | (-> & Hlt & Hs1)]).
  { exists s1, false. split; [done |]. rewrite Hs1. split; [| done].
    pose proof (hw_room _ _ Hwf). destruct Hwf. split; try done. cbn. lia. }
  assert (Hne : (heap_committed_end s =? NULL) = false)
    by (unfold NULL, HEAP_START_ADDRESS in *; lia).
  rewrite Hne. generalize dependent (backend s1). intros b1 Hok1 Hb1 Hlt Hs1. subst s1. clear Ec.
  destruct (exists_last (hw_nonempty _ _ Hwf)) as (pre & z & ->).
  assert (Hlast : find_last_block (with_committed_end (heap_committed_end s + PAGE_SIZE)
                    (with_backend b1 s)) = Some (b_addr z)).
  { destruct (wf_cons _ _ Hwf) as (b & l' & Hl & Hb).
    unfold find_last_block. cbn [heap_head h_mem with_committed_end with_backend]. rewrite <- Hb.
    pose proof (hw_chain _ _ Hwf) as Hc. pose proof (wf_fuel _ _ Hwf) as Hf. rewrite Hl in Hc, Hf.
    rewrite (last_loop_spec _ _ _ _ [] b l' Hc).
    - f_equal. change (last_addr l' (b_addr b)) with (last_addr (b :: l') NULL).
      rewrite <- Hl. apply last_addr_snoc.
    - pose proof (hw_room _ _ Hwf). pose proof (pb_budget_nonneg (backend s)).
      revert Hf. unfold chain_fuel. rewrite Hcs. unfold heap_committed_size.
      cbn [heap_committed_end heap_virtual_start with_committed_end with_backend].
      rewrite (hw_start _ _ Hwf). unfold PAGE_SIZE, HEAP_START_ADDRESS, sizeof_heap_block in *.
      rewrite u64_id by lia. intros Hf. simpl in Hf.
      assert (Hm : (heap_committed_end s - 0xFFFF900000000000) / 32 <=
                   (heap_committed_end s + 4096 - 0xFFFF900000000000) / 32)
        by (apply Z.div_le_mono; lia). lia. }
  rewrite Hlast. cbn [mbind option_bind].
  pose proof (hw_room _ _ Hwf). pose proof (pb_budget_nonneg b1).
  destruct (chain_grow (h_mem s) _ _ pre z (hw_chain _ _ Hwf) Hcm ltac:(unfold PAGE_SIZE; lia))
    as (l' & Hc' & Hk' & Hal' & Hn' & Ht').
  change (set_prev (heap_committed_end s) (b_addr z) (set_next (b_addr z) (heap_committed_end s)
    (heap_create_block (heap_committed_end s) PAGE_SIZE (h_mem (with_committed_end
       (heap_committed_end s + PAGE_SIZE) (with_backend b1 s))))))
    with (link_page (b_addr z) (heap_committed_end s) (h_mem s)).
  set (m4 := if blk_free _ (b_addr z) then _ else _) in *.
  destruct (Vma.vma_resize _ _ _) as [v' okv].
  eexists _, true. split; [reflexivity |].
  exists l'. split; [| split; [exact Hk' | split; [done | split; [done | split; [done | exact Hlt]]]]].
  destruct Hwf. split; try done.
  - cbn. rewrite hw_start0. unfold HEAP_START_ADDRESS, PAGE_SIZE in *. by rewrite u64_id by lia.
  - cbn. unfold PAGE_SIZE. lia.
Qed.

(** The request [kmalloc] makes of [heap_grow] is one page. *)
Lemma grow_spec s l :
  heap_wf s l ->
  exists s' ok, heap_grow (u64 (heap_committed_size s + HEAP_GROW_SIZE)) s = Some (s', ok) /\
    (if ok : bool then
       exists l', heap_wf s' l' /\ keeps l (h_mem s) (h_mem s') /\ allocs l' = allocs l /\
         tail_free l + 4096 <= tail_free l'
     else heap_wf s' l /\ h_mem s' = h_mem s /\ heap_expand s = Some (s', false)).
Proof.
  intros Hwf. destruct (wf_committed _ _ Hwf) as (Hcs & Hce & _).
  rewrite Hcs. unfold HEAP_GROW_SIZE, HEAP_START_ADDRESS in *. rewrite u64_id by lia.
  unfold heap_grow. rewrite Hcs. unfold PAGE_SIZE.
  match goal with |- context [S (S (Z.to_nat (?x / 4096)))] =>
    replace (x / 4096) with 1 by (replace x with 4096 by (unfold HEAP_START_ADDRESS; lia); done) end.
  change (S (S (Z.to_nat 1))) with 3%nat. cbn [heap_grow_loop]. rewrite Hcs.
  unfold HEAP_START_ADDRESS. destruct (Z.ltb_spec (heap_committed_end s - 0xFFFF900000000000)
    (heap_committed_end s - 0xFFFF900000000000 + 4096)); [| lia].
  destruct (expand_spec s l Hwf) as (s1 & ok & Hex & Hok). rewrite Hex. cbn [mbind option_bind].
  destruct ok; cbn [negb].
  - destruct Hok as (l' & Hwf' & Hk & Hal & Ht & Hend & _).
    destruct (wf_committed _ _ Hwf') as (Hcs' & _). rewrite Hcs', Hend.
    unfold PAGE_SIZE, HEAP_START_ADDRESS.
    destruct (Z.ltb_spec (heap_committed_end s + 4096 - 0xFFFF900000000000)
      (heap_committed_end s - 0xFFFF900000000000 + 4096)); [lia |].
    exists s1, true. split; [done |]. by exists l'.
  - exists s1, false. split; [done |]. destruct Hok. by split_and!.
Qed.

(** ** Allocation *)
Lemma coalesce_fits b l c :
  Forall (fun d => 0 <= b_size d) (b :: l) -> c ∈ b :: l -> b_free c = true ->
  exists c', c' ∈ coalesce b l /\ b_free c' = true /\ b_size c <= b_size c'.
Proof.
  revert b c; induction l as [|d l IH]; intros b c Hs Hc Hf.
  - exists c. by split_and!.
  - apply Forall_cons in Hs as [Hb Hs]. pose proof Hs as [Hd Hl]%Forall_cons. cbn [coalesce].
    destruct (b_free b && b_free d) eqn:E.
    + bool_to_prop. assert (Hs' : Forall (fun x => 0 <= b_size x) (merged b d :: l))
        by (constructor; [cbn; unfold sizeof_heap_block; lia | done]).
      assert (Hm : forall k, b_size k <= b_size (merged b d) ->
        exists c', c' ∈ coalesce (merged b d) l /\ b_free c' = true /\ b_size k <= b_size c').
      { intros k Hk. destruct (IH (merged b d) (merged b d) Hs') as (c' & ? & ? & ?);
          [by left | done |]. exists c'. split_and!; try done. lia. }
      apply elem_of_cons in Hc as [->|[->|Hc]%elem_of_cons].
      * apply Hm. cbn. unfold sizeof_heap_block. lia.
      * apply Hm. cbn. unfold sizeof_heap_block. lia.
      * apply (IH (merged b d) c); [done | by right | done].
    + apply elem_of_cons in Hc as [->|Hc].
      * exists b. split_and!; [by left | done | done].
      * destruct (IH d c Hs Hc Hf) as (c' & ? & ?). exists c'. split; [by right | done].
Qed.

(** Where a block is found: split it and mark it used. *)
Lemma take_block s l l1 b l2 n :
  heap_wf s l -> l = l1 ++ b :: l2 -> b_free b = true -> 0 <= n <= b_size b -> n mod 16 = 0 ->
  let m1 := split_block (b_addr b) n (h_mem s) in
  let m2 := set_free (b_addr b) false m1 in
  exists c l', heap_wf (with_mem m2 s) l' /\ keeps l (h_mem s) m2 /\ c ∈ l' /\
    b_addr c = b_addr b /\ n <= b_size c /\ b_free c = false /\ allocs l' ≡ₚ c :: allocs l.
Proof.
  intros Hwf -> Hf Hn Hnm m1 m2.
  destruct (chain_split _ _ _ _ _ _ n (hw_chain _ _ Hwf) Hf Hn Hnm) as (Hc1 & Hk1 & Hal1).
  fold m1 in Hc1, Hk1.
  assert (exists d rest, split_of b n ++ l2 = d :: rest /\ b_addr d = b_addr b /\
            b_free d = true /\ n <= b_size d) as (d & rest & Hd & Hda & Hdf & Hds).
  { unfold split_of. destruct (Z.leb_spec (b_size b) (n + 32)).
    - exists b, l2. split_and!; done || lia.
    - eexists _, _. split; [reflexivity |]. cbn. split_and!; done || lia. }
  rewrite Hd in Hc1, Hal1.
  destruct (chain_set_free m1 _ _ l1 d rest false Hc1) as [Hc2 Hk2].
  rewrite Hda in Hc2, Hk2. fold m2 in Hc2, Hk2.
  set (c := mk_block (b_addr b) (b_size d) false) in *.
  exists c, (l1 ++ c :: rest). split_and!; try done.
  - apply (wf_with_mem s (l1 ++ b :: l2)); [done | done | by destruct l1].
  - eapply keeps_trans; [| exact Hk1 | exact Hk2]. intros k. by rewrite Hal1.
  - apply elem_of_app. right. by left.
  - rewrite <- Hal1, !allocs_app. rewrite (allocs_used c), (allocs_free d) by done.
    by rewrite Permutation_middle.
Qed.

(** What an allocation of [n] bytes delivers. *)
Definition alloc_post s l n (s' : heap_t B) (p : Z) : Prop :=
  exists l', heap_wf s' l' /\ keeps l (h_mem s) (h_mem s') /\
    ((p = NULL /\ allocs l' = allocs l /\ (exists s1, heap_expand s1 = Some (s', false)) /\
      (forall b, b ∈ l -> b_free b = true -> b_size b < n)) \/
     (exists c, p = b_addr c + 32 /\ c ∈ l' /\ b_free c = false /\ n <= b_size c /\
        allocs l' ≡ₚ c :: allocs l)).

Lemma alloc_post_from s l s1 l1 n s' p :
  keeps l (h_mem s) (h_mem s1) -> allocs l1 = allocs l ->
  ((forall b, b ∈ l1 -> b_free b = true -> b_size b < n) ->
   forall b, b ∈ l -> b_free b = true -> b_size b < n) ->
  alloc_post s1 l1 n s' p -> alloc_post s l n s' p.
Proof.
  intros Hk Hal Hfit (l' & Hwf & Hk' & Hout). exists l'. split; [done |]. split.
  - eapply keeps_trans; [| exact Hk | exact Hk']. intros x. by rewrite Hal.
  - rewrite <- Hal. destruct Hout as [(? & ? & ? & ?) | ?]; [left | by right]. split_and!; auto.
Qed.

(** One round: coalesce and look. *)
Lemma kmalloc_round s l n :
  heap_wf s l ->
  exists s1 l1, coalesce_free_blocks s = Some s1 /\ heap_wf s1 l1 /\
    keeps l (h_mem s) (h_mem s1) /\ allocs l1 = allocs l /\ tail_free l <= tail_free l1 /\
    ((forall b, b ∈ l1 -> b_free b = true -> b_size b < n) ->
     forall b, b ∈ l -> b_free b = true -> b_size b < n) /\
    find_free_block n s1 =
      Some (match List.find (fits n) l1 with Some b => b_addr b | None => NULL end).
Proof.
  intros Hwf. destruct (wf_cons _ _ Hwf) as (b & l0 & -> & Hb).
  pose proof (wf_fuel _ _ Hwf) as Hf. pose proof (hw_chain _ _ Hwf) as Hc.
  destruct (coalesce_loop_spec (chain_fuel s) (h_mem s) _ _ [] b l0 Hc ltac:(simpl in Hf; lia))
    as (m' & Hrun & Hc' & Hk & Hal). cbn [app] in *.
  destruct (coalesce_cons b l0) as (b' & k & Hbk & Hba).
  assert (Hwf1 : heap_wf (with_mem m' s) (coalesce b l0))
    by (apply (wf_with_mem s (b :: l0)); [done | done | by rewrite Hbk]).
  assert (Hsz : Forall (fun c => 0 <= b_size c) (b :: l0))
    by (destruct Hc as (_ & Hl & _); by eapply layout_sizes).
  exists (with_mem m' s), (coalesce b l0).
  unfold coalesce_free_blocks. rewrite <- Hb, Hrun. split; [done |]. split; [done |].
  split; [done |]. split; [done |]. split; [by apply coalesce_tail |]. split.
  - intros Hall c Hin Hcf. destruct (coalesce_fits b l0 c Hsz Hin Hcf) as (c' & Hc1 & Hc2 & Hc3).
    pose proof (Hall c' Hc1 Hc2). lia.
  - pose proof (wf_fuel _ _ Hwf1) as Hf1. unfold find_free_block.
    replace (heap_head (with_mem m' s)) with (hd_addr (coalesce b l0) NULL)
      by (rewrite Hbk; cbn; congruence).
    apply (find_free_loop_spec _ _ _ _ [] _ n (hw_chain _ _ Hwf1)). lia.
Qed.

Lemma kmalloc_loop_spec fuel n s l :
  heap_wf s l -> 0 < n -> n mod 16 = 0 -> n + 32 <= 4096 * Z.of_nat fuel + tail_free l ->
  exists s' p, kmalloc_loop (S fuel) n s = Some (s', p) /\ alloc_post s l n s' p.
Proof.
  revert s l; induction fuel as [|fuel IH]; intros s l Hwf Hn Hnm Hfuel;
    cbn [kmalloc_loop];
    destruct (kmalloc_round s l n Hwf) as (s1 & l1 & -> & Hwf1 & Hk1 & Hal1 & Ht1 & Hfit & Hfind);
    cbn [mbind option_bind]; rewrite Hfind; cbn [mbind option_bind];
    destruct (List.find (fits n) l1) as [c|] eqn:Ef.
  1, 3: destruct (find_fits _ _ _ Ef) as (l2 & l3 & Hl & Hcf & Hcs);
    pose proof (hw_chain _ _ Hwf1) as Hc; rewrite Hl in Hc;
    destruct (chain_header _ _ _ _ _ _ Hc) as (_ & Hc0 & _);
    destruct (Z.eqb_spec (b_addr c) NULL) as [Hz|_]; [unfold NULL in Hz; lia |]; cbn [negb];
    eexists _, _; (split; [reflexivity |]); apply (alloc_post_from s l s1 l1); try done;
    destruct (take_block _ _ l2 c l3 n Hwf1 Hl Hcf ltac:(lia) Hnm)
      as (d & l' & Hwf2 & Hk2 & Hd & Hda & Hds & Hdf & Hal2);
    exists l'; (split; [exact Hwf2 |]); (split; [exact Hk2 |]); right; exists d;
    unfold sizeof_heap_block; rewrite Hda; by split_and!.
  { exfalso. pose proof (find_none_tail _ _ Ef Hn). lia. }
  change (negb (NULL =? NULL)) with false. cbn iota.
  assert (Hno : forall b, b ∈ l1 -> b_free b = true -> b_size b < n)
    by (intros b; by apply find_none).
  destruct (grow_spec _ _ Hwf1) as (s2 & ok & -> & Hok). cbn [mbind option_bind].
  destruct ok; cbn [negb].
  - destruct Hok as (l2 & Hwf2 & Hk2 & Hal2 & Ht2).
    destruct (IH s2 l2 Hwf2 Hn Hnm ltac:(lia)) as (s' & p & Hrun & Hpost).
    exists s', p. split; [exact Hrun |].
    apply (alloc_post_from s l s1 l1); [done | done | done |].
    by apply (alloc_post_from s1 l1 s2 l2).
  - destruct Hok as (Hwf2 & Hm2 & Hex). exists s2, NULL. split; [done |].
    apply (alloc_post_from s l s1 l1); [done | done | done |].
    exists l1. split; [done |]. rewrite Hm2. split; [done |]. left. split_and!; try done. by exists s1.
Qed.

Lemma align_size_spec size :
  0 < size -> size <= 2 ^ 64 - 16 ->
  let n := align_size size in size <= n < size + 16 /\ n mod 16 = 0.
Proof.
  intros Hs Hm. unfold align_size, HEAP_ALIGNMENT.
  rewrite (u64_id (size + (16 - 1))) by lia.
  change (16 - 1) with (Z.ones 4). rewrite land_u64_lnot_low by (change (Z.ones 4) with 15; lia).
  change (Z.ones 4) with 15.
  change (2 ^ 4) with 16. word_lia.
Qed.

Lemma kmalloc_spec size s l :
  heap_wf s l -> 0 < size -> size <= 2 ^ 64 - 16 ->
  exists s' p, kmalloc size s = Some (s', p) /\ alloc_post s l (align_size size) s' p.
Proof.
  intros Hwf Hs Hm. destruct (align_size_spec size Hs Hm) as [Hn Hnm].
  unfold kmalloc. destruct (Z.eqb_spec size 0); [lia |].
  apply (kmalloc_loop_spec (2 + Z.to_nat (align_size size / PAGE_SIZE))); [done | lia | done |].
  assert (0 <= tail_free l).
  { unfold tail_free. destruct (last l) as [b|] eqn:E; [| lia]. destruct (b_free b); [| lia].
    destruct (hw_chain _ _ Hwf) as (_ & Hl & _).
    destruct (layout_in _ _ _ b Hl) as (_ & _ & ?); [by apply last_Some_elem_of | lia]. }
  unfold PAGE_SIZE. generalize dependent (align_size size). intros k Hk _.
  assert (0 <= k / 4096) by (apply Z.div_pos; lia).
  pose proof (Z.div_mod k 4096 ltac:(lia)). pose proof (Z.mod_pos_bound k 4096 ltac:(lia)). lia.
Qed.

(** ** Release *)
Lemma merge_next_step m a e pre b post :
  chain m a e (pre ++ b :: post) -> b_free b = true ->
  exists b2 post2, b_addr b2 = b_addr b /\ b_free b2 = true /\
    chain (merge_with_next (b_addr b) m) a e (pre ++ b2 :: post2) /\
    keeps (pre ++ b :: post) m (merge_with_next (b_addr b) m) /\
    allocs (pre ++ b2 :: post2) = allocs (pre ++ b :: post).
Proof.
  intros Hc Hb. destruct post as [|c post]; [| destruct (b_free c) eqn:Ec].
  - exists b, []. rewrite (merge_next_keeps m a e pre b []) by done. by split_and!.
  - destruct (chain_merge_free m a e pre b c post Hc Hb Ec) as (? & ? & ?).
    exists (merged b c), post. by split_and!.
  - exists b, (c :: post). rewrite (merge_next_keeps m a e pre b (c :: post)) by done. by split_and!.
Qed.

Lemma merge_previous_step m a e pre b post :
  chain m a e (pre ++ b :: post) -> b_free b = true ->
  exists l', l' <> [] /\ chain (merge_with_previous (b_addr b) m) a e l' /\
    keeps (pre ++ b :: post) m (merge_with_previous (b_addr b) m) /\
    allocs l' = allocs (pre ++ b :: post).
Proof.
  intros Hc Hb. induction pre as [|c pre _] using rev_ind; [| destruct (b_free c) eqn:Ec].
  - exists ([] ++ b :: post). rewrite (merge_previous_keeps m a e [] b post); [by split_and! | done |].
    by intros [|] ? ?.
  - rewrite <- app_assoc in *. cbn [app] in *.
    destruct (chain_merge_free m a e pre c b post Hc Ec Hb) as (? & ? & ?).
    rewrite (merge_previous_eq m a e pre c b post) by done.
    exists (pre ++ merged c b :: post). split_and!; try done. by destruct pre.
  - exists ((pre ++ [c]) ++ b :: post).
    rewrite (merge_previous_keeps m a e (pre ++ [c]) b post); [| done |].
    + split_and!; try done. by destruct pre.
    + intros pre' d Hd. by apply app_inj_tail in Hd as [_ <-].
Qed.

Lemma kfree_spec s l b :
  heap_wf s l -> b ∈ l -> b_free b = false ->
  exists l', heap_wf (kfree (b_addr b + 32) s) l' /\
    keeps l' (h_mem s) (h_mem (kfree (b_addr b + 32) s)) /\ allocs l ≡ₚ b :: allocs l'.
Proof.
  intros Hwf Hb Hf. apply list_elem_of_split in Hb as (l1 & l2 & ->).
  pose proof (hw_chain _ _ Hwf) as Hc.
  destruct (chain_header _ _ _ _ _ _ Hc) as (_ & Hb0 & _).
  unfold kfree, sizeof_heap_block. destruct (Z.eqb_spec (b_addr b + 32) NULL) as [Hz|_];
    [unfold NULL in Hz; lia |].
  replace (b_addr b + 32 - 32) with (b_addr b) by lia.
  destruct (chain_set_free _ _ _ l1 b l2 true Hc) as [Hc1 Hk1].
  set (m1 := set_free (b_addr b) true (h_mem s)) in *.
  set (b1 := mk_block (b_addr b) (b_size b) true) in *.
  destruct (merge_next_step m1 _ _ l1 b1 l2 Hc1 eq_refl) as (b2 & l3 & Ha2 & Hf2 & Hc2 & Hk2 & Hal2).
  change (b_addr b1) with (b_addr b) in *.
  destruct (merge_previous_step _ _ _ l1 b2 l3 Hc2 Hf2) as (l' & Hn & Hc3 & Hk3 & Hal3).
  rewrite Ha2 in Hc3, Hk3.
  assert (Hal : allocs (l1 ++ b :: l2) ≡ₚ b :: allocs l').
  { rewrite Hal3, Hal2, !allocs_app, (allocs_used b), (allocs_free b1) by done.
    by rewrite Permutation_middle. }
  exists l'. split; [by apply (wf_with_mem s (l1 ++ b :: l2)) |]. split; [| done].
  assert (Hsub : forall d, d ∈ allocs l' -> d ∈ allocs (l1 ++ b :: l2))
    by (intros d Hd; rewrite Hal; by right).
  intros d x Hd Hx.
  assert (Hd2 : d ∈ allocs (l1 ++ b2 :: l3)) by (by rewrite <- Hal3).
  assert (Hd1 : d ∈ allocs (l1 ++ b1 :: l2)) by (by rewrite <- Hal2).
  cbn [h_mem with_mem]. rewrite (Hk3 d x Hd2 Hx), (Hk2 d x Hd1 Hx). by apply (Hk1 d x (Hsub d Hd)).
Qed.

(** ** Writing inside a payload, as the heap's clients do *)
Lemma payload_write s l c m' :
  heap_wf s l -> c ∈ l -> outside (b_addr c + 32) (b_size c) (h_mem s) m' ->
  heap_wf (with_mem m' s) l /\
  (forall d x, d ∈ allocs l -> d <> c -> b_addr d + 32 <= x < b_addr d + 32 + b_size d ->
     load8 m' x = load8 (h_mem s) x).
Proof.
  intros Hwf Hc Ho. destruct (hw_chain _ _ Hwf) as (Hs & Hl & Ha & He).
  destruct (layout_in _ _ _ _ Hl Hc) as (Hc1 & Hc2 & Hc3). unfold sizeof_heap_block in *.
  assert (Hin : forall d, d ∈ l -> 0 < b_addr d /\ b_addr d + 32 + b_size d <= 2 ^ 64 /\ 0 <= b_size d).
  { intros d Hd. destruct (layout_in _ _ _ _ Hl Hd). unfold sizeof_heap_block in *. lia. }
  split.
  - apply (wf_with_mem s l); [done | | by apply (hw_nonempty _ _ Hwf)].
    split; [| done]. eapply seg_agree; [| exact Hs]. intros d x Hd Hx.
    unfold sizeof_heap_block in Hx. destruct (Hin d Hd) as (? & ? & ?). apply Ho; [lia |].
    destruct (layout_disjoint _ _ _ c d Hl Hc Hd) as [->|[?|?]]; lia.
  - intros d x [_ Hd]%elem_of_allocs Hne Hx. destruct (Hin d Hd) as (? & ? & ?). apply Ho; [lia |].
    destruct (layout_disjoint _ _ _ c d Hl Hc Hd) as [->|[?|?]]; [done | lia | lia].
Qed.

(** [c]'s payload and the state after writing [k] bytes into it. *)
Lemma payload_range s l c :
  heap_wf s l -> c ∈ l -> 0 < b_addr c /\ 0 <= b_size c /\ b_addr c + 32 + b_size c <= 2 ^ 64.
Proof.
  intros Hwf Hc. destruct (hw_chain _ _ Hwf) as (_ & Hl & Ha & He).
  destruct (layout_in _ _ _ _ Hl Hc) as (? & ? & ?). unfold sizeof_heap_block in *. lia.
Qed.

Lemma header_of s l c :
  heap_wf s l -> c ∈ l -> blk_size (h_mem s) (b_addr c) = b_size c.
Proof.
  intros Hwf Hc. apply list_elem_of_split in Hc as (l1 & l2 & ->).
  by destruct (chain_header _ _ _ _ _ _ (hw_chain _ _ Hwf)) as ((? & _) & _).
Qed.

Lemma addr_inj s l b c : heap_wf s l -> b ∈ l -> c ∈ l -> b_addr b = b_addr c -> b = c.
Proof.
  intros Hwf Hb Hc Heq. destruct (hw_chain _ _ Hwf) as (_ & Hl & _ & _).
  destruct (layout_in _ _ _ _ Hl Hb) as (_ & _ & ?). destruct (layout_in _ _ _ _ Hl Hc) as (_ & _ & ?).
  destruct (layout_disjoint _ _ _ _ _ Hl Hb Hc) as [?|[?|?]]; [done | lia | lia].
Qed.

(** What a successful allocation gives, for the routines built on it. *)
Lemma alloc_block s l n s' p :
  heap_wf s l -> alloc_post s l n s' p -> p <> NULL ->
  exists l' c, heap_wf s' l' /\ keeps l (h_mem s) (h_mem s') /\ p = b_addr c + 32 /\ c ∈ l' /\
    b_free c = false /\ n <= b_size c /\ allocs l' ≡ₚ c :: allocs l /\ (c ∉ allocs l) /\
    (forall d, d ∈ allocs l -> d ∈ l' /\ d <> c /\ 0 < b_addr d /\
       b_addr d + 32 + b_size d <= 2 ^ 64 /\
       (p + b_size c <= b_addr d \/ b_addr d + 32 + b_size d <= p)).
Proof.
  intros Hwf (l' & Hwf' & Hk & [(? & _) | (c & Hp & Hc & Hcf & Hcs & Hal)]) Hne; [done |].
  destruct (hw_chain _ _ Hwf') as (_ & Hl & _).
  assert (Hnd : NoDup (allocs l')) by (apply NoDup_filter; by eapply layout_nodup).
  rewrite Hal in Hnd. apply NoDup_cons in Hnd as [Hnot _].
  exists l', c. split_and!; try done. intros d Hd.
  assert (Hd' : d ∈ allocs l') by (rewrite Hal; by right). apply elem_of_allocs in Hd' as [_ Hdl].
  destruct (payload_range s' l' d Hwf' Hdl) as (? & ? & ?).
  assert (d <> c) by congruence. split_and!; try done.
  destruct (payload_range s' l' c Hwf' Hc) as (? & ? & ?).
  destruct (layout_disjoint _ _ _ c d Hl Hc Hdl) as [?|[?|?]]; [congruence | lia | lia].
Qed.

(** ** Properties *)

(** C13: [kmalloc] always returns.  It hands out a 16-byte aligned payload of at
    least the requested size that overlaps no other live payload, or NULL, and
    then no free block was large enough and the heap could not grow.  Either way
    every live payload keeps its contents and the heap stays well formed. *)
Theorem kmalloc_correct size s l
    (Hwf : heap_wf s l) (Hpos : 0 < size) (Hmax : size <= 2 ^ 64 - 16) :
  exists s' p l', kmalloc size s = Some (s', p) /\ heap_wf s' l' /\
    keeps l (h_mem s) (h_mem s') /\
    ((p = NULL /\ allocs l' = allocs l /\ (exists s1, heap_expand s1 = Some (s', false)) /\
      (forall b, b ∈ l -> b_free b = true -> b_size b < align_size size)) \/
     (p <> NULL /\ p mod 16 = 0 /\ exists c, p = b_addr c + 32 /\ size <= b_size c /\
        allocs l' ≡ₚ c :: allocs l /\
        (forall d, d ∈ allocs l ->
           p + b_size c <= b_addr d + 32 \/ b_addr d + 32 + b_size d <= p))).
Proof.
  destruct (kmalloc_spec size s l Hwf Hpos Hmax) as (s' & p & Hrun & l' & Hwf' & Hk & Hout).
  exists s', p, l'. split; [done |]. split; [done |]. split; [done |].
  destruct Hout as [? | (c & -> & Hc & Hcf & Hcs & Hal)]; [by left | right].
  destruct (payload_range s' l' c Hwf' Hc) as (? & ? & ?).
  pose proof (align_size_spec size Hpos Hmax) as [? _].
  destruct (hw_chain _ _ Hwf') as (_ & Hl & _).
  split; [unfold NULL; lia |]. split; [| exists c; split_and!; try done; try lia].
  - apply list_elem_of_split in Hc as (l1 & l2 & ->).
    apply layout_app in Hl as (d & Hl1 & Hd & _). pose proof (layout_mod _ _ _ Hl1 eq_refl). word_lia.
  - intros d Hd. assert (Hd' : d ∈ allocs l') by (rewrite Hal; by right).
    pose proof Hd' as [Hdf Hdl]%elem_of_allocs.
    destruct (payload_range s' l' d Hwf' Hdl) as (? & ? & ?).
    destruct (layout_disjoint _ _ _ c d Hl Hc Hdl) as [->|[?|?]]; [| lia | lia].
    (* a block that was live before is not handed out again *)
    exfalso. assert (Hnd : NoDup (allocs l')) by (apply NoDup_filter; by eapply layout_nodup).
    rewrite Hal in Hnd. by apply NoDup_cons in Hnd as [? _].
Qed.

(** [kfree] of a live pointer ends the life of that block and of no other;
    all other payloads keep their contents and the blocks still tile the heap. *)
Theorem kfree_correct s l b (Hwf : heap_wf s l) (Hb : b ∈ allocs l) :
  exists l', heap_wf (kfree (b_addr b + 32) s) l' /\ allocs l ≡ₚ b :: allocs l' /\
    keeps l' (h_mem s) (h_mem (kfree (b_addr b + 32) s)) /\ b ∉ l'.
Proof.
  apply elem_of_allocs in Hb as [Hf Hb].
  destruct (kfree_spec s l b Hwf Hb Hf) as (l' & Hwf' & Hk & Hal).
  exists l'. split_and!; try done. intros Hin.
  assert (Hnd : NoDup (allocs l)).
  { apply NoDup_filter. destruct (hw_chain _ _ Hwf) as (_ & Hl & _). by eapply layout_nodup. }
  rewrite Hal in Hnd. apply NoDup_cons in Hnd as [Hnot _]. apply Hnot. by apply elem_of_allocs.
Qed.

(** [krealloc] always returns.  It keeps the pointer when the block is large
    enough; otherwise it moves the block, the new payload starting with all the
    bytes of the old one, or returns NULL and leaves the old block live.  Every
    other payload keeps its contents. *)
Theorem krealloc_correct size s l b
    (Hwf : heap_wf s l) (Hb : b ∈ allocs l) (Hpos : 0 < size) (Hmax : size <= 2 ^ 64 - 32) :
  exists s' p l', krealloc (b_addr b + 32) size s = Some (s', p) /\ heap_wf s' l' /\
    ((p = b_addr b + 32 /\ s' = s /\ l' = l /\ size <= b_size b) \/
     (p = NULL /\ keeps l (h_mem s) (h_mem s') /\ allocs l' = allocs l) \/
     (exists c, p = b_addr c + 32 /\ b_size b < size <= b_size c /\
        b :: allocs l' ≡ₚ c :: allocs l /\
        (forall i, 0 <= i < b_size b ->
           load8 (h_mem s') (p + i) = load8 (h_mem s) (b_addr b + 32 + i)) /\
        (forall d x, d ∈ allocs l -> d <> b -> b_addr d + 32 <= x < b_addr d + 32 + b_size d ->
           load8 (h_mem s') x = load8 (h_mem s) x))).
Proof.
  pose proof Hb as [Hbf Hbl]%elem_of_allocs.
  destruct (payload_range s l b Hwf Hbl) as (Hb0 & Hbs & _).
  destruct (align_size_spec size Hpos ltac:(lia)) as [Hn Hnm].
  assert (Hb16 : b_size b mod 16 = 0).
  { destruct (hw_chain _ _ Hwf) as (_ & Hl & _). apply list_elem_of_split in Hbl as (l1 & l2 & ->).
    by apply layout_app in Hl as (d & _ & _ & _ & ? & _). }
  unfold krealloc, sizeof_heap_block.
  destruct (Z.eqb_spec (b_addr b + 32) NULL) as [Hz|_]; [unfold NULL in Hz; lia |].
  destruct (Z.eqb_spec size 0) as [|_]; [lia |].
  replace (b_addr b + 32 - 32) with (b_addr b) by lia. rewrite (header_of s l b Hwf Hbl).
  set (n := align_size size) in *. rewrite Z.geb_leb.
  destruct (Z.leb_spec n (b_size b)) as [Hle|Hlt].
  { exists s, (b_addr b + 32), l. split; [done |]. split; [done |]. left. split_and!; done || lia. }
  destruct (kmalloc_spec n s l Hwf ltac:(lia) ltac:(lia)) as (s1 & p & Hrun & Hpost).
  rewrite Hrun. cbn [mbind option_bind].
  destruct (align_size_spec n ltac:(lia) ltac:(lia)) as [Hnn _].
  destruct (Z.eqb_spec p NULL) as [->|Hp].
  { destruct Hpost as (l1 & Hwf1 & Hk1 & [(_ & Hal & _) | (c & Hc0 & Hc & _)]).
    - exists s1, NULL, l1. split; [done |]. split; [done |]. right. left. by split_and!.
    - destruct (payload_range s1 l1 c Hwf1 Hc) as (? & _). unfold NULL in Hc0. lia. }
  destruct (alloc_block s l _ s1 p Hwf Hpost Hp)
    as (l1 & c & Hwf1 & Hk1 & -> & Hc & Hcf & Hcs & Hal1 & Hcl & Hdis).
  destruct (Hdis b Hb) as (Hbl1 & Hbc & _ & Hbe & Hbd).
  destruct (payload_range s1 l1 c Hwf1 Hc) as (Hc0 & _ & Hce).
  rewrite (header_of s1 l1 b Hwf1 Hbl1).
  set (m2 := k_memcpy (b_addr c + 32) (b_addr b + 32) (b_size b) (h_mem s1)).
  assert (Hm2 : forall x, 0 <= x < 2 ^ 64 -> load8 m2 x =
    if decide (b_addr c + 32 <= x < b_addr c + 32 + b_size b)
    then load8 (h_mem s1) (b_addr b + 32 + (x - (b_addr c + 32))) else load8 (h_mem s1) x)
    by (intros x Hx; apply memcpy_load; lia).
  destruct (payload_write s1 l1 c m2 Hwf1 Hc) as [Hwf2 Hw2].
  { intros x Hx Hd. rewrite Hm2, decide_False by lia. done. }
  destruct (kfree_spec (with_mem m2 s1) l1 b Hwf2 Hbl1 Hbf) as (l' & Hwf' & Hk' & Hal').
  exists (kfree (b_addr b + 32) (with_mem m2 s1)), (b_addr c + 32), l'.
  split; [done |]. split; [done |]. right. right. exists c.
  assert (Hperm : b :: allocs l' ≡ₚ c :: allocs l) by (by rewrite <- Hal', Hal1).
  assert (Hin : forall d, d ∈ c :: allocs l -> d <> b -> d ∈ allocs l').
  { intros d Hd Hne. rewrite <- Hperm in Hd. by apply elem_of_cons in Hd as [?|?]. }
  split; [done |]. split; [clear - Hlt Hn Hnm Hb16 Hnn Hcs; word_lia |]. split; [done |]. split.
  - intros i Hi. rewrite (Hk' c); [| apply Hin; [by left | congruence] | lia].
    cbn [h_mem with_mem]. rewrite Hm2, decide_True by lia.
    replace (b_addr b + 32 + (b_addr c + 32 + i - (b_addr c + 32))) with (b_addr b + 32 + i) by lia.
    apply (Hk1 b); [done | lia].
  - intros d x Hd Hne Hx. rewrite (Hk' d); [| apply Hin; [by right | done] | lia].
    cbn [h_mem with_mem]. destruct (Hdis d Hd) as (Hdl1 & Hdc & _).
    rewrite (Hw2 d) by (done || (rewrite Hal1; by right)). by apply (Hk1 d).
Qed.

(** [kcalloc] refuses a product that does not fit in 64 bits without touching
    anything; otherwise it returns NULL or a payload of [count * size] zero
    bytes, and every live payload keeps its contents. *)
Theorem kcalloc_correct count size s l
    (Hwf : heap_wf s l) (Hc : 0 < count < 2 ^ 64) (Hs : 0 < size < 2 ^ 64)
    (Hgap : count * size <= 2 ^ 64 - 16 \/ 2 ^ 64 <= count * size) :
  exists s' p l', kcalloc count size s = Some (s', p) /\ heap_wf s' l' /\
    keeps l (h_mem s) (h_mem s') /\
    (2 ^ 64 <= count * size -> p = NULL /\ s' = s) /\
    ((p = NULL /\ allocs l' = allocs l) \/
     (exists c, p = b_addr c + 32 /\ count * size <= b_size c /\ allocs l' ≡ₚ c :: allocs l /\
        forall i, 0 <= i < count * size -> load8 (h_mem s') (p + i) = 0)).
Proof.
  unfold kcalloc. destruct (Z.eqb_spec count 0) as [|_]; [lia |].
  destruct (Z.eqb_spec size 0) as [|_]; [lia |]. cbn [orb]. rewrite Z.gtb_ltb. unfold SIZE_MAX.
  destruct (Z.ltb_spec ((2 ^ 64 - 1) / size) count) as [Hov|Hfit].
  { exists s, NULL, l. split_and!; try done. by left. }
  assert (Hle : count * size <= 2 ^ 64 - 1).
  { pose proof (Z.mul_div_le (2 ^ 64 - 1) size ltac:(lia)). nia. }
  destruct Hgap as [Hgap|Hgap]; [| lia]. rewrite u64_id by lia.
  destruct (kmalloc_spec (count * size) s l Hwf ltac:(lia) Hgap) as (s1 & p & Hrun & Hpost).
  destruct (align_size_spec (count * size) ltac:(lia) Hgap) as [Hn _].
  rewrite Hrun. cbn [mbind option_bind].
  destruct (Z.eqb_spec p NULL) as [->|Hp].
  { destruct Hpost as (l1 & Hwf1 & Hk1 & [(_ & Hal & _) | (c & Hc0 & Hcin & _)]).
    - exists s1, NULL, l1. split_and!; try done; [lia | by left].
    - destruct (payload_range s1 l1 c Hwf1 Hcin) as (? & _). unfold NULL in Hc0. lia. }
  destruct (alloc_block s l _ s1 p Hwf Hpost Hp)
    as (l1 & c & Hwf1 & Hk1 & -> & Hcin & Hcf & Hcs & Hal1 & Hcl & Hdis).
  destruct (payload_range s1 l1 c Hwf1 Hcin) as (Hc0 & _ & Hce).
  destruct (payload_write s1 l1 c (k_memset (b_addr c + 32) 0 (count * size) (h_mem s1)) Hwf1 Hcin)
    as [Hwf2 Hw2].
  { intros x Hx Hd. rewrite memset_load, decide_False by lia. done. }
  eexists _, _, l1. split; [reflexivity |]. split; [exact Hwf2 |]. split; [| split; [lia |]].
  - intros d x Hd Hx. destruct (Hdis d Hd) as (_ & Hdc & _). cbn [h_mem with_mem].
    rewrite (Hw2 d) by (done || (rewrite Hal1; by right)). by apply (Hk1 d).
  - right. exists c. split; [done |]. split; [lia |]. split; [done |].
    intros i Hi. cbn [h_mem with_mem]. rewrite memset_load, decide_True by lia. done.
Qed.

Lemma heap_init_backend (s : heap_t B) : pb_ok (backend s) -> pb_ok (backend (heap_init s)).
Proof.
  intros Hok. unfold heap_init. pose proof (pb_alloc_ok _ Hok) as H1.
  pose proof (pb_alloc_range _ Hok) as H3.
  destruct (pb_alloc_page (backend s)) as [b1 frame]. cbn [fst snd] in *.
  destruct (frame =? NULL); [done |]. change (backend (with_backend b1 s)) with b1.
  pose proof (pb_map_ok _ HEAP_START_ADDRESS frame true H1 H3) as H4.
  destruct (pb_map_page HEAP_START_ADDRESS frame true b1) as [b2 mapped]. cbn [fst] in *.
  destruct mapped; [| done]. cbn [negb]. by destruct (Vma.vma_find _ _).
Qed.

(** [heap_init] makes the first page one free block, when a frame can be had,
    mapped and the heap's area exists; otherwise the heap stays without blocks. *)
Theorem heap_init_correct (s : heap_t B)
    (Hok : pb_ok (backend s))
    (Hroom : HEAP_START_ADDRESS + 4096 * (pb_budget (backend s) + 1) <= 2 ^ 64) :
  let s' := heap_init s in
  let '(b1, frame) := pb_alloc_page (backend s) in
  let '(b2, mapped) := pb_map_page HEAP_START_ADDRESS frame true b1 in
  if negb (frame =? NULL) && mapped && bool_decide (is_Some (Vma.vma_find HEAP_START_ADDRESS (vmas s)))
  then heap_wf s' [mk_block HEAP_START_ADDRESS (HEAP_INITIAL_SIZE - 32) true] /\
       outside HEAP_START_ADDRESS 32 (h_mem s) (h_mem s')
  else heap_head s' = heap_head s /\ h_mem s' = h_mem s.
Proof.
  cbv zeta. unfold heap_init. pose proof (pb_alloc_ok _ Hok) as H1.
  pose proof (pb_alloc_budget _ Hok) as H2. pose proof (pb_alloc_range _ Hok) as H3.
  destruct (pb_alloc_page (backend s)) as [b1 frame]. cbn [fst snd] in *.
  change (backend (with_backend b1 s)) with b1.
  pose proof (pb_map_ok _ HEAP_START_ADDRESS frame true H1 H3) as H4.
  pose proof (pb_map_budget _ HEAP_START_ADDRESS frame true H1) as H5.
  destruct (pb_map_page HEAP_START_ADDRESS frame true b1) as [b2 mapped]. cbn [fst] in *.
  destruct (Z.eqb_spec frame NULL); [done |]. cbn [negb andb].
  destruct mapped; [| done]. cbn [negb andb]. change (vmas (with_backend b2 _)) with (vmas s).
  destruct (Vma.vma_find HEAP_START_ADDRESS (vmas s)) as [v|] eqn:Ev.
  2: { rewrite bool_decide_false by (by intros [? ?]). done. }
  rewrite bool_decide_true by done. cbn zeta.
  change (heap_start (mk_heap _ _ ?x _ _ _ _ _ _ _)) with x.
  destruct (write_header (h_mem s) HEAP_START_ADDRESS (HEAP_INITIAL_SIZE - 32) true NULL NULL)
    as [Hh Ho]; try (unfold NULL, HEAP_INITIAL_SIZE; lia).
  { split; unfold sizeof_heap_block, HEAP_START_ADDRESS; lia. }
  split; [| exact Ho]. split; try done.
  cbn. pose proof (pb_budget_nonneg b2). unfold HEAP_START_ADDRESS, HEAP_INITIAL_SIZE in *. lia.
Qed.

(** ** Clients

    A client holds buffers: pointers it got from [kmalloc], with the bytes it
    last saw there.  It allocates, writes inside its buffers and frees them. *)
Definition buffers : Type := list (Z * list Z).

Definition read_bytes (m : mem) (p : Z) (n : nat) : list Z :=
  (fun i => load8 m (p + Z.of_nat i)) <$> seq 0 n.

Inductive client_step : heap_t B * buffers -> heap_t B * buffers -> Prop :=
| client_alloc n s s' p bufs :
    0 < n <= 2 ^ 64 - 16 -> kmalloc n s = Some (s', p) -> p <> NULL ->
    client_step (s, bufs) (s', (p, read_bytes (h_mem s') p (Z.to_nat n)) :: bufs)
| client_alloc_fail n s s' bufs :
    0 < n <= 2 ^ 64 - 16 -> kmalloc n s = Some (s', NULL) -> client_step (s, bufs) (s', bufs)
| client_write s bufs1 p d bufs2 i v :
    (i < length d)%nat ->
    client_step (s, bufs1 ++ (p, d) :: bufs2)
      (with_mem (store8 (p + Z.of_nat i) v (h_mem s)) s, bufs1 ++ (p, <[i := u8 v]> d) :: bufs2)
| client_free s bufs1 p d bufs2 :
    client_step (s, bufs1 ++ (p, d) :: bufs2) (kfree p s, bufs1 ++ bufs2).

(** Buffer [pd] lives in block [c] and memory holds its bytes. *)
Definition buffer_in (m : mem) (pd : Z * list Z) (c : block) : Prop :=
  pd.1 = b_addr c + 32 /\ Z.of_nat (length pd.2) <= b_size c /\
  forall i v, pd.2 !! i = Some v -> load8 m (pd.1 + Z.of_nat i) = v.

Definition client_inv (st : heap_t B * buffers) : Prop :=
  exists l cs, heap_wf st.1 l /\ allocs l ≡ₚ cs /\ Forall2 (buffer_in (h_mem st.1)) st.2 cs.

Lemma buffer_kept m m' pd c :
  (forall x, b_addr c + 32 <= x < b_addr c + 32 + b_size c -> load8 m' x = load8 m x) ->
  buffer_in m pd c -> buffer_in m' pd c.
Proof.
  intros Hx (Hp & Hl & Hd). split_and!; [done | done |]. intros i v Hi.
  apply lookup_lt_Some in Hi as Hlt. rewrite Hx by lia. by apply Hd.
Qed.

Lemma buffers_kept m m' bufs cs l :
  keeps l m m' -> (forall c, c ∈ cs -> c ∈ allocs l) ->
  Forall2 (buffer_in m) bufs cs -> Forall2 (buffer_in m') bufs cs.
Proof.
  intros Hk Hsub.
  revert cs Hsub. induction bufs as [|pd bufs IH]; intros cs Hsub Hf.
  - apply Forall2_nil_inv_l in Hf as ->. constructor.
  - apply Forall2_cons_inv_l in Hf as (c & cs' & Hb & Hf & ->). constructor.
    + eapply buffer_kept; [| exact Hb]. intros x. apply Hk, Hsub. by left.
    + apply IH; [| done]. intros d Hd. apply Hsub. by right.
Qed.

Lemma client_write_inv s l cs bufs1 p d bufs2 i v :
  heap_wf s l -> allocs l ≡ₚ cs -> (i < length d)%nat ->
  Forall2 (buffer_in (h_mem s)) (bufs1 ++ (p, d) :: bufs2) cs ->
  client_inv (with_mem (store8 (p + Z.of_nat i) v (h_mem s)) s, bufs1 ++ (p, <[i := u8 v]> d) :: bufs2).
Proof.
  intros Hwf Hal Hi Hbufs.
  apply Forall2_app_inv_l in Hbufs as (cs1 & cs2' & Hb1 & Hb2 & ->).
  apply Forall2_cons_inv_l in Hb2 as (c & cs2 & (Hp & Hlen & Hd) & Hb2 & ->). cbn [fst snd] in *.
  assert (Hnd : NoDup (allocs l)).
  { apply NoDup_filter. destruct (hw_chain _ _ Hwf) as (_ & Hl & _). by eapply layout_nodup. }
  assert (Hc : c ∈ allocs l) by (rewrite Hal; apply elem_of_app; right; by left).
  pose proof Hc as [_ Hcl]%elem_of_allocs. destruct (payload_range s l c Hwf Hcl) as (? & ? & ?).
  destruct (payload_write s l c (store8 (p + Z.of_nat i) v (h_mem s)) Hwf Hcl) as [Hwf' Hw].
  { intros x Hx Ho. apply load8_store8_ne; lia. }
  assert (Hother : forall bs ds, Forall2 (buffer_in (h_mem s)) bs ds ->
    (forall d, d ∈ ds -> d ∈ allocs l /\ d <> c) ->
    Forall2 (buffer_in (store8 (p + Z.of_nat i) v (h_mem s))) bs ds).
  { intros bs ds Hf. induction Hf as [|pd e bs ds Hb Hf IH]; intros Hin; [constructor |].
    constructor; [| apply IH; intros; apply Hin; by right].
    destruct (Hin e) as [He1 He2]; [by left |]. eapply buffer_kept; [| exact Hb].
    intros x. by apply Hw. }
  rewrite Hal in Hnd. apply NoDup_app in Hnd as (_ & Hn1 & Hn2). apply NoDup_cons in Hn2 as [Hn2 _].
  exists l, (cs1 ++ c :: cs2). split; [done |]. split; [done |]. apply Forall2_app; [| constructor].
  - apply Hother; [done |]. intros e Hdin. split; [rewrite Hal; apply elem_of_app; by left |].
    intros ->. apply (Hn1 c Hdin). by left.
  - split_and!; cbn [fst snd]; [done | by rewrite length_insert |].
    intros j w Hj. cbn [h_mem with_mem]. rewrite load8_store8 by (apply lookup_lt_Some in Hj as Hlt; rewrite length_insert in Hlt; lia).
    destruct (decide (i = j)) as [->|Hne].
    + rewrite decide_True by done. rewrite list_lookup_insert_eq in Hj by done. congruence.
    + rewrite decide_False by lia. rewrite list_lookup_insert_ne in Hj by done. by apply Hd.
  - apply Hother; [done |]. intros e Hdin.
    split; [rewrite Hal; apply elem_of_app; right; by right |]. by intros ->.
Qed.

Lemma client_step_inv st st' : client_step st st' -> client_inv st -> client_inv st'.
Proof.
  intros Hstep (l & cs & Hwf & Hal & Hbufs). destruct Hstep; cbn [fst snd] in *.
  - destruct (kmalloc_spec n s l Hwf) as (s2 & p2 & Hrun & Hpost); [lia | lia |].
    assert (s2 = s' /\ p2 = p) as [-> ->] by (split; congruence).
    destruct (align_size_spec n) as [Hn _]; [lia | lia |].
    destruct (alloc_block s l _ s' p Hwf Hpost) as (l' & c & Hwf' & Hk & -> & Hc & _ & Hcs & Hal' & _);
      [done |].
    exists l', (c :: cs). split; [done |]. split; [by rewrite Hal', Hal |]. constructor.
    + split_and!; cbn [fst snd]; [done | |].
      * unfold read_bytes. rewrite length_fmap, length_seq. lia.
      * intros i v Hi. unfold read_bytes in Hi. rewrite list_lookup_fmap in Hi.
        apply fmap_Some in Hi as (j & Hj & ->). by apply lookup_seq in Hj as [-> _].
    + eapply buffers_kept; [exact Hk | | exact Hbufs]. intros d. by rewrite Hal.
  - destruct (kmalloc_spec n s l Hwf) as (s2 & p2 & Hrun & Hpost); [lia | lia |].
    assert (s2 = s' /\ p2 = NULL) as [-> ->] by (split; congruence).
    destruct Hpost as (l' & Hwf' & Hk & [(_ & Hal' & _) | (c & Hc0 & Hc & _)]).
    + exists l', cs. split; [done |]. split; [by rewrite Hal' |].
      eapply buffers_kept; [exact Hk | | exact Hbufs]. intros d. by rewrite Hal.
    + destruct (payload_range s' l' c Hwf' Hc) as (? & _). unfold NULL in Hc0. lia.
  - by apply (client_write_inv s l cs).
  - apply Forall2_app_inv_l in Hbufs as (cs1 & cs2' & Hb1 & Hb2 & ->).
    apply Forall2_cons_inv_l in Hb2 as (c & cs2 & (Hp & Hlen & Hd) & Hb2 & ->). cbn [fst snd] in *.
    assert (Hc : c ∈ allocs l) by (rewrite Hal; apply elem_of_app; right; by left).
    apply elem_of_allocs in Hc as [Hcf Hcl].
    destruct (kfree_spec s l c Hwf Hcl Hcf) as (l' & Hwf' & Hk & Hal'). subst p.
    assert (Hperm : allocs l' ≡ₚ cs1 ++ cs2).
    { apply (Permutation_cons_inv (a := c)). rewrite <- Hal', Hal. by rewrite Permutation_middle. }
    exists l', (cs1 ++ cs2). split; [done |]. split; [done |].
    apply (buffers_kept (h_mem s) _ _ _ l'); [done | by intros e; rewrite Hperm |].
    by apply Forall2_app.
Qed.

(** C2: whatever a client does with the heap, starting with no live block, each of
    its buffers reads back exactly what the client last saw or wrote there, no
    two buffers overlap, and the heap is well formed. *)
Theorem heap_clients_safe s l st
    (Hwf : heap_wf s l) (Hnone : allocs l = []) (Hrun : rtc client_step (s, []) st) :
  (exists l', heap_wf st.1 l') /\
  (forall p d i v, (p, d) ∈ st.2 -> d !! i = Some v -> load8 (h_mem st.1) (p + Z.of_nat i) = v) /\
  (forall j k p d q e, st.2 !! j = Some (p, d) -> st.2 !! k = Some (q, e) -> j <> k ->
     p + Z.of_nat (length d) <= q \/ q + Z.of_nat (length e) <= p).
Proof.
  assert (Hinv : client_inv st).
  { assert (H1 : client_inv (s, [])) by (exists l, []; rewrite Hnone; by split_and!).
    revert H1. induction Hrun as [|x y z Hs _ IH]; [done |]. intros Hx. by apply IH, (client_step_inv x). }
  destruct Hinv as (l' & cs & Hwf' & Hal & Hbufs). split; [by exists l' |]. split.
  - intros p d i v Hin Hi. apply list_elem_of_lookup in Hin as [k Hk].
    destruct (Forall2_lookup_l _ _ _ _ _ Hbufs Hk) as (c & _ & _ & _ & Hd). by apply Hd.
  - intros j k p d q e Hj Hk Hne.
    destruct (Forall2_lookup_l _ _ _ _ _ Hbufs Hj) as (c1 & Hc1 & Hp & Hl1 & _).
    destruct (Forall2_lookup_l _ _ _ _ _ Hbufs Hk) as (c2 & Hc2 & Hq & Hl2 & _). cbn [fst snd] in *.
    destruct (hw_chain _ _ Hwf') as (_ & Hl & _).
    assert (Hnd : NoDup cs) by (rewrite <- Hal; apply NoDup_filter; by eapply layout_nodup).
    assert (c1 <> c2) by (intros ->; apply Hne; by eapply NoDup_lookup).
    assert (Hi : forall c i, cs !! i = Some c -> c ∈ l').
    { intros c i Hc. apply list_elem_of_lookup_2 in Hc. rewrite <- Hal in Hc.
      by apply elem_of_allocs in Hc as [_ ?]. }
    destruct (payload_range _ _ c1 Hwf' (Hi _ _ Hc1)) as (? & ? & ?).
    destruct (payload_range _ _ c2 Hwf' (Hi _ _ Hc2)) as (? & ? & ?).
    destruct (layout_disjoint _ _ _ c1 c2 Hl (Hi _ _ Hc1) (Hi _ _ Hc2)) as [?|[?|?]]; [done | lia | lia].
Qed.
End state.
