(* ===== verification/HeapPages.v ===== *)
(** * The heap's pages: [PageTable.v] as the [PageBackend] of [Heap.v]

    Discharges the laws the heap relies on with the frame allocator and
    [page_table_map_page], and instantiates the heap's theorems on a concrete
    heap built over [Pmm.demo_pmm]. *)
From S2P Require Import Prelude PageAllocator Memory Pmm Vma PageTable PageTableSpec Heap HeapSpec.
Import Mem.
#[local] Open Scope Z_scope.

Section backend.
Context {A : Type} `{PageAllocatorLaws A}.
Implicit Types s : pt_state A.

(** An address space in order, with its root active. *)
Definition space_ok s : Prop :=
  exists T root, pt_wf T s /\ T !! root = Some [] /\
    page_table_active_root s = root + hhdm_offset s.

#[global] Instance page_table_backend : PageBackend (pt_state A) := {
  pb_alloc_page := alloc_page;
  pb_map_page va pa w s := page_table_map_page va pa w s;
  pb_ok := space_ok;
  pb_budget s := Z.of_nat (size (pa_free_pages (pt_alloc s)));
}.

Lemma alloc_wf T s a p :
  pt_wf T s -> pa_alloc_page (pt_alloc s) = (a, p) -> pt_wf T (with_alloc a s).
Proof.
  intros Hwf Ha.
  destruct (pa_alloc_cases _ _ _ (wf_alloc _ _ Hwf) Ha)
    as [(-> & -> & _) | (_ & _ & _ & Hok & Hfr & Hlim)]; [by destruct s |].
  split; [exact Hok | apply (wf_ready _ _ Hwf) | by simpl; rewrite Hlim; apply (wf_hhdm _ _ Hwf) | |
          apply (wf_tree _ _ Hwf)].
  intros f q Hf. destruct (wf_frame _ _ Hwf _ _ Hf) as (? & ? & ?). simpl. rewrite Hfr.
  split_and!; [done | set_solver | done].
Qed.

Lemma map_page_spec s va pa w :
  space_ok s -> 0 <= pa < 2 ^ 64 ->
  space_ok (page_table_map_page va pa w s).1 /\
  pa_free_pages (pt_alloc (page_table_map_page va pa w s).1) ⊆ pa_free_pages (pt_alloc s).
Proof.
  intros (T & root & Hwf & Hr & Hact) Hpa. unfold page_table_map_page.
  destruct (page_table_map va pa _ s) as [s' ok] eqn:Em.
  assert (Hfl : 0 <= (if w then Z.lor 0 PAGE_WRITABLE else 0) < 2 ^ 64)
    by (destruct w; split; by vm_compute).
  destruct (map_spec T s root va pa _ s' ok Hwf Hr Hact Hpa Hfl Em)
    as (T' & Hwf' & Hsub & Hcfg & _).
  split; [| apply Hcfg]. exists T', root. split; [done |].
  split; [by eapply lookup_weaken |]. cbn. rewrite (active_root_same s s') by done.
  rewrite Hact. f_equal. symmetry. apply Hcfg.
Qed.

(** Without a request for the range of the address, the map still only takes
    free pages. *)
Lemma map_page_free s va pa w :
  space_ok s -> pa_free_pages (pt_alloc (page_table_map_page va pa w s).1) ⊆ pa_free_pages (pt_alloc s).
Proof.
  intros (T & root & Hwf & Hr & Hact). unfold page_table_map_page, page_table_map. rewrite Hact.
  pose proof (walk_create T s root va Hwf Hr) as Hpost.
  destruct (page_walk_internal _ va true s) as [s1 r].
  destruct Hpost as (T1 & _ & Hext & _).
  assert (Hf : pa_free_pages (pt_alloc s1) ⊆ pa_free_pages (pt_alloc s)) by apply Hext.
  by destruct (w_entry r =? NULL); [| destruct (negb _)].
Qed.

#[global] Instance page_table_backend_laws : PageBackendLaws (pt_state A).
Proof.
  split; cbn [pb_alloc_page pb_map_page pb_ok pb_budget page_table_backend].
  - intros s. lia.
  - intros s (T & root & Hwf & Hr & Hact). unfold alloc_page.
    destruct (pa_alloc_page (pt_alloc s)) as [a p] eqn:Ea. exists T, root.
    split; [by eapply alloc_wf |]. by split.
  - intros s (T & root & Hwf & _). unfold alloc_page.
    destruct (pa_alloc_page (pt_alloc s)) as [a p] eqn:Ea. cbn.
    destruct (pa_alloc_cases _ _ _ (wf_alloc _ _ Hwf) Ea)
      as [(-> & -> & _) | (Hp & Hin & _ & _ & -> & _)]; [rewrite Z.eqb_refl; lia |].
    destruct (Z.eqb_spec p NULL); [done |]. rewrite size_remove by done. lia.
  - intros s va pa w Hok Hpa. by apply map_page_spec.
  - intros s va pa w Hok. pose proof (map_page_free s va pa w Hok) as Hsub.
    apply subseteq_size in Hsub. lia.
  - intros s (T & root & Hwf & _). unfold alloc_page.
    destruct (pa_alloc_page (pt_alloc s)) as [a p] eqn:Ea. cbn.
    pose proof (pa_limit_ok _ (wf_alloc _ _ Hwf)).
    destruct (pa_alloc_cases _ _ _ (wf_alloc _ _ Hwf) Ea)
      as [(-> & _) | (_ & _ & (_ & ? & ?) & _)]; unfold NULL, PAGE_SIZE in *; lia.
Qed.
End backend.

(** ** A concrete heap, over the address space of [demo_pt] *)
Definition heap_areas : Vma.vma_state :=
  (Vma.vma_create HEAP_START_ADDRESS 0x4000000 3
     (Vma.vma_init (Vma.mk_state (replicate 32 Vma.zero_vma) 0))).1.
Definition raw_heap : heap_t (pt_state Pmm.pmm_t) :=
  mk_heap ∅ NULL NULL 0 0 0 0 None heap_areas demo_pt.
Definition demo_heap : heap_t (pt_state Pmm.pmm_t) := heap_init raw_heap.
Definition demo_blocks : list block := [mk_block HEAP_START_ADDRESS (HEAP_INITIAL_SIZE - 32) true].

Lemma demo_space_ok : space_ok demo_pt.
Proof. exists demo_tables, 0x7000. split; [exact demo_pt_wf | by split]. Qed.

Lemma demo_room :
  HEAP_START_ADDRESS + 4096 * (pb_budget (backend raw_heap) + 1) <= 2 ^ 64.
Proof. vm_compute. discriminate. Qed.

(** The three conditions of [heap_init] hold here. *)
Lemma demo_init_cond :
  let '(b1, frame) := pb_alloc_page (backend raw_heap) in
  let '(b2, mapped) := pb_map_page HEAP_START_ADDRESS frame true b1 in
  negb (frame =? NULL) && mapped &&
    bool_decide (is_Some (Vma.vma_find HEAP_START_ADDRESS (vmas raw_heap))) = true.
Proof. vm_compute. reflexivity. Qed.

Lemma heap_init_correct_witness :
  pb_ok (backend raw_heap) /\ heap_wf demo_heap demo_blocks.
Proof.
  split; [exact demo_space_ok |].
  pose proof (heap_init_correct raw_heap demo_space_ok demo_room) as Hi.
  pose proof demo_init_cond as Hc. cbv zeta in Hi.
  destruct (pb_alloc_page (backend raw_heap)) as [b1 frame].
  destruct (pb_map_page HEAP_START_ADDRESS frame true b1) as [b2 mapped].
  rewrite Hc in Hi. exact (proj1 Hi).
Defined.

Lemma demo_backend_ok : space_ok (backend demo_heap).
Proof.
  exact (heap_init_backend raw_heap demo_space_ok).
Qed.

Lemma demo_heap_wf : heap_wf demo_heap demo_blocks.
Proof.
  split.
  - unfold chain. vm_compute (heap_committed_end demo_heap).
    split; [| by vm_compute]. split; [vm_compute; done | done].
  - done.
  - by vm_compute.
  - by vm_compute.
  - by vm_compute.
  - exists 0. by vm_compute.
  - exact demo_backend_ok.
  - vm_compute. discriminate.
Qed.

#[local] Opaque demo_heap kmalloc krealloc kcalloc kfree.

Lemma demo_none : allocs demo_blocks = [].
Proof. reflexivity. Qed.

Lemma kmalloc_correct_witness :
  heap_wf demo_heap demo_blocks /\
  exists s' p, kmalloc 100 demo_heap = Some (s', p) /\ p mod 16 = 0.
Proof.
  split; [exact demo_heap_wf |].
  destruct (kmalloc_correct 100 demo_heap demo_blocks demo_heap_wf ltac:(lia) ltac:(lia))
    as (s' & p & l' & Hrun & Hwf' & _ & [(Hp & _) | (_ & Hp & _)]).
  - exists s', p. split; [exact Hrun |]. rewrite Hp. exact eq_refl.
  - exists s', p. split; [exact Hrun | exact Hp].
Defined.

(** A heap with one live block of at least 100 bytes. *)
Lemma demo_alloc :
  exists s l c, heap_wf s l /\ c ∈ allocs l /\ 112 <= b_size c /\
    kmalloc 100 demo_heap = Some (s, b_addr c + 32).
Proof.
  destruct (kmalloc_spec 100 demo_heap demo_blocks demo_heap_wf ltac:(lia) ltac:(lia))
    as (s & p & Hrun & l & Hwf & _ & [(_ & _ & _ & Hno) | (c & -> & Hc & Hf & Hs & _)]).
  - exfalso. pose proof (Hno _ (list_elem_of_here _ _) eq_refl) as Hlt. by vm_compute in Hlt.
  - exists s, l, c. split; [exact Hwf |]. split; [exact (proj2 (elem_of_allocs l c) (conj Hf Hc)) |].
    split; [exact Hs | exact Hrun].
Qed.

Lemma kfree_correct_witness :
  exists s l b l', heap_wf s l /\ b ∈ allocs l /\ heap_wf (kfree (b_addr b + 32) s) l' /\ b ∉ l'.
Proof.
  destruct demo_alloc as (s & l & b & Hwf & Hb & _).
  destruct (kfree_correct s l b Hwf Hb) as (l' & Hwf' & _ & _ & Hn).
  exists s, l, b, l'. exact (conj Hwf (conj Hb (conj Hwf' Hn))).
Defined.

Lemma krealloc_correct_witness :
  exists s l b s' p, heap_wf s l /\ b ∈ allocs l /\ krealloc (b_addr b + 32) 5000 s = Some (s', p).
Proof.
  destruct demo_alloc as (s & l & b & Hwf & Hb & _).
  destruct (krealloc_correct 5000 s l b Hwf Hb ltac:(lia) ltac:(lia)) as (s' & p & _ & Hrun & _).
  exists s, l, b, s', p. exact (conj Hwf (conj Hb Hrun)).
Defined.

Lemma kcalloc_correct_witness :
  heap_wf demo_heap demo_blocks /\ exists s' p, kcalloc 10 10 demo_heap = Some (s', p).
Proof.
  split; [exact demo_heap_wf |].
  destruct (kcalloc_correct 10 10 demo_heap demo_blocks demo_heap_wf ltac:(lia) ltac:(lia)
              ltac:(lia)) as (s' & p & _ & Hrun & _).
  exists s', p. exact Hrun.
Defined.

Lemma heap_clients_safe_witness :
  exists st, rtc client_step (demo_heap, []) st /\ st.2 <> [] /\ exists l', heap_wf st.1 l'.
Proof.
  destruct demo_alloc as (s & l & c & Hwf & Hc & Hs & Hrun).
  apply elem_of_allocs in Hc as [_ Hc]. destruct (payload_range s l c Hwf Hc) as (Hpos & _).
  assert (Hp : b_addr c + 32 <> NULL) by (unfold NULL; lia).
  set (st := (s, [(b_addr c + 32, read_bytes (h_mem s) (b_addr c + 32) (Z.to_nat 100))])).
  assert (Hr : rtc client_step (demo_heap, []) st)
    by (apply rtc_once; exact (client_alloc 100 demo_heap s _ [] ltac:(lia) Hrun Hp)).
  exists st. split; [exact Hr |]. split; [discriminate |].
  exact (proj1 (heap_clients_safe demo_heap demo_blocks st demo_heap_wf demo_none Hr)).
Defined.

(** Near the top of [size_t] the rounding of [align_size] wraps to zero, and
    [kmalloc] hands out a block without payload. *)
Example kmalloc_rounding_wraps :
  align_size SIZE_MAX = 0 /\
  match kmalloc SIZE_MAX demo_heap with
  | Some (s', p) => negb (p =? NULL) && (blk_size (h_mem s') (p - 32) =? 0)
  | None => false
  end = true.
Proof. split; vm_compute; reflexivity. Qed.
