(* ===== verification/HeapAlloc.v ===== *)
(** * The heap as the [KAlloc] of its clients

    Discharges the laws of [KAlloc.v] with the theorems of [HeapSpec.v]: the live
    objects are the payloads of the heap's allocated blocks. *)
From S2P Require Import Prelude Memory KAlloc Heap HeapSpec.
#[local] Open Scope Z_scope.

Section heap_alloc.
Context {B : Type} `{PageBackendLaws B}.
Implicit Types s : heap_t B.

(** The objects of a list of blocks: payload address and size. *)
Definition objects (l : list block) : gmap Z Z :=
  list_to_map (map (fun b => (b_addr b + 32, b_size b)) l).

#[global] Instance heap_kalloc : KAlloc (heap_t B) := {
  ka_malloc size s := match kmalloc size s with Some (s', p) => (s', p) | None => (s, NULL) end;
  ka_free p s := kfree p s;
  ka_live s L := exists l, heap_wf s l /\ L = objects (allocs l);
  ka_region s := (HEAP_START_ADDRESS, 2 ^ 64);
}.

Lemma objects_nodup s l :
  heap_wf s l -> NoDup (map (fun b => (b_addr b + 32, b_size b)) (allocs l)).*1.
Proof.
  intros Hwf. rewrite <- list_fmap_compose.
  destruct (hw_chain _ _ Hwf) as (_ & Hl & _).
  apply NoDup_fmap_2_strong; [| apply NoDup_filter; by eapply layout_nodup].
  intros b c [_ Hb]%elem_of_allocs [_ Hc]%elem_of_allocs Heq. simpl in Heq.
  apply (addr_inj s l); [done .. | lia].
Qed.

Lemma objects_lookup s l p n :
  heap_wf s l -> objects (allocs l) !! p = Some n <->
  exists b, b ∈ allocs l /\ p = b_addr b + 32 /\ n = b_size b.
Proof.
  intros Hwf. unfold objects. rewrite <- elem_of_list_to_map by by eapply objects_nodup.
  rewrite list_elem_of_fmap. split.
  - intros (b & [= -> ->] & Hb). by exists b.
  - intros (b & Hb & -> & ->). by exists b.
Qed.

Lemma objects_perm s l1 l2 :
  heap_wf s l1 -> l2 ≡ₚ allocs l1 -> objects l2 = objects (allocs l1).
Proof.
  intros Hwf Hp. unfold objects. symmetry. apply list_to_map_proper; [by eapply objects_nodup |].
  by rewrite Hp.
Qed.

Lemma objects_cons b l : objects (b :: l) = <[b_addr b + 32 := b_size b]> (objects l).
Proof. done. Qed.

Lemma objects_not s l l0 b :
  heap_wf s l -> allocs l ≡ₚ b :: l0 -> objects l0 !! (b_addr b + 32) = None.
Proof.
  intros Hwf Hp. apply not_elem_of_list_to_map. pose proof (objects_nodup _ _ Hwf) as Hnd.
  rewrite Hp in Hnd. cbn [map fmap list_fmap fst] in Hnd. by apply NoDup_cons in Hnd as [? _].
Qed.

#[global] Instance heap_kalloc_laws : KAllocLaws (heap_t B).
Proof.
  split.
  - intros s L p n (l & Hwf & ->) (b & Hb & -> & ->)%(objects_lookup s l); [| done].
    apply elem_of_allocs in Hb as [_ Hb]. destruct (hw_chain _ _ Hwf) as (_ & Hl & Ha & He).
    destruct (payload_range s l b Hwf Hb) as (? & ? & ?).
    pose proof (hw_room _ _ Hwf). pose proof (pb_budget_nonneg (backend s)).
    destruct (layout_in _ _ _ _ Hl Hb) as (_ & ? & _). unfold sizeof_heap_block in *.
    split_and!; try lia. apply list_elem_of_split in Hb as (l1 & l2 & ->).
    apply layout_app in Hl as (d & Hl1 & Hd & _). pose proof (layout_mod _ _ _ Hl1 eq_refl). word_lia.
  - intros s L p n q m (l & Hwf & ->) (b & Hb & -> & ->)%(objects_lookup s l)
      (c & Hc & -> & ->)%(objects_lookup s l) Hne; [| done ..].
    apply elem_of_allocs in Hb as [_ Hb]. apply elem_of_allocs in Hc as [_ Hc].
    destruct (hw_chain _ _ Hwf) as (_ & Hl & _).
    destruct (layout_disjoint _ _ _ b c Hl Hb Hc) as [->|[?|?]]; [done | lia | lia].
  - intros s L size s' p (l & Hwf & ->) Hs. cbn [ka_malloc heap_kalloc].
    destruct (kmalloc_spec size s l Hwf ltac:(lia) ltac:(lia)) as (s1 & p1 & -> & l' & Hwf' & _ & Hout).
    intros [= <- <-]. destruct Hout as [(-> & Hal & _) | (c & -> & Hc & _ & Hcs & Hal)]; [left | right].
    + split; [done |]. exists l'. by rewrite Hal.
    + pose proof (align_size_spec size ltac:(lia) ltac:(lia)) as [? _].
      destruct (payload_range s1 l' c Hwf' Hc) as (? & ? & ?).
      exists (b_size c). split_and!; [lia | by eapply objects_not | unfold NULL; lia |].
      exists l'. split; [done |]. rewrite <- objects_cons. by apply (objects_perm s1).
  - intros s L p n (l & Hwf & ->) (b & Hb & -> & ->)%(objects_lookup s l); [| done].
    apply elem_of_allocs in Hb as [Hf Hb].
    destruct (kfree_spec s l b Hwf Hb Hf) as (l' & Hwf' & _ & Hal).
    exists l'. split; [done |]. rewrite <- (objects_perm s l (b :: allocs l')); [| done | by symmetry].
    rewrite objects_cons, delete_insert_id; [done |]. by apply (objects_not s l (allocs l') b).
  - intros s L p n (l & Hwf & ->) (b & Hb & -> & ->)%(objects_lookup s l); [| done].
    apply elem_of_allocs in Hb as [_ Hb]. destruct (hw_chain _ _ Hwf) as (_ & Hl & _).
    destruct (layout_in _ _ _ _ Hl Hb) as (? & _). destruct (payload_range s l b Hwf Hb) as (? & ? & ?). cbn. lia.
  - done.
  - done.
Qed.
End heap_alloc.
