(* ===== verification/Boot.v ===== *)
(** * The start of the memory subsystem: [kmain] of [main.c]

    From the answers of the bootloader to a kernel with frames, an address space
    of its own, the heap's area and a heap of one page. *)
From S2P Require Import Prelude PageAllocator Memory Pmm Vma PageTable PageTableSpec DemandPaging Heap HeapSpec HeapPages.
Import Mem.
#[local] Open Scope Z_scope.

Module Boot.

(** What [kmain] reads of the bootloader's answers; an absent response is a NULL
    pointer. *)
Record limine_responses := mk_responses {
  base_revision_supported : bool;
  framebuffer_count : option Z;
  memmap : option (list Pmm.memmap_entry);
  executable_address : option Z;
  hhdm : option Z;
}.

(** The tests at the start of [kmain]; one that fails leads to [hcf], which never
    returns. *)
Definition boot_requests_ok (r : limine_responses) : bool :=
  base_revision_supported r &&
  match framebuffer_count r with None => false | Some n => negb (n <? 1) end &&
  bool_decide (is_Some (memmap r)) && bool_decide (is_Some (executable_address r)) &&
  bool_decide (is_Some (hhdm r)).

(** What follows the tests gets the answers. *)
Definition verify_boot_requests {X : Type} (r : limine_responses)
    (rest : list Pmm.memmap_entry -> Z -> Z -> X) : option X :=
  if boot_requests_ok r then
    response ← memmap r; executable ← executable_address r; offset ← hhdm r;
    Some (rest response executable offset)
  else None.

(** The heap and its areas, over the page tables, over the frames. *)
Definition machine : Type := heap_t (pt_state Pmm.pmm_t).

Section boot.
(** Constants of [limine.h], and the bounds of the kernel image from the linker. *)
Context (USABLE RECLAIMABLE EXECUTABLE FRAMEBUFFER kernel_start kernel_end : Z).

Implicit Types s : machine.

Definition on_backend (f : pt_state Pmm.pmm_t -> pt_state Pmm.pmm_t) s : machine :=
  Heap.with_backend (f (backend s)) s.
Definition on_vmas (f : Vma.vma_state -> Vma.vma_state) s : machine :=
  with_extent (heap_size s) (heap_virtual_end s) (f (vmas s)) s.

Definition on_pmm (f : Pmm.pmm_t -> Pmm.pmm_t) (b : pt_state Pmm.pmm_t) : pt_state Pmm.pmm_t :=
  with_alloc (f (pt_alloc b)) b.

Definition init_pmm (response : list Pmm.memmap_entry) (executable : Z) : Pmm.pmm_t -> Pmm.pmm_t :=
  Pmm.pmm_init USABLE RECLAIMABLE EXECUTABLE FRAMEBUFFER kernel_start kernel_end
    response (Some executable).

(** "Initialize Memory Subsystem" *)
Definition memory_init (response : list Pmm.memmap_entry) (executable offset : Z) s : machine :=
  let s := on_backend (on_pmm (init_pmm response executable)) s in
  let s := on_backend (page_table_set_hhdm_offset offset) s in
  let s := on_backend paging_init s in
  let s := on_vmas Vma.vma_init s in
  let s := on_vmas (fun v => (Vma.vma_create HEAP_START_ADDRESS HEAP_INITIAL_SIZE
             (Z.lor (Z.lor Vma.VMA_READ Vma.VMA_WRITE) Vma.VMA_DEMAND_PAGED) v).1) s in
  heap_init s.
End boot.

(** ** Paging: the kernel's root is a copy of the bootloader's *)
Section paging.
Context {A : Type} `{PageAllocatorLaws A}.
Implicit Types s : pt_state A.

Lemma wf_registers T s s' :
  pt_mem s' = pt_mem s -> pt_alloc s' = pt_alloc s -> hhdm_offset s' = hhdm_offset s ->
  hhdm_ready s' = hhdm_ready s -> pt_wf T s -> pt_wf T s'.
Proof.
  intros Em Ea Eh Er Hwf. split; rewrite ?Em, ?Ea, ?Eh, ?Er; apply Hwf.
Qed.

(** [page_table_init] in one piece, under the conditions of the boot. *)
Lemma paging_init_eq s a p v :
  kernel_pml4 s = NULL -> hhdm_ready s = true -> pa_alloc_page (pt_alloc s) = (a, p) -> p <> NULL ->
  page_table_physical_to_virtual s p = v -> v <> NULL ->
  page_table_physical_to_virtual s (Z.land (cr3 s) PAGE_TABLE_ADDRESS_MASK) <> NULL ->
  paging_init s = with_cr3 p (with_kernel v p (PageTable.with_mem (k_memcpy v
    (page_table_physical_to_virtual s (Z.land (cr3 s) PAGE_TABLE_ADDRESS_MASK)) PAGE_SIZE (pt_mem s))
    (with_alloc a s))).
Proof.
  intros Hk Hr Ha Hp Hv Hvn Hc. unfold paging_init, page_table_init. rewrite Hk. cbn [Z.eqb NULL negb].
  unfold alloc_page. rewrite Ha. destruct (Z.eqb_spec p NULL); [done |].
  replace (page_table_physical_to_virtual (with_alloc a s) p) with v by (symmetry; exact Hv).
  cbn [kernel_pml4 with_kernel with_alloc]. destruct (Z.eqb_spec v NULL); [done |].
  unfold page_table_current_root. cbn [hhdm_ready with_kernel with_alloc cr3]. rewrite Hr. cbn [negb].
  change (page_table_physical_to_virtual (with_kernel v p (with_alloc a s)))
    with (page_table_physical_to_virtual s).
  destruct (Z.eqb_spec (page_table_physical_to_virtual s (Z.land (cr3 s) PAGE_TABLE_ADDRESS_MASK)) NULL);
    [done |].
  cbn [pt_mem with_kernel with_alloc kernel_pml4]. generalize (k_memcpy v). intros copy.
  unfold page_table_activate. cbn [kernel_pml4_physical with_kernel PageTable.with_mem with_alloc].
  destruct (Z.eqb_spec p 0) as [|_]; [contradiction | reflexivity].
Qed.

(** The translations [paging_init] starts from survive in the new root [p]. *)
Definition own_root T s root p : Prop :=
  p ∈ pa_free_pages (pt_alloc s) /\ T !! p = None /\
  let s' := paging_init s in
  pt_wf (<[p := []]> T) s' /\ hhdm_offset s' = hhdm_offset s /\ cr3 s' = p /\
  page_table_active_root s' = p + hhdm_offset s' /\
  pa_free_pages (pt_alloc s') = pa_free_pages (pt_alloc s) ∖ {[p]} /\
  pa_limit (pt_alloc s') = pa_limit (pt_alloc s) /\
  (forall r va, T !! r = Some [] -> s_walk s' r va = s_walk s r va) /\
  (forall va, s_walk s' p va = s_walk s root va).

Lemma paging_init_spec T s root :
  pt_wf T s -> T !! root = Some [] -> Z.land (cr3 s) PAGE_TABLE_ADDRESS_MASK = root ->
  kernel_pml4 s = NULL -> kernel_pml4_physical s = 0 ->
  (pa_free_pages (pt_alloc s) = ∅ /\ paging_init s = s) \/ exists p, own_root T s root p.
Proof.
  intros Hwf Hr Hc Hk Hkp. destruct (pa_alloc_page (pt_alloc s)) as [a p] eqn:Ea.
  destruct (pa_alloc_cases _ _ _ (wf_alloc _ _ Hwf) Ea)
    as [(-> & -> & He) | (Hp0 & Hpf & Hpp & Hok & Hfr & Hlim)].
  { left. split; [done |]. unfold paging_init, page_table_init, alloc_page. rewrite Hk, Ea.
    cbn [Z.eqb NULL negb]. unfold page_table_activate. cbn [kernel_pml4_physical with_alloc].
    rewrite Hkp. by destruct s. }
  right. exists p. pose proof (free_frame T s p Hwf Hpp) as Hpt.
  destruct (p2v_frame T s p Hwf Hpt) as [Hv Hvn].
  destruct (wf_frame _ _ Hwf _ _ Hr) as (Hrt & _ & _).
  destruct (p2v_frame T s root Hwf Hrt) as [Hrv Hrn].
  assert (HpT : T !! p = None).
  { destruct (T !! p) eqn:E; [| done]. by destruct (wf_frame _ _ Hwf _ _ E) as (_ & [] & _). }
  destruct (copied_entries T s root p (pt_mem s)) as [Hold Hnew]; [done.. |].
  destruct (copied_root T s root p a _ Hwf Hr Hpp Hpf Hok Hlim Hfr Hold Hnew) as (_ & Hwf' & Hw & Hwp).
  unfold own_root. rewrite (paging_init_eq s a p (p + hhdm_offset s)); [| try done ..];
    [| apply (wf_ready _ _ Hwf) | by rewrite Hc, Hrv].
  rewrite Hc, Hrv. do 2 (split; [done |]). cbv zeta. revert Hwf' Hw Hwp.
  generalize (k_memcpy (p + hhdm_offset s) (root + hhdm_offset s) PAGE_SIZE (pt_mem s)).
  intros copy Hwf' Hw Hwp. split; [by eapply wf_registers; [.. | exact Hwf'] |].
  do 2 (split; [done |]). split; [| by split_and!].
  unfold page_table_active_root. cbn [kernel_pml4 with_cr3 with_kernel].
  by destruct (Z.eqb_spec (p + hhdm_offset s) NULL).
Qed.

(** A frame taken before tables were built is no table and stays taken. *)
Lemma taken_frame T s a f T' s' :
  pt_wf T s -> pa_alloc_page (pt_alloc s) = (a, f) -> f <> NULL ->
  same_config (with_alloc a s) s' -> tables_grow T (with_alloc a s) T' s' ->
  f ∈ pa_free_pages (pt_alloc s) /\ f mod 4096 = 0 /\ 0 <= f < 2 ^ 52 /\
  T' !! f = None /\ (f ∉ pa_free_pages (pt_alloc s')) /\ same_config s s'.
Proof.
  intros Hwf Ea Hf0 (? & ? & ? & ? & ? & ? & Hl & Hs) (Hnew & _).
  destruct (pa_alloc_cases _ _ _ (wf_alloc _ _ Hwf) Ea) as [(? & _) | (_ & Hin & Hfp & _ & Hfr & Hlim)]; [done |].
  destruct (free_frame T _ _ Hwf Hfp) as (Hfm & Hf1 & Hf2 & _).
  cbn [pt_alloc with_alloc] in *. rewrite Hfr in *.
  split; [done |]. split; [done |]. split; [lia |]. split; [| split].
  - destruct (T' !! f) as [q|] eqn:E; [| done]. destruct (Hnew f q E) as [Hc|Hc]; [| set_solver].
    by destruct (wf_frame _ _ Hwf _ _ Hc) as (_ & [] & _).
  - set_solver.
  - split_and!; try done; [by rewrite Hl | set_solver].
Qed.

(** ** The first page of the heap *)
Definition first_block : block := mk_block HEAP_START_ADDRESS (HEAP_INITIAL_SIZE - 32) true.

(** Either one free block in a page mapped to a fresh frame [f], or no block at
    all, for lack of frames or because a large page covers the heap's address. *)
Definition heap_started (T0 : gmap Z (list Z)) (s s' : heap_t (pt_state A)) (T : gmap Z (list Z)) root : Prop :=
  let b := backend s in let b' := backend s' in
  (heap_wf s' [first_block] /\
   exists f, f ∈ pa_free_pages (pt_alloc b) /\ T !! f = None /\ (f ∉ pa_free_pages (pt_alloc b')) /\
     forall va, page_of va = page_of HEAP_START_ADDRESS -> s_walk b' root va = Some (f + 3, O)) \/
  (heap_head s' = heap_head s /\
   (forall r va, T0 !! r = Some [] -> s_walk b' r va = s_walk b r va) /\
   (pa_free_pages (pt_alloc b') = ∅ \/ exists e l, s_walk b root HEAP_START_ADDRESS = Some (e, S l))).

Lemma heap_init_space T root (s : heap_t (pt_state A)) :
  pt_wf T (backend s) -> T !! root = Some [] ->
  page_table_active_root (backend s) = root + hhdm_offset (backend s) ->
  HEAP_START_ADDRESS + 4096 * (pb_budget (backend s) + 1) <= 2 ^ 64 ->
  is_Some (Vma.vma_find HEAP_START_ADDRESS (vmas s)) ->
  let s' := heap_init s in
  exists T', pt_wf T' (backend s') /\ T ⊆ T' /\ same_config (backend s) (backend s') /\
    vmas s' = vmas s /\
    (forall r va, T !! r = Some [] -> page_of va <> page_of HEAP_START_ADDRESS ->
       s_walk (backend s') r va = s_walk (backend s) r va) /\
    heap_started T s s' T' root.
Proof.
  intros Hwf Hr Hact Hroom Hv s'.
  assert (Hsp : space_ok (backend s)) by (by exists T, root).
  pose proof (heap_init_correct s Hsp Hroom) as Hi. cbv zeta in Hi. fold s' in Hi.
  unfold heap_started. subst s'. unfold heap_init in Hi |- *.
  cbn [pb_alloc_page pb_map_page page_table_backend] in *. unfold alloc_page in *.
  destruct (pa_alloc_page (pt_alloc (backend s))) as [a f] eqn:Ea.
  destruct (Z.eqb_spec f NULL) as [->|Hf0]; cbn [negb andb] in *.
  { destruct (pa_alloc_cases _ _ _ (wf_alloc _ _ Hwf) Ea) as [(_ & -> & He) | (? & _)]; [| done].
    cbn [backend Heap.with_backend]. replace (with_alloc _ (backend s)) with (backend s) by (by destruct (backend s)).
    exists T. split_and!; try done. right. split_and!; try done. by left. }
  pose proof (alloc_wf T _ _ _ Hwf Ea) as Hwf1. assert (Hfb : 0 <= f < 2 ^ 64).
  { pose proof (pb_alloc_range _ Hsp) as Hf. cbn in Hf. unfold alloc_page in Hf. by rewrite Ea in Hf. }
  unfold page_table_map_page in *. cbn [backend Heap.with_backend] in *.
  destruct (page_table_map HEAP_START_ADDRESS f _ (with_alloc a (backend s))) as [b2 ok] eqn:Em.
  assert (Hfl : 0 <= Z.lor 0 PAGE_WRITABLE < 2 ^ 64) by (split; by vm_compute).
  destruct (map_spec T _ root _ f _ b2 ok Hwf1 Hr Hact Hfb Hfl Em)
    as (T' & Hwf' & Hsub & Hcfg & Hgrow & Hother & Hres).
  destruct (taken_frame T _ a f T' b2 Hwf Ea Hf0 Hcfg Hgrow) as (Hin & Hfm & Hfr & HfT & Hfn & Hcfg0).
  exists T'. destruct ok; cbn [negb andb] in *; destruct Hres as (_ & Hres).
  - destruct Hv as [v Ev]. rewrite Ev in *. cbn [Heap.with_backend vmas backend] in *. rewrite Ev in *.
    rewrite bool_decide_true in Hi by done.
    do 5 (split; [done |]). left. split; [apply Hi |]. exists f. do 3 (split; [done |]).
    intros va Hva. etransitivity; [by apply Hres |]. change (Z.lor 0 PAGE_WRITABLE) with PAGE_WRITABLE.
    by rewrite map_entry_writable.
  - destruct Hres as (Hsame & Hwhy). do 5 (split; [done |]). right. split; [done |]. split; [exact Hsame |].
    destruct Hwhy as [He | (g & l & Hs)]; [by left | right].
    destruct (large_slot_walk _ _ _ _ _ Hs) as [e He]. exists e, l. by rewrite <- He, (Hsame root _ Hr).
Qed.

Lemma heap_init_vmas (s : heap_t (pt_state A)) : vmas (heap_init s) = vmas s.
Proof.
  unfold heap_init. destruct (pb_alloc_page _) as [b1 f]. destruct (f =? NULL); [done |].
  destruct (pb_map_page _ _ _ _) as [b2 []]; [| done]. cbn [negb]. by destruct (Vma.vma_find _ _).
Qed.

Lemma heap_init_no_frame (s : heap_t (pt_state A)) :
  pa_ok (pt_alloc (backend s)) -> pa_free_pages (pt_alloc (backend s)) = ∅ -> heap_init s = s.
Proof.
  intros Hok He. unfold heap_init. cbn [pb_alloc_page page_table_backend]. unfold alloc_page.
  rewrite pa_alloc_empty by done. rewrite Z.eqb_refl. destruct s as [? ? ? ? ? ? ? ? ? []]. reflexivity.
Qed.
End paging.

(** ** What the boot hands over, and what becomes of it *)
Section correctness.
Context (USABLE RECLAIMABLE EXECUTABLE FRAMEBUFFER kernel_start kernel_end : Z).
Implicit Types s : machine.

(** The bootloader's promises: a sane memory map that fits the bitmap, its page
    tables (the tree [T] under [root]) outside the memory it gives away, and the
    static variables of the kernel zero. *)
Record handed_over (response : list Pmm.memmap_entry) (exe offset : Z)
    (T : gmap Z (list Z)) (root : Z) s : Prop := {
  ho_entries : Forall Pmm.entry_ok response;
  ho_fits : Pmm.total_pages (Pmm.pmm_totals USABLE response (pt_alloc (backend s))) <= Pmm.PMM_BITMAP_MAX_BITS;
  ho_kernel : 0 <= exe < 2 ^ 64 /\ u64 (kernel_end - kernel_start) < 2 ^ 63;
  ho_offset : 0 <= offset /\
    offset + Pmm.total_pages (Pmm.pmm_totals USABLE response (pt_alloc (backend s))) * 4096 <= 2 ^ 64;
  ho_root : T !! root = Some [] /\ Z.land (cr3 (backend s)) PAGE_TABLE_ADDRESS_MASK = root;
  ho_tables f p : T !! f = Some p -> table_frame offset f /\ (length p <= 3)%nat /\
    ~ Pmm.initially_free USABLE RECLAIMABLE EXECUTABLE FRAMEBUFFER kernel_start kernel_end
        response (Some exe) (f / 4096);
  ho_tree : tree_ok T (pt_mem (backend s)) offset;
  ho_static : kernel_pml4 (backend s) = NULL /\ kernel_pml4_physical (backend s) = 0 /\
    length (Vma.vma_table (vmas s)) = 32%nat /\ heap_head s = NULL;
}.

(** The page [q] can be handed out after [pmm_init]. *)
Definition boot_free (response : list Pmm.memmap_entry) (exe : Z) s (q : Z) : Prop :=
  Pmm.initially_free USABLE RECLAIMABLE EXECUTABLE FRAMEBUFFER kernel_start kernel_end
    response (Some exe) q /\
  q < Pmm.total_pages (Pmm.pmm_totals USABLE response (pt_alloc (backend s))).

Lemma frames_size (a : Pmm.pmm_t) : Pmm.pmm_wf a -> Z.of_nat (size (Pmm.free_frames a)) <= 2 ^ 20.
Proof.
  intros Hwf. pose proof (Pmm.wf_total _ Hwf) as Ht. rewrite Pmm.max_bits_val in Ht.
  assert (Hsub : Pmm.free_frames a ⊆ list_to_set (Pmm.page_addr <$> seqZ 0 (Pmm.total_pages a))).
  { intros x. unfold Pmm.free_frames. intros (q & -> & (Hq & _)%Pmm.elem_of_free_set)%elem_of_map.
    apply elem_of_list_to_set, list_elem_of_fmap_2, elem_of_seqZ. lia. }
  apply subseteq_size in Hsub. rewrite size_list_to_set in Hsub.
  - rewrite length_fmap, length_seqZ in Hsub. lia.
  - apply NoDup_fmap_2; [| apply NoDup_seqZ]. intros x y. unfold Pmm.page_addr, Pmm.PMM_PAGE_SIZE. lia.
Qed.

(** The frames after [pmm_init], and the bootloader's tables beside them. *)
Lemma boot_space response exe offset T root s :
  handed_over response exe offset T root s ->
  let b := page_table_set_hhdm_offset offset (on_pmm (init_pmm USABLE RECLAIMABLE EXECUTABLE FRAMEBUFFER kernel_start kernel_end
             response exe) (backend s)) in
  pt_wf T b /\ T !! root = Some [] /\ pb_budget b <= 2 ^ 20 /\
  (forall x, x ∈ pa_free_pages (pt_alloc b) <-> exists q, x = 4096 * q /\ boot_free response exe s q).
Proof.
  intros Hb b. destruct (Pmm.init_spec USABLE RECLAIMABLE EXECUTABLE FRAMEBUFFER kernel_start kernel_end
    response (Some exe) (pt_alloc (backend s))) as (W & Ht & F).
  { apply Hb. } { apply Hb. } { intros x [= <-]. apply Hb. }
  change (Pmm.pmm_init _ _ _ _ _ _ _ _ _) with (pt_alloc b) in W, Ht, F.
  assert (Hfree : forall x, x ∈ pa_free_pages (pt_alloc b) <-> exists q, x = 4096 * q /\ boot_free response exe s q).
  { intros x. change (pa_free_pages (pt_alloc b)) with (Pmm.free_frames (pt_alloc b)).
    unfold Pmm.free_frames. rewrite elem_of_map. unfold boot_free. rewrite <- Ht.
    split; intros (q & -> & Hq); exists q.
    - rewrite F in Hq. unfold Pmm.page_addr, Pmm.PMM_PAGE_SIZE. split; [lia | done].
    - rewrite F. unfold Pmm.page_addr, Pmm.PMM_PAGE_SIZE. split; [lia | done]. }
  split; [| split; [apply Hb | split; [exact (frames_size _ W) | exact Hfree]]]. split.
  - exact W.
  - done.
  - change (0 <= offset /\ offset + Pmm.total_pages (pt_alloc b) * Pmm.PMM_PAGE_SIZE <= 2 ^ 64).
    rewrite Ht. apply Hb.
  - intros f p Hf. destruct (ho_tables _ _ _ _ _ _ Hb f p Hf) as (Hft & Hl & Hn).
    split; [exact Hft |]. split; [| exact Hl]. rewrite Hfree. intros (q & -> & Hq & _).
    apply Hn. replace (4096 * q / 4096) with q by (rewrite Z.mul_comm, Z.div_mul; lia). done.
  - apply Hb.
Qed.

(** The heap's area is the only one, and found at the heap's address. *)
Lemma boot_area v flags :
  length (Vma.vma_table v) = 32%nat ->
  let v' := (Vma.vma_create HEAP_START_ADDRESS HEAP_INITIAL_SIZE flags (Vma.vma_init v)).1 in
  Vma.areas v' = [Vma.mk_vma HEAP_START_ADDRESS (HEAP_START_ADDRESS + HEAP_INITIAL_SIZE) flags] /\
  is_Some (Vma.vma_find HEAP_START_ADDRESS v').
Proof.
  intros Hl v'. destruct (Vma.init_wf v Hl) as [W Ha].
  pose proof (Vma.create_refines HEAP_START_ADDRESS HEAP_INITIAL_SIZE flags _ W) as Hc. subst v'.
  cbn [Vma.spec_op] in Hc. rewrite Ha in Hc. cbn [length existsb app] in Hc.
  rewrite bool_decide_false in Hc by done. change (u64 (HEAP_START_ADDRESS + HEAP_INITIAL_SIZE))
    with (HEAP_START_ADDRESS + HEAP_INITIAL_SIZE) in Hc.
  destruct (Vma.vma_create _ _ _ _) as [v' []]; [| by destruct Hc]. destruct Hc as [W' [= Ea]]. cbn [fst].
  symmetry in Ea. split; [exact Ea |].
  assert (H0 : Vma.areas v' !! 0%nat = Some (Vma.mk_vma HEAP_START_ADDRESS (HEAP_START_ADDRESS + HEAP_INITIAL_SIZE) flags))
    by (by rewrite Ea).
  destruct (Vma.areas_lookup_inv v' _ _ W' H0) as [Hr He].
  pose proof (Vma.vma_find_correct HEAP_START_ADDRESS v' W') as Hf.
  destruct (Vma.vma_find HEAP_START_ADDRESS v'); [by eexists |]. exfalso. apply (Hf _ Hr). rewrite He.
  unfold Vma.contains, HEAP_INITIAL_SIZE. cbn [Vma.start Vma.end_]. lia.
Qed.

(** A machine that started: the processor runs on the page [q], which translates
    as the bootloader's [root] did; the heap has its first page [f], or none. *)
Definition started (response : list Pmm.memmap_entry) (exe offset : Z) (T : gmap Z (list Z))
    (root : Z) s (s' : machine) (q : Z) : Prop :=
  let b := backend s in let b' := backend s' in
  boot_free response exe s q /\ cr3 b' = 4096 * q /\
  page_table_active_root b' = 4096 * q + hhdm_offset b' /\ hhdm_offset b' = offset /\
  (forall va, page_of va <> page_of HEAP_START_ADDRESS ->
     s_walk b' (4096 * q) va = mmu_walk (pt_mem b) offset root va) /\
  exists T', pt_wf T' b' /\ T' !! (4096 * q) = Some [] /\ T ⊆ T' /\
    ((heap_wf s' [first_block] /\
      exists f, boot_free response exe s f /\ f <> q /\ T' !! (4096 * f) = None /\
        (4096 * f ∉ pa_free_pages (pt_alloc b')) /\
        forall va, page_of va = page_of HEAP_START_ADDRESS ->
          s_walk b' (4096 * q) va = Some (4096 * f + 3, O)) \/
     (heap_head s' = NULL /\
      (forall va, s_walk b' (4096 * q) va = mmu_walk (pt_mem b) offset root va) /\
      (pa_free_pages (pt_alloc b') = ∅ \/
       exists e l, mmu_walk (pt_mem b) offset root HEAP_START_ADDRESS = Some (e, S l)))).

Lemma start_from (s s3 : machine) response exe offset T root p b :
  own_root T b root p -> hhdm_offset b = offset -> T !! root = Some [] ->
  (forall x, x ∈ pa_free_pages (pt_alloc b) <-> exists q, x = 4096 * q /\ boot_free response exe s q) ->
  (forall va, s_walk b root va = mmu_walk (pt_mem (backend s)) offset root va) ->
  pb_budget b <= 2 ^ 20 -> is_Some (Vma.vma_find HEAP_START_ADDRESS (vmas s3)) ->
  backend s3 = paging_init b -> heap_head s3 = NULL ->
  exists q, started response exe offset T root s (heap_init s3) q.
Proof.
  intros (Hp & HpT & Hwf & Hh & Hc & Hact & Hfr & _ & Hwr & Hwp) Ho Hr Hfree Hw Hbud Hv Eb Ehd.
  destruct (proj1 (Hfree p) Hp) as (q & -> & Hq). exists q.
  assert (Hbud3 : pb_budget (backend s3) <= pb_budget b).
  { rewrite Eb. cbn [pb_budget page_table_backend]. rewrite Hfr.
    apply inj_le, subseteq_size. set_solver. }
  rewrite <- Eb in *. pose proof (lookup_insert_eq T (4096 * q) []) as Hr3.
  destruct (heap_init_space _ _ s3 Hwf Hr3 Hact) as (T' & Hwf' & Hsub & Hcfg & _ & Hother & Hst);
    [unfold HEAP_START_ADDRESS; lia | exact Hv |].
  assert (Ho' : hhdm_offset (backend (heap_init s3)) = offset) by (rewrite (proj1 Hcfg); congruence).
  assert (Hold : forall va, s_walk (backend s3) (4096 * q) va = mmu_walk (pt_mem (backend s)) offset root va)
    by (intros va; by rewrite Hwp).
  split; [done |]. split; [etransitivity; [apply Hcfg | done] |].
  split; [rewrite (active_root_same _ _ Hcfg), (proj1 Hcfg); exact Hact |]. split; [done |]. split.
  { intros va Hva. by rewrite Hother. }
  exists T'. split; [done |]. split; [by eapply lookup_weaken |].
  split; [etransitivity; [by apply insert_subseteq | exact Hsub] |].
  destruct Hst as [(Hheap & f & Hf & HfT & Hfn & Hfw) | (Hhd & Hsame & Hwhy)]; [left | right].
  - split; [done |]. rewrite Hfr in Hf. apply elem_of_difference in Hf as [Hf Hne].
    destruct (proj1 (Hfree f) Hf) as (f' & -> & Hf'). exists f'. split; [done |].
    split; [intros ->; set_solver |]. by split_and!.
  - split; [congruence |]. split; [intros va; by rewrite Hsame |].
    destruct Hwhy as [? | (e & l & He)]; [by left | right]. exists e, l. by rewrite <- Hold.
Qed.

(** C17: with all answers there, the memory part of [kmain] ends with the heap's
    area alone in the area table, and, unless no page was free, with an address
    space of the kernel's own that translates as the bootloader's did, and a heap
    of one free block in its first page (or none, for lack of memory or under a
    large page). *)
Theorem boot_memory_correct r response exe offset T root s
    (Hreq : boot_requests_ok r = true) (Hm : memmap r = Some response)
    (He : executable_address r = Some exe) (Hh : hhdm r = Some offset)
    (Hb : handed_over response exe offset T root s) :
  exists s', verify_boot_requests r (fun response exe offset =>
      memory_init USABLE RECLAIMABLE EXECUTABLE FRAMEBUFFER kernel_start kernel_end
        response exe offset s) = Some s' /\
    Vma.areas (vmas s') =
      [Vma.mk_vma HEAP_START_ADDRESS (HEAP_START_ADDRESS + HEAP_INITIAL_SIZE) 11] /\
    (((forall q, ~ boot_free response exe s q) /\ cr3 (backend s') = cr3 (backend s) /\
      heap_head s' = NULL) \/
     exists q, started response exe offset T root s s' q).
Proof.
  unfold verify_boot_requests. rewrite Hreq, Hm, He, Hh. cbn [mbind option_bind].
  eexists. split; [reflexivity |]. unfold memory_init.
  destruct (boot_space _ _ _ _ _ _ Hb) as (Hwf & Hr & Hbud & Hfree).
  set (b := page_table_set_hhdm_offset offset _) in *.
  destruct (ho_static _ _ _ _ _ _ Hb) as (Hk & Hkp & Hl & Hhd).
  destruct (boot_area (vmas s) 11 Hl) as [Ha Hv].
  set (s3 := on_vmas (fun v => (Vma.vma_create _ _ _ v).1) _).
  assert (Ev : vmas (heap_init s3) = vmas s3).
  { apply heap_init_vmas. }
  split; [by rewrite Ev |].
  destruct (paging_init_spec T b root Hwf Hr (proj2 (ho_root _ _ _ _ _ _ Hb)) Hk Hkp)
    as [[Hno Eb] | (p & Hp)].
  - left. assert (Eb3 : backend s3 = b) by exact Eb. rewrite heap_init_no_frame; [| rewrite Eb3; apply Hwf | by rewrite Eb3].
    split; [| by rewrite Eb3]. intros q Hq. assert (Hin : 4096 * q ∈ pa_free_pages (pt_alloc b)) by (apply Hfree; by exists q).
    by rewrite Hno in Hin.
  - right. by apply (start_from s s3 response exe offset T root p b).
Qed.
End correctness.

(** ** A machine that starts: the memory map of [Pmm.demo_memmap], the bootloader's
    root an empty table at [0x7000] in its own memory *)
Definition demo_responses : limine_responses :=
  mk_responses true (Some 1) (Some Pmm.demo_memmap) (Some 0x2000) (Some demo_hhdm).
Definition cold : machine :=
  mk_heap ∅ NULL NULL 0 0 0 0 None (Vma.mk_state (replicate 32 Vma.zero_vma) 0)
    (mk_pt ∅ Pmm.zero_pmm 0 false 0 NULL 0 0x7000 []).
Definition warm : machine :=
  default cold (verify_boot_requests demo_responses (fun response exe offset =>
    memory_init 0 5 6 7 0 0x1000 response exe offset cold)).

Lemma cold_handed_over :
  handed_over 0 5 6 7 0 0x1000 Pmm.demo_memmap 0x2000 demo_hhdm demo_tables 0x7000 cold.
Proof.
  split.
  - repeat constructor; simpl; lia.
  - vm_compute. congruence.
  - split; [lia | by vm_compute].
  - split; by vm_compute.
  - split; by vm_compute.
  - intros f p. unfold demo_tables. rewrite lookup_singleton_Some. intros [<- <-].
    split; [split_and!; by vm_compute |]. split; [simpl; lia |]. intros (_ & _ & _ & Hr).
    apply (Hr (Pmm.mk_entry 0x7000 0x1000 5)); [set_solver | by left |]. by vm_compute.
  - intros f p i g _ _ _. unfold ent, load64. cbn [pt_mem backend cold].
    rewrite load_empty. by rewrite kind_of_zero.
  - by split_and!.
Qed.

Lemma warm_heap_head : heap_head warm = HEAP_START_ADDRESS.
Proof. vm_compute. reflexivity. Qed.

Lemma boot_memory_correct_witness :
  handed_over 0 5 6 7 0 0x1000 Pmm.demo_memmap 0x2000 demo_hhdm demo_tables 0x7000 cold /\
  verify_boot_requests demo_responses (fun response exe offset =>
    memory_init 0 5 6 7 0 0x1000 response exe offset cold) = Some warm /\ heap_wf warm [first_block].
Proof.
  split; [exact cold_handed_over |].
  destruct (boot_memory_correct 0 5 6 7 0 0x1000 demo_responses Pmm.demo_memmap 0x2000 demo_hhdm
    demo_tables 0x7000 cold eq_refl eq_refl eq_refl eq_refl cold_handed_over) as (s' & E & _ & Hs).
  assert (Ew : warm = s') by (unfold warm; by rewrite E). rewrite <- Ew in *. clear s' Ew.
  split; [exact E |]. pose proof warm_heap_head as Hd.
  destruct Hs as [(_ & _ & Hn) | (q & _ & _ & _ & _ & _ & T' & _ & _ & _ & [[Hw _] | [Hn _]])];
    [| exact Hw |]; rewrite Hd in Hn; discriminate Hn.
Defined.

End Boot.
