(* ===== verification/System.v ===== *)
(** * The kernel's scheduling and process state

    [process/process.h] and the variables of [scheduler/scheduler.c],
    [scheduler/task.c], [process/process.c], [cpu/tss.c] and [hal/pit.c] in one
    record, over the heap interface [KAlloc] and the page tables of
    [PageTable.v], whose byte memory is the kernel's memory. *)
From S2P Require Import Prelude PageAllocator Memory KAlloc Fd Elf TaskQueue PageTable.
Import Mem Task.
#[local] Open Scope Z_scope.

(** ** [process.h] *)
Inductive process_state_t := PROCESS_READY | PROCESS_RUNNING | PROCESS_EXITED.

(** [name] is the content of the 64-byte array. *)
Record process_t := mk_process {
  pid : Z;
  p_state : process_state_t;
  exit_code : Z;
  name : list Z;
  parent : Z;
  main_thread : Z;
  thread_list : Z;
  p_next : Z;
  image : Elf.elf_image_t;
  user_stack_top : Z;
  user_stack_bottom : Z;
  user_heap_start : Z;
  user_heap_end : Z;
  user_heap_current : Z;
  fd_table : Fd.fd_table_t;
  page_table : Z;
  page_table_physical : Z;
  user_rip : Z;
  user_rsp : Z;
  user_rflags : Z;
  is_user_process : bool;
  user_started : bool;
}.

Definition sizeof_process : Z := 744.

Definition setp_pid (v : Z) (r : process_t) : process_t :=
  mk_process v (p_state r) (exit_code r) (name r) (parent r) (main_thread r) (thread_list r) (p_next r) (image r) (user_stack_top r) (user_stack_bottom r) (user_heap_start r) (user_heap_end r) (user_heap_current r) (fd_table r) (page_table r) (page_table_physical r) (user_rip r) (user_rsp r) (user_rflags r) (is_user_process r) (user_started r).
Definition setp_state (v : process_state_t) (r : process_t) : process_t :=
  mk_process (pid r) v (exit_code r) (name r) (parent r) (main_thread r) (thread_list r) (p_next r) (image r) (user_stack_top r) (user_stack_bottom r) (user_heap_start r) (user_heap_end r) (user_heap_current r) (fd_table r) (page_table r) (page_table_physical r) (user_rip r) (user_rsp r) (user_rflags r) (is_user_process r) (user_started r).
Definition setp_exit_code (v : Z) (r : process_t) : process_t :=
  mk_process (pid r) (p_state r) v (name r) (parent r) (main_thread r) (thread_list r) (p_next r) (image r) (user_stack_top r) (user_stack_bottom r) (user_heap_start r) (user_heap_end r) (user_heap_current r) (fd_table r) (page_table r) (page_table_physical r) (user_rip r) (user_rsp r) (user_rflags r) (is_user_process r) (user_started r).
Definition setp_name (v : list Z) (r : process_t) : process_t :=
  mk_process (pid r) (p_state r) (exit_code r) v (parent r) (main_thread r) (thread_list r) (p_next r) (image r) (user_stack_top r) (user_stack_bottom r) (user_heap_start r) (user_heap_end r) (user_heap_current r) (fd_table r) (page_table r) (page_table_physical r) (user_rip r) (user_rsp r) (user_rflags r) (is_user_process r) (user_started r).
Definition setp_parent (v : Z) (r : process_t) : process_t :=
  mk_process (pid r) (p_state r) (exit_code r) (name r) v (main_thread r) (thread_list r) (p_next r) (image r) (user_stack_top r) (user_stack_bottom r) (user_heap_start r) (user_heap_end r) (user_heap_current r) (fd_table r) (page_table r) (page_table_physical r) (user_rip r) (user_rsp r) (user_rflags r) (is_user_process r) (user_started r).
Definition setp_main_thread (v : Z) (r : process_t) : process_t :=
  mk_process (pid r) (p_state r) (exit_code r) (name r) (parent r) v (thread_list r) (p_next r) (image r) (user_stack_top r) (user_stack_bottom r) (user_heap_start r) (user_heap_end r) (user_heap_current r) (fd_table r) (page_table r) (page_table_physical r) (user_rip r) (user_rsp r) (user_rflags r) (is_user_process r) (user_started r).
Definition setp_thread_list (v : Z) (r : process_t) : process_t :=
  mk_process (pid r) (p_state r) (exit_code r) (name r) (parent r) (main_thread r) v (p_next r) (image r) (user_stack_top r) (user_stack_bottom r) (user_heap_start r) (user_heap_end r) (user_heap_current r) (fd_table r) (page_table r) (page_table_physical r) (user_rip r) (user_rsp r) (user_rflags r) (is_user_process r) (user_started r).
Definition setp_next (v : Z) (r : process_t) : process_t :=
  mk_process (pid r) (p_state r) (exit_code r) (name r) (parent r) (main_thread r) (thread_list r) v (image r) (user_stack_top r) (user_stack_bottom r) (user_heap_start r) (user_heap_end r) (user_heap_current r) (fd_table r) (page_table r) (page_table_physical r) (user_rip r) (user_rsp r) (user_rflags r) (is_user_process r) (user_started r).
Definition setp_image (v : Elf.elf_image_t) (r : process_t) : process_t :=
  mk_process (pid r) (p_state r) (exit_code r) (name r) (parent r) (main_thread r) (thread_list r) (p_next r) v (user_stack_top r) (user_stack_bottom r) (user_heap_start r) (user_heap_end r) (user_heap_current r) (fd_table r) (page_table r) (page_table_physical r) (user_rip r) (user_rsp r) (user_rflags r) (is_user_process r) (user_started r).
Definition setp_user_stack_top (v : Z) (r : process_t) : process_t :=
  mk_process (pid r) (p_state r) (exit_code r) (name r) (parent r) (main_thread r) (thread_list r) (p_next r) (image r) v (user_stack_bottom r) (user_heap_start r) (user_heap_end r) (user_heap_current r) (fd_table r) (page_table r) (page_table_physical r) (user_rip r) (user_rsp r) (user_rflags r) (is_user_process r) (user_started r).
Definition setp_user_stack_bottom (v : Z) (r : process_t) : process_t :=
  mk_process (pid r) (p_state r) (exit_code r) (name r) (parent r) (main_thread r) (thread_list r) (p_next r) (image r) (user_stack_top r) v (user_heap_start r) (user_heap_end r) (user_heap_current r) (fd_table r) (page_table r) (page_table_physical r) (user_rip r) (user_rsp r) (user_rflags r) (is_user_process r) (user_started r).
Definition setp_user_heap_start (v : Z) (r : process_t) : process_t :=
  mk_process (pid r) (p_state r) (exit_code r) (name r) (parent r) (main_thread r) (thread_list r) (p_next r) (image r) (user_stack_top r) (user_stack_bottom r) v (user_heap_end r) (user_heap_current r) (fd_table r) (page_table r) (page_table_physical r) (user_rip r) (user_rsp r) (user_rflags r) (is_user_process r) (user_started r).
Definition setp_user_heap_end (v : Z) (r : process_t) : process_t :=
  mk_process (pid r) (p_state r) (exit_code r) (name r) (parent r) (main_thread r) (thread_list r) (p_next r) (image r) (user_stack_top r) (user_stack_bottom r) (user_heap_start r) v (user_heap_current r) (fd_table r) (page_table r) (page_table_physical r) (user_rip r) (user_rsp r) (user_rflags r) (is_user_process r) (user_started r).
Definition setp_user_heap_current (v : Z) (r : process_t) : process_t :=
  mk_process (pid r) (p_state r) (exit_code r) (name r) (parent r) (main_thread r) (thread_list r) (p_next r) (image r) (user_stack_top r) (user_stack_bottom r) (user_heap_start r) (user_heap_end r) v (fd_table r) (page_table r) (page_table_physical r) (user_rip r) (user_rsp r) (user_rflags r) (is_user_process r) (user_started r).
Definition setp_fd_table (v : Fd.fd_table_t) (r : process_t) : process_t :=
  mk_process (pid r) (p_state r) (exit_code r) (name r) (parent r) (main_thread r) (thread_list r) (p_next r) (image r) (user_stack_top r) (user_stack_bottom r) (user_heap_start r) (user_heap_end r) (user_heap_current r) v (page_table r) (page_table_physical r) (user_rip r) (user_rsp r) (user_rflags r) (is_user_process r) (user_started r).
Definition setp_page_table (v : Z) (r : process_t) : process_t :=
  mk_process (pid r) (p_state r) (exit_code r) (name r) (parent r) (main_thread r) (thread_list r) (p_next r) (image r) (user_stack_top r) (user_stack_bottom r) (user_heap_start r) (user_heap_end r) (user_heap_current r) (fd_table r) v (page_table_physical r) (user_rip r) (user_rsp r) (user_rflags r) (is_user_process r) (user_started r).
Definition setp_page_table_physical (v : Z) (r : process_t) : process_t :=
  mk_process (pid r) (p_state r) (exit_code r) (name r) (parent r) (main_thread r) (thread_list r) (p_next r) (image r) (user_stack_top r) (user_stack_bottom r) (user_heap_start r) (user_heap_end r) (user_heap_current r) (fd_table r) (page_table r) v (user_rip r) (user_rsp r) (user_rflags r) (is_user_process r) (user_started r).
Definition setp_user_rip (v : Z) (r : process_t) : process_t :=
  mk_process (pid r) (p_state r) (exit_code r) (name r) (parent r) (main_thread r) (thread_list r) (p_next r) (image r) (user_stack_top r) (user_stack_bottom r) (user_heap_start r) (user_heap_end r) (user_heap_current r) (fd_table r) (page_table r) (page_table_physical r) v (user_rsp r) (user_rflags r) (is_user_process r) (user_started r).
Definition setp_user_rsp (v : Z) (r : process_t) : process_t :=
  mk_process (pid r) (p_state r) (exit_code r) (name r) (parent r) (main_thread r) (thread_list r) (p_next r) (image r) (user_stack_top r) (user_stack_bottom r) (user_heap_start r) (user_heap_end r) (user_heap_current r) (fd_table r) (page_table r) (page_table_physical r) (user_rip r) v (user_rflags r) (is_user_process r) (user_started r).
Definition setp_user_rflags (v : Z) (r : process_t) : process_t :=
  mk_process (pid r) (p_state r) (exit_code r) (name r) (parent r) (main_thread r) (thread_list r) (p_next r) (image r) (user_stack_top r) (user_stack_bottom r) (user_heap_start r) (user_heap_end r) (user_heap_current r) (fd_table r) (page_table r) (page_table_physical r) (user_rip r) (user_rsp r) v (is_user_process r) (user_started r).
Definition setp_is_user_process (v : bool) (r : process_t) : process_t :=
  mk_process (pid r) (p_state r) (exit_code r) (name r) (parent r) (main_thread r) (thread_list r) (p_next r) (image r) (user_stack_top r) (user_stack_bottom r) (user_heap_start r) (user_heap_end r) (user_heap_current r) (fd_table r) (page_table r) (page_table_physical r) (user_rip r) (user_rsp r) (user_rflags r) v (user_started r).
Definition setp_user_started (v : bool) (r : process_t) : process_t :=
  mk_process (pid r) (p_state r) (exit_code r) (name r) (parent r) (main_thread r) (thread_list r) (p_next r) (image r) (user_stack_top r) (user_stack_bottom r) (user_heap_start r) (user_heap_end r) (user_heap_current r) (fd_table r) (page_table r) (page_table_physical r) (user_rip r) (user_rsp r) (user_rflags r) (is_user_process r) v.

Section sys.
Context {K A : Type}.

(** [irq_enabled] is the processor's interrupt flag. *)
Record sys := mk_sys {
  ts : tasks;
  ps : gmap Z process_t;
  heap : K;
  pt : pt_state A;
  next_task_id : Z;
  next_pid : Z;
  process_list : Z;
  ready_queue : Z;
  current_task : Z;
  idle : Z;
  blocked_queue : Z;
  sleep_queue : Z;
  pending_task : Z;
  preemption_ticks : Z;
  preemption_requested : bool;
  boot_context : cpu_context_t;
  rsp0 : Z;
  system_ticks : Z;
  irq_enabled : bool;
}.

Definition with_ts (v : tasks) (r : sys) : sys :=
  mk_sys v (ps r) (heap r) (pt r) (next_task_id r) (next_pid r) (process_list r) (ready_queue r) (current_task r) (idle r) (blocked_queue r) (sleep_queue r) (pending_task r) (preemption_ticks r) (preemption_requested r) (boot_context r) (rsp0 r) (system_ticks r) (irq_enabled r).
Definition with_ps (v : gmap Z process_t) (r : sys) : sys :=
  mk_sys (ts r) v (heap r) (pt r) (next_task_id r) (next_pid r) (process_list r) (ready_queue r) (current_task r) (idle r) (blocked_queue r) (sleep_queue r) (pending_task r) (preemption_ticks r) (preemption_requested r) (boot_context r) (rsp0 r) (system_ticks r) (irq_enabled r).
Definition with_heap (v : K) (r : sys) : sys :=
  mk_sys (ts r) (ps r) v (pt r) (next_task_id r) (next_pid r) (process_list r) (ready_queue r) (current_task r) (idle r) (blocked_queue r) (sleep_queue r) (pending_task r) (preemption_ticks r) (preemption_requested r) (boot_context r) (rsp0 r) (system_ticks r) (irq_enabled r).
Definition with_pt (v : pt_state A) (r : sys) : sys :=
  mk_sys (ts r) (ps r) (heap r) v (next_task_id r) (next_pid r) (process_list r) (ready_queue r) (current_task r) (idle r) (blocked_queue r) (sleep_queue r) (pending_task r) (preemption_ticks r) (preemption_requested r) (boot_context r) (rsp0 r) (system_ticks r) (irq_enabled r).
Definition with_next_task_id (v : Z) (r : sys) : sys :=
  mk_sys (ts r) (ps r) (heap r) (pt r) v (next_pid r) (process_list r) (ready_queue r) (current_task r) (idle r) (blocked_queue r) (sleep_queue r) (pending_task r) (preemption_ticks r) (preemption_requested r) (boot_context r) (rsp0 r) (system_ticks r) (irq_enabled r).
Definition with_next_pid (v : Z) (r : sys) : sys :=
  mk_sys (ts r) (ps r) (heap r) (pt r) (next_task_id r) v (process_list r) (ready_queue r) (current_task r) (idle r) (blocked_queue r) (sleep_queue r) (pending_task r) (preemption_ticks r) (preemption_requested r) (boot_context r) (rsp0 r) (system_ticks r) (irq_enabled r).
Definition with_process_list (v : Z) (r : sys) : sys :=
  mk_sys (ts r) (ps r) (heap r) (pt r) (next_task_id r) (next_pid r) v (ready_queue r) (current_task r) (idle r) (blocked_queue r) (sleep_queue r) (pending_task r) (preemption_ticks r) (preemption_requested r) (boot_context r) (rsp0 r) (system_ticks r) (irq_enabled r).
Definition with_ready_queue (v : Z) (r : sys) : sys :=
  mk_sys (ts r) (ps r) (heap r) (pt r) (next_task_id r) (next_pid r) (process_list r) v (current_task r) (idle r) (blocked_queue r) (sleep_queue r) (pending_task r) (preemption_ticks r) (preemption_requested r) (boot_context r) (rsp0 r) (system_ticks r) (irq_enabled r).
Definition with_current_task (v : Z) (r : sys) : sys :=
  mk_sys (ts r) (ps r) (heap r) (pt r) (next_task_id r) (next_pid r) (process_list r) (ready_queue r) v (idle r) (blocked_queue r) (sleep_queue r) (pending_task r) (preemption_ticks r) (preemption_requested r) (boot_context r) (rsp0 r) (system_ticks r) (irq_enabled r).
Definition with_idle (v : Z) (r : sys) : sys :=
  mk_sys (ts r) (ps r) (heap r) (pt r) (next_task_id r) (next_pid r) (process_list r) (ready_queue r) (current_task r) v (blocked_queue r) (sleep_queue r) (pending_task r) (preemption_ticks r) (preemption_requested r) (boot_context r) (rsp0 r) (system_ticks r) (irq_enabled r).
Definition with_blocked_queue (v : Z) (r : sys) : sys :=
  mk_sys (ts r) (ps r) (heap r) (pt r) (next_task_id r) (next_pid r) (process_list r) (ready_queue r) (current_task r) (idle r) v (sleep_queue r) (pending_task r) (preemption_ticks r) (preemption_requested r) (boot_context r) (rsp0 r) (system_ticks r) (irq_enabled r).
Definition with_sleep_queue (v : Z) (r : sys) : sys :=
  mk_sys (ts r) (ps r) (heap r) (pt r) (next_task_id r) (next_pid r) (process_list r) (ready_queue r) (current_task r) (idle r) (blocked_queue r) v (pending_task r) (preemption_ticks r) (preemption_requested r) (boot_context r) (rsp0 r) (system_ticks r) (irq_enabled r).
Definition with_pending_task (v : Z) (r : sys) : sys :=
  mk_sys (ts r) (ps r) (heap r) (pt r) (next_task_id r) (next_pid r) (process_list r) (ready_queue r) (current_task r) (idle r) (blocked_queue r) (sleep_queue r) v (preemption_ticks r) (preemption_requested r) (boot_context r) (rsp0 r) (system_ticks r) (irq_enabled r).
Definition with_preemption_ticks (v : Z) (r : sys) : sys :=
  mk_sys (ts r) (ps r) (heap r) (pt r) (next_task_id r) (next_pid r) (process_list r) (ready_queue r) (current_task r) (idle r) (blocked_queue r) (sleep_queue r) (pending_task r) v (preemption_requested r) (boot_context r) (rsp0 r) (system_ticks r) (irq_enabled r).
Definition with_preemption_requested (v : bool) (r : sys) : sys :=
  mk_sys (ts r) (ps r) (heap r) (pt r) (next_task_id r) (next_pid r) (process_list r) (ready_queue r) (current_task r) (idle r) (blocked_queue r) (sleep_queue r) (pending_task r) (preemption_ticks r) v (boot_context r) (rsp0 r) (system_ticks r) (irq_enabled r).
Definition with_boot_context (v : cpu_context_t) (r : sys) : sys :=
  mk_sys (ts r) (ps r) (heap r) (pt r) (next_task_id r) (next_pid r) (process_list r) (ready_queue r) (current_task r) (idle r) (blocked_queue r) (sleep_queue r) (pending_task r) (preemption_ticks r) (preemption_requested r) v (rsp0 r) (system_ticks r) (irq_enabled r).
Definition with_rsp0 (v : Z) (r : sys) : sys :=
  mk_sys (ts r) (ps r) (heap r) (pt r) (next_task_id r) (next_pid r) (process_list r) (ready_queue r) (current_task r) (idle r) (blocked_queue r) (sleep_queue r) (pending_task r) (preemption_ticks r) (preemption_requested r) (boot_context r) v (system_ticks r) (irq_enabled r).
Definition with_system_ticks (v : Z) (r : sys) : sys :=
  mk_sys (ts r) (ps r) (heap r) (pt r) (next_task_id r) (next_pid r) (process_list r) (ready_queue r) (current_task r) (idle r) (blocked_queue r) (sleep_queue r) (pending_task r) (preemption_ticks r) (preemption_requested r) (boot_context r) (rsp0 r) v (irq_enabled r).
Definition with_irq_enabled (v : bool) (r : sys) : sys :=
  mk_sys (ts r) (ps r) (heap r) (pt r) (next_task_id r) (next_pid r) (process_list r) (ready_queue r) (current_task r) (idle r) (blocked_queue r) (sleep_queue r) (pending_task r) (preemption_ticks r) (preemption_requested r) (boot_context r) (rsp0 r) (system_ticks r) v.
End sys.
Arguments sys K A : clear implicits.

(** ** [cpu/interrupts.h] *)
Section interrupts.
Context {K A : Type}.
Implicit Types s : sys K A.

Definition interrupt_save s : sys K A * bool := (with_irq_enabled false s, irq_enabled s).
Definition interrupt_restore (enabled : bool) s : sys K A := if enabled then with_irq_enabled true s else s.

(** ** [cpu/tss.c] *)
Definition tss_set_rsp0 (v : Z) s : sys K A := with_rsp0 v s.

(** ** Accesses through task and process pointers *)
Definition update_task (p : Z) (f : task_t -> task_t) s : option (sys K A) :=
  ts' ← update p f (ts s); Some (with_ts ts' s).
Definition update_process (p : Z) (f : process_t -> process_t) s : option (sys K A) :=
  r ← ps s !! p; Some (with_ps (<[p := f r]> (ps s)) s).

(** The kernel's byte memory. *)
Definition kmem s : mem := pt_mem (pt s).
Definition with_kmem (m : mem) s : sys K A := with_pt (with_mem m (pt s)) s.

(** A queue operation on one of the scheduler's queue variables. *)
Definition push_ready (task : Z) s : option (sys K A) :=
  '(ts', h) ← task_queue_push (ready_queue s) task (ts s); Some (with_ready_queue h (with_ts ts' s)).
Definition push_blocked (task : Z) s : option (sys K A) :=
  '(ts', h) ← task_queue_push (blocked_queue s) task (ts s); Some (with_blocked_queue h (with_ts ts' s)).
Definition push_sleep (task : Z) s : option (sys K A) :=
  '(ts', h) ← task_queue_push (sleep_queue s) task (ts s); Some (with_sleep_queue h (with_ts ts' s)).
Definition remove_blocked (task : Z) s : option (sys K A) :=
  '(ts', h) ← task_queue_remove (blocked_queue s) task (ts s); Some (with_blocked_queue h (with_ts ts' s)).
Definition remove_sleep (task : Z) s : option (sys K A) :=
  '(ts', h) ← task_queue_remove (sleep_queue s) task (ts s); Some (with_sleep_queue h (with_ts ts' s)).
End interrupts.
