(* ===== verification/Scheduler.v ===== *)
(** * The scheduler: [scheduler/scheduler.c], [task.c], [context.c], [context.asm]

    Operations on [System.sys].  An operation without a result does not return
    normally: it follows a pointer to no task or process, or loops for ever.
    A context switch leaves the C code: [scheduler_yield] then ends with the
    [switch] the assembly routine performs, and with the [interrupt_restore]
    calls that are left on the suspended stack for when the task resumes. *)
From S2P Require Import Prelude PageAllocator Memory KAlloc Fd Elf TaskQueue PageTable System.
Import Mem Task.
#[local] Open Scope Z_scope.

Module Scheduler.

(** ** [scheduler/config.h], [cpu/gdt.h] *)
Definition KERNEL_STACK_SIZE : Z := 16 * 1024.
Definition SCHEDULER_TIME_SLICE : Z := 10.
Definition KERNEL_CODE_SELECTOR : Z := 0x08.
Definition USER_CODE_SELECTOR : Z := 0x18.
Definition USER_DATA_SELECTOR : Z := 0x20.
Definition KERNEL_TRAMPOLINE_RFLAGS : Z := 0x02.

(** The saved context a switch leaves into: a task's, or [boot_context]. *)
Inductive saved := TaskContext (task : Z) | BootContext.

(** What [context.asm] is called to do. *)
Inductive switch :=
  | ToContext (old : saved) (new : Z)
  | ToInterrupt (old : saved) (interrupt_rsp : Z).

Inductive outcome :=
  | Returned
  | Switched (w : switch) (restores : list bool).

Section scheduler.
Context {K A : Type} `{KAlloc K}.
(** Addresses of assembly routines and of [idle_task], fixed by the linker. *)
Variables (context_resume_from_interrupt idle_task : Z).
Implicit Types s : sys K A.

(** ** [context.c], [task.c] *)

(** The context of the new task, and its stack. *)
Definition context_init (entry stack_top : Z) (m : mem) : mem * cpu_context_t :=
  let m := store64 (u64 (stack_top - 8)) 0 m in
  let m := store64 (u64 (stack_top - 16)) entry m in
  (m, mk_context (u64 (stack_top - 16)) 0 0 0 0 0 0).

Definition task_create (entry : Z) s : sys K A * Z :=
  if entry =? NULL then (s, NULL)
  else
    let '(k, task) := ka_malloc sizeof_task (heap s) in
    let s := with_heap k s in
    if task =? NULL then (s, NULL)
    else
      let '(k, stack) := ka_malloc KERNEL_STACK_SIZE (heap s) in
      let s := with_heap k s in
      if stack =? NULL then (with_heap (ka_free task (heap s)) s, NULL)
      else
        let id := next_task_id s in
        let s := with_next_task_id (u64 (id + 1)) s in
        let '(m, context) := context_init entry (u64 (stack + KERNEL_STACK_SIZE)) (kmem s) in
        let t := mk_task id context NULL entry stack KERNEL_STACK_SIZE TASK_READY NULL 0
                   TASK_RESUME_CONTEXT NULL in
        (with_ts (<[task := t]> (ts s)) (with_kmem m s), task).

(** ** [scheduler.c] *)
Definition scheduler_reset_resume_state (task : Z) s : option (sys K A) :=
  if task =? NULL then Some s
  else update_task task (fun t => set_resume_mode TASK_RESUME_CONTEXT (set_interrupt_rsp NULL t)) s.

Definition scheduler_switch_to (next : Z) s : option (sys K A * Z) :=
  if next =? NULL then Some (s, NULL)
  else
    t ← ts s !! next;
    s ← (if t_process t =? NULL then Some s
         else p ← ps s !! t_process t;
              Some (with_pt (page_table_switch (page_table_physical p) (pt s)) s));
    let s := tss_set_rsp0 (u64 (t_kernel_stack t + t_kernel_stack_size t)) s in
    let s := with_preemption_ticks 0 (with_current_task next s) in
    s ← (if current_task s =? idle s then Some s
         else update_task (current_task s) (set_state TASK_RUNNING) s);
    Some (s, current_task s).

Definition scheduler_init s : option (sys K A) :=
  let s := with_pending_task NULL (with_sleep_queue NULL (with_blocked_queue NULL
             (with_current_task NULL (with_ready_queue NULL s)))) in
  let s := with_preemption_requested false (with_preemption_ticks 0 s) in
  let '(s, task) := task_create idle_task s in
  let s := with_idle task s in
  if task =? NULL then Some s
  else update_task task (fun t => set_next NULL (set_state TASK_IDLE t)) s.

Definition scheduler_add_task (task : Z) s : option (sys K A) :=
  if task =? NULL then Some s
  else
    let '(s, irq) := interrupt_save s in
    s ← update_task task (set_state TASK_READY) s;
    s ← push_ready task s;
    Some (interrupt_restore irq s).

Definition scheduler_get_next_task s : Z :=
  if ready_queue s =? NULL then idle s else ready_queue s.

Definition scheduler_ready_queue_pop s : option (sys K A * Z) :=
  let task := ready_queue s in
  if task =? NULL then Some (s, NULL)
  else
    t ← ts s !! task;
    s ← update_task task (set_next NULL) (with_ready_queue (t_next t) s);
    Some (s, task).

Definition scheduler_schedule s : option (sys K A * Z) :=
  let next := scheduler_get_next_task s in
  if next =? NULL then Some (s, NULL)
  else
    s ← (if next =? idle s then Some s else '(s, _) ← scheduler_ready_queue_pop s; Some s);
    scheduler_switch_to next s.

Definition scheduler_yield s : option (sys K A * outcome) :=
  let '(s, irq) := interrupt_save s in
  let previous := current_task s in
  s ← (if (previous =? NULL) || (previous =? idle s) then Some s
       else
         t ← ts s !! previous;
         if bool_decide (t_state t = TASK_RUNNING) then
           s ← update_task previous (set_state TASK_READY) s;
           s ← scheduler_reset_resume_state previous s;
           push_ready previous s
         else Some s);
  '(s, next) ← scheduler_schedule s;
  if (next =? NULL) || (next =? previous) then Some (interrupt_restore irq s, Returned)
  else
    let old := if previous =? NULL then BootContext else TaskContext previous in
    by_interrupt ← task_resume_uses_interrupt_frame (current_task s) (ts s);
    t ← ts s !! current_task s;
    if (by_interrupt : bool) then
      if t_interrupt_rsp t =? NULL then Some (interrupt_restore irq s, Returned)
      else Some (s, Switched (ToInterrupt old (t_interrupt_rsp t)) [irq])
    else Some (s, Switched (ToContext old (current_task s)) [irq]).

(** A caller of [scheduler_yield] that ends with [interrupt_restore irq]. *)
Definition then_restore (irq : bool) (r : sys K A * outcome) : sys K A * outcome :=
  match r with
  | (s, Returned) => (interrupt_restore irq s, Returned)
  | (s, Switched w l) => (s, Switched w (l ++ [irq]))
  end.

Definition scheduler_block_current_locked s : option (sys K A * outcome) :=
  if (current_task s =? NULL) || (current_task s =? idle s) then Some (s, Returned)
  else
    s ← update_task (current_task s) (set_state TASK_BLOCKED) s;
    s ← push_blocked (current_task s) s;
    scheduler_yield s.

Definition scheduler_block_current s : option (sys K A * outcome) :=
  let '(s, irq) := interrupt_save s in
  r ← scheduler_block_current_locked s;
  Some (then_restore irq r).

Definition scheduler_unblock (task : Z) s : option (sys K A) :=
  if task =? NULL then Some s
  else
    t ← ts s !! task;
    if negb (bool_decide (t_state t = TASK_BLOCKED)) then Some s
    else
      let '(s, irq) := interrupt_save s in
      s ← remove_blocked task s;
      s ← update_task task (set_state TASK_READY) s;
      s ← scheduler_reset_resume_state task s;
      s ← push_ready task s;
      Some (interrupt_restore irq s).

Definition pit_ticks s : Z := system_ticks s.

Definition wake_task (task : Z) s : option (sys K A) :=
  s ← remove_sleep task s;
  s ← update_task task (set_state TASK_READY) s;
  s ← scheduler_reset_resume_state task s;
  push_ready task s.

Fixpoint check_sleeping_loop (fuel : nat) (task : Z) s : option (sys K A) :=
  match fuel with
  | O => None
  | S fuel' =>
    if task =? NULL then Some s
    else
      t ← ts s !! task;
      s ← (if t_wake_tick t <=? pit_ticks s then wake_task task s else Some s);
      check_sleeping_loop fuel' (t_next t) s
  end.

Definition scheduler_check_sleeping_tasks s : option (sys K A) :=
  check_sleeping_loop (S (size (ts s))) (sleep_queue s) s.

Definition scheduler_sleep (ticks : Z) s : option (sys K A * outcome) :=
  if (current_task s =? NULL) || (current_task s =? idle s) then Some (s, Returned)
  else
    let '(s, irq) := interrupt_save s in
    s ← update_task (current_task s) (set_wake_tick (u64 (pit_ticks s + ticks))) s;
    s ← update_task (current_task s) (set_state TASK_SLEEPING) s;
    s ← push_sleep (current_task s) s;
    r ← scheduler_yield s;
    Some (then_restore irq r).

Definition scheduler_tick s : option (sys K A) := scheduler_check_sleeping_tasks s.

(** ** Interrupt frames

    [registers_t] is 15 quadwords ([rdi] the ninth), then the interrupt number,
    the error code, [rip], [cs], [rflags], [rsp] and [ss]: 176 bytes. *)
Definition sizeof_frame : Z := 176.
Definition frame_rdi : Z := 64.
Definition frame_rip : Z := 136.
Definition frame_cs : Z := 144.
Definition frame_rflags : Z := 152.
Definition frame_rsp : Z := 160.
Definition frame_ss : Z := 168.

Definition scheduler_build_context_interrupt_rsp (task : Z) s : option (sys K A * Z) :=
  if task =? NULL then Some (s, NULL)
  else
    t ← ts s !! task;
    if c_rsp (t_context t) =? 0 then Some (s, NULL)
    else
      user ← (if t_process t =? NULL then Some None
              else p ← ps s !! t_process t; Some (if is_user_process p then Some p else None));
      let frame := u64 (c_rsp (t_context t) - sizeof_frame) in
      let put o v m := store64 (u64 (frame + o)) v m in
      let m := k_memset frame 0 sizeof_frame (kmem s) in
      let m := put frame_rdi (u64 (task + offsetof_context)) m in
      let m :=
        match user with
        | Some p =>
          put frame_ss (Z.lor USER_DATA_SELECTOR 3) (put frame_cs (Z.lor USER_CODE_SELECTOR 3)
            (put frame_rflags (user_rflags p) (put frame_rsp (user_rsp p) (put frame_rip (user_rip p) m))))
        | None =>
          put frame_ss 0 (put frame_rsp 0 (put frame_rflags KERNEL_TRAMPOLINE_RFLAGS
            (put frame_cs KERNEL_CODE_SELECTOR (put frame_rip context_resume_from_interrupt m))))
        end in
      Some (with_kmem m s, frame).

(** [context] is only compared with NULL. *)
Definition scheduler_preempt (context : Z) s : sys K A :=
  if context =? NULL then s
  else if current_task s =? NULL then s
  else if current_task s =? idle s then s
  else
    let s := with_preemption_ticks (u64 (preemption_ticks s + 1)) s in
    if preemption_ticks s <? SCHEDULER_TIME_SLICE then s
    else
      let s := with_preemption_ticks 0 s in
      if ready_queue s =? NULL then s else with_preemption_requested true s.

Definition scheduler_save_interrupt_context (interrupt_rsp : Z) s : option (sys K A) :=
  if current_task s =? NULL then Some s
  else if current_task s =? idle s then Some s
  else update_task (current_task s)
         (fun t => set_resume_mode TASK_RESUME_INTERRUPT (set_interrupt_rsp interrupt_rsp t)) s.

(** The stack pointer [next] resumes from. *)
Definition next_interrupt_frame (next : Z) s : option (sys K A * Z) :=
  t ← ts s !! next;
  user ← (if t_process t =? NULL then Some false else p ← ps s !! t_process t; Some (is_user_process p));
  if (user : bool) then
    p ← ps s !! t_process t;
    if negb (user_started p) then
      s ← update_process (t_process t) (setp_user_started true) s;
      scheduler_build_context_interrupt_rsp next s
    else Some (s, t_interrupt_rsp t)
  else
    by_interrupt ← task_resume_uses_interrupt_frame next (ts s);
    if (by_interrupt : bool) then Some (s, t_interrupt_rsp t)
    else scheduler_build_context_interrupt_rsp next s.

Definition scheduler_get_next_interrupt_rsp s : option (sys K A * Z) :=
  if negb (preemption_requested s) then Some (s, NULL)
  else
    let next := scheduler_get_next_task s in
    if (next =? NULL) || (next =? idle s) then Some (with_preemption_requested false s, NULL)
    else
      '(s, next_interrupt_rsp) ← next_interrupt_frame next s;
      if next_interrupt_rsp =? NULL then Some (with_preemption_requested false s, NULL)
      else
        '(s, _) ← scheduler_ready_queue_pop s;
        let previous := current_task s in
        s ← (if (previous =? NULL) || (previous =? idle s) then Some s
             else
               t ← ts s !! previous;
               if bool_decide (t_state t = TASK_RUNNING) then
                 s ← update_task previous (set_state TASK_READY) s;
                 push_ready previous s
               else Some s);
        Some (with_preemption_requested false (with_pending_task next s), next_interrupt_rsp).

Definition scheduler_peek_next_ready_task s : Z :=
  if ready_queue s =? NULL then idle s else ready_queue s.

Definition scheduler_commit_pending_task s : option (sys K A) :=
  if pending_task s =? NULL then Some s
  else
    let s := with_preemption_ticks 0 (with_current_task (pending_task s) s) in
    s ← (if current_task s =? idle s then Some s
         else update_task (current_task s) (set_state TASK_RUNNING) s);
    Some (with_pending_task NULL s).

(** [common_isr_entry] of [cpu/isr.asm] after the handler: the stack pointer the
    interrupt returns through. *)
Definition isr_switch (interrupt_rsp : Z) s : option (sys K A * Z) :=
  s ← scheduler_save_interrupt_context interrupt_rsp s;
  '(s, next) ← scheduler_get_next_interrupt_rsp s;
  if next =? NULL then Some (s, interrupt_rsp)
  else s ← scheduler_commit_pending_task s; Some (s, next).

(** [pit_irq_handler] of [hal/pit.c]. *)
Definition pit_irq_handler (context : Z) s : option (sys K A) :=
  let s := with_system_ticks (u64 (system_ticks s + 1)) s in
  s ← scheduler_tick s;
  Some (scheduler_preempt context s).

(** [task_exit] reads [task->id] for its trace before it tests the pointer.
    When [scheduler_yield] returns, the task halts for good. *)
Definition task_exit s : option (sys K A * outcome) :=
  _ ← ts s !! current_task s;
  s ← update_task (current_task s) (set_state TASK_TERMINATED) s;
  scheduler_yield s.

(** ** [context.asm]

    The registers a switch saves and restores; [rsp] points at the return
    address.  Stack memory below [rsp] is dead and not modelled. *)
Definition context_of (c : saved) s : option cpu_context_t :=
  match c with
  | TaskContext p => t ← ts s !! p; Some (t_context t)
  | BootContext => Some (boot_context s)
  end.

Definition save_context (c : saved) (regs : cpu_context_t) s : option (sys K A) :=
  match c with
  | TaskContext p => update_task p (set_context regs) s
  | BootContext => Some (with_boot_context regs s)
  end.

(** [RESTORE_CONTEXT], [sti], [ret]: the registers and the address resumed at. *)
Definition resume_context (c : cpu_context_t) s : sys K A * cpu_context_t * Z :=
  (with_irq_enabled true s,
   mk_context (u64 (c_rsp c + 8)) (c_rbx c) (c_rbp c) (c_r12 c) (c_r13 c) (c_r14 c) (c_r15 c),
   load64 (kmem s) (c_rsp c)).

Definition context_switch (old : saved) (new : Z) (regs : cpu_context_t) s
    : option (sys K A * cpu_context_t * Z) :=
  s ← save_context old regs s;
  t ← ts s !! new;
  Some (resume_context (t_context t) s).
End scheduler.

End Scheduler.
