(* ===== verification/SchedulerSpec.v ===== *)
(** * The scheduler refines four lists of tasks

    An abstract scheduler [view] is the ready, blocked and sleeping queues as
    lists, the tasks parked elsewhere (mutex waiters), and the current task.
    [sched_inv] relates it to the pointer structures; every operation of
    [Scheduler.v] returns and does to the structures what its abstract
    counterpart does to the view. *)
From S2P Require Import Prelude PageAllocator Memory KAlloc Fd Elf TaskQueue PageTable System Scheduler.
Import Mem Task Scheduler.
#[local] Open Scope Z_scope.

Section spec.
Context {K A : Type} `{KAlloc K}.
Implicit Types s : sys K A.

(** ** Views *)
Record view := mk_view {
  v_ready : list Z; v_blocked : list Z; v_sleeping : list Z; v_parked : list Z;
  v_current : Z;
  (** the current task is running: it is neither idle nor about to leave *)
  v_running : bool;
  v_idle : Z;
}.

(** Takes the next task to run: the head of the ready queue, or the idle task. *)
Definition abs_dispatch (v : view) : view :=
  match v_ready v with
  | [] => mk_view [] (v_blocked v) (v_sleeping v) (v_parked v) (v_idle v) false (v_idle v)
  | n :: l => mk_view l (v_blocked v) (v_sleeping v) (v_parked v) n true (v_idle v)
  end.

Definition abs_requeue (v : view) : view :=
  if v_running v
  then mk_view (v_ready v ++ [v_current v]) (v_blocked v) (v_sleeping v) (v_parked v) (v_current v) false (v_idle v)
  else v.

Definition abs_yield (v : view) : view := abs_dispatch (abs_requeue v).

Definition abs_add (p : Z) (v : view) : view :=
  mk_view (v_ready v ++ [p]) (v_blocked v) (v_sleeping v) (v_parked v) (v_current v) (v_running v) (v_idle v).

Definition abs_block (v : view) : view :=
  abs_dispatch (mk_view (v_ready v) (v_blocked v ++ [v_current v]) (v_sleeping v) (v_parked v)
                  (v_current v) false (v_idle v)).

Definition abs_sleep (v : view) : view :=
  abs_dispatch (mk_view (v_ready v) (v_blocked v) (v_sleeping v ++ [v_current v]) (v_parked v)
                  (v_current v) false (v_idle v)).

Definition abs_unblock (p : Z) (v : view) : view :=
  mk_view (v_ready v ++ [p]) (filter (.≠ p) (v_blocked v)) (v_sleeping v) (filter (.≠ p) (v_parked v))
    (v_current v) (v_running v) (v_idle v).

(** ** Invariant *)

(** The tasks without their queue links. *)
Definition U s : tasks := unlinked (ts s).

Definition linked s (R B S : list Z) : Prop :=
  q_rep (ts s) (ready_queue s) R /\ q_rep (ts s) (blocked_queue s) B /\
  q_rep (ts s) (sleep_queue s) S /\ NoDup (R ++ B ++ S).

Definition in_state s (st : task_state_t) (p : Z) : Prop := exists u, U s !! p = Some u /\ t_state u = st.

Record sched_inv s (v : view) : Prop := {
  si_linked : linked s (v_ready v) (v_blocked v) (v_sleeping v);
  si_parked : forall p, p ∈ v_parked v -> p ∉ v_blocked v;
  si_parked_nodup : NoDup (v_parked v);
  si_ready : Forall (in_state s TASK_READY) (v_ready v);
  si_blocked : Forall (in_state s TASK_BLOCKED) (v_blocked v);
  si_sleeping : Forall (in_state s TASK_SLEEPING) (v_sleeping v);
  si_parked_state : Forall (in_state s TASK_BLOCKED) (v_parked v);
  si_null : U s !! NULL = None;
  si_idle : v_idle v = idle s /\ in_state s TASK_IDLE (idle s);
  si_current : v_current v = current_task s /\ (current_task s <> NULL -> is_Some (U s !! current_task s));
  si_running p u : U s !! p = Some u -> t_state u = TASK_RUNNING <-> p = v_current v /\ v_running v = true;
  si_here : v_running v = true -> v_current v <> NULL;
  si_procs p u : U s !! p = Some u -> t_process u = NULL \/ is_Some (ps s !! t_process u);
  si_pending : pending_task s = NULL;
}.

(** Fields scheduling never changes. *)
Definition frame s s' : Prop :=
  idle s' = idle s /\ ps s' = ps s /\ heap s' = heap s /\ next_task_id s' = next_task_id s /\
  next_pid s' = next_pid s /\ process_list s' = process_list s /\ boot_context s' = boot_context s /\
  system_ticks s' = system_ticks s /\ pending_task s' = pending_task s.

(** Queue operations and updates of a task change nothing else either. *)
Definition frame_q s s' : Prop :=
  frame s s' /\ current_task s' = current_task s /\ pt s' = pt s /\ rsp0 s' = rsp0 s /\
  preemption_ticks s' = preemption_ticks s /\ preemption_requested s' = preemption_requested s /\
  irq_enabled s' = irq_enabled s.

Lemma frame_refl s : frame s s.
Proof. done. Qed.
Lemma frame_trans s1 s2 s3 : frame s1 s2 -> frame s2 s3 -> frame s1 s3.
Proof. unfold frame. intuition congruence. Qed.
Lemma frame_q_trans s1 s2 s3 : frame_q s1 s2 -> frame_q s2 s3 -> frame_q s1 s3.
Proof. unfold frame_q, frame. intuition congruence. Qed.

(** ** Steps *)
Definition link_free (f : task_t -> task_t) : Prop := forall t n, f (set_next n t) = set_next n (f t).

Lemma U_lookup s p u : U s !! p = Some u -> exists t, ts s !! p = Some t /\ u = set_next NULL t.
Proof.
  unfold U, unlinked. rewrite lookup_fmap. destruct (ts s !! p) as [t|]; [| done].
  intros [= <-]. by exists t.
Qed.

Lemma link_free_next f t : link_free f -> t_next (f t) = t_next t.
Proof.
  intros Hf. replace t with (set_next (t_next t) t) at 1 by by destruct t. by rewrite Hf.
Qed.

Lemma update_task_spec p f s u R B S :
  link_free f -> U s !! p = Some u -> linked s R B S ->
  exists s', update_task p f s = Some s' /\ U s' = <[p := f u]> (U s) /\ linked s' R B S /\ frame_q s s'.
Proof.
  intros Hf Hu (HR & HB & HS & Hnd). destruct (U_lookup _ _ _ Hu) as (t & Ht & ->).
  unfold update_task, update. rewrite Ht. cbn [mbind option_bind].
  eexists. split; [done |].
  assert (Hext : forall h l, q_rep (ts s) h l -> q_rep (<[p := f t]> (ts s)) h l).
  { intros h l. apply q_rep_ext. intros q _. rewrite lookup_insert. case_decide as E; [subst q | done].
    rewrite Ht. simpl. f_equal. by apply link_free_next. }
  split_and!.
  - unfold U, unlinked. simpl. rewrite fmap_insert. f_equal. by rewrite Hf.
  - unfold linked. simpl. split_and!; auto.
  - unfold frame_q, frame. done.
Qed.

Lemma U_of_ts s s' : unlinked (ts s') = unlinked (ts s) -> U s' = U s.
Proof. done. Qed.

Lemma push_ready_spec s p R B S :
  linked s R B S -> p ∉ R ++ B ++ S -> p <> NULL -> is_Some (U s !! p) ->
  exists s', push_ready p s = Some s' /\ U s' = U s /\ linked s' (R ++ [p]) B S /\ frame_q s s'.
Proof.
  intros (HR & HB & HS & Hnd) Hp Hp0 [u Hu]. destruct (U_lookup _ _ _ Hu) as (t & Ht & ->).
  assert (Hnd' : NoDup ((R ++ [p]) ++ B ++ S)).
  { rewrite <- app_assoc. apply NoDup_app in Hnd as (? & Hd & Hnd). apply NoDup_app. split_and!; [done | |].
    - intros x Hx [->|Hx2]%elem_of_cons; [set_solver | by apply (Hd x)].
    - simpl. apply NoDup_cons. split; [set_solver | done]. }
  destruct (push_spec (ts s) (ready_queue s) R p t HR) as (ts' & h' & E & Hrep & Hun & Hfr); [| done.. |].
  { by apply NoDup_app in Hnd' as (? & _). }
  unfold push_ready. rewrite E. cbn [mbind option_bind]. eexists. split; [done |].
  split_and!; [done | | by unfold frame_q, frame]. unfold linked. simpl. split_and!; [done | | |done].
  all: eapply q_rep_ext; [| eassumption]; intros q Hq; rewrite Hfr; [done |].
  all: apply NoDup_app in Hnd' as (_ & Hd & _); intros Hq'; apply (Hd q Hq'); set_solver.
Qed.

Lemma push_blocked_spec s p R B S :
  linked s R B S -> p ∉ R ++ B ++ S -> p <> NULL -> is_Some (U s !! p) ->
  exists s', push_blocked p s = Some s' /\ U s' = U s /\ linked s' R (B ++ [p]) S /\ frame_q s s'.
Proof.
  intros (HR & HB & HS & Hnd) Hp Hp0 [u Hu]. destruct (U_lookup _ _ _ Hu) as (t & Ht & ->).
  assert (Hnd' : NoDup (R ++ (B ++ [p]) ++ S)).
  { rewrite (Permutation_app_comm B [p]). simpl. rewrite <- Permutation_middle. apply NoDup_cons.
    split; [set_solver | done]. }
  destruct (push_spec (ts s) (blocked_queue s) B p t HB) as (ts' & h' & E & Hrep & Hun & Hfr); [| done.. |].
  { apply NoDup_app in Hnd' as (_ & _ & Hnd'). by apply NoDup_app in Hnd' as (? & _). }
  unfold push_blocked. rewrite E. cbn [mbind option_bind]. eexists. split; [done |].
  split_and!; [done | | by unfold frame_q, frame]. unfold linked. simpl. split_and!; [| done | | done].
  all: eapply q_rep_ext; [| eassumption]; intros q Hq; rewrite Hfr; [done |].
  all: apply NoDup_app in Hnd' as (_ & Hd & Hnd'); apply NoDup_app in Hnd' as (_ & Hd' & _); intros Hq'.
  - apply (Hd q Hq). set_solver.
  - by apply (Hd' q Hq').
Qed.

Lemma push_sleep_spec s p R B S :
  linked s R B S -> p ∉ R ++ B ++ S -> p <> NULL -> is_Some (U s !! p) ->
  exists s', push_sleep p s = Some s' /\ U s' = U s /\ linked s' R B (S ++ [p]) /\ frame_q s s'.
Proof.
  intros (HR & HB & HS & Hnd) Hp Hp0 [u Hu]. destruct (U_lookup _ _ _ Hu) as (t & Ht & ->).
  assert (Hnd' : NoDup (R ++ B ++ S ++ [p])).
  { rewrite (Permutation_app_comm S [p]). simpl. rewrite <- !Permutation_middle. apply NoDup_cons.
    split; [set_solver | done]. }
  destruct (push_spec (ts s) (sleep_queue s) S p t HS) as (ts' & h' & E & Hrep & Hun & Hfr); [| done.. |].
  { apply NoDup_app in Hnd' as (_ & _ & Hnd'). by apply NoDup_app in Hnd' as (_ & _ & ?). }
  unfold push_sleep. rewrite E. cbn [mbind option_bind]. eexists. split; [done |].
  split_and!; [done | | by unfold frame_q, frame]. unfold linked. simpl. split_and!; [| | done | done].
  all: eapply q_rep_ext; [| eassumption]; intros q Hq; rewrite Hfr; [done |].
  all: apply NoDup_app in Hnd' as (_ & Hd & Hnd'); apply NoDup_app in Hnd' as (_ & Hd' & _); intros Hq'.
  - apply (Hd q Hq). set_solver.
  - by apply (Hd' q Hq).
Qed.

Lemma nodup_filter3 (R B S B' : list Z) : NoDup (R ++ B ++ S) -> B' ⊆ B -> NoDup B' -> NoDup (R ++ B' ++ S).
Proof.
  intros Hnd Hsub HB. apply NoDup_app in Hnd as (? & Hd & Hnd). apply NoDup_app in Hnd as (? & Hd' & ?).
  apply NoDup_app. split; [done |]. split; [set_solver |]. apply NoDup_app. split_and!; [done | set_solver | done].
Qed.

Lemma remove_blocked_spec s p R B S :
  linked s R B S -> p <> NULL ->
  exists s', remove_blocked p s = Some s' /\ U s' = U s /\ linked s' R (filter (.≠ p) B) S /\ frame_q s s'.
Proof.
  intros (HR & HB & HS & Hnd) Hp.
  pose proof Hnd as (_ & Hd & Hnd1)%NoDup_app. apply NoDup_app in Hnd1 as (HBn & Hd' & _).
  destruct (remove_spec (ts s) (blocked_queue s) B p HB HBn Hp) as (ts' & h' & E & Hrep & Hun & Hfr & _).
  unfold remove_blocked. rewrite E. cbn [mbind option_bind]. eexists. split; [done |].
  split_and!; [done | | by unfold frame_q, frame]. unfold linked. simpl. split_and!; [| done | |].
  3: { apply (nodup_filter3 _ B); [done | | by apply NoDup_filter]. intros x Hx. by apply list_elem_of_filter in Hx as [_ ?]. }
  all: eapply q_rep_ext; [| eassumption]; intros q Hq; rewrite Hfr; [done |]; intros Hq'.
  - apply (Hd q Hq). set_solver.
  - by apply (Hd' q Hq').
Qed.

Lemma remove_sleep_spec s p R B S :
  linked s R B S -> p <> NULL ->
  exists s', remove_sleep p s = Some s' /\ U s' = U s /\ linked s' R B (filter (.≠ p) S) /\ frame_q s s'.
Proof.
  intros (HR & HB & HS & Hnd) Hp.
  pose proof Hnd as (HRn & Hd & Hnd1)%NoDup_app. apply NoDup_app in Hnd1 as (HBn & Hd' & HSn).
  destruct (remove_spec (ts s) (sleep_queue s) S p HS HSn Hp) as (ts' & h' & E & Hrep & Hun & Hfr & _).
  unfold remove_sleep. rewrite E. cbn [mbind option_bind]. eexists. split; [done |].
  assert (Hsub : forall x, x ∈ filter (.≠ p) S -> x ∈ S) by (intros x Hx; by apply list_elem_of_filter in Hx as [_ ?]).
  split_and!; [done | | by unfold frame_q, frame]. unfold linked. simpl. split_and!; [| | done |].
  3: { apply NoDup_app. split; [done |]. split; [set_solver |]. apply NoDup_app.
       split_and!; [done | set_solver | by apply NoDup_filter]. }
  all: eapply q_rep_ext; [| eassumption]; intros q Hq; rewrite Hfr; [done |]; intros Hq'.
  - apply (Hd q Hq). set_solver.
  - by apply (Hd' q Hq).
Qed.

Lemma pop_spec s n R B S :
  linked s (n :: R) B S ->
  exists s', scheduler_ready_queue_pop s = Some (s', n) /\ U s' = U s /\ linked s' R B S /\ frame_q s s'.
Proof.
  intros ((Hh & Hn & t & Ht & HR) & HB & HS & Hnd).
  unfold scheduler_ready_queue_pop. rewrite Hh. destruct (Z.eqb_spec n NULL); [done |].
  rewrite Ht. cbn [mbind option_bind]. unfold update_task, update. cbn [ts with_ready_queue].
  rewrite Ht. cbn [mbind option_bind]. eexists. split; [done |].
  simpl in Hnd. apply NoDup_cons in Hnd as [Hnn Hnd].
  split_and!; [| | by unfold frame_q, frame].
  - apply U_of_ts. apply (update_unlinked n (set_next NULL)); [done |]. unfold update. by rewrite Ht.
  - unfold linked. simpl. split_and!; [| | | done].
    all: eapply q_rep_ext; [| eassumption]; intros q Hq; rewrite lookup_insert_ne; [done |]; intros <-; set_solver.
Qed.

(** Dispatching a task: address space, kernel stack, current task. *)
Lemma switch_to_spec s n u R B S :
  linked s R B S -> n <> NULL -> U s !! n = Some u ->
  (t_process u = NULL \/ is_Some (ps s !! t_process u)) ->
  exists s', scheduler_switch_to n s = Some (s', n) /\
    U s' = (if decide (n = idle s) then U s else <[n := set_state TASK_RUNNING u]> (U s)) /\
    linked s' R B S /\ frame s s' /\ current_task s' = n /\ preemption_ticks s' = 0 /\
    preemption_requested s' = preemption_requested s /\ irq_enabled s' = irq_enabled s /\
    rsp0 s' = u64 (t_kernel_stack u + t_kernel_stack_size u) /\
    pt s' = match ps s !! t_process u with
            | Some p => if t_process u =? NULL then pt s else page_table_switch (page_table_physical p) (pt s)
            | None => pt s
            end.
Proof.
  intros Hl Hn Hu Hp. destruct (U_lookup _ _ _ Hu) as (t & Ht & ->). cbn [t_process set_next] in *.
  unfold scheduler_switch_to. destruct (Z.eqb_spec n NULL); [done |]. rewrite Ht. cbn [mbind option_bind].
  set (s1 := with_pt (match ps s !! t_process t with
            | Some p => if t_process t =? NULL then pt s else page_table_switch (page_table_physical p) (pt s)
            | None => pt s
            end) s).
  assert (E1 : (if t_process t =? NULL then Some s else p ← ps s !! t_process t;
      Some (with_pt (page_table_switch (page_table_physical p) (pt s)) s)) = Some s1).
  { unfold s1. destruct (Z.eqb_spec (t_process t) NULL) as [|Hz].
    - destruct (ps s !! t_process t); by destruct s.
    - destruct Hp as [?|[p Hp]]; [done |]. by rewrite Hp. }
  rewrite E1. cbn [mbind option_bind]. clear E1.
  set (s2 := with_preemption_ticks 0 (with_current_task n (tss_set_rsp0 (u64 (t_kernel_stack t + t_kernel_stack_size t)) s1))).
  assert (Hl2 : linked s2 R B S) by done.
  change (current_task s2) with n. change (idle s2) with (idle s).
  destruct (Z.eqb_spec n (idle s)) as [->|Hni]; cbn [mbind option_bind].
  - eexists. split; [done |]. rewrite decide_True by done. split_and!; done.
  - destruct (update_task_spec n (set_state TASK_RUNNING) s2 _ R B S ltac:(done) Hu Hl2) as (s3 & E & HU & Hl3 & Hfr).
    rewrite E. cbn [mbind option_bind]. destruct Hfr as ((? & ? & ? & ? & ? & ? & ? & ? & ?) & Hc & ? & ? & ? & ? & ?).
    exists s3. rewrite Hc. rewrite decide_False by done. split; [done |].
    split_and!; try done.
Qed.

(** What scheduling keeps of every task: all but its state, its resume
    information and its link. *)
Definition core (u : task_t) : task_t :=
  set_interrupt_rsp NULL (set_resume_mode TASK_RESUME_CONTEXT (set_state TASK_READY (set_next NULL u))).
Definition kept s s' : Prop := core <$> U s' = core <$> U s.

Lemma kept_refl s : kept s s.
Proof. done. Qed.
Lemma kept_trans s1 s2 s3 : kept s1 s2 -> kept s2 s3 -> kept s1 s3.
Proof. unfold kept. congruence. Qed.

Lemma kept_insert s s' p u u' :
  U s !! p = Some u -> U s' = <[p := u']> (U s) -> core u' = core u -> kept s s'.
Proof.
  intros Hu HU Hc. unfold kept. rewrite HU, fmap_insert, Hc. apply insert_id. by rewrite lookup_fmap, Hu.
Qed.

Lemma kept_lookup s s' p u :
  kept s s' -> U s !! p = Some u -> exists u', U s' !! p = Some u' /\ core u' = core u.
Proof.
  intros Hk Hu. assert (E : (core <$> U s') !! p = (core <$> U s) !! p) by by rewrite Hk.
  rewrite !lookup_fmap, Hu in E. destruct (U s' !! p) as [u'|]; [| done]. apply (inj Some) in E. by exists u'.
Qed.

(** The tasks stay the same objects. *)
Definition same_tasks s s' : Prop := dom (U s') = dom (U s).

Lemma same_tasks_trans s1 s2 s3 : same_tasks s1 s2 -> same_tasks s2 s3 -> same_tasks s1 s3.
Proof. unfold same_tasks. congruence. Qed.

Lemma kept_same_tasks s s' : kept s s' -> same_tasks s s'.
Proof. intros Hk. unfold same_tasks. rewrite <- (dom_fmap_L core), Hk. apply dom_fmap_L. Qed.

Lemma insert_same_tasks s s' p u u' : U s !! p = Some u -> U s' = <[p := u']> (U s) -> same_tasks s s'.
Proof. intros Hu HU. unfold same_tasks. rewrite HU. apply dom_insert_lookup_L. by rewrite Hu. Qed.

Lemma same_tasks_lookup s s' p : same_tasks s s' -> is_Some (ts s !! p) -> is_Some (ts s' !! p).
Proof.
  unfold same_tasks, U, unlinked. rewrite !dom_fmap_L. intros Hd Hp. apply elem_of_dom. rewrite Hd. by apply elem_of_dom.
Qed.

(** ** The invariant under a change of one task *)
Lemma Forall_update s s' st l l' p u' :
  U s' = <[p := u']> (U s) -> Forall (in_state s st) l ->
  (forall q, q ∈ l' -> (q = p /\ t_state u' = st) \/ (q <> p /\ q ∈ l)) ->
  Forall (in_state s' st) l'.
Proof.
  intros HU Hl Hl'. apply Forall_forall. intros q Hq. unfold in_state. rewrite HU.
  destruct (Hl' q Hq) as [[-> Hst]|[Hne Hin]].
  - exists u'. by rewrite lookup_insert_eq.
  - rewrite lookup_insert_ne by done. by apply (proj1 (Forall_forall _ _) Hl).
Qed.

Lemma not_in_list s st l p u : Forall (in_state s st) l -> U s !! p = Some u -> t_state u <> st -> p ∉ l.
Proof.
  intros Hl Hu Hst Hp. apply (proj1 (Forall_forall _ _) Hl) in Hp as (u' & Hu' & Hst').
  by simplify_eq.
Qed.

(** A task of no listed state is in no queue. *)
Lemma unqueued s v p u :
  sched_inv s v -> U s !! p = Some u -> t_state u <> TASK_READY -> t_state u <> TASK_BLOCKED ->
  t_state u <> TASK_SLEEPING ->
  (p ∉ v_ready v ++ v_blocked v ++ v_sleeping v) /\ (p ∉ v_parked v).
Proof.
  intros Hi Hu H1 H2 H3. split; [| eapply not_in_list; [apply (si_parked_state _ _ Hi) | done | done]].
  rewrite !elem_of_app. intros [Hp|[Hp|Hp]]; revert Hp.
  - by eapply not_in_list; [apply (si_ready _ _ Hi) | |].
  - by eapply not_in_list; [apply (si_blocked _ _ Hi) | |].
  - by eapply not_in_list; [apply (si_sleeping _ _ Hi) | |].
Qed.

Lemma inv_not_null s v p u : sched_inv s v -> U s !! p = Some u -> p <> NULL.
Proof. intros Hi Hu ->. by rewrite (si_null _ _ Hi) in Hu. Qed.

(** One task of the state [s] changes to [u'], the lists to those of [v']. *)
Lemma inv_update s s' v v' p u u' :
  sched_inv s v -> U s !! p = Some u -> U s' = <[p := u']> (U s) ->
  linked s' (v_ready v') (v_blocked v') (v_sleeping v') ->
  ps s' = ps s -> pending_task s' = pending_task s -> idle s' = idle s ->
  t_process u' = t_process u ->
  v_idle v' = v_idle v -> p <> idle s ->
  v_current v' = current_task s' -> (current_task s' <> NULL -> is_Some (U s !! current_task s')) ->
  (t_state u' = TASK_RUNNING <-> p = v_current v' /\ v_running v' = true) ->
  (forall q, q <> p -> (q = v_current v /\ v_running v = true) <-> (q = v_current v' /\ v_running v' = true)) ->
  (v_running v' = true -> v_current v' <> NULL) ->
  (forall q, q ∈ v_ready v' -> (q = p /\ t_state u' = TASK_READY) \/ (q <> p /\ q ∈ v_ready v)) ->
  (forall q, q ∈ v_blocked v' -> (q = p /\ t_state u' = TASK_BLOCKED) \/ (q <> p /\ q ∈ v_blocked v)) ->
  (forall q, q ∈ v_sleeping v' -> (q = p /\ t_state u' = TASK_SLEEPING) \/ (q <> p /\ q ∈ v_sleeping v)) ->
  (forall q, q ∈ v_parked v' -> q <> p /\ q ∈ v_parked v) -> NoDup (v_parked v') ->
  sched_inv s' v'.
Proof.
  intros Hi Hu HU Hl Hps Hpend Hid Hproc Hvid Hpid Hvc Hc Hrun Hrun' Hhere Hready Hblocked Hsleeping Hparked Hpnd.
  split; try done.
  - intros q Hq Hqb. destruct (Hparked q Hq) as [Hqp Hq']. destruct (Hblocked q Hqb) as [[? _]|[_ Hqb']]; [done |].
    by apply (si_parked _ _ Hi q).
  - eapply Forall_update; [done | apply (si_ready _ _ Hi) | done].
  - eapply Forall_update; [done | apply (si_blocked _ _ Hi) | done].
  - eapply Forall_update; [done | apply (si_sleeping _ _ Hi) | done].
  - eapply Forall_update; [done | apply (si_parked_state _ _ Hi) | auto].
  - rewrite HU, lookup_insert_ne; [apply (si_null _ _ Hi) |]. by eapply inv_not_null.
  - destruct (si_idle _ _ Hi) as [Hvi (w & Hw & Hws)]. split; [congruence |].
    exists w. rewrite Hid, HU, lookup_insert_ne by done. done.
  - split; [done |]. intros Hne. rewrite HU. apply lookup_insert_is_Some'. right. auto.
  - intros q w. rewrite HU. intros [[<- <-]|[Hne Hw]]%lookup_insert_Some; [done |].
    rewrite (si_running _ _ Hi q w Hw). apply Hrun'. done.
  - intros q w. rewrite HU, Hps. intros [[<- <-]|[Hne Hw]]%lookup_insert_Some; [rewrite Hproc |]; by eapply si_procs.
  - rewrite Hpend. apply (si_pending _ _ Hi).
Qed.

(** ** Requeueing the running task *)
Definition requeue_current s : option (sys K A) :=
  if (current_task s =? NULL) || (current_task s =? idle s) then Some s
  else
    t ← ts s !! current_task s;
    if bool_decide (t_state t = TASK_RUNNING) then
      s' ← update_task (current_task s) (set_state TASK_READY) s;
      s' ← scheduler_reset_resume_state (current_task s) s';
      push_ready (current_task s) s'
    else Some s.

Definition reset (u : task_t) : task_t := set_resume_mode TASK_RESUME_CONTEXT (set_interrupt_rsp NULL u).

Lemma running_current s v :
  sched_inv s v -> v_running v = true ->
  v_current v <> idle s /\ exists u, U s !! v_current v = Some u /\ t_state u = TASK_RUNNING.
Proof.
  intros Hi Hr. pose proof (si_here _ _ Hi Hr) as Hne. destruct (si_current _ _ Hi) as [Hc Hsome].
  destruct (Hsome ltac:(congruence)) as [u Hu]. rewrite <- Hc in Hu.
  pose proof (proj2 (si_running _ _ Hi _ _ Hu) (conj eq_refl Hr)) as Hst.
  split; [| by exists u]. intros E. destruct (si_idle _ _ Hi) as [_ (w & Hw & Hws)].
  rewrite <- E in Hw. congruence.
Qed.

Lemma not_running_state s v t :
  sched_inv s v -> v_running v = false -> ts s !! current_task s = Some t -> t_state t <> TASK_RUNNING.
Proof.
  intros Hi Hr Ht Hst. assert (Hu : U s !! current_task s = Some (set_next NULL t))
    by (unfold U, unlinked; by rewrite lookup_fmap, Ht).
  destruct (si_running _ _ Hi _ _ Hu) as [Hx _]. destruct (Hx Hst) as [_ ?]. congruence.
Qed.

(** The running task [c] becomes ready and goes to the end of the ready queue. *)
Lemma requeue_inv s s' v u u' :
  sched_inv s v -> v_running v = true -> U s !! v_current v = Some u ->
  U s' = <[v_current v := u']> (U s) -> frame_q s s' -> t_state u' = TASK_READY ->
  t_process u' = t_process u ->
  linked s' (v_ready v ++ [v_current v]) (v_blocked v) (v_sleeping v) ->
  sched_inv s' (abs_requeue v).
Proof.
  intros Hi Hr Hu HU Hf Hst Hpr Hl. destruct (running_current s v Hi Hr) as (Hci & w & Hw & Hws).
  assert (w = u) as -> by congruence.
  destruct (unqueued s v _ u Hi Hu) as [Hq Hpk]; [by rewrite Hws .. |].
  destruct (si_current _ _ Hi) as [Hc _].
  destruct Hf as ((Hid & Hps & _ & _ & _ & _ & _ & _ & Hpend) & Hct & _).
  unfold abs_requeue. rewrite Hr.
  apply (inv_update s s' v _ (v_current v) u u'); try done; cbn.
  - by rewrite Hct.
  - rewrite Hct, <- Hc. by rewrite Hu.
  - rewrite Hst. split; [done |]. by intros [_ ?].
  - intros q Hqc. rewrite Hr. split; [by intros [? _] | by intros [_ ?]].
  - intros q [Hin| ->%list_elem_of_singleton]%elem_of_app; [right | by left].
    split; [| done]. intros ->. set_solver.
  - intros q Hin. right. split; [| done]. intros ->. set_solver.
  - intros q Hin. right. split; [| done]. intros ->. set_solver.
  - intros q Hin. split; [| done]. by intros ->.
  - apply (si_parked_nodup _ _ Hi).
Qed.

Lemma requeue_spec s v :
  sched_inv s v ->
  exists s', requeue_current s = Some s' /\ sched_inv s' (abs_requeue v) /\ frame_q s s' /\
    (v_running v = true -> exists u, U s !! v_current v = Some u /\
       U s' = <[v_current v := reset (set_state TASK_READY u)]> (U s)) /\
    (v_running v = false -> s' = s).
Proof.
  intros Hi. destruct (si_current _ _ Hi) as [Hc Hsome]. unfold requeue_current, abs_requeue.
  destruct (v_running v) eqn:Hr.
  - destruct (running_current s v Hi Hr) as (Hci & u & Hu & Hst). pose proof (si_here _ _ Hi Hr) as Hne.
    rewrite Hc in *.
    destruct (unqueued s v _ u Hi Hu) as [Hq Hpk]; [by rewrite Hst .. |].
    destruct (Z.eqb_spec (current_task s) NULL); [done |].
    destruct (Z.eqb_spec (current_task s) (idle s)); [done |]. cbn [orb].
    destruct (U_lookup _ _ _ Hu) as (t & Ht & Eut). rewrite Ht. cbn [mbind option_bind].
    rewrite bool_decide_true by (by subst u).
    destruct (update_task_spec _ (set_state TASK_READY) s u _ _ _ ltac:(done) Hu (si_linked _ _ Hi))
      as (s1 & -> & HU1 & Hl1 & Hf1). cbn [mbind option_bind]. unfold scheduler_reset_resume_state.
    destruct (Z.eqb_spec (current_task s) NULL); [done |].
    destruct (update_task_spec (current_task s) reset s1 (set_state TASK_READY u) _ _ _ ltac:(done)
      ltac:(by rewrite HU1, lookup_insert_eq) Hl1) as (s2 & E2 & HU2 & Hl2 & Hf2).
    unfold reset in E2. rewrite E2. cbn [mbind option_bind].
    rewrite HU1, insert_insert_eq in HU2.
    destruct (push_ready_spec s2 (current_task s) _ _ _ Hl2 Hq Hne) as (s3 & -> & HU3 & Hl3 & Hf3).
    { rewrite HU2, lookup_insert_eq. done. }
    pose proof (frame_q_trans _ _ _ (frame_q_trans _ _ _ Hf1 Hf2) Hf3) as Hf.
    exists s3. split; [done |]. split; [| split; [done | split; [intros _ | done]]].
    2: { exists u. split; [done |]. by rewrite HU3, HU2. }
    pose proof (requeue_inv s s3 v u (reset (set_state TASK_READY u)) Hi Hr) as Hx.
    unfold abs_requeue in Hx. rewrite Hr, Hc in Hx. apply Hx; try done. by rewrite HU3, HU2.
  - exists s. split; [| split; [done | split; [by unfold frame_q, frame | done]]].
    destruct (Z.eqb_spec (current_task s) NULL); [done |].
    destruct (Z.eqb_spec (current_task s) (idle s)); [done |]. cbn [orb].
    destruct (Hsome ltac:(done)) as [u Hu]. destruct (U_lookup _ _ _ Hu) as (t & Ht & _).
    rewrite Ht. cbn [mbind option_bind]. rewrite bool_decide_false; [done |].
    by eapply not_running_state.
Qed.

(** ** Dispatching *)

(** What [scheduler_switch_to] sets up for task [n]: the kernel stack of its
    interrupts and, for a task of a process, the process's address space. *)
Definition dispatched s s' (n : Z) : Prop :=
  exists u, U s !! n = Some u /\ rsp0 s' = u64 (t_kernel_stack u + t_kernel_stack_size u) /\
    pt s' = match ps s !! t_process u with
            | Some p => if t_process u =? NULL then pt s else page_table_switch (page_table_physical p) (pt s)
            | None => pt s
            end.

Lemma ready_head s v : sched_inv s v -> ready_queue s = hd NULL (v_ready v).
Proof. intros Hi. destruct (si_linked _ _ Hi) as (Hl & _). by destruct (v_ready v); [| destruct Hl]. Qed.

Lemma next_task_eq s v : sched_inv s v -> scheduler_get_next_task s = v_current (abs_dispatch v).
Proof.
  intros Hi. unfold scheduler_get_next_task, abs_dispatch. rewrite (ready_head s v Hi).
  destruct (si_idle _ _ Hi) as [Hid _]. destruct (si_linked _ _ Hi) as (Hl & _).
  destruct (v_ready v) as [|n R]; simpl; [by rewrite Hid |].
  destruct Hl as (_ & Hn & _). by destruct (Z.eqb_spec n NULL).
Qed.

Lemma schedule_spec s v :
  sched_inv s v -> v_running v = false ->
  exists s', scheduler_schedule s = Some (s', v_current (abs_dispatch v)) /\
    sched_inv s' (abs_dispatch v) /\ frame s s' /\ dispatched s s' (v_current (abs_dispatch v)) /\
    preemption_ticks s' = 0 /\ preemption_requested s' = preemption_requested s /\
    irq_enabled s' = irq_enabled s /\
    exists f, U s' = alter f (v_current (abs_dispatch v)) (U s) /\
      (f = id \/ f = set_state TASK_RUNNING).
Proof.
  intros Hi Hr. destruct (si_idle _ _ Hi) as [Hid (w & Hw & Hws)].
  pose proof (inv_not_null _ _ _ _ Hi Hw) as Hid0.
  unfold scheduler_schedule. rewrite (next_task_eq s v Hi). unfold abs_dispatch.
  pose proof (si_linked _ _ Hi) as Hl. pose proof (si_ready _ _ Hi) as Hready.
  destruct (v_ready v) as [|n R] eqn:Er; cbn [v_current].
  - rewrite Hid. destruct (Z.eqb_spec (idle s) NULL); [done |]. rewrite Z.eqb_refl. cbn [mbind option_bind].
    destruct (switch_to_spec s (idle s) w _ _ _ Hl Hid0 Hw (si_procs _ _ Hi _ _ Hw))
      as (s' & -> & HU & Hl' & Hf & Hc & Ht & Hq & Hirq & Hrsp & Hpt).
    rewrite decide_True in HU by done. exists s'. split; [done |].
    split; [| split_and!; try done; [by exists w | exists id; split; [| by left]]].
    2: { rewrite HU. symmetry. by apply alter_id. }
    destruct Hf as (Hidle & Hps & ? & ? & ? & ? & ? & ? & Hpend).
    destruct Hi as [_ ? ? ? ? ? ? ? ? ? Hrun ? ? ?]. split; cbn; rewrite ?HU, ?Hps, ?Hidle, ?Hpend; try done.
    + unfold in_state in *. by rewrite HU.
    + unfold in_state in *. by rewrite HU.
    + unfold in_state in *. by rewrite HU.
    + split; [done |]. exists w. by rewrite HU.
    + split; [done |]. intros _. by rewrite Hc, Hw.
    + intros p u Hu. rewrite (Hrun p u Hu). rewrite Hr. split; by intros [_ ?].
  - apply Forall_cons in Hready as [(u & Hu & Hus) Hready].
    assert (Hni : n <> idle s) by (intros ->; congruence).
    pose proof (inv_not_null _ _ _ _ Hi Hu) as Hn0.
    destruct (Z.eqb_spec n NULL); [done |]. destruct (Z.eqb_spec n (idle s)); [done |].
    destruct (pop_spec s n R _ _ Hl) as (s1 & -> & HU1 & Hl1 & Hf1). cbn [mbind option_bind].
    destruct Hf1 as (Hf1 & Hc1 & Hpt1 & Hrsp1 & Htk1 & Hrq1 & Hirq1).
    assert (Hps1 : ps s1 = ps s) by apply Hf1.
    destruct (switch_to_spec s1 n u _ _ _ Hl1 Hn0) as (s' & -> & HU & Hl' & Hf & Hc & Ht & Hq & Hirq & Hrsp & Hpt);
      [by rewrite HU1 | rewrite Hps1; by eapply si_procs |].
    assert (Hid1 : idle s1 = idle s) by apply Hf1. rewrite Hid1, decide_False, HU1 in HU by done.
    exists s'. split; [done |]. pose proof (frame_trans _ _ _ Hf1 Hf) as Hf'.
    split; [| split_and!; try done; try congruence].
    2: { exists u. rewrite Hps1, Hpt1 in Hpt. done. }
    2: { exists (set_state TASK_RUNNING). split; [| by right]. rewrite HU. apply map_eq. intros q.
         rewrite lookup_alter, lookup_insert. case_decide; [subst q; by rewrite Hu | done]. }
    destruct Hf' as (Hidle & Hps & ? & ? & ? & ? & ? & ? & Hpend).
    destruct Hl as (_ & _ & _ & Hnd). simpl in Hnd. apply NoDup_cons in Hnd as [Hnn Hnd].
    assert (Hnb : n ∉ v_blocked v) by set_solver. assert (Hns : n ∉ v_sleeping v) by set_solver.
    assert (HnR : n ∉ R) by set_solver.
    apply (inv_update s s' v _ n u (set_state TASK_RUNNING u)); try done; cbn.
    + intros _. by rewrite Hc, Hu.
    + intros q Hqn. rewrite Hr. split; [by intros [_ ?] | by intros [? _]].
    + intros q Hq'. right. split; [by intros -> |]. rewrite Er. by right.
    + intros q Hq'. right. split; [by intros -> | done].
    + intros q Hq'. right. split; [by intros -> | done].
    + intros q Hq'. split; [| done]. intros ->. eapply not_in_list; [apply (si_parked_state _ _ Hi) | exact Hu | by rewrite Hus | exact Hq'].
    + apply (si_parked_nodup _ _ Hi).
Qed.

(** ** Yielding *)
Definition saved_of (previous : Z) : saved := if previous =? NULL then BootContext else TaskContext previous.

(** The switch that resumes task [n] from where it stopped. *)
Definition resume_switch s (previous n : Z) : switch :=
  match U s !! n with
  | Some u =>
    if bool_decide (t_resume_mode u = TASK_RESUME_INTERRUPT) && negb (t_interrupt_rsp u =? NULL)
    then ToInterrupt (saved_of previous) (t_interrupt_rsp u)
    else ToContext (saved_of previous) n
  | None => ToContext (saved_of previous) n
  end.

Lemma abs_requeue_stopped v : v_running (abs_requeue v) = false.
Proof. unfold abs_requeue. by destruct (v_running v) eqn:E. Qed.

Lemma inv_irq s v b : sched_inv s v -> sched_inv (with_irq_enabled b s) v.
Proof. intros [? ? ? ? ? ? ? ? ? ? ? ? ? ?]. by split. Qed.

Lemma dispatched_requeue s s1 s' v n :
  sched_inv s v -> frame_q s s1 ->
  (v_running v = true -> exists u, U s !! v_current v = Some u /\
     U s1 = <[v_current v := reset (set_state TASK_READY u)]> (U s)) ->
  (v_running v = false -> s1 = s) ->
  dispatched s1 s' n -> dispatched s s' n.
Proof.
  intros Hi Hf Hrun Hstop (u1 & Hu1 & Hrsp & Hpt). destruct (v_running v).
  - destruct (Hrun eq_refl) as (u & Hu & HU). destruct Hf as ((_ & Hps & _) & _ & Hpt1 & _).
    rewrite HU in Hu1. unfold dispatched. rewrite Hps, Hpt1 in Hpt.
    apply lookup_insert_Some in Hu1 as [[<- <-]|[Hne Hu1]]; [by exists u | by exists u1].
  - rewrite Hstop in * by done. by exists u1.
Qed.

Lemma yield_unfold s :
  scheduler_yield s =
  (let previous := current_task s in
   s1 ← requeue_current (with_irq_enabled false s);
   '(s1, next) ← scheduler_schedule s1;
   if (next =? NULL) || (next =? previous) then Some (interrupt_restore (irq_enabled s) s1, Returned)
   else
     by_interrupt ← task_resume_uses_interrupt_frame (current_task s1) (ts s1);
     t ← ts s1 !! current_task s1;
     if (by_interrupt : bool) then
       if t_interrupt_rsp t =? NULL then Some (interrupt_restore (irq_enabled s) s1, Returned)
       else Some (s1, Switched (ToInterrupt (saved_of previous) (t_interrupt_rsp t)) [irq_enabled s])
     else Some (s1, Switched (ToContext (saved_of previous) (current_task s1)) [irq_enabled s])).
Proof. reflexivity. Qed.

Lemma yield_spec s v :
  sched_inv s v ->
  let n := v_current (abs_yield v) in
  exists s' o, scheduler_yield s = Some (s', o) /\ sched_inv s' (abs_yield v) /\ frame s s' /\
    dispatched s s' n /\ kept s s' /\ preemption_requested s' = preemption_requested s /\
    (n = current_task s -> o = Returned /\ irq_enabled s' = irq_enabled s) /\
    (n <> current_task s -> o = Switched (resume_switch s (current_task s) n) [irq_enabled s] /\
       irq_enabled s' = false).
Proof.
  intros Hi. rewrite yield_unfold. cbv zeta.
  destruct (requeue_spec (with_irq_enabled false s) v (inv_irq s v false Hi)) as (s1 & -> & Hi1 & Hf1 & Hrun & Hstop).
  cbn [mbind option_bind].
  destruct (schedule_spec s1 (abs_requeue v) Hi1 (abs_requeue_stopped v))
    as (s2 & E & Hi2 & Hf2 & Hd2 & Htk & Hrq & Hirq & f & HU2 & Hfx).
  fold (abs_yield v) in *. rewrite E. cbn [mbind option_bind]. clear E.
  remember (v_current (abs_yield v)) as n eqn:Hcn.
  assert (Hk : kept s s2).
  { apply (kept_trans s s1 s2).
    - destruct (v_running v); [| by rewrite Hstop]. destruct (Hrun eq_refl) as (w & Hw & HU1).
      by apply (kept_insert s s1 (v_current v) w _ Hw HU1).
    - destruct Hd2 as (w & Hw & _). apply (kept_insert s1 s2 n w (f w) Hw).
      + rewrite HU2. apply map_eq. intros q. rewrite lookup_alter, lookup_insert.
        case_decide; [subst q; by rewrite Hw | done].
      + by destruct Hfx as [-> | ->]. }
  assert (Hd : dispatched s s2 n).
  { apply (dispatched_requeue (with_irq_enabled false s) s1 s2 v); [by apply inv_irq | done ..]. }
  assert (Hf : frame s s2) by (apply (frame_trans s s1 s2); [apply Hf1 | done]).
  assert (Hirq2 : irq_enabled s2 = false) by (rewrite Hirq; apply Hf1).
  assert (Hrq2 : preemption_requested s2 = preemption_requested s) by (rewrite Hrq; apply Hf1).
  destruct Hd as (u & Hu & Hd).
  assert (Hn0 : n <> NULL) by by apply (inv_not_null s v n u).
  destruct (Z.eqb_spec n NULL); [done |]. cbn [orb].
  destruct (Z.eqb_spec n (current_task s)) as [Hnc|Hnc].
  { eexists _, _. split; [done |]. split; [destruct (irq_enabled s); by apply inv_irq || done |].
    split; [by destruct (irq_enabled s) |]. split; [exists u; by destruct (irq_enabled s) |].
    split; [by destruct (irq_enabled s) |]. split; [by destruct (irq_enabled s) |]. split; [| done]. intros _. split; [done |].
    destruct (irq_enabled s) eqn:Eirq; [done |]. simpl. congruence. }
  assert (Hc2 : current_task s2 = n) by (rewrite Hcn; symmetry; apply (si_current _ _ Hi2)). rewrite Hc2.
  assert (Hu1 : U s1 !! n = Some u).
  { destruct (v_running v) eqn:Hr; [| by rewrite Hstop].
    destruct (Hrun eq_refl) as (w & Hw & ->). rewrite lookup_insert_ne; [done |].
    destruct (si_current _ _ Hi) as [-> _]. congruence. }
  assert (Hu2 : U s2 !! n = Some (f u)) by (rewrite HU2, lookup_alter, Hu1, decide_True; done).
  destruct (U_lookup _ _ _ Hu2) as (t & Ht & Eft).
  assert (Hsame : t_resume_mode t = t_resume_mode u /\ t_interrupt_rsp t = t_interrupt_rsp u).
  { pose proof (f_equal t_resume_mode Eft). pose proof (f_equal t_interrupt_rsp Eft).
    destruct Hfx as [-> | ->]; simpl in *; done. }
  unfold task_resume_uses_interrupt_frame. destruct (Z.eqb_spec n NULL); [done |].
  rewrite Ht. cbn [mbind option_bind]. unfold resume_switch. rewrite Hu.
  destruct Hsame as [-> ->].
  destruct (bool_decide (t_resume_mode u = TASK_RESUME_INTERRUPT) && negb (t_interrupt_rsp u =? NULL)) eqn:Eb.
  - apply andb_true_iff in Eb as [_ Eb]. apply negb_true_iff in Eb. rewrite Eb.
    eexists _, _. split; [done |]. split_and!; try done. by exists u.
  - eexists _, _. split; [done |]. split_and!; try done. by exists u.
Qed.

(** ** Adding, blocking, sleeping, waking *)
Lemma frame_q_irq s b : frame_q s (with_irq_enabled b s) <-> irq_enabled s = b.
Proof. unfold frame_q, frame. simpl. split; [by intros (_ & _ & _ & _ & _ & _ & ?) | by intros ->]. Qed.

Lemma restore_saved s s' b :
  frame s s' -> current_task s' = current_task s -> irq_enabled s = b -> irq_enabled s' = false ->
  irq_enabled (interrupt_restore b s') = b.
Proof. intros. by destruct b. Qed.

Lemma add_spec s v p u :
  sched_inv s v -> U s !! p = Some u -> p <> idle s -> t_state u <> TASK_RUNNING ->
  (p ∉ v_ready v ++ v_blocked v ++ v_sleeping v) -> (p ∉ v_parked v) ->
  exists s', scheduler_add_task p s = Some s' /\ sched_inv s' (abs_add p v) /\ frame_q s s' /\
    U s' = <[p := set_state TASK_READY u]> (U s).
Proof.
  intros Hi Hu Hpi Hst Hq Hpk. pose proof (inv_not_null _ _ _ _ Hi Hu) as Hp0.
  unfold scheduler_add_task. destruct (Z.eqb_spec p NULL); [done |]. cbn [interrupt_save].
  destruct (update_task_spec p (set_state TASK_READY) (with_irq_enabled false s) u _ _ _ ltac:(done) Hu
    (si_linked _ _ Hi)) as (s1 & E1 & HU1 & Hl1 & Hf1). unfold interrupt_save. rewrite E1. cbn [mbind option_bind].
  destruct (push_ready_spec s1 p _ _ _ Hl1 Hq Hp0) as (s2 & -> & HU2 & Hl2 & Hf2);
    [by rewrite HU1, lookup_insert_eq |]. cbn [mbind option_bind].
  pose proof (frame_q_trans _ _ _ Hf1 Hf2) as (Hf & Hc & Hpt & Hr0 & Htk & Hrq & Hirq). simpl in *.
  assert (HU : U s2 = <[p := set_state TASK_READY u]> (U s)) by by rewrite HU2, HU1.
  assert (Hi2 : sched_inv s2 (abs_add p v)).
  { destruct Hf as (Hid & Hps & _ & _ & _ & _ & _ & _ & Hpend).
    destruct (si_current _ _ Hi) as [Hvc Hsome].
    apply (inv_update s s2 v _ p u (set_state TASK_READY u)); try done; cbn.
    - by rewrite Hc.
    - by rewrite Hc.
    - split; [done |]. intros Hx. by apply (si_running _ _ Hi p u Hu) in Hx.
    - apply (si_here _ _ Hi).
    - intros q [Hin| ->%list_elem_of_singleton]%elem_of_app; [right | by left].
      split; [| done]. intros ->. set_solver.
    - intros q Hin. right. split; [| done]. intros ->. set_solver.
    - intros q Hin. right. split; [| done]. intros ->. set_solver.
    - intros q Hin. split; [| done]. by intros ->.
    - apply (si_parked_nodup _ _ Hi). }
  eexists. split; [done |]. split; [destruct (irq_enabled s); by apply inv_irq || done |].
  split; [| by destruct (irq_enabled s)].
  unfold frame_q, frame in *. simpl in Hf. destruct (irq_enabled s); simpl; intuition congruence.
Qed.

(** The running task enters a queue in another state. *)
Lemma leave_inv s s' v v' u u' :
  sched_inv s v -> v_running v = true -> U s !! v_current v = Some u ->
  U s' = <[v_current v := u']> (U s) -> frame_q s s' ->
  linked s' (v_ready v') (v_blocked v') (v_sleeping v') ->
  v_ready v' = v_ready v -> v_parked v' = v_parked v ->
  v_current v' = v_current v -> v_running v' = false -> v_idle v' = v_idle v ->
  t_process u' = t_process u -> t_state u' <> TASK_RUNNING ->
  ((v_blocked v' = v_blocked v ++ [v_current v] /\ v_sleeping v' = v_sleeping v /\ t_state u' = TASK_BLOCKED) \/
   (v_blocked v' = v_blocked v /\ v_sleeping v' = v_sleeping v ++ [v_current v] /\ t_state u' = TASK_SLEEPING)) ->
  sched_inv s' v'.
Proof.
  intros Hi Hr Hu HU Hf Hl Er Ep Ec Erun Ei Eproc Hst Hlists.
  destruct (running_current s v Hi Hr) as (Hci & w & Hw & Hws).
  assert (u = w) as -> by congruence.
  destruct (unqueued s v _ w Hi Hw) as [Hq Hpk]; [by rewrite Hws .. |].
  destruct (si_current _ _ Hi) as [Hvc Hsome].
  destruct Hf as ((Hid & Hps & _ & _ & _ & _ & _ & _ & Hpend) & Hc & _).
  assert (Hb1 : v_current v ∉ v_ready v) by set_solver. assert (Hb2 : v_current v ∉ v_blocked v) by set_solver.
  assert (Hb3 : v_current v ∉ v_sleeping v) by set_solver.
  assert (Hne : forall q (l : list Z), v_current v ∉ l -> q ∈ l -> q <> v_current v /\ q ∈ l)
    by (intros q l Hnl Hin; split; [by intros -> | done]).
  assert (Hsnoc : forall q (l : list Z), v_current v ∉ l -> q ∈ l ++ [v_current v] ->
    q = v_current v \/ (q <> v_current v /\ q ∈ l)).
  { intros q l Hnl [Hin| ->%list_elem_of_singleton]%elem_of_app; [right; by apply Hne | by left]. }
  apply (inv_update s s' v v' (v_current v) w u'); rewrite ?Er, ?Ep, ?Ec, ?Erun; try done.
  - by rewrite <- Er.
  - by rewrite Hc.
  - by rewrite Hc.
  - split; [done | by intros [_ ?]].
  - intros q Hqc. rewrite Hr. split; [by intros [? _] | by intros [_ ?]].
  - intros q Hin. right. by apply Hne.
  - destruct Hlists as [(-> & _ & Hs)|(-> & _ & _)]; intros q Hin; [| right; by apply Hne].
    destruct (Hsnoc q _ Hb2 Hin) as [->|?]; auto.
  - destruct Hlists as [(_ & -> & _)|(_ & -> & Hs)]; intros q Hin; [right; by apply Hne |].
    destruct (Hsnoc q _ Hb3 Hin) as [->|?]; auto.
  - intros q Hin. by apply Hne.
  - apply (si_parked_nodup _ _ Hi).
Qed.

Definition with_blocked_current (v : view) : view :=
  mk_view (v_ready v) (v_blocked v ++ [v_current v]) (v_sleeping v) (v_parked v) (v_current v) false (v_idle v).
Definition with_sleeping_current (v : view) : view :=
  mk_view (v_ready v) (v_blocked v) (v_sleeping v ++ [v_current v]) (v_parked v) (v_current v) false (v_idle v).

Lemma block_mark_spec s v :
  sched_inv s v -> v_running v = true ->
  exists s1 s2 u, update_task (current_task s) (set_state TASK_BLOCKED) s = Some s1 /\
    current_task s1 = current_task s /\ push_blocked (current_task s) s1 = Some s2 /\
    sched_inv s2 (with_blocked_current v) /\ frame_q s s2 /\
    U s !! current_task s = Some u /\ U s2 = <[current_task s := set_state TASK_BLOCKED u]> (U s).
Proof.
  intros Hi Hr. destruct (running_current s v Hi Hr) as (Hci & u & Hu & Hus).
  destruct (unqueued s v _ u Hi Hu) as [Hq Hpk]; [by rewrite Hus .. |].
  pose proof (si_here _ _ Hi Hr) as Hne. destruct (si_current _ _ Hi) as [Hvc _]. rewrite <- Hvc.
  destruct (update_task_spec (v_current v) (set_state TASK_BLOCKED) s u _ _ _ ltac:(done) Hu
    (si_linked _ _ Hi)) as (s1 & E1 & HU1 & Hl1 & Hf1).
  destruct (push_blocked_spec s1 (v_current v) _ _ _ Hl1 Hq Hne) as (s2 & E2 & HU2 & Hl2 & Hf2);
    [by rewrite HU1, lookup_insert_eq |].
  pose proof (frame_q_trans _ _ _ Hf1 Hf2) as Hf. exists s1, s2, u.
  split; [done |]. split; [rewrite Hvc; apply Hf1 |]. split; [done |].
  assert (HU : U s2 = <[v_current v := set_state TASK_BLOCKED u]> (U s)) by by rewrite HU2, HU1.
  split; [| done].
  apply (leave_inv s s2 v _ u (set_state TASK_BLOCKED u)); try done. by left.
Qed.

(** The task that has entered a queue yields to another one. *)
Lemma leave_yield s s2 v v2 u u' :
  sched_inv s v -> v_running v = true -> sched_inv s2 v2 -> v_running v2 = false ->
  v_ready v2 = v_ready v -> v_idle v2 = v_idle v ->
  frame_q (with_irq_enabled false s) s2 -> U s !! current_task s = Some u ->
  U s2 = <[current_task s := u']> (U s) ->
  t_kernel_stack u' = t_kernel_stack u -> t_kernel_stack_size u' = t_kernel_stack_size u ->
  t_process u' = t_process u ->
  let n := v_current (abs_dispatch v2) in
  exists s3, scheduler_yield s2 = Some (s3, Switched (resume_switch s (current_task s) n) [false]) /\
    sched_inv s3 (abs_dispatch v2) /\ frame s s3 /\ dispatched s s3 n /\ kept s2 s3 /\
    preemption_requested s3 = preemption_requested s /\ irq_enabled s3 = false /\ n <> current_task s.
Proof.
  intros Hi Hr Hi2 Hr2 Er Ei Hf2 Hu HU2 Hks Hkz Hpr.
  destruct (running_current s v Hi Hr) as (Hci & w & Hw & Hws).
  destruct (unqueued s v _ w Hi Hw) as [Hq _]; [by rewrite Hws .. |].
  destruct (si_current _ _ Hi) as [Hvc _]. destruct (si_idle _ _ Hi) as [Hvi _].
  assert (Hn : v_current (abs_dispatch v2) <> current_task s).
  { rewrite <- Hvc. unfold abs_dispatch. rewrite Er. destruct (v_ready v) as [|r R] eqn:E; cbn; [congruence |].
    intros ->. apply Hq. by left. }
  destruct (yield_spec s2 v2 Hi2) as (s3 & o & Ey & Hi3 & Hf3 & Hd3 & Hk3 & Hrq3 & _ & Hsw).
  unfold abs_yield, abs_requeue in *. rewrite Hr2 in *.
  destruct Hf2 as (Hfr & Hc2 & Hpt2 & _ & _ & Hrq2 & Hirq2). simpl in Hc2, Hpt2, Hrq2, Hirq2.
  rewrite Hrq2 in Hrq3.
  rewrite Hc2, Hirq2 in Hsw. destruct (Hsw Hn) as [-> Hirq3].
  exists s3. rewrite Ey.
  assert (Hres : resume_switch s2 (current_task s) (v_current (abs_dispatch v2)) =
                 resume_switch s (current_task s) (v_current (abs_dispatch v2))).
  { unfold resume_switch. by rewrite HU2, lookup_insert_ne by done. }
  rewrite Hres. split; [done |]. split; [done |]. split; [by apply (frame_trans s s2 s3) |].
  split; [| done]. destruct Hd3 as (x & Hx & Hrsp & Hpt). rewrite HU2, lookup_insert_ne in Hx by done.
  exists x. destruct Hfr as (_ & Hps & _). simpl in Hps. rewrite Hps, Hpt2 in Hpt. done.
Qed.

Lemma block_spec s v :
  sched_inv s v -> v_running v = true ->
  let n := v_current (abs_block v) in
  exists s', scheduler_block_current s =
      Some (s', Switched (resume_switch s (current_task s) n) [false; irq_enabled s]) /\
    sched_inv s' (abs_block v) /\ frame s s' /\ dispatched s s' n /\
    preemption_requested s' = preemption_requested s /\ irq_enabled s' = false /\ n <> current_task s /\
    same_tasks s s'.
Proof.
  intros Hi Hr. pose proof (si_here _ _ Hi Hr) as Hne.
  destruct (running_current s v Hi Hr) as (Hci & _). destruct (si_current _ _ Hi) as [Hvc _].
  destruct (block_mark_spec (with_irq_enabled false s) v (inv_irq _ _ _ Hi) Hr)
    as (s1 & s2 & u & E1 & Hc1 & E2 & Hi2 & Hf2 & Hu & HU2). cbn [current_task with_irq_enabled] in *.
  unfold scheduler_block_current, interrupt_save, scheduler_block_current_locked.
  cbn [current_task idle with_irq_enabled]. rewrite Hvc in Hne, Hci.
  destruct (Z.eqb_spec (current_task s) NULL); [done |].
  destruct (Z.eqb_spec (current_task s) (idle s)); [done |]. cbn [orb]. rewrite E1. cbn [mbind option_bind].
  rewrite Hc1, E2. cbn [mbind option_bind].
  destruct (leave_yield s s2 v (with_blocked_current v) u (set_state TASK_BLOCKED u))
    as (s3 & -> & Hi3 & Hf3 & Hd3 & Hk3 & Hrq3 & Hirq3 & Hn3); try done.
  cbn [mbind option_bind then_restore app]. exists s3. split_and!; try done.
  apply (same_tasks_trans s s2 s3); [by apply (insert_same_tasks s s2 _ _ _ Hu HU2) | by apply kept_same_tasks].
Qed.

Lemma sleep_spec s v ticks :
  sched_inv s v -> v_running v = true ->
  let n := v_current (abs_sleep v) in
  exists s', scheduler_sleep ticks s =
      Some (s', Switched (resume_switch s (current_task s) n) [false; irq_enabled s]) /\
    sched_inv s' (abs_sleep v) /\ frame s s' /\ dispatched s s' n /\
    preemption_requested s' = preemption_requested s /\ irq_enabled s' = false /\ n <> current_task s /\
    same_tasks s s' /\ t_wake_tick <$> U s' !! current_task s = Some (u64 (system_ticks s + ticks)).
Proof.
  intros Hi Hr. destruct (running_current s v Hi Hr) as (Hci & u & Hu & Hus).
  destruct (unqueued s v _ u Hi Hu) as [Hq Hpk]; [by rewrite Hus .. |].
  pose proof (si_here _ _ Hi Hr) as Hne. destruct (si_current _ _ Hi) as [Hvc _].
  set (s0 := with_irq_enabled false s). rewrite Hvc in *.
  destruct (update_task_spec (current_task s) (set_wake_tick (u64 (pit_ticks s0 + ticks))) s0 u _ _ _
    ltac:(done) Hu (si_linked _ _ Hi)) as (s1 & E1 & HU1 & Hl1 & Hf1).
  destruct (update_task_spec (current_task s) (set_state TASK_SLEEPING) s1 _ _ _ _ ltac:(done)
    ltac:(by rewrite HU1, lookup_insert_eq) Hl1) as (s2 & E2 & HU2 & Hl2 & Hf2).
  rewrite HU1, insert_insert_eq in HU2.
  destruct (push_sleep_spec s2 (current_task s) _ _ _ Hl2 Hq Hne) as (s3 & E3 & HU3 & Hl3 & Hf3);
    [by rewrite HU2, lookup_insert_eq |].
  pose proof (frame_q_trans _ _ _ Hf1 Hf2) as Hf12. pose proof (frame_q_trans _ _ _ Hf12 Hf3) as Hf.
  unfold scheduler_sleep. destruct (Z.eqb_spec (current_task s) NULL); [done |].
  destruct (Z.eqb_spec (current_task s) (idle s)); [done |]. cbn [orb interrupt_save].
  unfold interrupt_save. fold s0. change (current_task s0) with (current_task s). rewrite E1.
  cbn [mbind option_bind].
  assert (Hc1 : current_task s1 = current_task s) by apply Hf1. rewrite Hc1, E2. cbn [mbind option_bind].
  assert (Hc2 : current_task s2 = current_task s) by apply Hf12. rewrite Hc2, E3. cbn [mbind option_bind].
  set (u' := set_state TASK_SLEEPING (set_wake_tick (u64 (pit_ticks s0 + ticks)) u)) in *.
  assert (HU : U s3 = <[current_task s := u']> (U s)) by by rewrite HU3, HU2.
  assert (Hi3 : sched_inv s3 (with_sleeping_current v)).
  { apply (leave_inv s0 s3 v _ u u'); rewrite ?Hvc; try done; [by apply inv_irq | | right; cbn; by rewrite Hvc].
    cbn. by rewrite Hvc. }
  destruct (leave_yield s s3 v (with_sleeping_current v) u u') as (s4 & -> & Hi4 & Hf4 & Hd4 & Hk4 & Hrq4 & Hirq4 & Hn4); try done.
  cbn [mbind option_bind then_restore app]. exists s4. split_and!; try done.
  { apply (same_tasks_trans s s3 s4); [by apply (insert_same_tasks s s3 _ u u' Hu HU) | by apply kept_same_tasks]. }
  destruct (kept_lookup s3 s4 (current_task s) u' Hk4 ltac:(by rewrite HU, lookup_insert_eq)) as (w & -> & Hw).
  simpl. f_equal. exact (f_equal t_wake_tick Hw).
Qed.

(** C11: [scheduler_yield] refines the abstract round robin: a running task goes
    to the end of the ready queue, the head of the queue (or the idle task) is
    dispatched with its kernel stack and address space, and the processor is
    switched to it from its saved context or from its saved interrupt frame;
    when the yielding task is itself next, the call just returns. *)
Theorem scheduler_yield_correct s v (Hi : sched_inv s v) :
  let n := v_current (abs_yield v) in
  exists s' o, scheduler_yield s = Some (s', o) /\ sched_inv s' (abs_yield v) /\ frame s s' /\ kept s s' /\
    dispatched s s' n /\
    (n = current_task s -> o = Returned /\ irq_enabled s' = irq_enabled s) /\
    (n <> current_task s -> o = Switched (resume_switch s (current_task s) n) [irq_enabled s] /\
       irq_enabled s' = false).
Proof.
  destruct (yield_spec s v Hi) as (s' & o & E & Hi' & Hf & Hd & Hk & _ & Hr). by exists s', o.
Qed.
End spec.
