(* ===== verification/SchedulerWake.v ===== *)
(** * Waking tasks: [scheduler_unblock], the sleep queue, preemption

    The other half of the refinement of [SchedulerSpec.v]: operations that make
    tasks ready again, and the task switch at the end of an interrupt. *)
From S2P Require Import Prelude PageAllocator Memory KAlloc Fd Elf TaskQueue PageTable System Scheduler SchedulerSpec.
Import Mem Task Scheduler.
#[local] Open Scope Z_scope.

Section wake.
Context {K A : Type} `{KAlloc K}.
Variables (context_resume_from_interrupt : Z).
Implicit Types s : sys K A.

(** A waiting task becomes ready: its state and resume information. *)
Lemma make_ready s p u R B S :
  linked s R B S -> U s !! p = Some u -> p <> NULL -> (p ∉ R ++ B ++ S) ->
  exists s1 s2 s3, update_task p (set_state TASK_READY) s = Some s1 /\
    scheduler_reset_resume_state p s1 = Some s2 /\ push_ready p s2 = Some s3 /\
    U s3 = <[p := reset (set_state TASK_READY u)]> (U s) /\ linked s3 (R ++ [p]) B S /\ frame_q s s3.
Proof.
  intros Hl Hu Hp Hq.
  destruct (update_task_spec p (set_state TASK_READY) s u _ _ _ ltac:(done) Hu Hl) as (s1 & E1 & HU1 & Hl1 & Hf1).
  destruct (update_task_spec p reset s1 (set_state TASK_READY u) _ _ _ ltac:(done)
    ltac:(by rewrite HU1, lookup_insert_eq) Hl1) as (s2 & E2 & HU2 & Hl2 & Hf2).
  rewrite HU1, insert_insert_eq in HU2.
  destruct (push_ready_spec s2 p _ _ _ Hl2 Hq Hp) as (s3 & E3 & HU3 & Hl3 & Hf3);
    [by rewrite HU2, lookup_insert_eq |].
  exists s1, s2, s3. split; [done |]. unfold scheduler_reset_resume_state.
  destruct (Z.eqb_spec p NULL); [done |]. split; [exact E2 |]. split; [done |]. split; [by rewrite HU3, HU2 |].
  split; [done |]. by apply (frame_q_trans _ _ _ (frame_q_trans _ _ _ Hf1 Hf2)).
Qed.

Lemma list_filter_ne (p : Z) (l : list Z) : (p ∉ filter (.≠ p) l) /\ filter (.≠ p) l ⊆ l.
Proof.
  split; [by intros [? _]%list_elem_of_filter | by intros q [_ ?]%list_elem_of_filter].
Qed.

(** The invariant after a task has been made ready. *)
Lemma ready_inv s s' v v' p u :
  sched_inv s v -> U s !! p = Some u -> t_state u <> TASK_RUNNING -> p <> idle s ->
  U s' = <[p := reset (set_state TASK_READY u)]> (U s) -> frame_q s s' ->
  v_ready v' = v_ready v ++ [p] -> (p ∉ v_ready v) ->
  v_blocked v' = filter (.≠ p) (v_blocked v) -> v_sleeping v' = filter (.≠ p) (v_sleeping v) ->
  v_parked v' = filter (.≠ p) (v_parked v) -> v_current v' = v_current v ->
  v_running v' = v_running v -> v_idle v' = v_idle v ->
  linked s' (v_ready v') (v_blocked v') (v_sleeping v') ->
  sched_inv s' v'.
Proof.
  intros Hi Hu Hst Hpi HU ((Hid & Hps & _ & _ & _ & _ & _ & _ & Hpend) & Hc & _) Er Hpr Eb Es Ep Ec Erun Ei Hl.
  destruct (si_current _ _ Hi) as [Hvc Hsome].
  assert (Hf : forall (l : list Z) q, q ∈ filter (.≠ p) l -> q <> p /\ q ∈ l) by (intros l q; by rewrite list_elem_of_filter).
  apply (inv_update s s' v v' p u (reset (set_state TASK_READY u))); try done.
  - by rewrite Ec, Hc.
  - by rewrite Hc.
  - split; [done |]. rewrite Ec, Erun. intros Hx. by apply (si_running _ _ Hi p u Hu) in Hx.
  - intros q _. by rewrite Ec, Erun.
  - rewrite Ec, Erun. apply (si_here _ _ Hi).
  - rewrite Er. intros q [Hin| ->%list_elem_of_singleton]%elem_of_app; [right; split; [by intros -> | done] | by left].
  - rewrite Eb. intros q Hq. right. by apply Hf.
  - rewrite Es. intros q Hq. right. by apply Hf.
  - rewrite Ep. intros q Hq. by apply Hf.
  - rewrite Ep. apply NoDup_filter, (si_parked_nodup _ _ Hi).
Qed.

Lemma idle_state s v : sched_inv s v -> exists w, U s !! idle s = Some w /\ t_state w = TASK_IDLE.
Proof. intros Hi. by destruct (si_idle _ _ Hi) as [_ Hw]. Qed.

Lemma unblock_spec s v p u :
  sched_inv s v -> U s !! p = Some u ->
  exists s', scheduler_unblock p s = Some s' /\ frame_q s s' /\
    (t_state u = TASK_BLOCKED -> sched_inv s' (abs_unblock p v) /\
       U s' = <[p := reset (set_state TASK_READY u)]> (U s)) /\
    (t_state u <> TASK_BLOCKED -> s' = s).
Proof.
  intros Hi Hu. pose proof (inv_not_null _ _ _ _ Hi Hu) as Hp0.
  destruct (U_lookup _ _ _ Hu) as (t & Ht & Eut).
  unfold scheduler_unblock. destruct (Z.eqb_spec p NULL); [done |]. rewrite Ht. cbn [mbind option_bind].
  destruct (decide (t_state t = TASK_BLOCKED)) as [Hs|Hs].
  2: { rewrite bool_decide_false by done. exists s. split_and!; try done. by subst u. }
  rewrite bool_decide_true by done. cbn [negb].
  assert (Hus : t_state u = TASK_BLOCKED) by by subst u.
  assert (Hpr : p ∉ v_ready v) by (eapply not_in_list; [apply (si_ready _ _ Hi) | exact Hu | by rewrite Hus]).
  assert (Hpsl : p ∉ v_sleeping v) by (eapply not_in_list; [apply (si_sleeping _ _ Hi) | exact Hu | by rewrite Hus]).
  destruct (remove_blocked_spec (with_irq_enabled false s) p _ _ _ (si_linked _ _ Hi) Hp0)
    as (s0 & E0 & HU0 & Hl0 & Hf0).
  destruct (list_filter_ne p (v_blocked v)) as [Hpb _].
  destruct (make_ready s0 p u _ _ _ Hl0 ltac:(by rewrite HU0) Hp0) as (s1 & s2 & s3 & E1 & E2 & E3 & HU & Hl & Hf);
    [set_solver |].
  unfold interrupt_save. rewrite E0. cbn [mbind option_bind]. rewrite E1. cbn [mbind option_bind].
  rewrite E2. cbn [mbind option_bind]. rewrite E3. cbn [mbind option_bind].
  pose proof (frame_q_trans _ _ _ Hf0 Hf) as Hf3.
  assert (HU3 : U s3 = <[p := reset (set_state TASK_READY u)]> (U s)) by by rewrite HU, HU0.
  assert (Hpi : p <> idle s) by (intros ->; destruct (idle_state s v Hi) as (w & Hw & Hws); congruence).
  assert (Hi3 : sched_inv s3 (abs_unblock p v)).
  { apply (ready_inv (with_irq_enabled false s) s3 v _ p u); try done; cbn.
    - by apply inv_irq.
    - by rewrite Hus.
    - symmetry. apply filter_all. apply Forall_forall. by intros q Hq ->. }
  eexists. split; [done |]. split; [| split; [intros _ | done]].
  - unfold frame_q, frame in *. simpl in Hf3. destruct (irq_enabled s); simpl; intuition congruence.
  - split; [destruct (irq_enabled s); [by apply inv_irq | done] | by destruct (irq_enabled s)].
Qed.

(** ** The timer wakes the tasks that are due *)
Definition due s (p : Z) : Prop :=
  match U s !! p with Some u => t_wake_tick u <= system_ticks s | None => False end.
#[global] Instance due_dec s p : Decision (due s p).
Proof. unfold due. destruct (U s !! p); apply _. Defined.

Definition abs_wake (d : Z -> Prop) `{forall p, Decision (d p)} (v : view) : view :=
  mk_view (v_ready v ++ filter d (v_sleeping v)) (v_blocked v) (filter (fun p => ~ d p) (v_sleeping v))
    (v_parked v) (v_current v) (v_running v) (v_idle v).

Definition wake_one (p : Z) (v : view) : view :=
  mk_view (v_ready v ++ [p]) (v_blocked v) (filter (.≠ p) (v_sleeping v)) (v_parked v)
    (v_current v) (v_running v) (v_idle v).

Lemma wake_one_spec s v p :
  sched_inv s v -> p ∈ v_sleeping v ->
  exists s', wake_task p s = Some s' /\ sched_inv s' (wake_one p v) /\ frame_q s s' /\ kept s s'.
Proof.
  intros Hi Hp. pose proof (proj1 (Forall_forall _ _) (si_sleeping _ _ Hi) p Hp) as (u & Hu & Hus).
  pose proof (inv_not_null _ _ _ _ Hi Hu) as Hp0.
  assert (Hpr : p ∉ v_ready v) by (eapply not_in_list; [apply (si_ready _ _ Hi) | exact Hu | by rewrite Hus]).
  assert (Hpb : p ∉ v_blocked v) by (eapply not_in_list; [apply (si_blocked _ _ Hi) | exact Hu | by rewrite Hus]).
  assert (Hpp : p ∉ v_parked v) by (eapply not_in_list; [apply (si_parked_state _ _ Hi) | exact Hu | by rewrite Hus]).
  destruct (remove_sleep_spec s p _ _ _ (si_linked _ _ Hi) Hp0) as (s0 & E0 & HU0 & Hl0 & Hf0).
  destruct (list_filter_ne p (v_sleeping v)) as [Hps _].
  destruct (make_ready s0 p u _ _ _ Hl0 ltac:(by rewrite HU0) Hp0) as (s1 & s2 & s3 & E1 & E2 & E3 & HU & Hl & Hf);
    [set_solver |].
  unfold wake_task. rewrite E0. cbn [mbind option_bind]. rewrite E1. cbn [mbind option_bind].
  rewrite E2. cbn [mbind option_bind]. exists s3. split; [done |]. rewrite HU0 in HU.
  pose proof (frame_q_trans _ _ _ Hf0 Hf) as Hf3.
  assert (Hpi : p <> idle s) by (intros ->; destruct (idle_state s v Hi) as (w & Hw & Hws); congruence).
  assert (Hall : forall l : list Z, (p ∉ l) -> l = filter (.≠ p) l)
    by (intros l Hn; symmetry; apply filter_all, Forall_forall; by intros q Hq ->).
  split; [| split; [done | by apply (kept_insert s s3 p u _ Hu HU)]].
  apply (ready_inv s s3 v _ p u); try done; cbn; [by rewrite Hus | by apply Hall ..].
Qed.

Lemma due_kept s s' p : kept s s' -> system_ticks s' = system_ticks s -> due s' p <-> due s p.
Proof.
  intros Hk Ht. unfold due. destruct (U s !! p) as [u|] eqn:E.
  - destruct (kept_lookup s s' p u Hk E) as (u' & -> & Hc). pose proof (f_equal t_wake_tick Hc) as Hw.
    simpl in Hw. by rewrite Ht, Hw.
  - destruct (U s' !! p) as [u'|] eqn:E'; [| done].
    destruct (kept_lookup s' s p u' (eq_sym Hk) E') as (x & ? & _). congruence.
Qed.

Lemma frame_q_refl s : frame_q s s.
Proof. done. Qed.

Lemma filter_ne_mid (p : Z) l1 l2 : NoDup (l1 ++ p :: l2) -> filter (.≠ p) (l1 ++ p :: l2) = l1 ++ l2.
Proof.
  intros Hnd. apply NoDup_app in Hnd as (_ & Hd & Hnd). apply NoDup_cons in Hnd as [Hp Hnd].
  rewrite filter_app, filter_cons_False by naive_solver.
  rewrite !filter_all; [done | |]; apply Forall_forall; intros x Hx ->; [done |].
  apply (Hd p Hx). by left.
Qed.

Lemma check_loop_spec l : forall n s v pre,
  sched_inv s v -> v_sleeping v = pre ++ l -> (length l < n)%nat ->
  exists s', check_sleeping_loop n (hd NULL l) s = Some s' /\ frame_q s s' /\ kept s s' /\
    sched_inv s' (mk_view (v_ready v ++ filter (due s) l) (v_blocked v)
      (pre ++ filter (fun p => ~ due s p) l) (v_parked v) (v_current v) (v_running v) (v_idle v)).
Proof.
  induction l as [|p l IH]; intros n s v pre Hi Es Hn; (destruct n as [|n]; [simpl in Hn; lia |]).
  - exists s. split; [done |]. split; [done |]. split; [done |].
    cbn [filter list_filter]. rewrite !app_nil_r in *. rewrite <- Es. by destruct v.
  - pose proof (si_linked _ _ Hi) as (_ & _ & HS & Hnd). rewrite Es in HS, Hnd.
    destruct (q_rep_app _ _ _ _ _ HS) as (Hp0 & t & Ht & Hl). cbn [hd check_sleeping_loop].
    destruct (Z.eqb_spec p NULL); [done |]. rewrite Ht. cbn [mbind option_bind].
    assert (Hnext : t_next t = hd NULL l) by (destruct l; [done | apply Hl]). rewrite Hnext.
    assert (Hu : U s !! p = Some (set_next NULL t)) by (unfold U, unlinked; by rewrite lookup_fmap, Ht).
    assert (Hdue : due s p <-> t_wake_tick t <= pit_ticks s) by (unfold due; by rewrite Hu).
    destruct (Z.leb_spec (t_wake_tick t) (pit_ticks s)) as [Hw|Hw].
    + destruct (wake_one_spec s v p Hi) as (s1 & -> & Hi1 & Hf1 & Hk1); [rewrite Es; set_solver |].
      cbn [mbind option_bind].
      assert (Es1 : v_sleeping (wake_one p v) = pre ++ l).
      { cbn. rewrite Es. apply filter_ne_mid. apply NoDup_app in Hnd as (_ & _ & Hnd).
        by apply NoDup_app in Hnd as (_ & _ & ?). }
      destruct (IH n s1 (wake_one p v) pre Hi1 Es1 ltac:(simpl in Hn; lia)) as (s2 & E2 & Hf2 & Hk2 & Hi2).
      exists s2. split; [done |]. split; [by apply (frame_q_trans s s1) |]. split; [by apply (kept_trans s s1) |].
      rewrite filter_cons_True by tauto. rewrite filter_cons_False by tauto.
      assert (Hd : forall q, due s1 q <-> due s q) by (intros q; apply due_kept; [done | apply Hf1]).
      rewrite (list_filter_iff (due s1) (due s)) in Hi2 by done.
      rewrite (list_filter_iff (fun q => ~ due s1 q) (fun q => ~ due s q)) in Hi2 by (intros q; by rewrite Hd).
      cbn [v_ready v_blocked v_parked v_current v_running v_idle wake_one] in Hi2.
      by rewrite <- app_assoc in Hi2.
    + cbn [mbind option_bind].
      destruct (IH n s v (pre ++ [p]) Hi) as (s2 & E2 & Hf2 & Hk2 & Hi2);
        [by rewrite <- app_assoc | simpl in Hn; lia |].
      exists s2. split_and!; try done.
      rewrite filter_cons_False by (rewrite Hdue; lia). rewrite filter_cons_True by (rewrite Hdue; lia).
      by rewrite <- app_assoc in Hi2.
Qed.

Lemma tick_spec s v :
  sched_inv s v ->
  exists s', scheduler_tick s = Some s' /\ sched_inv s' (abs_wake (due s) v) /\ frame_q s s' /\ kept s s'.
Proof.
  intros Hi. unfold scheduler_tick, scheduler_check_sleeping_tasks.
  pose proof (si_linked _ _ Hi) as (_ & _ & HS & Hnd).
  assert (Hh : sleep_queue s = hd NULL (v_sleeping v)) by (destruct (v_sleeping v); [done | apply HS]).
  rewrite Hh.
  destruct (check_loop_spec (v_sleeping v) (S (size (ts s))) s v [] Hi eq_refl) as (s' & E & Hf & Hk & Hi').
  { apply q_rep_length in HS; [lia |]. apply NoDup_app in Hnd as (_ & _ & Hnd). by apply NoDup_app in Hnd as (_ & _ & ?). }
  by exists s'.
Qed.

(** ** Switching tasks at the end of an interrupt *)

(** The stack pointer task [n] resumes from. *)
Definition context_frame (u : task_t) : Z :=
  if c_rsp (t_context u) =? 0 then NULL else u64 (c_rsp (t_context u) - sizeof_frame).
Definition frame_addr s (n : Z) : Z :=
  match U s !! n with
  | None => NULL
  | Some u =>
    let p := ps s !! t_process u in
    if negb (t_process u =? NULL) && match p with Some p => is_user_process p | None => false end then
      if match p with Some p => user_started p | None => false end
      then t_interrupt_rsp u else context_frame u
    else if bool_decide (t_resume_mode u = TASK_RESUME_INTERRUPT) && negb (t_interrupt_rsp u =? NULL)
    then t_interrupt_rsp u else context_frame u
  end.

Lemma inv_ps_pt s v ps' pt' :
  sched_inv s v -> (forall q, is_Some (ps s !! q) -> is_Some (ps' !! q)) ->
  sched_inv (with_pt pt' (with_ps ps' s)) v.
Proof.
  intros [? ? ? ? ? ? ? ? ? ? ? ? Hp ?] Hsub. split; try done.
  intros p u Hu. destruct (Hp p u Hu) as [?|?]; [by left | right; by apply Hsub].
Qed.

#[local] Abbreviation build := (scheduler_build_context_interrupt_rsp context_resume_from_interrupt).

Lemma build_spec s n u :
  U s !! n = Some u -> n <> NULL -> (t_process u = NULL \/ is_Some (ps s !! t_process u)) ->
  exists pt', build n s = Some (with_pt pt' s, context_frame u).
Proof.
  intros Hu Hn Hp. destruct (U_lookup _ _ _ Hu) as (t & Ht & ->). unfold scheduler_build_context_interrupt_rsp.
  destruct (Z.eqb_spec n NULL); [done |]. rewrite Ht. cbn [mbind option_bind]. unfold context_frame.
  cbn [t_context set_next]. destruct (Z.eqb_spec (c_rsp (t_context t)) 0).
  { exists (pt s). by destruct s. }
  cbn [t_process set_next] in Hp. destruct (Z.eqb_spec (t_process t) NULL) as [|Hz]; cbn [mbind option_bind].
  { eexists. reflexivity. }
  destruct Hp as [?|[p Hp]]; [done |]. rewrite Hp. cbn [mbind option_bind]. destruct (is_user_process p); by eexists.
Qed.

Lemma next_frame_spec s n u :
  U s !! n = Some u -> n <> NULL -> (t_process u = NULL \/ is_Some (ps s !! t_process u)) ->
  exists ps' pt', next_interrupt_frame context_resume_from_interrupt n s =
      Some (with_pt pt' (with_ps ps' s), frame_addr s n) /\
    forall q, is_Some (ps s !! q) -> is_Some (ps' !! q).
Proof.
  intros Hu Hn Hp. destruct (U_lookup _ _ _ Hu) as (t & Ht & Eut).
  assert (Hsame : with_pt (pt s) (with_ps (ps s) s) = s) by by destruct s.
  assert (Hkeep : exists pt', build n s = Some (with_pt pt' (with_ps (ps s) s), context_frame u)).
  { destruct (build_spec s n u Hu Hn Hp) as (pt' & ->). exists pt'. by destruct s. }
  assert (Ef : t_interrupt_rsp t = t_interrupt_rsp u /\ t_process t = t_process u /\
    t_resume_mode t = t_resume_mode u) by by subst u.
  destruct Ef as (Er & Ep & Em).
  unfold next_interrupt_frame, frame_addr. rewrite Ht, Hu. cbn [mbind option_bind].
  unfold task_resume_uses_interrupt_frame. destruct (Z.eqb_spec n NULL); [done |]. rewrite Ht.
  cbn [mbind option_bind]. rewrite Er, Ep, Em.
  assert (Hk : exists ps' pt', (if bool_decide (t_resume_mode u = TASK_RESUME_INTERRUPT) && negb (t_interrupt_rsp u =? NULL)
      then Some (s, t_interrupt_rsp u) else build n s) = Some (with_pt pt' (with_ps ps' s),
      if bool_decide (t_resume_mode u = TASK_RESUME_INTERRUPT) && negb (t_interrupt_rsp u =? NULL)
      then t_interrupt_rsp u else context_frame u) /\ forall q, is_Some (ps s !! q) -> is_Some (ps' !! q)).
  { case_match; [exists (ps s), (pt s); by rewrite Hsame |]. destruct Hkeep as (pt' & ->). by exists (ps s), pt'. }
  destruct (Z.eqb_spec (t_process u) NULL) as [Hz|Hz]; cbn [mbind option_bind negb andb]; [done |].
  destruct Hp as [?|[p Hp]]; [done |]. rewrite Hp. cbn [mbind option_bind].
  destruct (is_user_process p); cbn [mbind option_bind]; [| done].
  destruct (user_started p) eqn:Es; cbn [negb].
  - exists (ps s), (pt s). by rewrite Hsame.
  - unfold update_process. rewrite Hp. cbn [mbind option_bind].
    destruct (build_spec (with_ps (<[t_process u := setp_user_started true p]> (ps s)) s) n u Hu Hn) as (pt' & ->).
    { right. simpl. by rewrite lookup_insert_eq. }
    exists (<[t_process u := setp_user_started true p]> (ps s)), pt'. split; [done |].
    intros q Hq. apply lookup_insert_is_Some'. by right.
Qed.

Lemma save_interrupt_spec s v rsp :
  sched_inv s v -> v_running v = true ->
  exists s' u, scheduler_save_interrupt_context rsp s = Some s' /\ sched_inv s' v /\ frame_q s s' /\
    U s !! v_current v = Some u /\
    U s' = <[v_current v := set_resume_mode TASK_RESUME_INTERRUPT (set_interrupt_rsp rsp u)]> (U s).
Proof.
  intros Hi Hr. destruct (running_current s v Hi Hr) as (Hci & u & Hu & Hus).
  pose proof (si_here _ _ Hi Hr) as Hne. destruct (si_current _ _ Hi) as [Hvc Hsome].
  destruct (unqueued s v _ u Hi Hu) as [Hq Hpk]; [by rewrite Hus .. |].
  unfold scheduler_save_interrupt_context. rewrite <- Hvc.
  destruct (Z.eqb_spec (v_current v) NULL); [done |]. destruct (Z.eqb_spec (v_current v) (idle s)); [done |].
  set (f := fun t => set_resume_mode TASK_RESUME_INTERRUPT (set_interrupt_rsp rsp t)).
  destruct (update_task_spec (v_current v) f s u _ _ _ ltac:(done) Hu (si_linked _ _ Hi)) as (s' & -> & HU & Hl & Hf).
  exists s', u. split; [done |]. split; [| done].
  destruct Hf as ((Hid & Hps & _ & _ & _ & _ & _ & _ & Hpend) & Hc & _).
  apply (inv_update s s' v v (v_current v) u (f u)); try done.
  - by rewrite Hc.
  - by rewrite Hc.
  - intros q Hin. right. split; [| done]. intros ->. set_solver.
  - intros q Hin. right. split; [| done]. intros ->. set_solver.
  - intros q Hin. right. split; [| done]. intros ->. set_solver.
  - intros q Hin. split; [| done]. by intros ->.
  - apply (si_parked_nodup _ _ Hi).
Qed.

Definition with_ready (R : list Z) (v : view) : view :=
  mk_view R (v_blocked v) (v_sleeping v) (v_parked v) (v_current v) (v_running v) (v_idle v).

(** A task taken from the head of the ready queue is in no list. *)
Lemma pop_inv s v n R :
  sched_inv s v -> v_ready v = n :: R ->
  exists s', scheduler_ready_queue_pop s = Some (s', n) /\ sched_inv s' (with_ready R v) /\ frame_q s s' /\
    U s' = U s.
Proof.
  intros Hi Er. pose proof (si_linked _ _ Hi) as Hl. rewrite Er in Hl.
  destruct (pop_spec s n R _ _ Hl) as (s' & E & HU & Hl' & Hf). exists s'. split; [done |]. split; [| done].
  pose proof (si_ready _ _ Hi) as Hrd. rewrite Er in Hrd. apply Forall_cons in Hrd as [_ Hrd].
  destruct Hf as ((Hid & Hps & _ & _ & _ & _ & _ & _ & Hpend) & Hc & _).
  destruct Hi as [_ ? ? _ ? ? ? ? ? ? ? ? ? ?]. split; cbn; unfold in_state in *; rewrite ?HU, ?Hid, ?Hps, ?Hpend, ?Hc; done.
Qed.

(** [scheduler_get_next_interrupt_rsp] requeues without a reset. *)
Lemma requeue_running s v :
  sched_inv s v -> v_running v = true ->
  exists s1 s2 t u, ts s !! current_task s = Some t /\ t_state t = TASK_RUNNING /\
    update_task (current_task s) (set_state TASK_READY) s = Some s1 /\
    push_ready (current_task s) s1 = Some s2 /\ sched_inv s2 (abs_requeue v) /\ frame_q s s2 /\
    U s !! current_task s = Some u /\ U s2 = <[current_task s := set_state TASK_READY u]> (U s).
Proof.
  intros Hi Hr. destruct (running_current s v Hi Hr) as (Hci & u & Hu & Hst). pose proof (si_here _ _ Hi Hr) as Hne.
  destruct (unqueued s v _ u Hi Hu) as [Hq Hpk]; [by rewrite Hst .. |].
  destruct (si_current _ _ Hi) as [Hc _]. destruct (U_lookup _ _ _ Hu) as (t & Ht & Eut).
  destruct (update_task_spec _ (set_state TASK_READY) s u _ _ _ ltac:(done) Hu (si_linked _ _ Hi))
    as (s1 & E1 & HU1 & Hl1 & Hf1).
  destruct (push_ready_spec s1 (v_current v) _ _ _ Hl1 Hq Hne) as (s2 & E2 & HU2 & Hl2 & Hf2);
    [by rewrite HU1, lookup_insert_eq |].
  pose proof (frame_q_trans _ _ _ Hf1 Hf2) as Hf. rewrite <- Hc. exists s1, s2, t, u.
  assert (HU : U s2 = <[v_current v := set_state TASK_READY u]> (U s)) by by rewrite HU2, HU1.
  split_and!; try done; [by subst u |].
  by apply (requeue_inv s s2 v u (set_state TASK_READY u)).
Qed.

(** The pending task, ready and in no list, becomes current. *)
Lemma commit_spec s v n u :
  sched_inv s v -> v_running v = false -> U s !! n = Some u -> t_state u = TASK_READY ->
  (n ∉ v_ready v ++ v_blocked v ++ v_sleeping v) -> (n ∉ v_parked v) -> n <> idle s ->
  exists s', scheduler_commit_pending_task (with_preemption_requested false (with_pending_task n s)) = Some s' /\
    sched_inv s' (mk_view (v_ready v) (v_blocked v) (v_sleeping v) (v_parked v) n true (v_idle v)) /\
    preemption_requested s' = false /\ U s' = <[n := set_state TASK_RUNNING u]> (U s).
Proof.
  intros Hi Hr Hu Hst Hq Hpk Hni. pose proof (inv_not_null _ _ _ _ Hi Hu) as Hn0.
  unfold scheduler_commit_pending_task. cbn [pending_task with_pending_task with_preemption_requested].
  destruct (Z.eqb_spec n NULL); [done |].
  set (s1 := with_preemption_ticks 0 (with_current_task n (with_preemption_requested false (with_pending_task n s)))).
  change (current_task s1) with n. change (idle s1) with (idle s).
  destruct (Z.eqb_spec n (idle s)); [done |].
  destruct (update_task_spec n (set_state TASK_RUNNING) s1 u _ _ _ ltac:(done) Hu (si_linked _ _ Hi))
    as (s2 & -> & HU & Hl & Hf). cbn [mbind option_bind]. eexists. split; [done |].
  destruct Hf as ((Hid & Hps & _) & Hc & _ & _ & _ & Hrq & _). split; [| done].
  apply (inv_update s (with_pending_task NULL s2) v _ n u (set_state TASK_RUNNING u)); try done; cbn.
  - by rewrite (si_pending _ _ Hi).
  - by rewrite Hc.
  - intros q Hqn. rewrite Hr. split; [by intros [_ ?] | by intros [? _]].
  - intros q Hin. right. split; [| done]. intros ->. set_solver.
  - intros q Hin. right. split; [| done]. intros ->. set_solver.
  - intros q Hin. right. split; [| done]. intros ->. set_solver.
  - intros q Hin. split; [| done]. by intros ->.
  - apply (si_parked_nodup _ _ Hi).
Qed.

Lemma inv_requested s v b : sched_inv s v -> sched_inv (with_preemption_requested b s) v.
Proof. intros [? ? ? ? ? ? ? ? ? ? ? ? ? ?]. by split. Qed.

Lemma frame_addr_other s s' n p u :
  U s' = <[p := u]> (U s) -> n <> p -> ps s' = ps s -> frame_addr s' n = frame_addr s n.
Proof. intros HU Hn Hps. unfold frame_addr. by rewrite HU, lookup_insert_ne, Hps by done. Qed.

(** The switch with a request and a ready task that has a frame. *)
Lemma get_next_switch s v n R :
  sched_inv s v -> v_running v = true -> v_ready v = n :: R -> preemption_requested s = true ->
  frame_addr s n <> NULL ->
  exists s2 s', scheduler_get_next_interrupt_rsp context_resume_from_interrupt s = Some (s2, frame_addr s n) /\
    scheduler_commit_pending_task s2 = Some s' /\ sched_inv s' (abs_yield v) /\
    preemption_requested s' = false /\ kept s s' /\
    (forall q, q <> n -> t_resume_mode <$> U s' !! q = t_resume_mode <$> U s !! q /\
       t_interrupt_rsp <$> U s' !! q = t_interrupt_rsp <$> U s !! q).
Proof.
  intros Hi Hr Er Hrq Hfr. pose proof (si_ready _ _ Hi) as Hrd. rewrite Er in Hrd.
  apply Forall_cons in Hrd as [(u & Hu & Hus) _]. pose proof (inv_not_null _ _ _ _ Hi Hu) as Hn0.
  assert (Hni : n <> idle s) by (intros ->; destruct (idle_state s v Hi) as (w & Hw & Hws); congruence).
  destruct (running_current s v Hi Hr) as (Hci & c & Hcu & Hcs). destruct (si_current _ _ Hi) as [Hvc _].
  assert (Hnc : n <> v_current v) by (intros ->; congruence).
  unfold scheduler_get_next_interrupt_rsp. rewrite Hrq. cbn [negb].
  rewrite (next_task_eq s v Hi). unfold abs_dispatch. rewrite Er. cbn [v_current].
  destruct (Z.eqb_spec n NULL); [done |]. destruct (Z.eqb_spec n (idle s)); [done |]. cbn [orb].
  destruct (next_frame_spec s n u Hu Hn0 (si_procs _ _ Hi _ _ Hu)) as (ps' & pt' & -> & Hsub).
  cbn [mbind option_bind]. destruct (Z.eqb_spec (frame_addr s n) NULL); [done |].
  pose proof (inv_ps_pt s v ps' pt' Hi Hsub) as Hi1. set (s1 := with_pt pt' (with_ps ps' s)) in *.
  destruct (pop_inv s1 v n R Hi1 Er) as (s2 & -> & Hi2 & Hf2 & HU2). cbn [mbind option_bind].
  destruct (requeue_running s2 (with_ready R v) Hi2 Hr) as (s3 & s4 & t & w & Ht & Hts & E3 & E4 & Hi4 & Hf4 & Hw & HU4).
  assert (Hc2 : current_task s2 = v_current v) by (rewrite Hvc; apply Hf2).
  assert (Hid2 : idle s2 = idle s) by apply Hf2. rewrite Hid2.
  rewrite Hc2 in *. destruct (Z.eqb_spec (v_current v) NULL) as [Hz|]; [by apply (si_here _ _ Hi) in Hr |].
  destruct (Z.eqb_spec (v_current v) (idle s)); [done |]. cbn [orb]. rewrite Ht. cbn [mbind option_bind].
  rewrite bool_decide_true by done. rewrite E3. cbn [mbind option_bind]. rewrite E4. cbn [mbind option_bind].
  pose proof (si_linked _ _ Hi) as (_ & _ & _ & Hnd). rewrite Er in Hnd. simpl in Hnd. apply NoDup_cons in Hnd as [Hnn _].
  assert (Hu4 : U s4 !! n = Some u) by (rewrite HU4, lookup_insert_ne, HU2 by done; done).
  destruct (commit_spec s4 (abs_requeue (with_ready R v)) n u Hi4 (abs_requeue_stopped _) Hu4 Hus)
    as (s5 & E5 & Hi5 & Hrq5 & HU5).
  - unfold abs_requeue. cbn [v_running with_ready]. rewrite Hr. cbn. set_solver.
  - unfold abs_requeue. cbn [v_running with_ready]. rewrite Hr. cbn.
    eapply not_in_list; [apply (si_parked_state _ _ Hi) | exact Hu | by rewrite Hus].
  - assert (Hid4 : idle s4 = idle s) by (rewrite <- Hid2; apply Hf4). by rewrite Hid4.
  - exists (with_preemption_requested false (with_pending_task n s4)), s5. split; [done |].
    split; [done |]. rewrite HU2 in *. change (U s1) with (U s) in *.
    assert (Hk : kept s s4) by by apply (kept_insert s s4 (v_current v) w (set_state TASK_READY w)).
    split_and!.
    + unfold abs_yield, abs_requeue, abs_dispatch in *. cbn [v_running with_ready] in Hi5. rewrite Hr in *.
      cbn in *. by rewrite Er.
    + done.
    + apply (kept_trans s s4 s5); [done |]. by apply (kept_insert s4 s5 n u (set_state TASK_RUNNING u)).
    + intros q Hq. rewrite HU5, HU4, lookup_insert_ne by done.
      destruct (decide (q = v_current v)) as [->|]; [by rewrite lookup_insert_eq, Hw | by rewrite lookup_insert_ne].
Qed.

Lemma isr_switch_spec s v rsp :
  sched_inv s v -> v_running v = true ->
  let f := frame_addr s (hd NULL (v_ready v)) in
  let switch := preemption_requested s && negb (f =? NULL) in
  exists s' u, isr_switch context_resume_from_interrupt rsp s = Some (s', if switch then f else rsp) /\
    sched_inv s' (if switch then abs_yield v else v) /\ preemption_requested s' = false /\
    U s' !! v_current v = Some u /\ t_resume_mode u = TASK_RESUME_INTERRUPT /\ t_interrupt_rsp u = rsp /\
    same_tasks s s'.
Proof.
  intros Hi Hr f switch.
  destruct (save_interrupt_spec s v rsp Hi Hr) as (s1 & u & E1 & Hi1 & Hf1 & Hu & HU1).
  unfold isr_switch. rewrite E1. cbn [mbind option_bind].
  assert (Hrq1 : preemption_requested s1 = preemption_requested s) by apply Hf1.
  assert (Hps1 : ps s1 = ps s) by apply Hf1.
  set (u1 := set_resume_mode TASK_RESUME_INTERRUPT (set_interrupt_rsp rsp u)) in *.
  assert (Hu1 : U s1 !! v_current v = Some u1) by by rewrite HU1, lookup_insert_eq.
  destruct (running_current s v Hi Hr) as (Hci & c & Hcu & Hcs).
  assert (c = u) as -> by congruence.
  pose proof (insert_same_tasks s s1 _ u u1 Hu HU1) as Hsm.
  assert (Hnn : frame_addr s NULL = NULL) by (unfold frame_addr; by rewrite (si_null _ _ Hi)).
  destruct (preemption_requested s) eqn:Erq.
  2: { unfold scheduler_get_next_interrupt_rsp. rewrite Hrq1. cbn [negb mbind option_bind]. exists s1, u1. done. }
  destruct (v_ready v) as [|n R] eqn:Er.
  { unfold scheduler_get_next_interrupt_rsp. rewrite Hrq1. cbn [negb].
    rewrite (next_task_eq s1 v Hi1). unfold abs_dispatch. rewrite Er. cbn [v_current].
    destruct (si_idle _ _ Hi1) as [-> _]. rewrite Z.eqb_refl, orb_true_r. cbn [mbind option_bind].
    subst switch f. cbn [hd]. rewrite Hnn. exists (with_preemption_requested false s1), u1.
    split; [done |]. split; [by apply inv_requested | done]. }
  cbn [hd] in *. assert (Hfs : frame_addr s1 n = f).
  { apply (frame_addr_other s s1 n (v_current v) u1); try done. intros ->.
    pose proof (si_ready _ _ Hi) as Hrd. rewrite Er in Hrd. apply Forall_cons in Hrd as [(w & ? & ?) _]. congruence. }
  subst switch. destruct (Z.eqb_spec f NULL) as [Hz|Hz]; cbn [negb andb].
  - pose proof (si_ready _ _ Hi1) as Hrd. rewrite Er in Hrd. apply Forall_cons in Hrd as [(w & Hw & Hws) _].
    pose proof (inv_not_null _ _ _ _ Hi1 Hw) as Hn0.
    unfold scheduler_get_next_interrupt_rsp. rewrite Hrq1. cbn [negb].
    rewrite (next_task_eq s1 v Hi1). unfold abs_dispatch. rewrite Er. cbn [v_current].
    destruct (next_frame_spec s1 n w Hw Hn0 (si_procs _ _ Hi1 _ _ Hw)) as (ps' & pt' & -> & Hsub).
    destruct (Z.eqb_spec n NULL); [done |].
    destruct (Z.eqb_spec n (idle s1)) as [Hni|]; cbn [orb mbind option_bind].
    { exists (with_preemption_requested false s1), u1. split; [done |]. split; [by apply inv_requested | done]. }
    rewrite Hfs, Hz. cbn [Z.eqb NULL]. eexists _, u1. split; [done |]. split; [| done].
    apply inv_requested, inv_ps_pt; done.
  - destruct (get_next_switch s1 v n R Hi1 Hr Er Hrq1 ltac:(by rewrite Hfs))
      as (s2 & s3 & E2 & E3 & Hi3 & Hrq3 & Hk3 & Hres).
    rewrite E2, Hfs. cbn [mbind option_bind]. destruct (Z.eqb_spec f NULL); [done |]. rewrite E3. cbn [mbind option_bind].
    destruct (kept_lookup s1 s3 _ u1 Hk3 Hu1) as (u3 & Hu3 & _).
    destruct (Hres (v_current v)) as [Hm Hi3r].
    { intros E. pose proof (si_ready _ _ Hi) as Hrd. rewrite Er in Hrd. apply Forall_cons in Hrd as [(w & ? & ?) _]. congruence. }
    rewrite Hu3, Hu1 in Hm, Hi3r. simpl in Hm, Hi3r. exists s3, u3.
    split_and!; try done; try congruence.
    apply (same_tasks_trans s s1 s3); [done | by apply kept_same_tasks].
Qed.

(** ** Properties *)

(** C27: [scheduler_block_current] and [scheduler_sleep] move the running task to
    the end of the blocked or the sleep queue and dispatch another one;
    [scheduler_unblock] makes exactly a blocked task ready again, with its resume
    information cleared; the timer makes exactly the sleepers ready whose wake
    tick has come, in the order they went to sleep. *)
Theorem scheduler_waiting_correct s v (Hi : sched_inv s v) :
  (v_running v = true -> exists s' w, scheduler_block_current s = Some (s', Switched w [false; irq_enabled s]) /\
     sched_inv s' (abs_block v)) /\
  (forall ticks, v_running v = true ->
     exists s' w, scheduler_sleep ticks s = Some (s', Switched w [false; irq_enabled s]) /\
       sched_inv s' (abs_sleep v) /\
       t_wake_tick <$> U s' !! current_task s = Some (u64 (system_ticks s + ticks))) /\
  (forall p u, U s !! p = Some u -> exists s', scheduler_unblock p s = Some s' /\
     (t_state u = TASK_BLOCKED -> sched_inv s' (abs_unblock p v) /\
        U s' = <[p := reset (set_state TASK_READY u)]> (U s)) /\
     (t_state u <> TASK_BLOCKED -> s' = s)) /\
  (exists s', scheduler_tick s = Some s' /\ sched_inv s' (abs_wake (due s) v) /\ kept s s').
Proof.
  split_and!.
  - intros Hr. destruct (block_spec s v Hi Hr) as (s' & E & Hi' & _). rewrite E. by eexists _, _.
  - intros ticks Hr. destruct (sleep_spec s v ticks Hi Hr) as (s' & E & Hi' & _ & _ & _ & _ & _ & _ & Hw).
    rewrite E. by eexists _, _.
  - intros p u Hu. destruct (unblock_spec s v p u Hi Hu) as (s' & E & _ & Hb & Hn). by exists s'.
  - destruct (tick_spec s v Hi) as (s' & E & Hi' & _ & Hk). by exists s'.
Qed.

(** at the end of an interrupt of the running task its stack pointer is saved
    as the place it resumes from; when a preemption is requested and the next
    ready task has a frame to return through, the interrupt returns through that
    frame and the queues step as for a yield; otherwise it returns where it came
    from and the queues are unchanged.  The request is closed either way. *)
Theorem isr_switch_correct s v rsp (Hi : sched_inv s v) (Hr : v_running v = true) :
  let f := frame_addr s (hd NULL (v_ready v)) in
  let switch := preemption_requested s && negb (f =? NULL) in
  exists s' u, isr_switch context_resume_from_interrupt rsp s = Some (s', if switch then f else rsp) /\
    sched_inv s' (if switch then abs_yield v else v) /\ preemption_requested s' = false /\
    U s' !! v_current v = Some u /\ t_resume_mode u = TASK_RESUME_INTERRUPT /\ t_interrupt_rsp u = rsp.
Proof.
  destruct (isr_switch_spec s v rsp Hi Hr) as (s' & u & H1 & H2 & H3 & H4 & H5 & H6 & _).
  by exists s', u.
Qed.
End wake.
