(* ===== verification/SchedulerProps.v ===== *)
(** * Properties of the scheduler

    The theorems of [SchedulerSpec.v] and [SchedulerWake.v] put together: the
    refinement of the abstract queues, the invariant over any sequence of
    operations, round-robin order and the time slice. *)
From S2P Require Import Prelude PageAllocator Memory KAlloc Fd Elf TaskQueue PageTable System Scheduler SchedulerSpec SchedulerWake.
Import Mem Task Scheduler.
#[local] Open Scope Z_scope.

Section props.
Context {K A : Type} `{KAlloc K}.
Variables (context_resume_from_interrupt : Z).
Implicit Types s : sys K A.

(** ** Sequences of operations *)

(** What reaches the scheduler: calls of the executing task, and timer
    interrupts ([OpTimer], with the handler's argument and the stack pointer of
    the interrupted code). *)
Inductive sched_op :=
  | OpYield | OpBlock | OpSleep (ticks : Z) | OpUnblock (task : Z) | OpTimer (context interrupt_rsp : Z).

Definition run_op (op : sched_op) s : option (sys K A) :=
  match op with
  | OpYield => '(s, _) ← scheduler_yield s; Some s
  | OpBlock => '(s, _) ← scheduler_block_current s; Some s
  | OpSleep ticks => '(s, _) ← scheduler_sleep ticks s; Some s
  | OpUnblock task => scheduler_unblock task s
  | OpTimer context rsp =>
    s ← pit_irq_handler context s;
    '(s, _) ← isr_switch context_resume_from_interrupt rsp s; Some s
  end.

Fixpoint run_ops (ops : list sched_op) s : option (sys K A) :=
  match ops with
  | [] => Some s
  | op :: ops' => s ← run_op op s; run_ops ops' s
  end.

(** Operations are called with pointers to tasks. *)
Definition op_ok s (op : sched_op) : Prop :=
  match op with OpUnblock p => p <> NULL -> is_Some (ts s !! p) | _ => True end.

(** Between operations the current task runs or is the idle task, or the boot
    code still executes; no request for preemption is open. *)
Record sched_ok s (v : view) : Prop := {
  so_inv : sched_inv s v;
  so_exec : v_running v = true \/ v_current v = idle s \/ v_current v = NULL;
  so_request : preemption_requested s = false;
}.

Lemma abs_dispatch_exec v s' : idle s' = v_idle v ->
  v_running (abs_dispatch v) = true \/ v_current (abs_dispatch v) = idle s' \/ v_current (abs_dispatch v) = NULL.
Proof. intros ->. unfold abs_dispatch. destruct (v_ready v); [by right; left | by left]. Qed.

Lemma abs_yield_exec s v s' : sched_inv s v -> frame s s' ->
  v_running (abs_yield v) = true \/ v_current (abs_yield v) = idle s' \/ v_current (abs_yield v) = NULL.
Proof.
  intros Hi (Hid & _). apply abs_dispatch_exec. rewrite Hid. destruct (si_idle _ _ Hi) as [<- _].
  unfold abs_requeue. by destruct (v_running v).
Qed.

Lemma abs_leave_exec s v s' v2 : sched_inv s v -> frame s s' -> v_idle v2 = v_idle v ->
  v_running (abs_dispatch v2) = true \/ v_current (abs_dispatch v2) = idle s' \/ v_current (abs_dispatch v2) = NULL.
Proof. intros Hi (Hid & _) E. apply abs_dispatch_exec. rewrite Hid, E. by destruct (si_idle _ _ Hi). Qed.

Lemma current_is s v : sched_inv s v -> v_current v = current_task s.
Proof. intros Hi. by destruct (si_current _ _ Hi). Qed.

Lemma yield_ok s v : sched_ok s v ->
  exists s' o, scheduler_yield s = Some (s', o) /\ sched_ok s' (abs_yield v) /\ same_tasks s s'.
Proof.
  intros [Hi _ Hrq]. destruct (yield_spec s v Hi) as (s' & o & E & Hi' & Hf & _ & Hk & Hrq' & _).
  exists s', o. split; [done |]. split; [| by apply kept_same_tasks].
  split; [done | by eapply abs_yield_exec | congruence].
Qed.

(** A timer interrupt: wake the sleepers that are due, then switch when the
    request is set and the next task has a frame. *)
Definition abs_preempt s (v : view) : view :=
  if preemption_requested s && negb (frame_addr s (hd NULL (v_ready v)) =? NULL) then abs_yield v else v.

Lemma inv_preempt s v c : sched_inv s v -> sched_inv (scheduler_preempt c s) v.
Proof.
  intros Hi. unfold scheduler_preempt. repeat case_match; try done;
    destruct Hi as [? ? ? ? ? ? ? ? ? ? ? ? ? ?]; by split.
Qed.

Definition stopped s : bool := (current_task s =? NULL) || (current_task s =? idle s).

Lemma preempt_stopped s c : stopped s = true -> scheduler_preempt c s = s.
Proof.
  unfold stopped, scheduler_preempt. destruct (c =? NULL); [done |]. destruct (current_task s =? NULL); [done |].
  cbn [orb]. by intros ->.
Qed.

Lemma isr_stopped s rsp :
  stopped s = true -> preemption_requested s = false ->
  isr_switch context_resume_from_interrupt rsp s = Some (s, rsp).
Proof.
  unfold stopped, isr_switch, scheduler_save_interrupt_context, scheduler_get_next_interrupt_rsp. intros Hs Hrq.
  destruct (current_task s =? NULL); cbn [orb] in Hs; [| rewrite Hs]; cbn [mbind option_bind]; by rewrite Hrq.
Qed.

Lemma stopped_eq s v : sched_inv s v -> v_current v = idle s \/ v_current v = NULL -> stopped s = true.
Proof.
  intros Hi Hv. unfold stopped. destruct (si_current _ _ Hi) as [<- _].
  destruct Hv as [-> | ->]; by rewrite Z.eqb_refl, ?orb_true_r.
Qed.

Lemma preempt_same s c :
  ts (scheduler_preempt c s) = ts s /\ ps (scheduler_preempt c s) = ps s /\
  idle (scheduler_preempt c s) = idle s /\ current_task (scheduler_preempt c s) = current_task s /\
  ready_queue (scheduler_preempt c s) = ready_queue s.
Proof. unfold scheduler_preempt. repeat case_match; done. Qed.

Lemma inv_ticks s v n : sched_inv s v -> sched_inv (with_system_ticks n s) v.
Proof. intros [? ? ? ? ? ? ? ? ? ? ? ? ? ?]. by split. Qed.

Lemma timer_ok s v c rsp : sched_ok s v ->
  exists s1 s2 r v', pit_irq_handler c s = Some s1 /\ isr_switch context_resume_from_interrupt rsp s1 = Some (s2, r) /\
    sched_ok s2 v' /\ same_tasks s s2.
Proof.
  intros [Hi Hex Hrq]. unfold pit_irq_handler.
  destruct (tick_spec _ v (inv_ticks s v (u64 (system_ticks s + 1)) Hi)) as (s1 & -> & Hi1 & Hf1 & Hk1).
  cbn [mbind option_bind]. set (v1 := abs_wake _ v) in *.
  pose proof (inv_preempt s1 v1 c Hi1) as Hi2. destruct (preempt_same s1 c) as (Hts2 & _ & Hid2 & Hc2 & _).
  assert (Hid1 : idle s1 = idle s) by apply Hf1.
  eexists _. destruct Hex as [Hr|Hid].
  - destruct (isr_switch_spec context_resume_from_interrupt _ v1 rsp Hi2 Hr) as (s3 & u & E & Hi3 & Hrq3 & _ & _ & _ & Hsm).
    exists s3. eexists _, _. split; [done |]. split; [exact E |]. split.
    2: { apply (same_tasks_trans s s1 s3); [by apply kept_same_tasks |]. unfold same_tasks in *. by rewrite Hsm, (U_of_ts (scheduler_preempt c s1) s1) by by rewrite Hts2. }
    split; [exact Hi3 | | done].
    destruct (si_idle _ _ Hi3) as [Hid3 _]. rewrite <- Hid3.
    destruct (preemption_requested (scheduler_preempt c s1) && _); [| by left].
    unfold abs_yield, abs_dispatch. by destruct (v_ready (abs_requeue v1)); [right; left | left].
  - assert (Hst : stopped s1 = true).
    { apply (stopped_eq s1 v1 Hi1). destruct Hid as [Hid|Hid]; [left | by right]. by rewrite Hid1. }
    rewrite (preempt_stopped s1 c Hst). exists s1, rsp, v1. split; [done |].
    assert (Hrq1 : preemption_requested s1 = false) by (rewrite <- Hrq; apply Hf1).
    split; [by apply isr_stopped |]. split; [| by apply kept_same_tasks]. split; [done | | done].
    right. rewrite Hid1. exact Hid.
Qed.

Lemma run_op_ok op s v : sched_ok s v -> op_ok s op -> 
  exists s' v', run_op op s = Some s' /\ sched_ok s' v' /\ same_tasks s s'.
Proof.
  intros Hok Hop. pose proof Hok as [Hi Hex Hrq]. pose proof (current_is _ _ Hi) as Hc.
  assert (Hidle : v_current v = idle s \/ v_current v = NULL ->
    (current_task s =? NULL) || (current_task s =? idle s) = true) by apply (stopped_eq s v Hi).
  destruct op as [| |t|p|c rsp]; cbn [run_op].
  - destruct (yield_ok s v Hok) as (s' & o & -> & Hok' & Hsm). by exists s', (abs_yield v).
  - destruct Hex as [Hr|Hid].
    + destruct (block_spec s v Hi Hr) as (s' & -> & Hi' & Hf & _ & Hrq' & _ & _ & Hsm). exists s', (abs_block v). split; [done |].
      split; [| done]. split; [done | by apply (abs_leave_exec s v s' (with_blocked_current v)) | congruence].
    + unfold scheduler_block_current, interrupt_save, scheduler_block_current_locked.
      cbn [current_task idle with_irq_enabled]. rewrite (Hidle Hid). cbn [mbind option_bind then_restore].
      exists s, v. split; [| done]. by destruct s as [? ? ? ? ? ? ? ? ? ? ? ? ? ? ? ? ? ? []].
  - destruct Hex as [Hr|Hid].
    + destruct (sleep_spec s v t Hi Hr) as (s' & -> & Hi' & Hf & _ & Hrq' & _ & _ & Hsm & _). exists s', (abs_sleep v). split; [done |].
      split; [| done]. split; [done | by apply (abs_leave_exec s v s' (with_sleeping_current v)) | congruence].
    + unfold scheduler_sleep. rewrite (Hidle Hid). by exists s, v.
  - destruct (decide (p = NULL)) as [->|Hp]; [by exists s, v |]. destruct (Hop Hp) as [t Ht].
    assert (Hu : U s !! p = Some (set_next NULL t)) by (unfold U, unlinked; by rewrite lookup_fmap, Ht).
    destruct (unblock_spec s v p _ Hi Hu) as (s' & E & Hf & Hb & Hnb).
    destruct (decide (t_state t = TASK_BLOCKED)) as [Hs|Hs].
    + destruct (Hb Hs) as [Hi' HU]. exists s', (abs_unblock p v). split; [done |].
      split; [| by apply (insert_same_tasks s s' p _ _ Hu HU)].
      destruct Hf as ((Hid & _) & _ & _ & _ & _ & Hrq' & _). split; [done | by rewrite Hid | congruence].
    + rewrite (Hnb Hs) in E. by exists s, v.
  - destruct (timer_ok s v c rsp Hok) as (s1 & s2 & r & v' & -> & E & Hok' & Hsm). cbn [mbind option_bind].
    rewrite E. by exists s2, v'.
Qed.

Lemma run_ops_ok ops : forall s v,
  sched_ok s v -> (forall p, OpUnblock p ∈ ops -> p <> NULL -> is_Some (ts s !! p)) ->
  exists s' v', run_ops ops s = Some s' /\ sched_ok s' v'.
Proof.
  induction ops as [|op ops IH]; intros s v Hok Hp; [by exists s, v |].
  destruct (run_op_ok op s v Hok) as (s1 & v1 & E & Hok1 & Hsm).
  { destruct op; try done. simpl. apply Hp. by left. }
  simpl. rewrite E. cbn [mbind option_bind]. apply (IH s1 v1 Hok1). intros p Hin Hp0.
  apply (same_tasks_lookup s s1 p Hsm). apply Hp; [by right | done].
Qed.

(** ** New tasks *)

(** The stack of a new task: its entry as the return address of the first
    switch, and a null return address for the entry itself. *)
Lemma context_init_spec entry top m :
  16 <= top -> top < 2 ^ 64 -> 0 <= entry < 2 ^ 64 ->
  let '(m', c) := context_init entry top m in
  c_rsp c = top - 16 /\ load64 m' (top - 16) = entry /\ load64 m' (top - 8) = 0 /\
  forall x, 0 <= x < 2 ^ 64 -> x < top - 16 \/ top <= x -> load8 m' x = load8 m x.
Proof.
  intros Ht1 Ht2 He. unfold context_init. cbn [c_rsp]. rewrite !u64_id by lia. split_and!; [done | | |].
  - apply load64_store64; lia.
  - rewrite load64_store64_ne by lia. apply load64_store64; lia.
  - intros x Hx Ho. by rewrite !load8_store64_ne by lia.
Qed.

(** Tasks are live heap objects. *)
Definition tasks_live s (L : gmap Z Z) : Prop := forall p, is_Some (ts s !! p) -> is_Some (L !! p).

Lemma sizes_ok : 0 < sizeof_task <= 2 ^ 32 /\ 0 < KERNEL_STACK_SIZE <= 2 ^ 32.
Proof. unfold sizeof_task, KERNEL_STACK_SIZE. lia. Qed.

Lemma task_create_spec `{!KAllocLaws K} entry s L :
  ka_live (heap s) L -> tasks_live s L -> 0 < entry < 2 ^ 64 ->
  let '(s', p) := task_create entry s in
  (p = NULL /\ ts s' = ts s /\ kmem s' = kmem s /\ ka_live (heap s') L) \/
  (exists t n m, p <> NULL /\ ts s !! p = None /\ ts s' = <[p := t]> (ts s) /\
     sizeof_task <= m /\ KERNEL_STACK_SIZE <= n /\
     ka_live (heap s') (<[t_kernel_stack t := n]> (<[p := m]> L)) /\ L !! t_kernel_stack t = None /\
     t_state t = TASK_READY /\ t_entry t = entry /\ t_process t = NULL /\ t_next t = NULL /\
     t_id t = next_task_id s /\ t_resume_mode t = TASK_RESUME_CONTEXT /\ t_interrupt_rsp t = NULL /\
     t_kernel_stack_size t = KERNEL_STACK_SIZE /\
     let top := t_kernel_stack t + KERNEL_STACK_SIZE in
     c_rsp (t_context t) = top - 16 /\
     load64 (kmem s') (top - 16) = entry /\ load64 (kmem s') (top - 8) = 0 /\
     forall x, 0 <= x < 2 ^ 64 -> x < t_kernel_stack t \/ top <= x -> load8 (kmem s') x = load8 (kmem s) x).
Proof.
  intros Hlive Hts He. unfold task_create. destruct (Z.eqb_spec entry NULL); [unfold NULL in *; lia |].
  destruct (ka_malloc sizeof_task (heap s)) as [k1 p] eqn:E1.
  destruct (ka_malloc_spec _ _ _ _ _ Hlive (proj1 sizes_ok) E1) as [(-> & Hl1) | (m & Hm & Hp & Hp0 & Hl1)].
  { left. done. }
  destruct (Z.eqb_spec p NULL); [done |]. cbn [heap with_heap].
  destruct (ka_malloc KERNEL_STACK_SIZE k1) as [k2 stack] eqn:E2.
  destruct (ka_malloc_spec _ _ _ _ _ Hl1 (proj2 sizes_ok) E2) as [(-> & Hl2) | (n' & Hn & Hst & Hst0 & Hl2)].
  { left. simpl. split_and!; try done.
    pose proof (ka_free_spec _ _ p m Hl2 (lookup_insert_eq _ _ _)) as Hf. by rewrite delete_insert_id in Hf. }
  destruct (Z.eqb_spec stack NULL); [done |]. cbn [heap with_heap next_task_id with_next_task_id].
  destruct (ka_range _ _ stack n' Hl2 (lookup_insert_eq _ _ _)) as (? & ? & ? & _).
  assert (Hst' : L !! stack = None) by (by apply lookup_insert_None in Hst as [? _]).
  unfold KERNEL_STACK_SIZE in *. rewrite (u64_id (stack + 16 * 1024)) by lia.
  match goal with |- context [context_init entry ?top ?mm] =>
    pose proof (context_init_spec entry top mm ltac:(lia) ltac:(lia) ltac:(lia)) as Hc;
    destruct (context_init entry top mm) as [m' c] end.
  destruct Hc as (Hrsp & Hr & Hr0 & Ho). right.
  exists (mk_task (next_task_id s) c NULL entry stack (16 * 1024) TASK_READY NULL 0 TASK_RESUME_CONTEXT NULL), n', m.
  cbn. split_and!; try done.
  - destruct (ts s !! p) eqn:Ep; [| done]. destruct (Hts p) as [? Hx]; [by rewrite Ep | congruence].
  - intros x Hx Hd. apply Ho; [done | lia].
Qed.

(** The scheduler's invariant with one more task, in no queue. *)
Lemma inv_new s s' v p t :
  sched_inv s v -> ts s !! p = None -> p <> NULL -> ts s' = <[p := t]> (ts s) ->
  t_state t = TASK_READY -> t_process t = NULL \/ is_Some (ps s' !! t_process t) ->
  (forall q, is_Some (ps s !! q) -> is_Some (ps s' !! q)) -> idle s' = idle s ->
  current_task s' = current_task s -> pending_task s' = pending_task s ->
  ready_queue s' = ready_queue s -> blocked_queue s' = blocked_queue s -> sleep_queue s' = sleep_queue s ->
  sched_inv s' v /\ (p ∉ v_ready v ++ v_blocked v ++ v_sleeping v) /\ (p ∉ v_parked v) /\ p <> idle s.
Proof.
  intros Hi Hp Hp0 Hts Hst Hpr Hps Hid Hc Hpend Hrq Hbq Hsq.
  assert (HU : U s' = <[p := set_next NULL t]> (U s)) by (unfold U, unlinked; by rewrite Hts, fmap_insert).
  assert (Hpu : U s !! p = None) by (unfold U, unlinked; by rewrite lookup_fmap, Hp).
  assert (Hin : forall l st, Forall (in_state s st) l -> (p ∉ l) /\ Forall (in_state s' st) l).
  { intros l st Hl. assert (Hn : p ∉ l).
    { intros Hin. apply (proj1 (Forall_forall _ _) Hl) in Hin as (u & ? & _). congruence. }
    split; [done |]. apply (Forall_update s s' st l l p (set_next NULL t) HU Hl). intros q Hq. right.
    split; [by intros -> | done]. }
  destruct Hi as [(HR & HB & HS & Hnd) ? ? Hr Hb Hsl Hpk Hnull [Hvi (w & Hw & Hws)] [Hvc Hcs] Hrun ? Hproc ?].
  destruct (Hin _ _ Hr), (Hin _ _ Hb), (Hin _ _ Hsl), (Hin _ _ Hpk).
  assert (Hpi : p <> idle s) by (intros ->; congruence).
  split; [| split_and!; [set_solver | done | done]].
  assert (Hrep : forall h l, q_rep (ts s) h l -> (p ∉ l) -> q_rep (ts s') h l).
  { intros h l Hl Hn. eapply q_rep_ext; [| exact Hl]. intros q Hq. rewrite Hts, lookup_insert_ne; [done |]. by intros ->. }
  split; rewrite ?Hid, ?Hc, ?Hpend; try done.
  - unfold linked. rewrite Hrq, Hbq, Hsq. split_and!; auto.
  - rewrite HU, lookup_insert_ne by done. done.
  - split; [done |]. exists w. by rewrite HU, lookup_insert_ne by done.
  - split; [done |]. intros Hne. rewrite HU. apply lookup_insert_is_Some'. right. auto.
  - intros q u. rewrite HU. intros [[<- <-]|[Hne Hq]]%lookup_insert_Some; [| by apply Hrun].
    cbn. rewrite Hst. split; [done |]. intros [Hpc Hrn]. subst p.
    destruct (Hcs ltac:(rewrite <- Hvc; auto)) as [x Hx]. rewrite <- Hvc in Hx. congruence.
  - intros q u. rewrite HU. intros [[<- <-]|[Hne Hq]]%lookup_insert_Some; [exact Hpr |].
    destruct (Hproc q u Hq); [by left | right; by apply Hps].
Qed.

(** The invariant looks at the tasks and the queue variables only. *)
Definition same_sched s s' : Prop :=
  ts s' = ts s /\ ready_queue s' = ready_queue s /\ blocked_queue s' = blocked_queue s /\
  sleep_queue s' = sleep_queue s /\ idle s' = idle s /\ current_task s' = current_task s /\
  pending_task s' = pending_task s.

Lemma inv_same s s' v :
  sched_inv s v -> same_sched s s' -> (forall q, is_Some (ps s !! q) -> is_Some (ps s' !! q)) -> sched_inv s' v.
Proof.
  intros Hi (Hts & Hr & Hb & Hsl & Hid & Hc & Hp) Hps.
  assert (HU : U s' = U s) by (unfold U; by rewrite Hts).
  pose proof (si_procs _ _ Hi) as Hproc. destruct Hi. split; unfold linked, in_state in *; rewrite ?HU, ?Hts, ?Hr, ?Hb, ?Hsl, ?Hid, ?Hc, ?Hp; try done.
  intros p u Hu. destruct (Hproc p u Hu); [by left | right; by apply Hps].
Qed.

(** The state after [scheduler_init] on a kernel without tasks. *)
Lemma sched_init_spec idle_task s s' :
  ts s = ∅ -> 0 < idle_task < 2 ^ 64 -> scheduler_init idle_task s = Some s' -> idle s' <> NULL ->
  sched_ok s' (mk_view [] [] [] [] NULL false (idle s')).
Proof.
  intros Hts He. unfold scheduler_init.
  match goal with |- context [task_create idle_task ?s0] => set (s1 := s0) end.
  assert (Hc : exists s2 p t, task_create idle_task s1 = (s2, p) /\ (p <> NULL -> ts s2 = {[p := t]} /\ t_process t = NULL) /\
    ready_queue s2 = NULL /\ blocked_queue s2 = NULL /\ sleep_queue s2 = NULL /\ current_task s2 = NULL /\
    pending_task s2 = NULL /\ preemption_requested s2 = false).
  { unfold task_create. destruct (Z.eqb_spec idle_task NULL); [unfold NULL in *; lia |].
    set (t0 := mk_task 0 (boot_context s) 0 0 0 0 TASK_READY 0 0 TASK_RESUME_CONTEXT 0).
    destruct (ka_malloc sizeof_task (heap s1)) as [k1 p].
    destruct (Z.eqb_spec p NULL); [eexists _, _, t0; split; [done |]; done |]. cbn [heap with_heap].
    destruct (ka_malloc KERNEL_STACK_SIZE k1) as [k2 stack].
    destruct (Z.eqb_spec stack NULL); [eexists _, _, t0; split; [done |]; done |].
    match goal with |- context [context_init ?a ?b ?c] => destruct (context_init a b c) as [m c'] end.
    eexists _, _, _. split; [done |]. cbn. rewrite Hts. done. }
  destruct Hc as (s2 & p & t & -> & Htask & Hr & Hb & Hsl & Hcur & Hpend & Hrq).
  destruct (Z.eqb_spec p NULL) as [->|Hp]; [by intros [= <-] |].
  destruct (Htask Hp) as [Hts2 Hproc]. unfold update_task, update. cbn [ts with_idle]. rewrite Hts2, lookup_singleton_eq.
  cbn [mbind option_bind]. intros [= <-] _. cbn [idle with_idle with_ts].
  set (f := set_next NULL (set_state TASK_IDLE t)).
  set (s3 := with_ts _ _).
  assert (HU : U s3 = {[p := f]}).
  { unfold U, unlinked. cbn [ts s3 with_ts]. by rewrite insert_singleton_eq, map_fmap_singleton. }
  assert (Hid : idle s3 = p) by done.
  assert (Hf : t_state f = TASK_IDLE /\ t_process f = NULL) by done. destruct Hf as [Hfs Hfp]. clearbody f.
  split; [split | by right; right | done]; cbn [v_ready v_blocked v_sleeping v_parked v_current v_running v_idle];
    try (by apply Forall_nil); try done.
  - unfold linked. cbn. rewrite Hr, Hb, Hsl. split_and!; try done. apply NoDup_nil_2.
  - intros q Hq. by apply elem_of_nil in Hq.
  - apply NoDup_nil_2.
  - rewrite HU. by rewrite lookup_singleton_ne.
  - split; [done |]. exists f. rewrite HU, Hid, lookup_singleton_eq. done.
  - intros q u. rewrite HU. intros [<- <-]%lookup_singleton_Some. rewrite Hfs. split; [done | by intros [_ ?]].
  - intros q u. rewrite HU. intros [<- <-]%lookup_singleton_Some. by left.
Qed.
End props.

Section properties.
Context {K A : Type} `{KAlloc K}.
Variables (context_resume_from_interrupt : Z).
Implicit Types s : sys K A.

(** C3: no sequence of scheduler calls and timer interrupts, from any state in
    order, runs into a pointer to no task, loops, or breaks the invariant that
    every waiting task is in exactly one queue of its state and only the current
    task is running. *)
Theorem scheduler_operations_safe ops s v (Hok : sched_ok s v)
    (Hp : forall p, OpUnblock p ∈ ops -> p <> NULL -> is_Some (ts s !! p)) :
  exists s' v', run_ops context_resume_from_interrupt ops s = Some s' /\ sched_ok s' v'.
Proof. by apply (run_ops_ok context_resume_from_interrupt ops s v). Qed.

(** [n] yields in a row, each by the task that then runs. *)
Fixpoint yields (n : nat) s : option (sys K A) :=
  match n with
  | O => Some s
  | S n' => '(s, _) ← scheduler_yield s; yields n' s
  end.

(** C26: scheduling is fair: the task at position [i] of the ready queue runs
    after exactly [i + 1] yields. *)
Theorem scheduler_round_robin s v i p
    (Hok : sched_ok s v) (Hr : v_running v = true) (Hp : v_ready v !! i = Some p) :
  exists s' u, yields (S i) s = Some s' /\ current_task s' = p /\ ts s' !! p = Some u /\ t_state u = TASK_RUNNING.
Proof.
  revert s v Hok Hr Hp; induction i as [|i IH]; intros s v Hok Hr Hp;
    destruct (yield_ok s v Hok) as (s1 & o & E & Hok1 & _); cbn [yields]; rewrite E; cbn [mbind option_bind];
    (destruct (v_ready v) as [|n R] eqn:Er; [done |]);
    assert (Ev : abs_yield v = mk_view (R ++ [v_current v]) (v_blocked v) (v_sleeping v) (v_parked v) n true (v_idle v))
      by (unfold abs_yield, abs_requeue, abs_dispatch; rewrite Hr, Er; done); rewrite Ev in Hok1.
  - simplify_eq/=. pose proof (current_is _ _ (so_inv _ _ Hok1)) as Hc. cbn in Hc. exists s1.
    destruct (running_current s1 _ (so_inv _ _ Hok1) eq_refl) as (_ & u & Hu & Hs).
    destruct (U_lookup _ _ _ Hu) as (t & Ht & ->). by exists t.
  - apply (IH s1 _ Hok1 eq_refl). cbn. by apply lookup_app_l_Some.
Qed.

(** [n] timer interrupts in a row reach [scheduler_preempt]. *)
Definition preempts (n : nat) (c : Z) s : sys K A := Nat.iter n (scheduler_preempt c) s.

(** C28: the time slice: with other tasks ready, the running task is asked to
    leave by the tenth timer interrupt of its slice and by none before. *)
Theorem scheduler_time_slice s c
    (Hc : c <> NULL) (Hcur : current_task s <> NULL) (Hidle : current_task s <> idle s)
    (Hready : ready_queue s <> NULL) (Ht : preemption_ticks s = 0) (Hrq : preemption_requested s = false) :
  (forall k, (Z.of_nat k < SCHEDULER_TIME_SLICE) ->
     preemption_requested (preempts k c s) = false) /\
  preemption_requested (preempts (Z.to_nat SCHEDULER_TIME_SLICE) c s) = true.
Proof.
  unfold preempts.
  assert (Hk : forall k, (Z.of_nat k < SCHEDULER_TIME_SLICE) ->
    Nat.iter k (scheduler_preempt c) s = with_preemption_ticks (Z.of_nat k) s).
  { induction k as [|k IH]; intros Hlt; [destruct s; simpl in *; by subst |].
    rewrite Nat.iter_succ, IH by lia. unfold scheduler_preempt. cbn [current_task idle with_preemption_ticks preemption_ticks].
    destruct (Z.eqb_spec c NULL), (Z.eqb_spec (current_task s) NULL), (Z.eqb_spec (current_task s) (idle s)); try done.
    rewrite u64_id by (unfold SCHEDULER_TIME_SLICE in *; lia).
    destruct (Z.ltb_spec (Z.of_nat k + 1) SCHEDULER_TIME_SLICE); [| lia].
    replace (Z.of_nat (S k)) with (Z.of_nat k + 1) by lia. by destruct s. }
  split; [intros k Hlt; by rewrite Hk |].
  change (Z.to_nat SCHEDULER_TIME_SLICE) with (S 9). rewrite Nat.iter_succ, (Hk 9%nat) by done. unfold scheduler_preempt. cbn [current_task idle with_preemption_ticks preemption_ticks ready_queue].
  destruct (Z.eqb_spec c NULL), (Z.eqb_spec (current_task s) NULL), (Z.eqb_spec (current_task s) (idle s)); try done.
  cbn [Z.ltb]. by destruct (Z.eqb_spec (ready_queue s) NULL).
Qed.
End properties.
