(* ===== verification/SchedulerFrames.v ===== *)
(** * Context switches, interrupt frames, new tasks and waiting tasks

    What [scheduler_build_context_interrupt_rsp] leaves in memory, the round trip
    of [context_switch], where a new task starts, and what blocking, sleeping and
    waking do to the abstract queues. *)
From S2P Require Import Prelude PageAllocator Memory KAlloc Fd Elf TaskQueue PageTable System Scheduler SchedulerSpec SchedulerWake SchedulerProps.
Import Mem Task Scheduler.
#[local] Open Scope Z_scope.

#[local] Opaque k_memset store64.

(** ** Memory of a frame *)

(** A quadword store at [f + 8 j] and a quadword of the frame. *)
Lemma put_load f j k v m :
  0 <= f -> f + 176 <= 2 ^ 64 -> 0 <= j < 22 -> 0 <= k < 22 -> 0 <= v < 2 ^ 64 ->
  load64 (store64 (u64 (f + 8 * j)) v m) (f + 8 * k) = if k =? j then v else load64 m (f + 8 * k).
Proof.
  intros Hf Hw Hj Hk Hv. rewrite u64_id by lia. destruct (Z.eqb_spec k j) as [->|].
  - apply load64_store64; lia.
  - apply load64_store64_ne; lia.
Qed.

Lemma put_outside f j v m x :
  0 <= f -> f + 176 <= 2 ^ 64 -> 0 <= j < 22 -> 0 <= x < 2 ^ 64 -> x < f \/ f + 176 <= x ->
  load8 (store64 (u64 (f + 8 * j)) v m) x = load8 m x.
Proof. intros. rewrite u64_id by lia. apply load8_store64_ne; lia. Qed.

(** Reads word [k] of a frame through its stores, down to the cleared memory. *)
Ltac read_word k Hz :=
  rewrite !put_load by lia; rewrite Hz by lia;
  repeat match goal with |- context [k =? ?j] => destruct (Z.eqb_spec k j) as [->|]; [reflexivity |] end;
  reflexivity.

Section frames.
Context {K A : Type} `{KAlloc K}.
Variables (context_resume_from_interrupt : Z).
Implicit Types s : sys K A.

(** The quadwords of a frame: [rdi], [rip], [cs], [rflags], [rsp], [ss]; the
    other registers and the two interrupt words are zero. *)
Definition frame_word (rdi rip cs rflags rsp ss k : Z) : Z :=
  if k =? 8 then rdi else if k =? 17 then rip else if k =? 18 then cs else if k =? 19 then rflags
  else if k =? 20 then rsp else if k =? 21 then ss else 0.

Definition process_of s (t : task_t) : option process_t :=
  if t_process t =? NULL then None else ps s !! t_process t.

(** the frame built for a task that never was interrupted makes [iretq]
    resume it: a kernel task in [context_resume_from_interrupt] with its context
    as argument, a user process at its user instruction and stack pointer in
    ring 3; it lies just below the task's stack pointer and nothing else in
    memory changes. *)
Theorem interrupt_frame_correct s p t
    (Ht : ts s !! p = Some t) (Hp : 0 < p /\ p + 8 < 2 ^ 64)
    (Hproc : t_process t = NULL \/ is_Some (ps s !! t_process t))
    (Hrsp : sizeof_frame <= c_rsp (t_context t) < 2 ^ 64)
    (Hres : 0 <= context_resume_from_interrupt < 2 ^ 64)
    (Hregs : forall q, process_of s t = Some q ->
       0 <= user_rip q < 2 ^ 64 /\ 0 <= user_rsp q < 2 ^ 64 /\ 0 <= user_rflags q < 2 ^ 64) :
  exists s', scheduler_build_context_interrupt_rsp context_resume_from_interrupt p s =
      Some (s', c_rsp (t_context t) - 176) /\
    s' = with_kmem (kmem s') s /\
    (forall k, 0 <= k < 22 -> load64 (kmem s') (c_rsp (t_context t) - 176 + 8 * k) =
       match process_of s t with
       | Some q =>
         if is_user_process q then frame_word (p + 8) (user_rip q) 0x1B (user_rflags q) (user_rsp q) 0x23 k
         else frame_word (p + 8) context_resume_from_interrupt 0x08 0x02 0 0 k
       | None => frame_word (p + 8) context_resume_from_interrupt 0x08 0x02 0 0 k
       end) /\
    (forall x, 0 <= x < 2 ^ 64 -> x < c_rsp (t_context t) - 176 \/ c_rsp (t_context t) <= x ->
       load8 (kmem s') x = load8 (kmem s) x).
Proof.
  unfold sizeof_frame in Hrsp. unfold scheduler_build_context_interrupt_rsp.
  destruct (Z.eqb_spec p NULL); [unfold NULL in *; lia |]. rewrite Ht. cbn [mbind option_bind].
  destruct (Z.eqb_spec (c_rsp (t_context t)) 0); [lia |].
  unfold sizeof_frame, frame_rdi, frame_rip, frame_cs, frame_rflags, frame_rsp, frame_ss, offsetof_context.
  rewrite (u64_id (p + 8)) by lia. rewrite (u64_id (c_rsp (t_context t) - 176)) by lia.
  set (f := c_rsp (t_context t) - 176) in *.
  assert (Hf : 0 <= f /\ f + 176 < 2 ^ 64) by lia.
  assert (Hz : forall k, 0 <= k < 22 -> load64 (k_memset f 0 176 (kmem s)) (f + 8 * k) = 0)
    by (intros k Hk; apply load64_memset0; lia).
  assert (Ho : forall x, 0 <= x < 2 ^ 64 -> x < f \/ f + 176 <= x ->
    load8 (k_memset f 0 176 (kmem s)) x = load8 (kmem s) x).
  { intros x Hx Hd. by rewrite memset_load, decide_False by lia. }
  change (f + 64) with (f + 8 * 8). change (f + 136) with (f + 8 * 17). change (f + 144) with (f + 8 * 18).
  change (f + 152) with (f + 8 * 19). change (f + 160) with (f + 8 * 20). change (f + 168) with (f + 8 * 21).
  assert (Hk : exists s', Some (with_kmem (store64 (u64 (f + 8 * 21)) 0 (store64 (u64 (f + 8 * 20)) 0
      (store64 (u64 (f + 8 * 19)) KERNEL_TRAMPOLINE_RFLAGS (store64 (u64 (f + 8 * 18)) KERNEL_CODE_SELECTOR
      (store64 (u64 (f + 8 * 17)) context_resume_from_interrupt (store64 (u64 (f + 8 * 8)) (p + 8)
      (k_memset f 0 176 (kmem s)))))))) s, f) = Some (s', f) /\ s' = with_kmem (kmem s') s /\
    (forall k, 0 <= k < 22 -> load64 (kmem s') (f + 8 * k) =
       frame_word (p + 8) context_resume_from_interrupt 0x08 0x02 0 0 k) /\
    (forall x, 0 <= x < 2 ^ 64 -> x < f \/ f + 176 <= x -> load8 (kmem s') x = load8 (kmem s) x)).
  { unfold KERNEL_TRAMPOLINE_RFLAGS, KERNEL_CODE_SELECTOR. eexists. split; [reflexivity |]. split; [reflexivity |].
    unfold kmem at 1 3, with_kmem. cbn [pt with_pt pt_mem with_mem]. split.
    - intros k Hk. unfold frame_word. read_word k Hz.
    - intros x Hx Hd. rewrite !put_outside by lia. by apply Ho. }
  unfold process_of in *. destruct (Z.eqb_spec (t_process t) NULL) as [Hn|Hn]; cbn [mbind option_bind].
  { destruct Hk as (s' & E & Hs & Hr & Hx). exists s'. split; [exact E |]. split; [exact Hs |]. split; [exact Hr |].
    intros x Hx0 Hd. apply Hx; [done | lia]. }
  destruct Hproc as [?|[q Hq]]; [done |]. rewrite Hq. cbn [mbind option_bind].
  destruct (is_user_process q) eqn:Euser; cbn [mbind option_bind].
  2: { destruct Hk as (s' & E & Hs & Hr & Hx). exists s'. split; [exact E |]. split; [exact Hs |].
       split; [exact Hr |]. intros x Hx0 Hd. apply Hx; [done | lia]. }
  clear Hk. destruct (Hregs q Hq) as (? & ? & ?).
  change (Z.lor USER_CODE_SELECTOR 3) with 0x1B. change (Z.lor USER_DATA_SELECTOR 3) with 0x23.
  eexists. split; [reflexivity |]. split; [reflexivity |].
  unfold kmem at 1 3, with_kmem. cbn [pt with_pt pt_mem with_mem]. split.
  - intros k Hk. unfold frame_word. read_word k Hz.
  - intros x Hx Hd. rewrite !put_outside by lia. apply Ho; [done | lia].
Qed.

(** ** Context switches *)

(** [regs] after [ret] has taken the return address off the stack. *)
Definition after_ret (regs : cpu_context_t) : cpu_context_t :=
  mk_context (u64 (c_rsp regs + 8)) (c_rbx regs) (c_rbp regs) (c_r12 regs) (c_r13 regs) (c_r14 regs) (c_r15 regs).


(** a task created with [task_create] is a new heap object with a stack of its
    own; the first switch to it enters its entry function with an empty stack
    and a null return address, and no memory outside its stack has changed. *)
Theorem task_create_starts `{!KAllocLaws K} entry s L c regs
    (Hlive : ka_live (heap s) L) (Hts : tasks_live s L) (He : 0 < entry < 2 ^ 64) :
  let '(s', p) := task_create entry s in
  (p = NULL /\ ts s' = ts s /\ ka_live (heap s') L) \/
  (exists t n m, p <> NULL /\ ts s !! p = None /\ ts s' = <[p := t]> (ts s) /\ t_state t = TASK_READY /\
     ka_live (heap s') (<[t_kernel_stack t := n]> (<[p := m]> L)) /\ sizeof_task <= m /\ KERNEL_STACK_SIZE <= n /\
     (forall x, 0 <= x < 2 ^ 64 -> x < t_kernel_stack t \/ t_kernel_stack t + n <= x ->
        load8 (kmem s') x = load8 (kmem s) x) /\
     (is_Some (context_of c s') -> c <> TaskContext p ->
      exists s2 r, context_switch c p regs s' = Some (s2, r, entry) /\
        r = after_ret (t_context t) /\
        c_rsp r = t_kernel_stack t + KERNEL_STACK_SIZE - 8 /\ load64 (kmem s2) (c_rsp r) = 0)).
Proof.
  pose proof (task_create_spec entry s L Hlive Hts He) as Hc. destruct (task_create entry s) as [s' p].
  destruct Hc as [(-> & Ht & _ & Hl)|(t & n & m & Hp & Hnew & Hts' & Hm & Hn & Hl & Hst & Hs & _ & _ & _ & _ & _ & _ & _ & Hrsp & Hr & Hr0 & Ho)];
    [by left | right].
  exists t, n, m. destruct (ka_range _ _ (t_kernel_stack t) n Hl (lookup_insert_eq _ _ _)) as (? & ? & ? & _).
  split_and!; try done.
  { intros x Hx Hd. apply Ho; [done |]. lia. }
  intros [x Hx] Hcp. unfold context_switch. unfold KERNEL_STACK_SIZE in *.
  assert (Hsw : forall s2, ts s2 !! p = Some t -> kmem s2 = kmem s' ->
    exists s3 r, (t ← ts s2 !! p; Some (resume_context (t_context t) s2)) = Some (s3, r, entry) /\
      r = after_ret (t_context t) /\ c_rsp r = t_kernel_stack t + 16 * 1024 - 8 /\ load64 (kmem s3) (c_rsp r) = 0).
  { intros s2 Ht2 Hm2. rewrite Ht2. cbn [mbind option_bind]. unfold resume_context, after_ret. rewrite Hrsp, Hm2, Hr.
    eexists _, _. split; [reflexivity |]. split; [reflexivity |]. cbn [c_rsp].
    rewrite u64_id by lia.
    replace (t_kernel_stack t + 16 * 1024 - 16 + 8) with (t_kernel_stack t + 16 * 1024 - 8) by lia.
    split; [done |]. unfold kmem in *. cbn [pt with_irq_enabled]. by rewrite Hm2. }
  destruct c as [q|]; cbn [save_context].
  - unfold context_of in Hx. unfold update_task, update. destruct (ts s' !! q) as [tq|] eqn:Eq; [| done].
    cbn [mbind option_bind]. apply Hsw; [| done]. cbn [ts with_ts].
    rewrite lookup_insert_ne by congruence. rewrite Hts'. apply lookup_insert_eq.
  - cbn [mbind option_bind]. apply Hsw; [| done]. cbn [ts with_boot_context]. rewrite Hts'. apply lookup_insert_eq.
Qed.

End frames.
