(* ===== verification/SchedulerDemo.v ===== *)
(** * A small running scheduler

    The theorems of [SchedulerProps.v] and [SchedulerFrames.v] at a concrete
    state: the idle task and two tasks created and started. *)
From S2P Require Import Prelude PageAllocator Memory KAlloc Fd Elf TaskQueue PageTable System Scheduler SchedulerSpec SchedulerWake SchedulerProps SchedulerFrames.
Import Mem Task Scheduler.
#[local] Open Scope Z_scope.

(** ** A concrete state *)
Definition demo_boot : sys Bump.bump unit :=
  mk_sys ∅ ∅ (Bump.bump_init 0x100000 0x200000) (mk_pt ∅ tt 0 false 0 0 0 0 []) 1 1 NULL NULL NULL NULL NULL NULL NULL
    0 false (mk_context 0 0 0 0 0 0 0) 0 0 true.

Definition demo_init : sys Bump.bump unit := default demo_boot (scheduler_init 0x1000 demo_boot).
Definition demo_create1 := task_create 0x2000 demo_init.
Definition demo_add1 := default demo_boot (scheduler_add_task demo_create1.2 demo_create1.1).
Definition demo_create2 := task_create 0x3000 demo_add1.
Definition demo_add2 := default demo_boot (scheduler_add_task demo_create2.2 demo_create2.1).
(** The boot code has yielded: the first task runs, the second is ready. *)
Definition demo : sys Bump.bump unit := match scheduler_yield demo_add2 with Some (s, _) => s | None => demo_add2 end.

Definition task0 : Z := 0x100000.
Definition task1 : Z := demo_create1.2.
Definition task2 : Z := demo_create2.2.

Lemma demo_init_ok : sched_ok demo_init (mk_view [] [] [] [] NULL false task0).
Proof.
  replace task0 with (idle demo_init) by (by vm_compute).
  apply (sched_init_spec 0x1000 demo_boot demo_init); by vm_compute.
Qed.

(** [s1] is [s] with one more task [t] at [p], and [s2] has it in the ready queue. *)
Record adds (s s1 s2 : sys Bump.bump unit) (p : Z) (t : task_t) : Prop := {
  ad_new : ts s !! p = None /\ p <> NULL /\ ts s1 = <[p := t]> (ts s);
  ad_task : t_state t = TASK_READY /\ t_process t = NULL;
  ad_same : ps s1 = ps s /\ idle s1 = idle s /\ current_task s1 = current_task s /\ pending_task s1 = pending_task s;
  ad_queues : ready_queue s1 = ready_queue s /\ blocked_queue s1 = blocked_queue s /\ sleep_queue s1 = sleep_queue s;
  ad_request : preemption_requested s1 = preemption_requested s;
  ad_add : scheduler_add_task p s1 = Some s2;
}.

Lemma demo_added s s1 s2 v p t : sched_ok s v -> adds s s1 s2 p t -> sched_ok s2 (abs_add p v).
Proof.
  intros Hok [(Hp & Hp0 & Hts) (Hst & Hpr) (Hps & Hid & Hc & Hpend) (Hrq & Hbq & Hsq) Hpre Hadd].
  destruct (inv_new s s1 v p t (so_inv _ _ Hok)) as (Hi1 & Hq & Hpk & Hpi); try done; try (by left); try (by rewrite Hps).
  destruct (add_spec s1 v p (set_next NULL t) Hi1) as (s3 & E & Hi2 & Hf & _); try done.
  { unfold U, unlinked. by rewrite Hts, lookup_fmap, lookup_insert_eq. }
  { by rewrite Hid. }
  { cbn. by rewrite Hst. }
  assert (s3 = s2) as -> by congruence. destruct Hf as ((Hid2 & _) & _ & _ & _ & _ & Hrq2 & _).
  destruct Hok as [_ Hex Hreq]. split; [done | | congruence]. rewrite Hid2, Hid. exact Hex.
Qed.

Definition no_task : task_t := mk_task 0 (mk_context 0 0 0 0 0 0 0) 0 0 0 0 TASK_IDLE 0 0 TASK_RESUME_CONTEXT 0.

Lemma demo_adds1 : adds demo_init demo_create1.1 demo_add1 task1 (default no_task (ts demo_create1.1 !! task1)).
Proof. split; vm_compute; repeat split; discriminate. Qed.
Lemma demo_adds2 : adds demo_add1 demo_create2.1 demo_add2 task2 (default no_task (ts demo_create2.1 !! task2)).
Proof. split; vm_compute; repeat split; discriminate. Qed.

Lemma demo_add1_ok : sched_ok demo_add1 (mk_view [task1] [] [] [] NULL false task0).
Proof. exact (demo_added _ _ _ _ _ _ demo_init_ok demo_adds1). Qed.
Lemma demo_add2_ok : sched_ok demo_add2 (mk_view [task1; task2] [] [] [] NULL false task0).
Proof. exact (demo_added _ _ _ _ _ _ demo_add1_ok demo_adds2). Qed.

Lemma demo_yield (s : sys Bump.bump unit) v :
  sched_ok s v -> sched_ok (match scheduler_yield s with Some (s, _) => s | None => s end) (abs_yield v).
Proof.
  intros Hok. destruct (yield_ok s v Hok) as (s' & o & E & Hok' & _).
  refine (eq_ind_r (fun r => sched_ok (match r with Some (s, _) => s | None => s end) (abs_yield v)) _ E).
  exact Hok'.
Qed.

Definition demo_view : view := mk_view [task2] [] [] [] task1 true task0.

Lemma demo_ok : sched_ok demo demo_view.
Proof. exact (demo_yield _ _ demo_add2_ok). Qed.

#[local] Opaque demo.

(** ** Witnesses *)
Lemma scheduler_yield_correct_witness :
  exists s' o, scheduler_yield demo = Some (s', o) /\
    sched_inv s' (abs_yield demo_view) /\
    o = Switched (resume_switch demo (current_task demo) (v_current (abs_yield demo_view))) [irq_enabled demo].
Proof.
  destruct (scheduler_yield_correct demo _ (so_inv _ _ demo_ok)) as (s' & o & E & Hi & _ & _ & _ & _ & Hsw).
  exists s', o. split; [exact E |]. split; [exact Hi |]. refine (proj1 (Hsw _)).
  vm_compute. discriminate.
Defined.

Lemma scheduler_operations_safe_witness :
  exists s' v', run_ops 0xF000 [OpBlock; OpTimer 1 0x9000; OpSleep 5; OpUnblock task1; OpTimer 1 0xA000; OpYield] demo
    = Some s' /\ sched_ok s' v'.
Proof.
  apply (scheduler_operations_safe 0xF000 _ demo _ demo_ok).
  intros p Hp _. assert (p = task1) as -> by (repeat (apply elem_of_cons in Hp as [Hp|Hp]; [congruence || discriminate Hp |]); by apply elem_of_nil in Hp).
  vm_compute. by eexists.
Defined.

Lemma scheduler_round_robin_witness :
  exists s' u, yields 1 demo = Some s' /\ current_task s' = task2 /\ ts s' !! task2 = Some u /\ t_state u = TASK_RUNNING.
Proof. exact (scheduler_round_robin demo _ 0 task2 demo_ok eq_refl eq_refl). Defined.

Lemma scheduler_time_slice_witness :
  preemption_requested (preempts 9 1 demo) = false /\
  preemption_requested (preempts 10 1 demo) = true.
Proof.
  assert (H : preemption_ticks demo = 0 /\ current_task demo <> NULL /\ current_task demo <> idle demo /\
    ready_queue demo <> NULL /\ preemption_requested demo = false)
    by (vm_compute; repeat split; discriminate).
  destruct H as (H1 & H2 & H3 & H4 & H5).
  destruct (scheduler_time_slice demo 1 ltac:(discriminate) H2 H3 H4 H1 H5) as [Hlow Hhigh].
  split; [apply (Hlow 9%nat); reflexivity | exact Hhigh].
Defined.

(** The two tasks as the store has them. *)
Definition demo_task (id entry stack : Z) (st : task_state_t) : task_t :=
  mk_task id (mk_context (stack + 16 * 1024 - 16) 0 0 0 0 0 0) NULL entry stack (16 * 1024) st NULL 0
    TASK_RESUME_CONTEXT NULL.

Lemma demo_task1 : ts demo !! task1 = Some (demo_task 2 0x2000 1065296 TASK_RUNNING).
Proof. vm_compute. reflexivity. Qed.
Lemma demo_task2 : ts demo !! task2 = Some (demo_task 3 0x3000 1081856 TASK_READY).
Proof. vm_compute. reflexivity. Qed.

Lemma interrupt_frame_correct_witness :
  exists s', scheduler_build_context_interrupt_rsp 0xF000 task2 demo = Some (s', 1098224 - 176) /\
    load64 (kmem s') (1098224 - 176 + 8 * 17) = 0xF000.
Proof.
  destruct (interrupt_frame_correct 0xF000 demo task2 _ demo_task2 ltac:(vm_compute; split; congruence)
    (or_introl eq_refl) ltac:(vm_compute; split; congruence) ltac:(lia)) as (s' & E & _ & Hw & _).
  { intros q Hq. discriminate Hq. }
  exists s'. split; [exact E |]. exact (Hw 17 ltac:(lia)).
Defined.

Definition demo_regs : cpu_context_t := mk_context 1081000 1 2 3 4 5 6.


Lemma task_create_starts_witness :
  exists t, ts (task_create 0x2000 demo_boot).1 !! 0x100000 = Some t /\ t_state t = TASK_READY /\
    exists s2 r, context_switch BootContext 0x100000 demo_regs (task_create 0x2000 demo_boot).1 = Some (s2, r, 0x2000).
Proof.
  pose proof (task_create_starts 0x2000 demo_boot ∅ BootContext demo_regs
    (Bump.bump_init_live 0x100000 0x200000 ltac:(lia) eq_refl ltac:(lia))) as H.
  assert (Hp : (task_create 0x2000 demo_boot).2 = 0x100000) by (vm_compute; reflexivity).
  assert (Hl : tasks_live demo_boot ∅) by (intros p [x Hx]; discriminate Hx).
  specialize (H Hl ltac:(lia)).
  destruct (task_create 0x2000 demo_boot) as [s' p]. cbn [fst snd] in *. subst p.
  destruct H as [(H & _) | (t & n & m & _ & _ & Hts & Hst & _ & _ & _ & _ & Hsw)]; [discriminate H |].
  exists t. split; [rewrite Hts; apply lookup_insert_eq |]. split; [exact Hst |].
  destruct (Hsw ltac:(eexists; reflexivity) ltac:(discriminate)) as (s2 & r & E & _). exists s2, r. exact E.
Defined.

Lemma scheduler_waiting_correct_witness :
  exists s' w, scheduler_block_current demo = Some (s', Switched w [false; irq_enabled demo]) /\
    sched_inv s' (abs_block demo_view).
Proof. exact (proj1 (scheduler_waiting_correct demo demo_view (so_inv _ _ demo_ok)) eq_refl). Defined.

Definition demo_requested : sys Bump.bump unit := with_preemption_requested true demo.

Lemma demo_requested_inv : sched_inv demo_requested demo_view.
Proof. exact (inv_requested _ _ _ (so_inv _ _ demo_ok)). Qed.

Lemma demo_requested_frame : frame_addr demo_requested (hd NULL (v_ready demo_view)) = 1098048.
Proof. vm_compute. reflexivity. Qed.

Lemma demo_requested_switch : preemption_requested demo_requested && negb (1098048 =? NULL) = true.
Proof. reflexivity. Qed.

#[local] Opaque demo_requested demo_view.

Lemma isr_switch_correct_witness :
  exists s' u, isr_switch 0xF000 0x9000 demo_requested = Some (s', 1098048) /\ sched_inv s' (abs_yield demo_view) /\
    U s' !! v_current demo_view = Some u /\ t_interrupt_rsp u = 0x9000.
Proof.
  pose proof (isr_switch_correct 0xF000 demo_requested demo_view 0x9000 demo_requested_inv eq_refl) as H.
  cbv zeta in H. rewrite demo_requested_frame, demo_requested_switch in H.
  destruct H as (s' & u & E & Hi & _ & Hu & _ & Hr). exists s', u.
  split; [exact E |]. split; [exact Hi |]. split; [exact Hu | exact Hr].
Defined.
