(* ===== verification/Ramfs.v ===== *)
(** * The in-memory file system: [fs/ramfs.c], [fs/vnode.h], [fs/file.c]

    Nodes, files, file systems and mounts live in stores from their addresses;
    the vnode of a ramfs node is its first member, so both have one address.
    File contents are bytes of the kernel's memory, in objects of the heap
    interface [KAlloc].  An operation without a result accesses an address of no
    object or runs past a string buffer.  [result] parameters are results here:
    every caller passes the address of a variable. *)
From S2P Require Import Prelude Memory KAlloc.
Import Mem Str.
#[local] Open Scope Z_scope.

Module Ramfs.

(** ** [vnode.h], [ramfs.h], [file.h], [filesystem.h], [mount.h] *)
Inductive vnode_type_t := VNODE_FILE | VNODE_DIRECTORY | VNODE_DEVICE | VNODE_SYMLINK.

#[global] Instance vnode_type_eq_dec : EqDecision vnode_type_t.
Proof. solve_decision. Defined.

(** [name] is the content of the 64-byte array; [remove] is never set. *)
Record vnode_t := mk_vnode {
  v_name : list Z; v_type : vnode_type_t; v_size : Z; v_parent : Z; v_fs : Z; v_ops : Z; v_private_data : Z;
}.

Definition RAMFS_MAX_CHILDREN : Z := 64.

Record ramfs_node_t := mk_node {
  vnode : vnode_t; children : list Z; child_count : Z; data : Z; capacity : Z;
}.
Definition sizeof_ramfs_node : Z := 648.

Record file_t := mk_file { f_node : Z; f_position : Z; f_flags : Z; f_refcount : Z }.
Definition sizeof_file : Z := 24.

Record filesystem_t := mk_fs { fs_name : list Z; fs_root : Z; fs_ops : Z }.

(** The fields of [mount_t] the code writes. *)
Record mount_t := mk_mount { m_fs : Z; m_mountpoint : Z; m_next : Z }.
Definition sizeof_mount : Z := 48.

(** Addresses the linker gives to the static objects of [ramfs.c]. *)
Class FsLayout := { ramfs_root : Z; ramfs_vnode_ops : Z; ramfs_fs_ops : Z }.

(** No object is at the address NULL. *)
Class FsLayoutLaws `{FsLayout} := {
  root_nonnull : ramfs_root <> NULL;
  vnode_ops_nonnull : ramfs_vnode_ops <> NULL;
  fs_ops_nonnull : ramfs_fs_ops <> NULL;
}.

Record fs_state {K : Type} := mk_state {
  nodes : gmap Z ramfs_node_t;
  files : gmap Z file_t;
  fss : gmap Z filesystem_t;
  mounts : gmap Z mount_t;
  vfs_mount_list : Z;
  vfs_root_mount : Z;
  fheap : K;
  fmem : mem;
}.
Arguments fs_state K : clear implicits.

Section ramfs.
Context {K : Type} `{KAlloc K} `{FsLayout}.
Implicit Types s : fs_state K.

Definition with_nodes (v : gmap Z ramfs_node_t) s : fs_state K :=
  mk_state _ v (files s) (fss s) (mounts s) (vfs_mount_list s) (vfs_root_mount s) (fheap s) (fmem s).
Definition with_files (v : gmap Z file_t) s : fs_state K :=
  mk_state _ (nodes s) v (fss s) (mounts s) (vfs_mount_list s) (vfs_root_mount s) (fheap s) (fmem s).
Definition with_fss (v : gmap Z filesystem_t) s : fs_state K :=
  mk_state _ (nodes s) (files s) v (mounts s) (vfs_mount_list s) (vfs_root_mount s) (fheap s) (fmem s).
Definition with_mounts (v : gmap Z mount_t) (l r : Z) s : fs_state K :=
  mk_state _ (nodes s) (files s) (fss s) v l r (fheap s) (fmem s).
Definition with_fheap (v : K) s : fs_state K :=
  mk_state _ (nodes s) (files s) (fss s) (mounts s) (vfs_mount_list s) (vfs_root_mount s) v (fmem s).
Definition with_fmem (v : mem) s : fs_state K :=
  mk_state _ (nodes s) (files s) (fss s) (mounts s) (vfs_mount_list s) (vfs_root_mount s) (fheap s) v.

Definition no_name : list Z := replicate 64 0.

(** ** [ramfs.c] *)
Definition ramfs_mount (fs : Z) s : option (fs_state K * Z) :=
  if fs =? NULL then Some (s, KERNEL_EINVAL)
  else
    f ← fss s !! fs;
    let root := mk_node (mk_vnode no_name VNODE_DIRECTORY 0 NULL fs ramfs_vnode_ops ramfs_root)
                  (replicate 64 NULL) 0 NULL 0 in
    let s := with_nodes (<[ramfs_root := root]> (nodes s)) s in
    Some (with_fss (<[fs := mk_fs (fs_name f) ramfs_root ramfs_fs_ops]> (fss s)) s, KERNEL_SUCCESS).

(** The search: the status and, on success, the node. *)
Fixpoint lookup_loop (n : nat) (i : Z) (node : ramfs_node_t) (name : list Z) s : option (Z * Z) :=
  match n with
  | O => Some (KERNEL_ENOENT, NULL)
  | S n' =>
    child ← children node !! Z.to_nat i;
    if child =? NULL then lookup_loop n' (i + 1) node name s
    else
      c ← nodes s !! child;
      if k_strcmp (v_name (vnode c)) name =? 0 then Some (KERNEL_SUCCESS, child)
      else lookup_loop n' (i + 1) node name s
  end.

Definition ramfs_lookup (dir : Z) (name : option (list Z)) s : option (Z * Z) :=
  match name with
  | None => Some (KERNEL_EINVAL, NULL)
  | Some name =>
    if dir =? NULL then Some (KERNEL_EINVAL, NULL)
    else
      d ← nodes s !! dir;
      if v_private_data (vnode d) =? NULL then Some (KERNEL_EINVAL, NULL)
      else
        node ← nodes s !! v_private_data (vnode d);
        lookup_loop (Z.to_nat (child_count node)) 0 node name s
  end.

(** [ramfs_mkdir] and [ramfs_create] differ in the type of the new node. *)
Definition ramfs_add (type : vnode_type_t) (dir : Z) (name : option (list Z)) s : option (fs_state K * Z) :=
  match name with
  | None => Some (s, KERNEL_EINVAL)
  | Some str =>
    if dir =? NULL then Some (s, KERNEL_EINVAL)
    else
      d ← nodes s !! dir;
      if negb (bool_decide (v_type (vnode d) = VNODE_DIRECTORY)) then Some (s, KERNEL_ENOTSUP)
      else if v_private_data (vnode d) =? NULL then Some (s, KERNEL_EINVAL)
      else
        let parent := v_private_data (vnode d) in
        '(found, _) ← ramfs_lookup dir name s;
        if found =? KERNEL_SUCCESS then Some (s, KERNEL_EEXIST)
        else
          p ← nodes s !! parent;
          if child_count p >=? RAMFS_MAX_CHILDREN then Some (s, KERNEL_ENOMEM)
          else
            let '(k, child) := ka_malloc sizeof_ramfs_node (fheap s) in
            let s := with_fheap k s in
            if child =? NULL then Some (s, KERNEL_ENOMEM)
            else
              child_name ← k_strcpy no_name str;
              let c := mk_node (mk_vnode child_name type 0 dir (v_fs (vnode d)) ramfs_vnode_ops child)
                         (replicate 64 NULL) 0 NULL 0 in
              let p' := mk_node (vnode p) (<[Z.to_nat (child_count p) := child]> (children p))
                          (u32 (child_count p + 1)) (data p) (capacity p) in
              Some (with_nodes (<[parent := p']> (<[child := c]> (nodes s))) s, KERNEL_SUCCESS)
  end.

Definition ramfs_mkdir := ramfs_add VNODE_DIRECTORY.
Definition ramfs_create := ramfs_add VNODE_FILE.

Definition set_data (data capacity : Z) (n : ramfs_node_t) : ramfs_node_t :=
  mk_node (vnode n) (children n) (child_count n) data capacity.
Definition set_size (size : Z) (n : ramfs_node_t) : ramfs_node_t :=
  mk_node (mk_vnode (v_name (vnode n)) (v_type (vnode n)) size (v_parent (vnode n)) (v_fs (vnode n))
             (v_ops (vnode n)) (v_private_data (vnode n)))
    (children n) (child_count n) (data n) (capacity n).
Definition set_position (p : Z) (f : file_t) : file_t := mk_file (f_node f) p (f_flags f) (f_refcount f).

Definition ramfs_write (file buffer size : Z) s : option (fs_state K * Z) :=
  if (file =? NULL) || (buffer =? NULL) then Some (s, KERNEL_EINVAL)
  else
    f ← files s !! file;
    v ← nodes s !! f_node f;
    let np := v_private_data (vnode v) in
    if np =? NULL then Some (s, KERNEL_EINVAL)
    else if negb (bool_decide (v_type (vnode v) = VNODE_FILE)) then Some (s, KERNEL_ENOTSUP)
    else
      node ← nodes s !! np;
      let '(s, node, ok) :=
        if data node =? NULL then
          let '(k, p) := ka_malloc size (fheap s) in
          if p =? NULL then (with_nodes (<[np := set_data NULL (capacity node) node]> (nodes s)) (with_fheap k s), node, false)
          else let node := set_data p size node in (with_nodes (<[np := node]> (nodes s)) (with_fheap k s), node, true)
        else (s, node, true) in
      if negb ok then Some (s, KERNEL_ENOMEM)
      else
        let s := with_fmem (k_memcpy (data node) buffer size (fmem s)) s in
        let s := with_nodes (<[np := set_size size node]> (nodes s)) s in
        Some (with_files (<[file := set_position size f]> (files s)) s, KERNEL_SUCCESS).

Definition ramfs_read (file buffer size : Z) s : option (fs_state K * Z) :=
  if (file =? NULL) || (buffer =? NULL) then Some (s, KERNEL_EINVAL)
  else
    f ← files s !! file;
    v ← nodes s !! f_node f;
    let np := v_private_data (vnode v) in
    if np =? NULL then Some (s, KERNEL_EINVAL)
    else if negb (bool_decide (v_type (vnode v) = VNODE_FILE)) then Some (s, KERNEL_ENOTSUP)
    else
      node ← nodes s !! np;
      if data node =? NULL then Some (s, KERNEL_SUCCESS)
      else
        let bytes := if size >? v_size (vnode node) then v_size (vnode node) else size in
        let s := with_fmem (k_memcpy buffer (data node) bytes (fmem s)) s in
        Some (with_files (<[file := set_position (u64 (f_position f + bytes)) f]> (files s)) s, i32 bytes).

(** "ramfs" *)
Definition ramfs_name : list Z := [114; 97; 109; 102; 115].

Definition ramfs_init (fs : Z) s : option (fs_state K * Z) :=
  if fs =? NULL then Some (s, KERNEL_EINVAL)
  else
    f ← fss s !! fs;
    name ← k_strcpy (fs_name f) ramfs_name;
    Some (with_fss (<[fs := mk_fs name NULL ramfs_fs_ops]> (fss s)) s, KERNEL_SUCCESS).

(** ** [file.c] *)
Definition file_open (node : Z) s : fs_state K * Z * Z :=
  if node =? NULL then (s, NULL, KERNEL_EINVAL)
  else
    let '(k, file) := ka_malloc sizeof_file (fheap s) in
    let s := with_fheap k s in
    if file =? NULL then (s, NULL, KERNEL_ENOMEM)
    else (with_files (<[file := mk_file node 0 0 1]> (files s)) s, file, KERNEL_SUCCESS).

(** The object of a closed file is gone. *)
Definition file_close (file : Z) s : fs_state K :=
  if file =? NULL then s else with_files (delete file (files s)) (with_fheap (ka_free file (fheap s)) s).
End ramfs.

(** ** Directories as maps from names to nodes *)
Section spec.
Context {K : Type} `{KAlloc K} `{FsLayout}.
Implicit Types s : fs_state K.

Definition kids s (d : Z) : list Z :=
  match nodes s !! d with Some n => take (Z.to_nat (child_count n)) (children n) | None => [] end.

Definition node_name s (c : Z) : option (list Z) := (fun n => cstr (v_name (vnode n))) <$> nodes s !! c.

(** [c] is the entry of name [name] in directory [d]. *)
Definition entry s (d : Z) (name : list Z) (c : Z) : Prop := c ∈ kids s d /\ node_name s c = Some name.

Record node_ok s (p : Z) (n : ramfs_node_t) : Prop := {
  no_private : v_private_data (vnode n) = p;
  no_nonnull : p <> NULL;
  no_name_ok : length (v_name (vnode n)) = 64%nat /\ byte_list (v_name (vnode n));
  no_children : length (children n) = 64%nat /\ 0 <= child_count n <= 64;
  (** an entry is a node whose parent is the directory *)
  no_kids c : c ∈ kids s p -> exists m, nodes s !! c = Some m /\ v_parent (vnode m) = p;
  no_names i j c d name : kids s p !! i = Some c -> kids s p !! j = Some d ->
    node_name s c = Some name -> node_name s d = Some name -> i = j;
  no_files : v_type (vnode n) <> VNODE_DIRECTORY -> child_count n = 0;
  no_ops : v_ops (vnode n) = ramfs_vnode_ops;
}.

Definition ramfs_ok s : Prop := forall p n, nodes s !! p = Some n -> node_ok s p n.

Lemma entry_unique s d name c c' : ramfs_ok s -> entry s d name c -> entry s d name c' -> c = c'.
Proof.
  intros Hok [Hc Hn] [Hc' Hn']. apply list_elem_of_lookup in Hc as [i Hi]. apply list_elem_of_lookup in Hc' as [j Hj].
  unfold kids in *. destruct (nodes s !! d) as [n|] eqn:E; [| done].
  assert (i = j) as ->; [| congruence].
  eapply (no_names s d n (Hok d n E)); unfold kids; by rewrite ?E.
Qed.

Lemma kids_lookup s p n i :
  ramfs_ok s -> nodes s !! p = Some n -> 0 <= i < child_count n ->
  exists c m, children n !! Z.to_nat i = Some c /\ kids s p !! Z.to_nat i = Some c /\ c <> NULL /\ nodes s !! c = Some m.
Proof.
  intros Hok Hn Hi. destruct (no_children _ _ _ (Hok p n Hn)) as [Hlen Hcnt].
  destruct (lookup_lt_is_Some_2 (children n) (Z.to_nat i)) as [c Hc]; [lia |].
  assert (Hk : kids s p !! Z.to_nat i = Some c) by (unfold kids; rewrite Hn, lookup_take_lt by lia; done).
  destruct (no_kids _ _ _ (Hok p n Hn) c) as (m & Hm & _); [by eapply list_elem_of_lookup_2 |].
  exists c, m. split_and!; try done. exact (no_nonnull _ _ _ (Hok c m Hm)).
Qed.

Lemma kids_length s p n : ramfs_ok s -> nodes s !! p = Some n -> length (kids s p) = Z.to_nat (child_count n).
Proof.
  intros Hok Hn. destruct (no_children _ _ _ (Hok p n Hn)) as [Hlen Hcnt].
  unfold kids. rewrite Hn, length_take. lia.
Qed.

Lemma lookup_loop_spec s p n name k i :
  ramfs_ok s -> nodes s !! p = Some n -> byte_list name ->
  0 <= i -> i + Z.of_nat k = child_count n ->
  (forall j c, 0 <= j < i -> kids s p !! Z.to_nat j = Some c -> node_name s c <> Some (cstr name)) ->
  exists st c, lookup_loop k i n name s = Some (st, c) /\
    ((st = KERNEL_SUCCESS /\ entry s p (cstr name) c) \/
     (st = KERNEL_ENOENT /\ forall c', ~ entry s p (cstr name) c')).
Proof.
  intros Hok Hn Hname. revert i; induction k as [|k IH]; intros i Hi Hk Hno.
  - exists KERNEL_ENOENT, NULL. split; [done |]. right. split; [done |]. intros c' [Hc Hc'].
    apply list_elem_of_lookup in Hc as [j Hj]. pose proof (lookup_lt_Some _ _ _ Hj) as Hlt.
    rewrite (kids_length s p n Hok Hn) in Hlt. apply (Hno (Z.of_nat j) c'); [lia | by rewrite Nat2Z.id | done].
  - destruct (kids_lookup s p n i Hok Hn ltac:(lia)) as (c & m & Hc & Hkc & Hc0 & Hm).
    cbn [lookup_loop]. rewrite Hc. cbn [mbind option_bind]. destruct (Z.eqb_spec c NULL); [done |].
    rewrite Hm. cbn [mbind option_bind]. destruct (no_name_ok _ _ _ (Hok c m Hm)) as [_ Hb].
    assert (Hnm : node_name s c = Some (cstr (v_name (vnode m)))) by (unfold node_name; by rewrite Hm).
    pose proof (strcmp_zero (v_name (vnode m)) name Hb Hname) as Hz.
    destruct (Z.eqb_spec (k_strcmp (v_name (vnode m)) name) 0) as [He|He].
    + exists KERNEL_SUCCESS, c. split; [done |]. left. split; [done |]. split; [by eapply list_elem_of_lookup_2 |].
      rewrite Hnm. f_equal. by apply Hz.
    + apply IH; [lia | lia |]. intros j c' Hj Hk'. destruct (decide (j = i)) as [->|]; [| apply (Hno j); [lia | done]].
      assert (c' = c) as -> by congruence. rewrite Hnm. intros [= E]. by apply He, Hz.
Qed.

Lemma lookup_spec s d n name :
  ramfs_ok s -> nodes s !! d = Some n -> byte_list name ->
  exists st c, ramfs_lookup d (Some name) s = Some (st, c) /\
    ((st = KERNEL_SUCCESS /\ entry s d (cstr name) c) \/
     (st = KERNEL_ENOENT /\ forall c', ~ entry s d (cstr name) c')).
Proof.
  intros Hok Hn Hname. pose proof (no_private _ _ _ (Hok d n Hn)) as Hp. pose proof (no_nonnull _ _ _ (Hok d n Hn)) as Hd.
  unfold ramfs_lookup. destruct (Z.eqb_spec d NULL); [done |]. rewrite Hn. cbn [mbind option_bind]. rewrite Hp.
  destruct (Z.eqb_spec d NULL); [done |]. rewrite Hn. cbn [mbind option_bind].
  destruct (no_children _ _ _ (Hok d n Hn)) as [_ Hcnt].
  apply (lookup_loop_spec s d n); [done | done | done | lia | lia |]. intros j c Hj. lia.
Qed.

(** [ramfs_lookup] finds exactly the entry of that name, and reports
    [KERNEL_ENOENT] exactly when the directory has none. *)
Theorem ramfs_lookup_correct s d n name
    (Hok : ramfs_ok s) (Hd : nodes s !! d = Some n) (Hname : byte_list name) :
  exists st c, ramfs_lookup d (Some name) s = Some (st, c) /\
    ((st = KERNEL_SUCCESS /\ forall c', entry s d (cstr name) c' <-> c' = c) \/
     (st = KERNEL_ENOENT /\ forall c', ~ entry s d (cstr name) c')).
Proof.
  destruct (lookup_spec s d n name Hok Hd Hname) as (st & c & E & Hr). exists st, c. split; [done |].
  destruct Hr as [[-> He]|[-> Hno]]; [left | by right].
  split; [done |]. intros c'. split; [intros Hc'; by eapply entry_unique | by intros ->].
Qed.

(** ** New entries *)

(** The state with one more child of [d]. *)
Definition added s s' (type : vnode_type_t) (d : Z) (name : list Z) (c : Z) : Prop :=
  nodes s !! c = None /\
  (forall d' name' c', entry s' d' name' c' <-> entry s d' name' c' \/ (d' = d /\ name' = name /\ c' = c)) /\
  (exists m, nodes s' !! c = Some m /\ v_type (vnode m) = type /\ v_parent (vnode m) = d /\
     v_size (vnode m) = 0 /\ data m = NULL /\ child_count m = 0) /\
  (forall q m, nodes s !! q = Some m -> exists m', nodes s' !! q = Some m' /\ vnode m' = vnode m /\
     data m' = data m /\ capacity m' = capacity m /\ (q <> d -> m' = m)).

Definition new_node (type : vnode_type_t) (d c fs : Z) (name : list Z) : ramfs_node_t :=
  mk_node (mk_vnode name type 0 d fs ramfs_vnode_ops c) (replicate 64 NULL) 0 NULL 0.

Definition with_child (p : ramfs_node_t) (c : Z) : ramfs_node_t :=
  mk_node (vnode p) (<[Z.to_nat (child_count p) := c]> (children p)) (u32 (child_count p + 1)) (data p) (capacity p).

Section adding.
Variables (s : fs_state K) (d : Z) (p : ramfs_node_t) (c : Z) (type : vnode_type_t) (name : list Z).
Hypothesis Hok : ramfs_ok s.
Hypothesis Hd : nodes s !! d = Some p.
Hypothesis Hdir : v_type (vnode p) = VNODE_DIRECTORY.
Hypothesis Hcount : child_count p < 64.
Hypothesis Hc : nodes s !! c = None.
Hypothesis Hc0 : c <> NULL.
Hypothesis Hname : length name = 64%nat /\ byte_list name.
Hypothesis Hfree : forall c', ~ entry s d (cstr name) c'.

Let s' : fs_state K :=
  with_nodes (<[d := with_child p c]> (<[c := new_node type d c (v_fs (vnode p)) name]> (nodes s))) s.

Lemma add_cd : c <> d.
Proof. intros ->. congruence. Qed.

Lemma add_nodes q : nodes s' !! q =
  if decide (q = d) then Some (with_child p c)
  else if decide (q = c) then Some (new_node type d c (v_fs (vnode p)) name) else nodes s !! q.
Proof.
  subst s'. cbn [nodes with_nodes]. rewrite !lookup_insert. pose proof add_cd.
  repeat case_decide; congruence.
Qed.

Lemma add_kids q : kids s' q = if decide (q = d) then kids s d ++ [c] else kids s q.
Proof.
  destruct (no_children _ _ _ (Hok d p Hd)) as [Hlen Hcnt].
  unfold kids. rewrite add_nodes. destruct (decide (q = d)) as [->|].
  - rewrite Hd. cbn [child_count children with_child]. rewrite u32_id by lia.
    replace (Z.to_nat (child_count p + 1)) with (S (Z.to_nat (child_count p))) by lia.
    rewrite (take_S_r _ _ c) by (apply list_lookup_insert_eq; lia).
    by rewrite take_insert_ge by lia.
  - destruct (decide (q = c)) as [->|]; [by rewrite Hc | done].
Qed.

Lemma add_name q : node_name s' q = if decide (q = c) then Some (cstr name) else node_name s q.
Proof.
  unfold node_name. rewrite add_nodes. destruct (decide (q = d)) as [->|].
  - rewrite decide_False by (intros E; by apply add_cd). by rewrite Hd.
  - by destruct (decide (q = c)).
Qed.

Lemma add_fresh q : c ∉ kids s q.
Proof.
  intros Hin. destruct (nodes s !! q) as [n|] eqn:E; [| unfold kids in Hin; rewrite E in Hin; by apply elem_of_nil in Hin].
  destruct (no_kids _ _ _ (Hok q n E) c Hin) as (m & Hm & _). congruence.
Qed.

Lemma add_entry d' name' c' :
  entry s' d' name' c' <-> entry s d' name' c' \/ (d' = d /\ name' = cstr name /\ c' = c).
Proof.
  unfold entry. rewrite add_kids, add_name. split.
  - intros [Hin Hn]. destruct (decide (c' = c)) as [->|Hne].
    + destruct (decide (d' = d)) as [->|]; [right; naive_solver | by apply add_fresh in Hin].
    + left. split; [| done]. destruct (decide (d' = d)) as [->|]; [| done].
      apply elem_of_app in Hin as [?|?%list_elem_of_singleton]; done.
  - intros [[Hin Hn]|(-> & -> & ->)].
    + rewrite (decide_False (P := c' = c)) by (intros ->; by apply add_fresh in Hin). split; [| done].
      destruct (decide (d' = d)) as [->|]; [apply elem_of_app; by left | done].
    + rewrite !decide_True by done. split; [apply elem_of_app; right; by left | done].
Qed.

Lemma add_added : added s s' type d (cstr name) c.
Proof.
  split; [done |]. split; [intros; apply add_entry |]. split.
  - exists (new_node type d c (v_fs (vnode p)) name). rewrite add_nodes. pose proof add_cd.
    rewrite decide_False, decide_True by done. done.
  - intros q m Hq. rewrite add_nodes. destruct (decide (q = d)) as [->|].
    + exists (with_child p c). assert (m = p) as -> by congruence. done.
    + destruct (decide (q = c)) as [->|]; [congruence |]. by exists m.
Qed.

Lemma add_node_ok q m : nodes s !! q = Some m -> forall m', nodes s' !! q = Some m' -> vnode m' = vnode m -> node_ok s' q m'.
Proof.
  intros Hq m' Hq' Hv. pose proof (Hok q m Hq) as Ho. pose proof add_cd as Hcd.
  assert (Hqc : q <> c) by (intros ->; congruence).
  rewrite add_nodes in Hq'. rewrite (decide_False (P := q = c)) in Hq' by done.
  assert (Hkey : length (children m') = 64%nat /\ 0 <= child_count m' <= 64 /\
    (v_type (vnode m') <> VNODE_DIRECTORY -> child_count m' = 0)).
  { destruct (no_children _ _ _ Ho) as [Hlen Hcnt]. destruct (decide (q = d)) as [->|]; simplify_eq.
    - cbn [children child_count with_child vnode]. rewrite length_insert, u32_id by lia. split_and!; [done | lia | lia |].
      by rewrite Hdir.
    - split_and!; [done | lia | lia | apply (no_files _ _ _ Ho)]. }
  destruct Hkey as (Hlen & Hcnt & Hfiles). split; rewrite ?Hv.
  - apply (no_private _ _ _ Ho).
  - apply (no_nonnull _ _ _ Ho).
  - apply (no_name_ok _ _ _ Ho).
  - done.
  - intros c'. rewrite add_kids. intros Hin.
    assert (Hold : c' ∈ kids s q -> exists m0, nodes s' !! c' = Some m0 /\ v_parent (vnode m0) = q).
    { intros Hc'. destruct (no_kids _ _ _ Ho c' Hc') as (m0 & Hm0 & Hp0). rewrite add_nodes.
      destruct (decide (c' = d)) as [->|]; [exists (with_child p c); split; [done |]; cbn; congruence |].
      rewrite decide_False by (intros ->; congruence). by exists m0. }
    destruct (decide (q = d)) as [->|]; [| by apply Hold].
    apply elem_of_app in Hin as [Hin| ->%list_elem_of_singleton]; [by apply Hold |].
    exists (new_node type d c (v_fs (vnode p)) name). rewrite add_nodes, decide_False, decide_True by done. done.
  - intros i j x y nm. rewrite !add_kids, !add_name. destruct (decide (q = d)) as [->|].
    + intros Hi Hj Hx Hy. apply lookup_app_Some in Hi as [Hi|[Hi1 Hi]]; apply lookup_app_Some in Hj as [Hj|[Hj1 Hj]].
      * pose proof (list_elem_of_lookup_2 _ _ _ Hi) as Hxi. pose proof (list_elem_of_lookup_2 _ _ _ Hj) as Hyj.
        rewrite decide_False in Hx by (intros E; rewrite E in Hxi; by apply add_fresh in Hxi).
        rewrite decide_False in Hy by (intros E; rewrite E in Hyj; by apply add_fresh in Hyj).
        by apply (no_names _ _ _ Ho i j x y nm).
      * apply list_lookup_singleton_Some in Hj as [Hj <-]. rewrite decide_True in Hy by done.
        pose proof (list_elem_of_lookup_2 _ _ _ Hi) as Hxi.
        rewrite decide_False in Hx by (intros E; rewrite E in Hxi; by apply add_fresh in Hxi).
        exfalso. apply (Hfree x). split; [done | congruence].
      * apply list_lookup_singleton_Some in Hi as [Hi <-]. rewrite decide_True in Hx by done.
        pose proof (list_elem_of_lookup_2 _ _ _ Hj) as Hyj.
        rewrite decide_False in Hy by (intros E; rewrite E in Hyj; by apply add_fresh in Hyj).
        exfalso. apply (Hfree y). split; [done | congruence].
      * apply list_lookup_singleton_Some in Hi as [Hi _]. apply list_lookup_singleton_Some in Hj as [Hj _]. lia.
    + intros Hi Hj Hx Hy. pose proof (list_elem_of_lookup_2 _ _ _ Hi) as Hxi. pose proof (list_elem_of_lookup_2 _ _ _ Hj) as Hyj.
      rewrite decide_False in Hx by (intros E; rewrite E in Hxi; by apply add_fresh in Hxi).
      rewrite decide_False in Hy by (intros E; rewrite E in Hyj; by apply add_fresh in Hyj).
      by apply (no_names _ _ _ Ho i j x y nm).
  - rewrite <- Hv. exact Hfiles.
  - apply (no_ops _ _ _ Ho).
Qed.

Lemma add_ok : ramfs_ok s'.
Proof.
  intros q m' Hq'. pose proof add_cd as Hcd. destruct (decide (q = c)) as [->|Hqc].
  - rewrite add_nodes, decide_False, decide_True in Hq' by done. simplify_eq.
    assert (Hk : kids s' c = []) by (rewrite add_kids, decide_False by done; unfold kids; by rewrite Hc).
    split; try done.
    + intros x. rewrite Hk. by intros ?%elem_of_nil.
    + intros i j x y nm. by rewrite Hk.
  - destruct add_added as (_ & _ & _ & Hkept).
    destruct (nodes s !! q) as [m|] eqn:Hq.
    + destruct (Hkept q m Hq) as (m2 & Hm2 & Hv & _). assert (m2 = m') as -> by congruence.
      by apply (add_node_ok q m Hq m' Hq').
    + rewrite add_nodes in Hq'. rewrite (decide_False (P := q = c)) in Hq' by done.
      destruct (decide (q = d)) as [->|]; congruence.
Qed.
End adding.

Lemma no_name_fits str :
  byte_list str -> k_strlen str < 64 ->
  exists name, k_strcpy no_name str = Some name /\ length name = 64%nat /\ byte_list name /\ cstr name = cstr str.
Proof.
  intros Hb Hlen. rewrite k_strlen_length in Hlen.
  destruct (k_strcpy no_name str) as [name|] eqn:E.
  - destruct (strcpy_some _ _ _ E) as (Hc & Hl & _). exists name. split_and!; try done.
    by apply (strcpy_bytes no_name str name); [apply Forall_replicate; lia | |].
  - apply strcpy_none in E. unfold no_name in E. rewrite length_replicate in E. lia.
Qed.

(** What [ramfs_mkdir] and [ramfs_create] do, on every branch. *)
Lemma ramfs_add_spec type s d p str :
  ramfs_ok s -> nodes s !! d = Some p -> byte_list str -> k_strlen str < 64 ->
  nodes s !! (ka_malloc sizeof_ramfs_node (fheap s)).2 = None ->
  exists s' st, ramfs_add type d (Some str) s = Some (s', st) /\ ramfs_ok s' /\
    files s' = files s /\ fss s' = fss s /\ fmem s' = fmem s /\
    ((st = KERNEL_ENOTSUP /\ v_type (vnode p) <> VNODE_DIRECTORY /\ s' = s) \/
     (st = KERNEL_EEXIST /\ s' = s /\ exists c, entry s d (cstr str) c) \/
     (st = KERNEL_ENOMEM /\ nodes s' = nodes s /\
        (child_count p = RAMFS_MAX_CHILDREN \/ (ka_malloc sizeof_ramfs_node (fheap s)).2 = NULL)) \/
     (st = KERNEL_SUCCESS /\ v_type (vnode p) = VNODE_DIRECTORY /\ (forall c, ~ entry s d (cstr str) c) /\
        exists c, added s s' type d (cstr str) c)).
Proof.
  intros Hok Hd Hb Hlen Hfresh. pose proof (Hok d p Hd) as Ho.
  pose proof (no_private _ _ _ Ho) as Hp. pose proof (no_nonnull _ _ _ Ho) as Hd0.
  unfold ramfs_add. destruct (Z.eqb_spec d NULL); [done |]. rewrite Hd. cbn [mbind option_bind]. rewrite Hp.
  destruct (decide (v_type (vnode p) = VNODE_DIRECTORY)) as [Hdir|Hdir].
  2: { rewrite bool_decide_false by done. exists s, KERNEL_ENOTSUP. split_and!; try done. by left. }
  rewrite bool_decide_true by done. cbn [negb]. destruct (Z.eqb_spec d NULL); [done |].
  destruct (lookup_spec s d p str Hok Hd Hb) as (st & c & E & Hr). rewrite E. cbn [mbind option_bind].
  destruct Hr as [[-> He]|[-> Hno]].
  { exists s, KERNEL_EEXIST. split_and!; try done. right. left. split_and!; try done. by exists c. }
  cbn [Z.eqb KERNEL_ENOENT KERNEL_SUCCESS]. rewrite Hd. cbn [mbind option_bind].
  destruct (no_children _ _ _ Ho) as [_ Hcnt]. rewrite Z.geb_leb.
  destruct (Z.leb_spec RAMFS_MAX_CHILDREN (child_count p)) as [Hfull|Hroom]; unfold RAMFS_MAX_CHILDREN in *.
  { exists s, KERNEL_ENOMEM. split_and!; try done. right. right. left. split_and!; try done. left. lia. }
  destruct (ka_malloc sizeof_ramfs_node (fheap s)) as [k child]. cbn [snd] in *.
  assert (Hok' : ramfs_ok (with_fheap k s)) by (intros q m Hq; destruct (Hok q m Hq); by split).
  destruct (Z.eqb_spec child NULL) as [->|Hc0].
  { exists (with_fheap k s), KERNEL_ENOMEM. split_and!; try done. right. right. left. split_and!; try done. by right. }
  destruct (no_name_fits str Hb Hlen) as (name & Hcpy & Hnl & Hnb & Hnc). rewrite Hcpy. cbn [mbind option_bind].
  eexists _, _. split; [reflexivity |].
  pose proof (add_ok (with_fheap k s) d p child type name Hok' Hd Hdir Hroom Hfresh Hc0 (conj Hnl Hnb)
    ltac:(rewrite Hnc; exact Hno)) as Hres.
  pose proof (add_added (with_fheap k s) d p child type name Hok' Hd Hroom Hfresh Hc0 (conj Hnl Hnb)) as Had. rewrite Hnc in Had.
  split; [exact Hres |]. split_and!; try done. right. right. right.
  split; [done |]. split; [done |]. split; [exact Hno |]. exists child. exact Had.
Qed.


(** ** Contents *)

(** [file] is open on the file node [np]; its data, if any, has room for [size]. *)
Record writable s (L : gmap Z Z) (file np : Z) (f : file_t) (node : ramfs_node_t) (size : Z) : Prop := {
  wr_file : files s !! file = Some f /\ file <> NULL /\ f_node f = np;
  wr_node : nodes s !! np = Some node /\ np <> NULL /\ v_private_data (vnode node) = np /\
            v_type (vnode node) = VNODE_FILE;
  wr_size : 0 < size < 2 ^ 31;
  wr_live : ka_live (fheap s) L;
  wr_data : data node = NULL \/ exists n, L !! data node = Some n /\ size <= capacity node <= n;
}.

(** A buffer of [size] bytes in a live object other than the node's data. *)
Definition buffer_ok (L : gmap Z Z) (node : ramfs_node_t) (buffer size : Z) : Prop :=
  exists q n, L !! q = Some n /\ q <> data node /\ q <= buffer /\ buffer + size <= q + n.

Lemma buffer_range `{!KAllocLaws K} k L node buffer size :
  ka_live k L -> buffer_ok L node buffer size -> 0 < buffer /\ buffer + size < 2 ^ 64.
Proof. intros Hl (q & n & Hq & _ & ? & ?). destruct (ka_range k L q n Hl Hq) as (? & ? & ? & _). lia. Qed.

(** The state after a write of [size] bytes at [buffer] into the file [file]. *)
Definition written s (L : gmap Z Z) (file np : Z) (f : file_t) (node : ramfs_node_t) (buffer size : Z) s' : Prop :=
  exists L' p cap n, writable s' L' file np (set_position size f) (set_size size (set_data p cap node)) size /\
    L' !! p = Some n /\ size <= n /\ L ⊆ L' /\ p <> NULL /\
    (data node = NULL -> L !! p = None) /\ (data node <> NULL -> p = data node) /\
    nodes s' = <[np := set_size size (set_data p cap node)]> (nodes s) /\
    vfs_root_mount s' = vfs_root_mount s /\ mounts s' = mounts s /\ fss s' = fss s /\
    (forall k, 0 <= k < size -> load8 (fmem s') (p + k) = load8 (fmem s) (buffer + k)) /\
    (forall x, 0 <= x < 2 ^ 64 -> x < p \/ p + size <= x -> load8 (fmem s') x = load8 (fmem s) x).

(** The copy, with the data object in place. *)
Lemma write_copy `{!KAllocLaws K} s L file np f node buffer size L1 k1 ns p cap n :
  writable s L file np f node size -> buffer_ok L node buffer size ->
  ka_live k1 L1 -> L ⊆ L1 -> p <> NULL -> L1 !! p = Some n -> size <= cap <= n ->
  (data node = NULL -> L !! p = None) -> (data node <> NULL -> p = data node) ->
  <[np := set_size size (set_data p cap node)]> ns = <[np := set_size size (set_data p cap node)]> (nodes s) ->
  written s L file np f node buffer size
    (with_files (<[file := set_position size f]> (files s))
      (with_nodes (<[np := set_size size (set_data p cap node)]> ns)
         (with_fmem (k_memcpy p buffer size (fmem s)) (with_fheap k1 s)))).
Proof.
  intros [(Hf & Hf0 & Hfn) (Hn & Hn0 & Hp & Ht) Hsz Hlive Hdata] Hbuf Hl1 Hsub Hp0 Hp1 Hcap Hnew Hold Hns.
  destruct (buffer_range _ _ _ _ _ Hlive Hbuf) as [Hb0 Hbw]. destruct Hbuf as (q & nq & Hq & Hqd & Hqb & Hqe).
  destruct (ka_range _ _ _ _ Hl1 Hp1) as (? & ? & ? & _).
  assert (Hpq : p <> q).
  { destruct (decide (data node = NULL)) as [E|E]; [| rewrite Hold by done; done]. intros <-. rewrite Hnew in Hq; done. }
  assert (Hq1 : L1 !! q = Some nq) by by eapply lookup_weaken.
  pose proof (ka_disjoint _ _ _ _ _ _ Hl1 Hp1 Hq1 Hpq) as Hdis.
  assert (Hld : forall x, 0 <= x < 2 ^ 64 -> load8 (k_memcpy p buffer size (fmem s)) x =
    if decide (p <= x < p + size) then load8 (fmem s) (buffer + (x - p)) else load8 (fmem s) x)
    by (intros x Hx; apply memcpy_load; lia).
  exists L1, p, cap, n. split; [split |]; cbn -[k_memcpy].
  - by rewrite lookup_insert_eq.
  - by rewrite lookup_insert_eq.
  - done.
  - done.
  - right. by exists n.
  - split_and!; try done; try lia.
    + intros k Hk. rewrite Hld, decide_True by lia. f_equal. lia.
    + intros x Hx Hd. by rewrite Hld, decide_False by lia.
Qed.

(** One write: the data object and its bytes. *)
Lemma write_spec `{!KAllocLaws K} s L file np f node buffer size :
  writable s L file np f node size -> buffer_ok L node buffer size ->
  exists s' st, ramfs_write file buffer size s = Some (s', st) /\
    ((st = KERNEL_ENOMEM /\ fmem s' = fmem s /\ ka_live (fheap s') L) \/
     (st = KERNEL_SUCCESS /\ written s L file np f node buffer size s')).
Proof.
  intros Hw Hbuf. pose proof Hw as [(Hf & Hf0 & Hfn) (Hn & Hn0 & Hp & Ht) Hsz Hlive Hdata].
  destruct (buffer_range _ _ _ _ _ Hlive Hbuf) as [Hb0 Hbw].
  unfold ramfs_write. destruct (Z.eqb_spec file NULL); [done |].
  destruct (Z.eqb_spec buffer NULL); [unfold NULL in *; lia |]. cbn [orb].
  rewrite Hf. cbn [mbind option_bind]. rewrite Hfn, Hn. cbn [mbind option_bind]. rewrite Hp.
  destruct (Z.eqb_spec np NULL); [done |]. rewrite bool_decide_true by done. cbn [negb]. rewrite Hn.
  cbn [mbind option_bind].
  destruct (Z.eqb_spec (data node) NULL) as [Hz|Hz].
  - destruct (ka_malloc size (fheap s)) as [k p] eqn:Em.
    destruct (ka_malloc_spec _ _ size _ _ Hlive ltac:(lia) Em) as [(-> & Hl1) | (sz1 & Hn1 & Hnew & Hp0 & Hl1)].
    { eexists _, _. split; [reflexivity |]. left. done. }
    destruct (Z.eqb_spec p NULL); [done |]. cbn [negb].
    eexists _, _. split; [reflexivity |]. right. split; [done |].
    apply (write_copy s L file np f node buffer size (<[p := sz1]> L) k _ p size sz1); try done.
    + by apply insert_subseteq.
    + apply lookup_insert_eq.
    + apply insert_insert_eq.
  - cbn [negb]. eexists _, _. split; [reflexivity |]. right. split; [done |].
    destruct Hdata as [?|(sz1 & Hd1 & Hcap)]; [done |].
    by apply (write_copy s L file np f node buffer size L (fheap s) (nodes s) (data node) (capacity node) sz1).
Qed.

(** A read copies the bytes of the data, up to the size asked. *)
Lemma read_eq `{!KAllocLaws K} s L file np f node size dst n sz :
  writable s L file np f node size -> data node <> NULL -> v_size (vnode node) = size ->
  L !! data node = Some sz -> size <= sz -> 0 < n < 2 ^ 31 -> buffer_ok L node dst (Z.min n size) ->
  ramfs_read file dst n s = Some
    (with_files (<[file := set_position (u64 (f_position f + Z.min n size)) f]> (files s))
       (with_fmem (k_memcpy dst (data node) (Z.min n size) (fmem s)) s), Z.min n size).
Proof.
  intros [(Hf & Hf0 & Hfn) (Hnd & Hn0 & Hp & Ht) Hs Hlive _] Hd0 Hsz Hd Hle Hn Hdst.
  destruct (buffer_range _ _ _ _ _ Hlive Hdst) as [Hb0 Hbw].
  unfold ramfs_read. destruct (Z.eqb_spec file NULL); [done |]. destruct (Z.eqb_spec dst NULL); [unfold NULL in *; lia |].
  cbn [orb]. rewrite Hf. cbn [mbind option_bind]. rewrite Hfn, Hnd. cbn [mbind option_bind]. rewrite Hp.
  destruct (Z.eqb_spec np NULL); [done |]. rewrite bool_decide_true by done. cbn [negb]. rewrite Hnd.
  cbn [mbind option_bind]. destruct (Z.eqb_spec (data node) NULL); [done |]. rewrite Hsz.
  replace (if n >? size then size else n) with (Z.min n size) by (rewrite Z.gtb_ltb; destruct (Z.ltb_spec size n); lia).
  by rewrite i32_id by lia.
Qed.

Lemma read_spec `{!KAllocLaws K} s L file np f node size dst n sz :
  writable s L file np f node size -> data node <> NULL -> v_size (vnode node) = size ->
  L !! data node = Some sz -> size <= sz -> 0 < n < 2 ^ 31 -> buffer_ok L node dst (Z.min n size) ->
  exists s', ramfs_read file dst n s = Some (s', Z.min n size) /\
    forall k, 0 <= k < Z.min n size -> load8 (fmem s') (dst + k) = load8 (fmem s) (data node + k).
Proof.
  intros Hw Hd0 Hsz Hd Hle Hn Hdst. eexists. split; [by eapply read_eq |].
  pose proof (wr_live _ _ _ _ _ _ _ Hw) as Hlive. pose proof (wr_size _ _ _ _ _ _ _ Hw).
  destruct (buffer_range _ _ _ _ _ Hlive Hdst) as [Hb0 Hbw]. intros k Hk. cbn [fmem with_files with_fmem].
  destruct Hdst as (q & nq & Hq & Hqd & Hqb & Hqe). destruct (ka_range _ _ _ _ Hlive Hd) as (? & ? & ? & _).
  pose proof (ka_disjoint _ _ _ _ _ _ Hlive Hd Hq (not_eq_sym Hqd)) as Hdis.
  rewrite memcpy_load, decide_True by lia. f_equal. lia.
Qed.

(** New contents move no entry. *)
Section contents.
Context (s s' : fs_state K) (np : Z) (node : ramfs_node_t) (size p cap : Z).
Hypothesis Hn : nodes s !! np = Some node.
Hypothesis Hs : nodes s' = <[np := set_size size (set_data p cap node)]> (nodes s).

Lemma contents_kids d : kids s' d = kids s d.
Proof. unfold kids. rewrite Hs, lookup_insert. by case_decide; subst; rewrite ?Hn. Qed.

Lemma contents_name d : node_name s' d = node_name s d.
Proof. unfold node_name. rewrite Hs, lookup_insert. by case_decide; subst; rewrite ?Hn. Qed.

Lemma contents_entry d name c : entry s' d name c <-> entry s d name c.
Proof. unfold entry. by rewrite contents_kids, contents_name. Qed.

Lemma contents_some d : is_Some (nodes s !! d) -> is_Some (nodes s' !! d).
Proof. rewrite Hs, lookup_insert. by case_decide. Qed.

Lemma contents_ok : ramfs_ok s -> ramfs_ok s'.
Proof.
  intros Hok q m Hq.
  assert (Hm : exists m0, nodes s !! q = Some m0 /\ v_private_data (vnode m) = v_private_data (vnode m0) /\
    v_name (vnode m) = v_name (vnode m0) /\ children m = children m0 /\ child_count m = child_count m0 /\
    v_type (vnode m) = v_type (vnode m0) /\ v_ops (vnode m) = v_ops (vnode m0)).
  { rewrite Hs, lookup_insert in Hq. case_decide; simplify_eq; [by exists node | by exists m]. }
  destruct Hm as (m0 & Hm0 & E1 & E2 & E3 & E4 & E5 & E6). destruct (Hok q m0 Hm0).
  split; rewrite ?E1, ?E2, ?E3, ?E4, ?E5, ?E6; try done.
  - intros c. rewrite contents_kids. intros Hc. destruct (no_kids0 c Hc) as (x & Hx & Hpar). rewrite Hs, lookup_insert.
    case_decide; simplify_eq; [by eexists | by exists x].
  - intros i j c d nm. rewrite !contents_kids, !contents_name. apply no_names0.
Qed.
End contents.

(** what [ramfs_write] writes, [ramfs_read] reads back, up to the size asked,
    into any other buffer; the write finds its room in the node's data object or
    in a new one, and fails only for lack of memory. *)
Theorem ramfs_write_read_roundtrip `{!KAllocLaws K} s L file np f node buffer size
    (Hw : writable s L file np f node size) (Hb : buffer_ok L node buffer size) :
  exists s' st, ramfs_write file buffer size s = Some (s', st) /\
    ((st = KERNEL_ENOMEM /\ fmem s' = fmem s) \/
     (st = KERNEL_SUCCESS /\ exists L' node', writable s' L' file np (set_position size f) node' size /\
        forall dst n, 0 < n < 2 ^ 31 -> buffer_ok L' node' dst (Z.min n size) ->
          exists s2, ramfs_read file dst n s' = Some (s2, Z.min n size) /\
            forall k, 0 <= k < Z.min n size -> load8 (fmem s2) (dst + k) = load8 (fmem s) (buffer + k))).
Proof.
  destruct (write_spec s L file np f node buffer size Hw Hb) as (s' & st & E & Hr). exists s', st. split; [done |].
  destruct Hr as [(-> & Hm & _)|(-> & L' & p & cap & sz & Hw' & Hd' & Hn' & _ & Hd0 & _ & _ & _ & _ & _ & _ & Hbytes & _)];
    [by left | right]. split; [done |]. exists L', (set_size size (set_data p cap node)). split; [done |]. intros dst n Hn Hdst.
  destruct (read_spec s' L' file np _ _ size dst n sz Hw' Hd0 eq_refl Hd' Hn' Hn Hdst) as (s2 & E2 & H2).
  exists s2. split; [done |]. intros k Hk. rewrite H2 by done. apply Hbytes. lia.
Qed.
End spec.

End Ramfs.
