(* ===== verification/Vfs.v ===== *)
(** * The virtual file system: [fs/path.c], [fs/vfs.c]

    A cursor into a path is the list of its bytes from there on.  The operation
    tables a vnode or a file system can point to are those of [ramfs.c]: a call
    through any other non-NULL pointer has no result. *)
From S2P Require Import Prelude Memory KAlloc Ramfs.
Import Mem Str Ramfs.
#[local] Open Scope Z_scope.

Module Vfs.

(** ** [path.c] *)
Definition VFS_MAX_COMPONENT_LEN : Z := 64.
Definition SLASH : Z := 47.

Fixpoint skip_slashes (p : list Z) : list Z :=
  match p with
  | [] => []
  | c :: p' => if c =? SLASH then skip_slashes p' else p
  end.

(** A store into the component buffer, [None] past its end. *)
Definition put (buf : list Z) (i c : Z) : option (list Z) :=
  if decide (0 <= i < Z.of_nat (length buf)) then Some (<[Z.to_nat i := c]> buf) else None.

(** The copying loop: its status (1 or -1), cursor, length and buffer. *)
Fixpoint component_loop (p : list Z) (len : Z) (component : list Z) : option (Z * list Z * Z * list Z) :=
  match p with
  | [] => Some (1, [], len, component)
  | c :: p' =>
    if (c =? SLASH) || (c =? 0) then Some (1, p, len, component)
    else if len >=? VFS_MAX_COMPONENT_LEN - 1 then Some (-1, p, len, component)
    else component' ← put component len c; component_loop p' (len + 1) component'
  end.

(** The result, [*path] and the component buffer. *)
Definition path_next_component (path component : list Z) : option (Z * list Z * list Z) :=
  let p := skip_slashes path in
  if deref p =? 0 then Some (0, path, component)
  else
    '(rc, p, len, component) ← component_loop p 0 component;
    if rc <? 0 then Some (rc, path, component)
    else component ← put component len 0; Some (1, p, component).

(** ** [vfs.c] *)
Section vfs.
Context {K : Type} `{KAlloc K} `{FsLayout}.
Implicit Types s : fs_state K.

Definition vfs_init s : fs_state K := with_mounts (mounts s) NULL NULL s.

(** The call [fs->ops->mount(fs)], when there is one. *)
Definition call_mount (fs : Z) s : option (fs_state K * Z) :=
  f ← fss s !! fs;
  if fs_ops f =? NULL then Some (s, KERNEL_SUCCESS)
  else if fs_ops f =? ramfs_fs_ops then ramfs_mount fs s
  else None.

Definition vfs_mount (fs mountpoint : Z) s : option (fs_state K * Z) :=
  if fs =? NULL then Some (s, KERNEL_EINVAL)
  else if negb (vfs_root_mount s =? NULL) && (mountpoint =? NULL) then Some (s, KERNEL_EINVAL)
  else
    let '(k, mount) := ka_malloc sizeof_mount (fheap s) in
    let s := with_fheap k s in
    if mount =? NULL then Some (s, KERNEL_ENOMEM)
    else
      let m := mk_mount fs mountpoint (vfs_mount_list s) in
      let s := with_mounts (<[mount := m]> (mounts s)) mount (vfs_root_mount s) s in
      let s :=
        if vfs_root_mount s =? NULL
        then with_mounts (<[mount := mk_mount fs NULL (m_next m)]> (mounts s)) (vfs_mount_list s) mount s
        else s in
      '(s, result) ← call_mount fs s;
      if negb (result =? KERNEL_SUCCESS) then Some (s, result) else Some (s, KERNEL_SUCCESS).

Definition vfs_get_root s : option Z :=
  if vfs_root_mount s =? NULL then Some NULL
  else
    m ← mounts s !! vfs_root_mount s;
    if m_fs m =? NULL then Some NULL
    else f ← fss s !! m_fs m; Some (fs_root f).

(** The walk, from the cursor and the current node. *)
Fixpoint vfs_walk (fuel : nat) (cursor component : list Z) (current : Z) s : option (Z * Z) :=
  match fuel with
  | O => None
  | S fuel' =>
    '(rc, cursor, component) ← path_next_component cursor component;
    if rc =? 0 then Some (KERNEL_SUCCESS, current)
    else if rc <? 0 then Some (KERNEL_EINVAL, NULL)
    else
      v ← nodes s !! current;
      if v_ops (vnode v) =? NULL then Some (KERNEL_ENOTSUP, NULL)
      else if v_ops (vnode v) =? ramfs_vnode_ops then
        '(rc, next) ← ramfs_lookup current (Some component) s;
        if negb (rc =? KERNEL_SUCCESS) then Some (rc, NULL)
        else vfs_walk fuel' cursor component next s
      else None
  end.

(** The component buffer of [vfs_lookup]; its bytes are written before they are
    read, so that the value it starts with does not matter. *)
Definition component_buffer : list Z := replicate 65 0.

Definition vfs_lookup (path : option (list Z)) s : option (Z * Z) :=
  match path with
  | None => Some (KERNEL_EINVAL, NULL)
  | Some path =>
    current ← vfs_get_root s;
    if current =? NULL then Some (KERNEL_ENOENT, NULL)
    else if (deref path =? SLASH) && (deref (tl path) =? 0) then Some (KERNEL_SUCCESS, current)
    else vfs_walk (S (length path)) path component_buffer current s
  end.

Definition vfs_open (path : option (list Z)) s : option (fs_state K * Z * Z) :=
  '(rc, node) ← vfs_lookup path s;
  if negb (rc =? KERNEL_SUCCESS) then Some (s, NULL, rc)
  else Some (file_open node s).

(** The guards [vfs_read] and [vfs_write] share, and their call. *)
Definition vfs_call (op : Z -> Z -> Z -> fs_state K -> option (fs_state K * Z))
    (file buffer size : Z) s : option (fs_state K * Z) :=
  if file =? NULL then Some (s, KERNEL_EINVAL)
  else
    f ← files s !! file;
    if f_node f =? NULL then Some (s, KERNEL_EINVAL)
    else
      v ← nodes s !! f_node f;
      if v_ops (vnode v) =? NULL then Some (s, KERNEL_ENOTSUP)
      else if v_ops (vnode v) =? ramfs_vnode_ops then op file buffer size s
      else None.

Definition vfs_write := vfs_call ramfs_write.
Definition vfs_read := vfs_call ramfs_read.
End vfs.

(** ** Paths as lists of component names *)

(** The non-empty components of the string at [p], after the characters [cur]
    of the first. *)
Fixpoint components (cur p : list Z) : list (list Z) :=
  let flush := match cur with [] => [] | _ => [cur] end in
  match p with
  | [] => flush
  | c :: p' =>
    if c =? 0 then flush
    else if c =? SLASH then flush ++ components [] p'
    else components (cur ++ [c]) p'
  end.
Definition split_path : list Z -> list (list Z) := components [].

Fixpoint word (p : list Z) : list Z :=
  match p with
  | [] => []
  | c :: p' => if (c =? SLASH) || (c =? 0) then [] else c :: word p'
  end.

Lemma components_word cur p :
  cur ++ word p <> [] -> components cur p = (cur ++ word p) :: split_path (drop (length (word p)) p).
Proof.
  unfold split_path. revert cur; induction p as [|c p IH]; intros cur Hne; cbn [word components] in *.
  - rewrite app_nil_r in *. by destruct cur.
  - destruct (c =? 0) eqn:E0; cbn [orb] in *; [rewrite orb_true_r, app_nil_r in *; cbn [length drop components]; rewrite E0; by destruct cur |].
    destruct (c =? SLASH) eqn:Es; cbn [orb] in *.
    + rewrite app_nil_r in *. cbn [length drop components]. rewrite E0, Es. by destruct cur.
    + rewrite IH by (by destruct cur). cbn [length drop]. by rewrite <- app_assoc.
Qed.

Lemma split_skip p : split_path (skip_slashes p) = split_path p.
Proof.
  unfold split_path. induction p as [|c p IH]; [done |]. cbn [skip_slashes]. destruct (Z.eqb_spec c SLASH) as [->|]; done.
Qed.

Lemma skip_length p : (length (skip_slashes p) <= length p)%nat.
Proof. induction p as [|c p IH]; [done |]. cbn [skip_slashes length]. case_match; cbn [length]; lia. Qed.

Lemma skip_bytes p : byte_list p -> byte_list (skip_slashes p).
Proof. unfold byte_list. induction 1; cbn [skip_slashes]; [done |]. case_match; [done | by constructor]. Qed.

Lemma skip_deref p : deref (skip_slashes p) <> SLASH.
Proof. induction p as [|c p IH]; [done |]. cbn [skip_slashes]. by destruct (Z.eqb_spec c SLASH). Qed.

Lemma word_nonzero p : Forall (fun c => c <> 0) (word p).
Proof.
  induction p as [|c p IH]; cbn [word]; [done |].
  destruct (Z.eqb_spec c 0), (Z.eqb_spec c SLASH); cbn [orb]; by try constructor.
Qed.

Lemma cstr_end w r : Forall (fun c => c <> 0) w -> cstr (w ++ 0 :: r) = w.
Proof. induction 1 as [|c w Hc _ IH]; cbn; [done |]. destruct (Z.eqb_spec c 0); [done | by rewrite IH]. Qed.

Lemma put_some buf len c :
  0 <= len < Z.of_nat (length buf) -> put buf len c = Some (<[Z.to_nat len := c]> buf).
Proof. intros. unfold put. by rewrite decide_True. Qed.

Lemma take_put (buf : list Z) (len c : Z) :
  0 <= len < Z.of_nat (length buf) ->
  take (Z.to_nat (len + 1)) (<[Z.to_nat len := c]> buf) = take (Z.to_nat len) buf ++ [c].
Proof.
  intros Hlen. replace (Z.to_nat (len + 1)) with (S (Z.to_nat len)) by lia.
  rewrite (take_S_r _ _ c) by (apply list_lookup_insert_eq; lia). by rewrite take_insert_ge by lia.
Qed.

(** The loop copies the word at the cursor, or fails when it is too long. *)
Lemma component_loop_spec p : forall len buf, byte_list p -> byte_list buf -> length buf = 65%nat -> 0 <= len <= 63 ->
  exists rc p' len' buf', component_loop p len buf = Some (rc, p', len', buf') /\
    length buf' = 65%nat /\ byte_list buf' /\
    ((rc = -1 /\ 63 < len + Z.of_nat (length (word p))) \/
     (rc = 1 /\ len' = len + Z.of_nat (length (word p)) /\ len' <= 63 /\ p' = drop (length (word p)) p /\
      take (Z.to_nat len') buf' = take (Z.to_nat len) buf ++ word p)).
Proof.
  induction p as [|c p IH]; intros len buf Hp Hb Hl Hlen; cbn [component_loop word].
  { eexists _, _, _, _. split; [done |]. split_and!; try done. right. cbn. rewrite app_nil_r, Z.add_0_r. split_and!; try done; lia. }
  apply Forall_cons in Hp as [Hc Hp'].
  destruct ((c =? SLASH) || (c =? 0)).
  { eexists _, _, _, _. split; [done |]. split_and!; try done. right. cbn. rewrite app_nil_r, Z.add_0_r. split_and!; try done; lia. }
  unfold VFS_MAX_COMPONENT_LEN. rewrite Z.geb_leb. destruct (Z.leb_spec (64 - 1) len).
  { eexists _, _, _, _. split; [done |]. split_and!; try done. left. cbn [length]. lia. }
  rewrite put_some by lia. cbn [mbind option_bind].
  destruct (IH (len + 1) (<[Z.to_nat len := c]> buf)) as (rc & p' & len' & buf' & E & Hl' & Hb' & Hr); [done | | | lia |].
  - by apply Forall_insert.
  - by rewrite length_insert.
  - exists rc, p', len', buf'. split; [done |]. split_and!; try done. cbn [length].
    destruct Hr as [[-> ?]|(-> & -> & ? & -> & Ht)]; [left; split; [done | lia] | right].
    split_and!; try done; try lia. rewrite take_put in Ht by lia. rewrite <- app_assoc in Ht.
    replace (len + Z.of_nat (S (length (word p)))) with (len + 1 + Z.of_nat (length (word p))) by lia. done.
Qed.

(** What one call of [path_next_component] does. *)
Definition next_component (p : list Z) (rc : Z) (p' buf' : list Z) : Prop :=
  length buf' = 65%nat /\ byte_list buf' /\
  ((rc = 0 /\ split_path p = []) \/
   (rc = -1 /\ exists w r, split_path p = w :: r /\ 64 <= Z.of_nat (length w)) \/
   (rc = 1 /\ split_path p = cstr buf' :: split_path p' /\ Z.of_nat (length (cstr buf')) < 64 /\
    (length p' < length p)%nat /\ byte_list p')).

Lemma next_component_spec p buf :
  byte_list p -> byte_list buf -> length buf = 65%nat ->
  exists rc p' buf', path_next_component p buf = Some (rc, p', buf') /\ next_component p rc p' buf'.
Proof.
  intros Hp Hb Hl. unfold path_next_component, next_component. rewrite <- (split_skip p).
  pose proof (skip_bytes p Hp) as Hq. pose proof (skip_length p) as Hle. pose proof (skip_deref p) as Hsl.
  revert Hq Hle Hsl. generalize (skip_slashes p). intros q Hq Hle Hsl.
  destruct (Z.eqb_spec (deref q) 0) as [Hz|Hnz].
  { exists 0, p, buf. split_and!; try done. left. split; [done |]. destruct q as [|c q]; [done |]. cbn in Hz. by subst. }
  assert (Hw : word q <> []).
  { destruct q as [|c q]; [done |]. cbn in *. destruct (Z.eqb_spec c SLASH), (Z.eqb_spec c 0); done. }
  pose proof (components_word [] q Hw) as Hsplit. cbn [app] in Hsplit. change (components [] q) with (split_path q) in Hsplit.
  destruct (component_loop_spec q 0 buf Hq Hb Hl ltac:(lia)) as (rc & p' & len & buf' & E & Hl' & Hb' & Hr).
  rewrite E. cbn [mbind option_bind]. destruct Hr as [[-> Hlong]|(-> & -> & Hlen & -> & Ht)]; cbn [Z.ltb Z.compare].
  { exists (-1), p, buf'. split_and!; try done. right. left. split; [done |]. eexists _, _. split; [exact Hsplit | lia]. }
  rewrite put_some by lia. cbn [mbind option_bind]. eexists _, _, _. split; [reflexivity |].
  set (n := Z.to_nat (0 + Z.of_nat (length (word q)))) in *. assert (Hn : n = length (word q)) by lia.
  assert (Hc : cstr (<[n := 0]> buf') = word q).
  { rewrite (insert_take_drop buf' n 0) by lia. rewrite Ht. cbn [Z.to_nat take app]. apply cstr_end, word_nonzero. }
  rewrite length_insert, Hc. split_and!; [done | by apply Forall_insert |]. right. right.
  split_and!; try done; [lia | | by apply Forall_drop].
  rewrite length_drop. assert (0 < length (word q))%nat by (destruct (word q); [done | cbn; lia]).
  destruct q; [done |]. cbn [length] in *. lia.
Qed.

(** [path_next_component] splits off the first component of a path, never
    writes past its buffer, moves the cursor forward, and rejects exactly the
    components of 64 characters and more. *)
Theorem path_next_component_correct p buf (Hp : byte_list p) (Hb : byte_list buf) (Hl : length buf = 65%nat) :
  exists rc p' buf', path_next_component p buf = Some (rc, p', buf') /\ next_component p rc p' buf'.
Proof. by apply next_component_spec. Qed.

(** ** Lookups *)
Section lookup.
Context {K : Type} `{KAlloc K} `{FsLayoutLaws}.
Implicit Types s : fs_state K.

(** What a walk along component names from a node ends with: the first
    component that is too long or has no entry decides. *)
Inductive resolves s : Z -> list (list Z) -> Z -> Z -> Prop :=
  | resolves_here d : resolves s d [] KERNEL_SUCCESS d
  | resolves_step d n ns c st r :
      Z.of_nat (length n) < 64 -> entry s d n c -> resolves s c ns st r -> resolves s d (n :: ns) st r
  | resolves_missing d n ns :
      Z.of_nat (length n) < 64 -> (forall c, ~ entry s d n c) -> resolves s d (n :: ns) KERNEL_ENOENT NULL
  | resolves_long d n ns : 64 <= Z.of_nat (length n) -> resolves s d (n :: ns) KERNEL_EINVAL NULL.

Lemma resolves_det s d ns st r st' r' :
  ramfs_ok s -> resolves s d ns st r -> resolves s d ns st' r' -> st' = st /\ r' = r.
Proof.
  intros Hok Hr. revert st' r'; induction Hr as [d|d n ns c st r Hn He _ IH|d n ns Hn Hno|d n ns Hn]; intros st' r' Hr';
    inversion Hr'; subst; try done; try lia; try (exfalso; naive_solver).
  apply IH. by rewrite (entry_unique s d n c c0).
Qed.

Lemma resolves_node s d ns st r :
  ramfs_ok s -> is_Some (nodes s !! d) -> resolves s d ns st r -> st = KERNEL_SUCCESS -> is_Some (nodes s !! r).
Proof.
  intros Hok Hd Hr. induction Hr as [d|d n ns c st r Hn He _ IH|d n ns Hn Hno|d n ns Hn]; try done.
  apply IH. destruct He as [_ He]. unfold node_name in He. destruct (nodes s !! c); [by eexists | done].
Qed.

Lemma resolves_fail s d ns st r : resolves s d ns st r -> st <> KERNEL_SUCCESS -> r = NULL.
Proof. induction 1; naive_solver. Qed.

Lemma vfs_walk_spec s : ramfs_ok s -> forall fuel p buf d,
  (length p < fuel)%nat -> byte_list p -> byte_list buf -> length buf = 65%nat -> is_Some (nodes s !! d) ->
  exists st r, vfs_walk fuel p buf d s = Some (st, r) /\ resolves s d (split_path p) st r.
Proof.
  intros Hok. induction fuel as [|fuel IH]; intros p buf d Hf Hp Hb Hl Hd; [lia |]. cbn [vfs_walk].
  destruct (next_component_spec p buf Hp Hb Hl) as (rc & p' & buf' & E & Hl' & Hb' & Hr). rewrite E. cbn [mbind option_bind].
  destruct Hr as [[-> Hs]|[(-> & w & r & Hs & Hlong)|(-> & Hs & Hlen & Hlt & Hp')]]; rewrite Hs; cbn [Z.eqb Z.ltb Z.compare].
  { eexists _, _. split; [done | constructor]. }
  { eexists _, _. split; [done | by constructor]. }
  destruct Hd as [v Hv]. rewrite Hv. cbn [mbind option_bind]. rewrite (no_ops _ _ _ (Hok d v Hv)).
  destruct (Z.eqb_spec ramfs_vnode_ops NULL) as [E0|_]; [by apply vnode_ops_nonnull in E0 |]. rewrite Z.eqb_refl.
  destruct (lookup_spec s d v buf' Hok Hv Hb') as (st & c & El & Hr). rewrite El. cbn [mbind option_bind].
  destruct Hr as [[-> He]|[-> Hno]]; cbn [Z.eqb KERNEL_ENOENT KERNEL_SUCCESS negb].
  - destruct (IH p' buf' c) as (st & r & Ew & Hw); try done; [lia | |].
    { destruct He as [_ He]. unfold node_name in He. destruct (nodes s !! c); [by eexists | done]. }
    exists st, r. split; [done |]. by econstructor.
  - eexists _, _. split; [done |]. by constructor.
Qed.

(** A file system is mounted at the root. *)
Definition vfs_ok s (root : Z) : Prop := ramfs_ok s /\ vfs_get_root s = Some root /\ is_Some (nodes s !! root).

Lemma vfs_lookup_spec s root path :
  vfs_ok s root -> byte_list path ->
  exists st r, vfs_lookup (Some path) s = Some (st, r) /\ resolves s root (split_path path) st r.
Proof.
  intros (Hok & Hroot & Hn) Hp. unfold vfs_lookup. rewrite Hroot. cbn [mbind option_bind].
  destruct (Z.eqb_spec root NULL) as [->|_].
  { destruct Hn as [n Hn]. by apply Hok, no_nonnull in Hn. }
  destruct ((deref path =? SLASH) && (deref (tl path) =? 0)) eqn:E.
  - apply andb_prop in E as [E1%Z.eqb_eq E2%Z.eqb_eq]. exists KERNEL_SUCCESS, root. split; [done |].
    assert (split_path path = []) as ->; [| constructor].
    destruct path as [|c path]; [done |]. cbn in E1, E2. subst c. destruct path as [|c path]; [done |]. cbn in E2. by subst c.
  - apply vfs_walk_spec; try done; [lia |]. by apply Forall_replicate.
Qed.

(** C14: [vfs_lookup] ends for every path, with the status and the node that
    walking the components of the path from the root gives, and no other. *)
Theorem vfs_lookup_correct s root path (Hok : vfs_ok s root) (Hp : byte_list path) :
  exists st r, vfs_lookup (Some path) s = Some (st, r) /\
    forall st' r', resolves s root (split_path path) st' r' <-> st' = st /\ r' = r.
Proof.
  destruct (vfs_lookup_spec s root path Hok Hp) as (st & r & E & Hr). exists st, r. split; [done |].
  intros st' r'. split; [by apply (resolves_det s root (split_path path)); [apply Hok |] | by intros [-> ->]].
Qed.
End lookup.

(** ** Mounting, opening, reading and writing *)
Section files.
Context {K : Type} `{KAlloc K} `{FsLayoutLaws}.
Implicit Types s : fs_state K.

(** The state once a root is mounted. *)
Record booted s (fs mount : Z) : Prop := {
  bo_nodes : nodes s = {[ ramfs_root := mk_node (mk_vnode no_name VNODE_DIRECTORY 0 NULL fs ramfs_vnode_ops ramfs_root)
                            (replicate 64 NULL) 0 NULL 0 ]};
  bo_mount : exists m, mounts s !! mount = Some m /\ m_fs m = fs;
  bo_root : vfs_root_mount s = mount /\ mount <> NULL;
  bo_fs0 : fs <> NULL;
  bo_fs : exists f, fss s !! fs = Some f /\ fs_root f = ramfs_root;
}.

Lemma booted_kids s fs mount d : booted s fs mount -> kids s d = [].
Proof. intros Hb. unfold kids. rewrite (bo_nodes _ _ _ Hb), lookup_singleton. by case_decide. Qed.

Lemma booted_ok s fs mount : booted s fs mount -> vfs_ok s ramfs_root.
Proof.
  intros Hb. pose proof Hb as [Hn (m & Hm & Hmf) [Hr Hm0] Hf0 (f & Hf & Hfr)]. split_and!.
  - intros p n. rewrite Hn, lookup_singleton_Some. intros [<- <-]. split; try done; rewrite ?(booted_kids s fs mount _ Hb); try done.
    + apply root_nonnull.
    + split; [done |]. apply (Forall_replicate _ 64). lia.
    + by intros c ?%elem_of_nil.
  - unfold vfs_get_root. rewrite Hr. destruct (Z.eqb_spec mount NULL); [done |]. rewrite Hm. cbn [mbind option_bind].
    rewrite Hmf. destruct (Z.eqb_spec fs NULL); [done |]. rewrite Hf. cbn [mbind option_bind]. by rewrite Hfr.
  - rewrite Hn, lookup_singleton_eq. by eexists.
Qed.

Lemma lookup_here s root path :
  vfs_ok s root -> byte_list path -> split_path path = [] -> vfs_lookup (Some path) s = Some (KERNEL_SUCCESS, root).
Proof.
  intros Hok Hp Hs. destruct (vfs_lookup_spec s root path Hok Hp) as (st & r & E & Hr). rewrite E. rewrite Hs in Hr.
  by inversion Hr.
Qed.

(** the boot of the file system: initialising and mounting ramfs succeeds
    unless memory is short, and gives an empty root directory, found at the
    paths without components; a second root mount is refused. *)
Theorem vfs_boot_correct s fs f (Hn : nodes s = ∅) (Hf : fss s !! fs = Some f) (Hf0 : fs <> NULL)
    (Hname : length (fs_name f) = 32%nat) :
  exists s1, ramfs_init fs (vfs_init s) = Some (s1, KERNEL_SUCCESS) /\
  exists s2 st, vfs_mount fs NULL s1 = Some (s2, st) /\
    ((st = KERNEL_ENOMEM /\ vfs_get_root s2 = Some NULL) \/
     (st = KERNEL_SUCCESS /\ vfs_ok s2 ramfs_root /\ kids s2 ramfs_root = [] /\
      (forall path, byte_list path -> split_path path = [] -> vfs_lookup (Some path) s2 = Some (KERNEL_SUCCESS, ramfs_root)) /\
      forall fs', fs' <> NULL -> vfs_mount fs' NULL s2 = Some (s2, KERNEL_EINVAL))).
Proof.
  unfold ramfs_init. destruct (Z.eqb_spec fs NULL); [done |]. cbn [fss vfs_init with_mounts]. rewrite Hf.
  cbn [mbind option_bind]. destruct (k_strcpy (fs_name f) ramfs_name) as [name|] eqn:Ename.
  2: { apply strcpy_none in Ename. rewrite Hname in Ename. vm_compute in Ename. lia. }
  cbn [mbind option_bind]. eexists. split; [reflexivity |].
  unfold vfs_mount. destruct (Z.eqb_spec fs NULL); [done |]. cbn [vfs_root_mount with_fss with_mounts fheap].
  rewrite Z.eqb_refl. change (fheap (vfs_init s)) with (fheap s).
  cbn [negb andb]. destruct (ka_malloc sizeof_mount (fheap s)) as [k mount].
  cbn [vfs_root_mount with_fheap with_fss vfs_init with_mounts mounts vfs_mount_list].
  destruct (Z.eqb_spec mount NULL) as [->|Hm0].
  { eexists _, _. split; [reflexivity |]. by left. }
  rewrite Z.eqb_refl. unfold call_mount. cbn [fss with_fheap with_fss with_mounts m_next]. rewrite lookup_insert_eq. cbn [mbind option_bind fs_ops].
  destruct (Z.eqb_spec ramfs_fs_ops NULL) as [E|_]; [by apply fs_ops_nonnull in E |]. rewrite Z.eqb_refl.
  unfold ramfs_mount. destruct (Z.eqb_spec fs NULL); [done |]. cbn [fss with_nodes with_fheap with_fss with_mounts].
  rewrite lookup_insert_eq. cbn [mbind option_bind Z.eqb negb KERNEL_SUCCESS].
  eexists _, _. split; [reflexivity |]. right. split; [done |].
  match goal with |- vfs_ok ?s2 _ /\ _ => assert (Hb : booted s2 fs mount) end.
  { split; cbn; [by rewrite Hn, insert_empty | eexists; rewrite lookup_insert_eq; done | done | done | eexists; rewrite lookup_insert_eq; done]. }
  split; [by eapply booted_ok |]. split; [by eapply booted_kids |]. split; [intros; apply lookup_here; [by eapply booted_ok | done | done] |].
  intros fs' Hfs'. unfold vfs_mount. destruct (Z.eqb_spec fs' NULL); [done |]. cbn [vfs_root_mount with_fss with_nodes with_mounts].
  by destruct (Z.eqb_spec mount NULL).
Qed.

(** What [vfs_open] does on a path that ends at [r] with status [st]. *)
Definition opened s (r : Z) s' (file : Z) (rc : Z) : Prop :=
  exists k, k = (ka_malloc sizeof_file (fheap s)).1 /\ (ka_malloc sizeof_file (fheap s)).2 = file /\
    ((rc = KERNEL_ENOMEM /\ file = NULL /\ s' = with_fheap k s) \/
     (rc = KERNEL_SUCCESS /\ file <> NULL /\ s' = with_files (<[file := mk_file r 0 0 1]> (files s)) (with_fheap k s))).

Lemma open_spec s root path :
  vfs_ok s root -> byte_list path ->
  exists s' file rc, vfs_open (Some path) s = Some (s', file, rc) /\
    ((rc <> KERNEL_SUCCESS /\ file = NULL /\ s' = s /\ resolves s root (split_path path) rc NULL) \/
     (exists r, resolves s root (split_path path) KERNEL_SUCCESS r /\ opened s r s' file rc)).
Proof.
  intros Hok Hp. destruct (vfs_lookup_spec s root path Hok Hp) as (st & r & E & Hr).
  unfold vfs_open. rewrite E. cbn [mbind option_bind]. destruct (Z.eqb_spec st KERNEL_SUCCESS) as [->|Hst]; cbn [negb].
  - unfold file_open. destruct (resolves_node s root _ _ r (proj1 Hok) (proj2 (proj2 Hok)) Hr eq_refl) as [n Hn].
    destruct (Z.eqb_spec r NULL) as [->|_]; [by apply Hok, no_nonnull in Hn |].
    destruct (ka_malloc sizeof_file (fheap s)) as [k file] eqn:Ek.
    destruct (Z.eqb_spec file NULL) as [->|Hf]; (eexists _, _, _; split; [reflexivity |]; right; exists r; split; [exact Hr |];
      exists k; rewrite Ek; split; [done |]; split; [done |]); [by left | by right].
  - exists s, NULL, st. split; [done |]. left. split_and!; try done.
    by rewrite <- (resolves_fail s root _ st r Hr Hst).
Qed.

(** [vfs_open] opens exactly the nodes that paths lead to: on success the new
    file is on the node, at position 0 and with one reference; when the path leads
    nowhere its status is returned and nothing changes, and when memory is short no
    file is added. *)
Theorem vfs_open_correct s root path (Hok : vfs_ok s root) (Hp : byte_list path) :
  exists s' file rc, vfs_open (Some path) s = Some (s', file, rc) /\
    ((rc <> KERNEL_SUCCESS /\ file = NULL /\ s' = s /\ resolves s root (split_path path) rc NULL) \/
     (exists r, resolves s root (split_path path) KERNEL_SUCCESS r /\ opened s r s' file rc)).
Proof. by apply open_spec. Qed.

Lemma vfs_call_file op s file f v buffer size :
  file <> NULL -> files s !! file = Some f -> nodes s !! f_node f = Some v -> f_node f <> NULL ->
  v_ops (vnode v) = ramfs_vnode_ops ->
  vfs_call op file buffer size s = op file buffer size s.
Proof.
  intros Hf0 Hf Hv Hn0 Ho. unfold vfs_call. destruct (Z.eqb_spec file NULL); [done |]. rewrite Hf. cbn [mbind option_bind].
  destruct (Z.eqb_spec (f_node f) NULL); [done |]. rewrite Hv. cbn [mbind option_bind].
  rewrite Ho. destruct (Z.eqb_spec ramfs_vnode_ops NULL) as [E|_]; [by apply vnode_ops_nonnull in E |].
  by rewrite Z.eqb_refl.
Qed.

(** The node of an open file of type [VNODE_FILE], and its contents. *)
Definition open_file s (L : gmap Z Z) (file np : Z) (f : file_t) (node : ramfs_node_t) (size : Z) : Prop :=
  writable s L file np f node size /\ v_size (vnode node) = size /\ data node <> NULL /\
  exists n, L !! data node = Some n /\ size <= n.

Lemma contents_resolves s s' np node size p cap d ns st r :
  nodes s !! np = Some node -> nodes s' = <[np := set_size size (set_data p cap node)]> (nodes s) ->
  resolves s d ns st r -> resolves s' d ns st r.
Proof.
  intros Hn Hs Hr. induction Hr; [constructor | econstructor; [done | | done] | constructor; [done |] | by constructor].
  - by apply (contents_entry s s' np node size p cap Hn Hs).
  - intros c Hc. apply (contents_entry s s' np node size p cap Hn Hs) in Hc. naive_solver.
Qed.

Lemma resolves_same s s' d ns st r : nodes s' = nodes s -> resolves s d ns st r -> resolves s' d ns st r.
Proof.
  intros Hs Hr. assert (He : forall d n c, entry s' d n c <-> entry s d n c) by (intros; unfold entry, kids, node_name; by rewrite Hs).
  induction Hr; [constructor | econstructor; [done | by apply He | done] | constructor; [done |] | by constructor].
  intros c Hc%He. naive_solver.
Qed.

Lemma vfs_ok_same s s' root :
  nodes s' = nodes s -> vfs_get_root s' = vfs_get_root s -> vfs_ok s root -> vfs_ok s' root.
Proof.
  intros Hs Hg (Hok & Hr & Hn). split_and!; [| congruence | congruence].
  intros q m Hq. rewrite Hs in Hq. destruct (Hok q m Hq). split; unfold kids, node_name in *; by rewrite ?Hs.
Qed.

Lemma contents_vfs s s' np node size p cap root :
  nodes s !! np = Some node -> nodes s' = <[np := set_size size (set_data p cap node)]> (nodes s) ->
  vfs_root_mount s' = vfs_root_mount s -> mounts s' = mounts s -> fss s' = fss s ->
  vfs_ok s root -> vfs_ok s' root.
Proof.
  intros Hn Hs Hr Hm Hf (Hok & Hg & Hd). split_and!.
  - by eapply contents_ok.
  - unfold vfs_get_root in *. by rewrite Hr, Hm, Hf.
  - by eapply contents_some.
Qed.

Lemma close_state file s : file <> NULL ->
  file_close file s = with_files (delete file (files s)) (with_fheap (ka_free file (fheap s)) s).
Proof. intros. unfold file_close. by destruct (Z.eqb_spec file NULL). Qed.

(** Opening a path to a file node with contents, once another file is closed. *)
Lemma reopen_spec `{!KAllocLaws K} s L root path file np node size sz :
  vfs_ok s root -> byte_list path -> resolves s root (split_path path) KERNEL_SUCCESS np ->
  ka_live (fheap s) L -> is_Some (L !! file) -> file <> NULL ->
  nodes s !! np = Some node -> v_private_data (vnode node) = np -> np <> NULL -> v_type (vnode node) = VNODE_FILE ->
  0 < size < 2 ^ 31 -> v_size (vnode node) = size -> data node <> NULL -> data node <> file ->
  L !! data node = Some sz -> size <= capacity node <= sz ->
  exists s2 file2 st2, vfs_open (Some path) (file_close file s) = Some (s2, file2, st2) /\
    (st2 <> KERNEL_SUCCESS \/
     exists L2, open_file s2 L2 file2 np (mk_file np 0 0 1) node size /\ fmem s2 = fmem s).
Proof.
  intros Hok Hp Hr Hlive [fsz Hfsz] Hf0 Hn Hpr Hn0 Ht Hs Hsz Hd0 Hdf Hd Hcap.
  rewrite (close_state file s Hf0).
  set (s1 := with_files _ _).
  assert (Hok1 : vfs_ok s1 root) by by apply (vfs_ok_same s s1 root).
  destruct (open_spec s1 root path Hok1 Hp) as (s2 & file2 & st2 & E2 & Ho). exists s2, file2, st2. split; [exact E2 |].
  destruct Ho as [(Hst & _)|(r & Hr2 & k & -> & Hk & Ho)]; [by left |].
  assert (r = np) as -> by (eapply (resolves_det s root); [apply Hok | exact Hr | by apply (resolves_same s1 s)]).
  destruct Ho as [(-> & _)|(-> & Hf20 & ->)]; [by left | right].
  pose proof (ka_free_spec _ _ _ _ Hlive Hfsz) as Hl2. change (ka_free file (fheap s)) with (fheap s1) in Hl2.
  destruct (ka_malloc sizeof_file (fheap s1)) as [k q] eqn:Ek. cbn [fst snd] in *. subst q.
  destruct (ka_malloc_spec _ _ sizeof_file _ _ Hl2 ltac:(unfold sizeof_file; lia) Ek) as [(-> & _)|(n2 & _ & Hn2 & _ & Hl3)]; [done |].
  exists (<[file2 := n2]> (delete file L)). split; [| done].
  assert (Hp2 : <[file2 := n2]> (delete file L) !! data node = Some sz).
  { rewrite lookup_insert_ne; [by rewrite lookup_delete_ne | intros ->]. rewrite lookup_delete_ne in Hn2 by done. congruence. }
  split_and!; [split; cbn | done | done | exists sz; split; [done | lia]].
  - by rewrite lookup_insert_eq.
  - done.
  - done.
  - done.
  - right. by exists sz.
Qed.

End files.

End Vfs.
