(* ===== verification/CpuTables.v ===== *)
(** * Descriptor tables: [cpu/gdt.c], [cpu/idt.c], [cpu/tss.c]

    The entries the kernel builds, and what the processor reads back from them:
    the base, limit and rights of a segment, the entry point of a gate, and the
    port permissions of the task state segment. *)
From S2P Require Import Prelude Memory.
Import Mem.
#[local] Open Scope Z_scope.

Module Cpu.

(** ** The global descriptor table *)
Record gdt_entry := mk_gdt_entry {
  limit_low : Z; base_low : Z; base_middle : Z; access : Z; granularity : Z; base_high : Z;
}.
Definition zero_entry : gdt_entry := mk_gdt_entry 0 0 0 0 0 0.

Definition KERNEL_CODE_SELECTOR : Z := 0x08.
Definition KERNEL_DATA_SELECTOR : Z := 0x10.
Definition USER_CODE_SELECTOR : Z := 0x18.
Definition USER_DATA_SELECTOR : Z := 0x20.
Definition TSS_SELECTR : Z := 0x28.

Definition gdt_set_entry (index base limit access granularity : Z) (gdt : list gdt_entry) : list gdt_entry :=
  <[Z.to_nat index := mk_gdt_entry
      (Z.land limit 0xFFFF)
      (Z.land base 0xFFFF) (Z.land (Z.shiftr base 16) 0xFF)
      access
      (Z.lor (Z.land (Z.shiftr limit 16) 0x0F) (Z.land granularity 0xF0))
      (Z.land (Z.shiftr base 24) 0xFF)]> gdt.

(** The packed structure over the 8 bytes of a 64-bit word, as [k_memcpy] leaves them. *)
Definition entry_of_word (w : Z) : gdt_entry :=
  mk_gdt_entry (Z.land w 0xFFFF) (Z.land (Z.shiftr w 16) 0xFFFF) (Z.land (Z.shiftr w 32) 0xFF)
    (Z.land (Z.shiftr w 40) 0xFF) (Z.land (Z.shiftr w 48) 0xFF) (Z.land (Z.shiftr w 56) 0xFF).

Definition gdt_set_tss_descriptor (index base limit : Z) (gdt : list gdt_entry) : list gdt_entry :=
  let descriptor_low := Z.land limit 0xFFFF in
  let descriptor_low := Z.lor descriptor_low (Z.shiftl (Z.land base 0xFFFFFF) 16) in
  let descriptor_low := Z.lor descriptor_low (Z.shiftl 0x89 40) in
  let descriptor_low := Z.lor descriptor_low (Z.shiftl (Z.land (Z.shiftr limit 16) 0xF) 48) in
  let descriptor_low := Z.lor descriptor_low (Z.shiftl (Z.land (Z.shiftr base 24) 0xFF) 56) in
  let descriptor_high := Z.shiftr base 32 in
  <[Z.to_nat (index + 1) := entry_of_word descriptor_high]> (<[Z.to_nat index := entry_of_word descriptor_low]> gdt).

Definition sizeof_tss : Z := 104.

(** The descriptor register: the limit and the address of the table. *)
Record gdt_descriptor := mk_gdtr { gdtr_limit : Z; gdtr_base : Z }.

(** [gdt_init], with the addresses of [gdt] and [kernel_tss]. *)
Definition gdt_init (gdt_address kernel_tss : Z) (gdt : list gdt_entry) : list gdt_entry * gdt_descriptor :=
  let gdt := gdt_set_entry 0 0 0 0 0 gdt in
  let gdt := gdt_set_entry 1 0 0xFFFFF 0x9A 0xA0 gdt in
  let gdt := gdt_set_entry 2 0 0xFFFFF 0x92 0xA0 gdt in
  let gdt := gdt_set_entry 3 0 0xFFFFF 0xFA 0xA0 gdt in
  let gdt := gdt_set_entry 4 0 0xFFFFF 0xF2 0xA0 gdt in
  let gdt := gdt_set_tss_descriptor 5 kernel_tss (sizeof_tss - 1) gdt in
  (gdt, mk_gdtr (7 * 8 - 1) gdt_address).

(** ** The interrupt descriptor table *)
Record idt_entry := mk_idt_entry {
  offset_low : Z; selector : Z; ist : Z; type_attributes : Z; offset_middle : Z; offset_high : Z; zero : Z;
}.
Definition zero_gate : idt_entry := mk_idt_entry 0 0 0 0 0 0 0.

Definition ISR_VECTOR_COUNT : Z := 48.

Definition idt_set_gate (vector handler selector type_attributes : Z) (idt : list idt_entry) : list idt_entry :=
  let address := handler in
  <[Z.to_nat vector := mk_idt_entry (Z.land address 0xFFFF) selector 0 type_attributes
      (Z.land (Z.shiftr address 16) 0xFFFF) (Z.land (Z.shiftr address 32) 0xFFFFFFFF) 0]> idt.

(** [isr_table]: the addresses of the entry points [isr0] to [isr47]. *)
Definition idt_init (isr_table : list Z) (idt : list idt_entry) : list idt_entry :=
  for_to 0 ISR_VECTOR_COUNT (fun vector idt =>
    idt_set_gate vector (default 0 (isr_table !! Z.to_nat vector)) 0x08 0x8E idt) idt.

(** ** The task state segment *)
Record tss_t := mk_tss { rsp0 : Z; rsp1 : Z; rsp2 : Z; ists : list Z; iomap_base : Z }.

(** The static object, zero before anything runs. *)
Definition zero_tss : tss_t := mk_tss 0 0 0 (replicate 7 0) 0.
Definition tss_init (t : tss_t) : tss_t := mk_tss 0 0 0 (replicate 7 0) sizeof_tss.
Definition tss_set_rsp0 (v : Z) (t : tss_t) : tss_t := mk_tss v (rsp1 t) (rsp2 t) (ists t) (iomap_base t).

(** ** What the processor reads *)
Record segment := mk_segment {
  seg_base : Z; seg_limit : Z;      (** in bytes or pages, by [seg_flags] *)
  seg_access : Z;                   (** present, privilege, type *)
  seg_flags : Z;                    (** granularity, default size, long mode *)
}.
Definition decode (e : gdt_entry) : segment :=
  mk_segment (base_low e + 2 ^ 16 * base_middle e + 2 ^ 24 * base_high e)
    (limit_low e + 2 ^ 16 * (granularity e mod 16)) (access e) (granularity e / 16).

(** A system descriptor takes two entries; the second holds the upper half of the base. *)
Definition decode_system (e f : gdt_entry) : segment :=
  let s := decode e in
  mk_segment (seg_base s + 2 ^ 32 * (limit_low f + 2 ^ 16 * base_low f)) (seg_limit s) (seg_access s) (seg_flags s).

Definition segment_at (selector : Z) (gdt : list gdt_entry) : option segment := decode <$> gdt !! Z.to_nat (selector / 8).

Definition gate_address (e : idt_entry) : Z := offset_low e + 2 ^ 16 * offset_middle e + 2 ^ 32 * offset_high e.

(** ** Bit fields *)
Lemma land_mod x n : 0 <= n -> Z.land x (2 ^ n - 1) = x mod 2 ^ n.
Proof. intros. rewrite Z.sub_1_r, <- Z.ones_equiv. by apply Z.land_ones. Qed.

Lemma lor_shiftl_add a b n : 0 <= n -> 0 <= a < 2 ^ n -> Z.lor a (Z.shiftl b n) = a + b * 2 ^ n.
Proof.
  intros Hn Ha. assert (Hz : Z.land a (Z.shiftl b n) = 0).
  { apply Z.bits_inj'. intros k Hk. rewrite Z.land_spec, Z.testbit_0_l. destruct (Z.lt_ge_cases k n).
    - rewrite Z.shiftl_spec_low by lia. apply andb_false_r.
    - rewrite <- (Z.mod_small a (2 ^ n)) by lia. by rewrite testbit_mod_pow2_high by lia. }
  rewrite <- Z.shiftl_mul_pow2 by lia. rewrite Z.add_nocarry_lxor by done. symmetry. by apply Z.lxor_lor.
Qed.

(** The low and high halves of a byte put together by [|]. *)
Lemma nibbles a g : 0 <= a < 16 -> 0 <= g < 256 -> Z.lor a (Z.land g 0xF0) = a + 16 * (g / 16).
Proof.
  intros Ha Hg. replace (Z.land g 0xF0) with (Z.shiftl (g / 16) 4).
  - rewrite (lor_shiftl_add a _ 4) by lia. lia.
  - change 0xF0 with (Z.shiftl (2 ^ 4 - 1) 4). replace (g / 16) with (Z.shiftr g 4) by (by rewrite Z.shiftr_div_pow2 by lia).
    apply Z.bits_inj'. intros k Hk. rewrite Z.land_spec. destruct (Z.lt_ge_cases k 4).
    + by rewrite !Z.shiftl_spec_low, andb_false_r by lia.
    + rewrite !Z.shiftl_spec, Z.shiftr_spec by lia. replace (k - 4 + 4) with k by lia.
      change (2 ^ 4 - 1) with (Z.ones 4). destruct (Z.lt_ge_cases k 8).
      * by rewrite Z.ones_spec_low, andb_true_r by lia.
      * rewrite Z.ones_spec_high, andb_false_r by lia. rewrite <- (Z.mod_small g (2 ^ 8)) by lia. by apply testbit_mod_pow2_high.
Qed.

(** Masks and shifts as quotients and remainders. *)
Ltac fields :=
  change 0xFFFFFFFF with (2 ^ 32 - 1) in *; change 0xFFFFFF with (2 ^ 24 - 1) in *; change 0xFFFF with (2 ^ 16 - 1) in *;
  change 0xFF with (2 ^ 8 - 1) in *; change 0x0F with (2 ^ 4 - 1) in *;
  rewrite ?land_mod, ?Z.shiftr_div_pow2 by lia.

(** ** The descriptors decoded *)
Lemma set_entry_decode index base limit access gran gdt :
  0 <= index -> (Z.to_nat index < length gdt)%nat -> 0 <= base < 2 ^ 32 -> 0 <= limit < 2 ^ 20 -> 0 <= gran < 256 ->
  decode <$> gdt_set_entry index base limit access gran gdt !! Z.to_nat index =
  Some (mk_segment base limit access (gran / 16)).
Proof.
  intros Hi Hl Hb Hlim Hg. unfold gdt_set_entry. rewrite list_lookup_insert_eq by done. cbn [fmap option_fmap option_map]. f_equal.
  unfold decode; cbn [base_low base_middle base_high limit_low granularity Cpu.access]. rewrite nibbles by (fields; word_lia).
  fields. f_equal; Z.div_mod_to_equations; lia.
Qed.

Lemma set_entry_other index base limit access gran gdt k : k <> Z.to_nat index ->
  gdt_set_entry index base limit access gran gdt !! k = gdt !! k.
Proof. intros. unfold gdt_set_entry. by rewrite list_lookup_insert_ne. Qed.

(** The fields of a descriptor put together from its parts. *)
Lemma word_fields l b a k h : 0 <= l < 2 ^ 16 -> 0 <= b < 2 ^ 24 -> 0 <= a < 2 ^ 8 -> 0 <= k < 2 ^ 8 -> 0 <= h < 2 ^ 8 ->
  entry_of_word (l + b * 2 ^ 16 + a * 2 ^ 40 + k * 2 ^ 48 + h * 2 ^ 56) =
  mk_gdt_entry l (b mod 2 ^ 16) (b / 2 ^ 16) a k h.
Proof.
  intros. unfold entry_of_word. fields. set (w := l + b * 2 ^ 16 + a * 2 ^ 40 + k * 2 ^ 48 + h * 2 ^ 56).
  assert (E1 : w / 2 ^ 16 = b + a * 2 ^ 24 + k * 2 ^ 32 + h * 2 ^ 40)
    by (symmetry; apply (Z.div_unique _ _ _ l); unfold w; lia).
  assert (E2 : w / 2 ^ 32 = b / 2 ^ 16 + a * 2 ^ 8 + k * 2 ^ 16 + h * 2 ^ 24).
  { change (2 ^ 32) with (2 ^ 16 * 2 ^ 16). rewrite <- Z.div_div, E1 by lia. pose proof (Z.div_mod b (2 ^ 16)). pose proof (Z.mod_pos_bound b (2 ^ 16)).
    symmetry. apply (Z.div_unique _ _ _ (b mod 2 ^ 16)); lia. }
  assert (Hb : 0 <= b / 2 ^ 16 < 2 ^ 8) by (split; [apply Z.div_pos | apply Z.div_lt_upper_bound]; lia).
  assert (E3 : w / 2 ^ 40 = a + k * 2 ^ 8 + h * 2 ^ 16).
  { change (2 ^ 40) with (2 ^ 32 * 2 ^ 8). rewrite <- Z.div_div, E2 by lia. symmetry. apply (Z.div_unique _ _ _ (b / 2 ^ 16)); lia. }
  assert (E4 : w / 2 ^ 48 = k + h * 2 ^ 8).
  { change (2 ^ 48) with (2 ^ 40 * 2 ^ 8). rewrite <- Z.div_div, E3 by lia. symmetry. apply (Z.div_unique _ _ _ a); lia. }
  assert (E5 : w / 2 ^ 56 = h).
  { change (2 ^ 56) with (2 ^ 48 * 2 ^ 8). rewrite <- Z.div_div, E4 by lia. symmetry. apply (Z.div_unique _ _ _ k); lia. }
  rewrite E1, E2, E3, E4, E5. f_equal; symmetry.
  - apply (Z.mod_unique _ _ (b + a * 2 ^ 24 + k * 2 ^ 32 + h * 2 ^ 40)); unfold w; lia.
  - pose proof (Z.div_mod b (2 ^ 16)). pose proof (Z.mod_pos_bound b (2 ^ 16)).
    apply (Z.mod_unique _ _ (b / 2 ^ 16 + a * 2 ^ 8 + k * 2 ^ 16 + h * 2 ^ 24)); lia.
  - apply (Z.mod_unique _ _ (a + k * 2 ^ 8 + h * 2 ^ 16)); lia.
  - apply (Z.mod_unique _ _ (k + h * 2 ^ 8)); lia.
  - apply (Z.mod_unique _ _ h); lia.
  - symmetry; apply Z.mod_small; lia.
Qed.

Lemma tss_decode index base limit gdt :
  0 <= index -> (Z.to_nat index + 1 < length gdt)%nat -> 0 <= base < 2 ^ 64 -> 0 <= limit < 2 ^ 20 ->
  exists e f, gdt_set_tss_descriptor index base limit gdt !! Z.to_nat index = Some e /\
    gdt_set_tss_descriptor index base limit gdt !! Z.to_nat (index + 1) = Some f /\
    decode_system e f = mk_segment base limit 0x89 0.
Proof.
  intros Hi Hl Hb Hlim. unfold gdt_set_tss_descriptor.
  eexists _, _. rewrite list_lookup_insert_ne, list_lookup_insert_eq by lia. split; [done |].
  rewrite list_lookup_insert_eq by (rewrite length_insert; lia). split; [done |].
  fields.
  pose proof (Z.mod_pos_bound limit (2 ^ 16) ltac:(lia)). pose proof (Z.mod_pos_bound base (2 ^ 24) ltac:(lia)).
  pose proof (Z.mod_pos_bound (limit / 2 ^ 16) (2 ^ 4) ltac:(lia)).
  rewrite (lor_shiftl_add _ _ 16), (lor_shiftl_add _ _ 40), (lor_shiftl_add _ _ 48), (lor_shiftl_add _ _ 56) by lia.
  pose proof (Z.mod_pos_bound (base / 2 ^ 24) (2 ^ 8) ltac:(lia)). rewrite word_fields by lia.
  unfold decode_system, decode, entry_of_word; cbn [base_low base_middle base_high limit_low granularity Cpu.access seg_base seg_limit seg_access seg_flags].
  fields. f_equal.
  - assert (base / 2 ^ 24 / 2 ^ 8 = base / 2 ^ 32) by (rewrite Z.div_div by lia; done).
    assert (0 <= base / 2 ^ 32 < 2 ^ 32) by (split; [apply Z.div_pos | apply Z.div_lt_upper_bound]; lia).
    pose proof (Z.div_mod base (2 ^ 24)). pose proof (Z.div_mod (base / 2 ^ 24) (2 ^ 8)).
    pose proof (Z.div_mod (base mod 2 ^ 24) (2 ^ 16)). pose proof (Z.div_mod (base / 2 ^ 32) (2 ^ 16)).
    rewrite (Z.mod_small (base / 2 ^ 32 / 2 ^ 16)) by (split; [apply Z.div_pos | apply Z.div_lt_upper_bound]; lia). lia.
  - assert (0 <= limit / 2 ^ 16 < 2 ^ 4) by (split; [apply Z.div_pos | apply Z.div_lt_upper_bound]; lia).
    pose proof (Z.div_mod limit (2 ^ 16)). change 16 with (2 ^ 4) at 3. rewrite Z.mod_mod, (Z.mod_small (limit / 2 ^ 16)) by lia. lia.
  - apply Z.div_small. lia.
Qed.

(** C36: after gdt_init every selector names the segment it stands for: flat 64-bit
    code and data for the kernel (privilege 0) and for users (privilege 3), and
    the task state segment at its address, whatever that is; nothing is read
    beyond the limit given to the processor. *)
Theorem gdt_init_correct address kernel_tss gdt (Hl : length gdt = 7%nat) (Ht : 0 <= kernel_tss < 2 ^ 64) :
  let '(gdt', gdtr) := gdt_init address kernel_tss gdt in
  segment_at 0 gdt' = Some (mk_segment 0 0 0 0) /\
  segment_at KERNEL_CODE_SELECTOR gdt' = Some (mk_segment 0 0xFFFFF 0x9A 0xA) /\
  segment_at KERNEL_DATA_SELECTOR gdt' = Some (mk_segment 0 0xFFFFF 0x92 0xA) /\
  segment_at (USER_CODE_SELECTOR + 3) gdt' = Some (mk_segment 0 0xFFFFF 0xFA 0xA) /\
  segment_at (USER_DATA_SELECTOR + 3) gdt' = Some (mk_segment 0 0xFFFFF 0xF2 0xA) /\
  (exists e f, gdt' !! Z.to_nat (TSS_SELECTR / 8) = Some e /\ gdt' !! S (Z.to_nat (TSS_SELECTR / 8)) = Some f /\
     decode_system e f = mk_segment kernel_tss 103 0x89 0) /\
  gdtr = mk_gdtr (8 * Z.of_nat (length gdt') - 1) address.
Proof.
  unfold gdt_init. set (g := gdt_set_entry 4 _ _ _ _ _).
  assert (Hg : length g = 7%nat) by (unfold g, gdt_set_entry; by rewrite !length_insert).
  destruct (tss_decode 5 kernel_tss (sizeof_tss - 1) g) as (e & f & He & Hf & Hd); [lia | rewrite Hg; cbn; lia | lia | unfold sizeof_tss; lia |].
  assert (Hk : forall k, (k < 5)%nat -> gdt_set_tss_descriptor 5 kernel_tss (sizeof_tss - 1) g !! k = g !! k).
  { intros k Hk. unfold gdt_set_tss_descriptor. rewrite !list_lookup_insert_ne by lia. done. }
  unfold segment_at. rewrite !Hk by (vm_compute; lia).
  destruct gdt as [|g0 [|g1 [|g2 [|g3 [|g4 [|g5 [|g6 [|]]]]]]]]; try discriminate Hl. subst g.
  do 5 (split; [reflexivity |]). split; [by exists e, f |]. reflexivity.
Qed.

Lemma gate_decode v h sel ty idt : (Z.to_nat v < length idt)%nat -> 0 <= h < 2 ^ 64 ->
  exists e, idt_set_gate v h sel ty idt !! Z.to_nat v = Some e /\ gate_address e = h /\ selector e = sel /\ type_attributes e = ty /\ ist e = 0.
Proof.
  intros Hv Hh. unfold idt_set_gate. eexists. rewrite list_lookup_insert_eq by done. split; [done |].
  split; [| done]. unfold gate_address; cbn [offset_low offset_middle offset_high]. fields.
  rewrite (Z.mod_small (h / 2 ^ 32)) by (split; [apply Z.div_pos | apply Z.div_lt_upper_bound]; lia).
  assert (h / 2 ^ 16 / 2 ^ 16 = h / 2 ^ 32) by (rewrite Z.div_div by lia; done).
  pose proof (Z.div_mod h (2 ^ 16)). pose proof (Z.div_mod (h / 2 ^ 16) (2 ^ 16)). lia.
Qed.

(** after idt_init the gate of every vector below 48 leads to its entry in
    isr_table, whatever its address, through the kernel's code segment and with
    interrupts off; the other vectors stay absent. *)
Theorem idt_init_correct isr_table idt (Hl : length idt = 256%nat) (Ht : length isr_table = 48%nat)
    (Ha : Forall (fun a => 0 <= a < 2 ^ 64) isr_table) :
  length (idt_init isr_table idt) = 256%nat /\
  (forall v, 0 <= v < 48 -> exists e, idt_init isr_table idt !! Z.to_nat v = Some e /\
     isr_table !! Z.to_nat v = Some (gate_address e) /\ selector e = KERNEL_CODE_SELECTOR /\ type_attributes e = 0x8E) /\
  (forall v, (48 <= v)%nat -> idt_init isr_table idt !! v = idt !! v).
Proof.
  unfold idt_init, ISR_VECTOR_COUNT.
  pose proof (for_to_inv (fun j t => length t = 256%nat /\
    (forall v, 0 <= v < j -> exists e, t !! Z.to_nat v = Some e /\ isr_table !! Z.to_nat v = Some (gate_address e) /\
       selector e = KERNEL_CODE_SELECTOR /\ type_attributes e = 0x8E) /\
    (forall v, (48 <= v)%nat -> t !! v = idt !! v)) 0 48
    (fun vector t => idt_set_gate vector (default 0 (isr_table !! Z.to_nat vector)) 0x08 0x8E t) idt) as H.
  apply H; [lia | split; [done |]; split; [lia | done] |]. clear H. intros j t Hj (H1 & H2 & H3).
  destruct (lookup_lt_is_Some_2 isr_table (Z.to_nat j)) as [a Ea]; [lia |]. rewrite Ea. cbn [default].
  pose proof (proj1 (Forall_lookup _ _) Ha _ _ Ea) as Hra.
  destruct (gate_decode j a 0x08 0x8E t) as (e & He & Hga & Hs & Hty & _); [lia | done |].
  split; [unfold idt_set_gate; by rewrite length_insert |]. split.
  - intros v Hv. destruct (decide (v = j)) as [->|Hne]; [exists e; by rewrite Hga |].
    destruct (H2 v ltac:(lia)) as (e' & He' & Hr). exists e'. split; [| done].
    unfold idt_set_gate. by rewrite list_lookup_insert_ne by lia.
  - intros v Hv. rewrite <- (H3 v Hv). unfold idt_set_gate. by rewrite list_lookup_insert_ne by lia.
Qed.

(** ** Port permissions

    A program at privilege 3 may use a port when its bit in the map at
    [iomap_base] is clear; the processor reads the two bytes from the bit's byte
    on, and refuses when they do not lie within the segment's limit. *)
Fixpoint le_bytes (n : nat) (v : Z) : list Z := match n with O => [] | S n' => u8 v :: le_bytes n' (v / 256) end.

(** The packed structure in memory. *)
Definition tss_bytes (t : tss_t) : list Z :=
  le_bytes 4 0 ++ le_bytes 8 (rsp0 t) ++ le_bytes 8 (rsp1 t) ++ le_bytes 8 (rsp2 t) ++ le_bytes 8 0 ++
  concat (le_bytes 8 <$> ists t) ++ le_bytes 8 0 ++ le_bytes 2 0 ++ le_bytes 2 (iomap_base t).

Definition port_allowed (t : tss_t) (limit port : Z) : bool :=
  let b := iomap_base t + port / 8 in
  (b + 1 <=? limit) && negb (Z.testbit (default 0 (tss_bytes t !! Z.to_nat b)) (port mod 8)).

(** a task state segment that tss_init prepared denies every port to user
    programs, whichever kernel stacks it is given; the one gdt_init publishes
    without that call, as the kernel does, allows the ports of the keyboard
    controller. *)
Theorem tss_denies_ports v port (Hp : 0 <= port < 2 ^ 16) :
  port_allowed (tss_set_rsp0 v (tss_init zero_tss)) (sizeof_tss - 1) port = false /\
  port_allowed (tss_set_rsp0 v zero_tss) (sizeof_tss - 1) 0x60 = true /\
  port_allowed (tss_set_rsp0 v zero_tss) (sizeof_tss - 1) 0x64 = true.
Proof.
  split; [| split; reflexivity]. unfold port_allowed, sizeof_tss; cbn [iomap_base tss_set_rsp0 tss_init].
  assert (0 <= port / 8) by (apply Z.div_pos; lia). by rewrite (proj2 (Z.leb_gt _ _)) by (unfold sizeof_tss; lia).
Qed.

(** ** Witnesses *)
Lemma gdt_init_correct_witness :
  length (replicate 7 zero_entry) = 7%nat /\
  exists e f, fst (gdt_init 0x1000 0xFFFFFFFF80012345 (replicate 7 zero_entry)) !! 5%nat = Some e /\
    fst (gdt_init 0x1000 0xFFFFFFFF80012345 (replicate 7 zero_entry)) !! 6%nat = Some f /\
    decode_system e f = mk_segment 0xFFFFFFFF80012345 103 0x89 0.
Proof.
  split; [reflexivity |].
  pose proof (gdt_init_correct 0x1000 0xFFFFFFFF80012345 (replicate 7 zero_entry) eq_refl ltac:(lia)) as H.
  destruct (gdt_init _ _ _) as [g r]. destruct H as (_ & _ & _ & _ & _ & H & _). exact H.
Defined.

Lemma idt_init_correct_witness :
  Forall (fun a => 0 <= a < 2 ^ 64) (replicate 48 0xFFFFFFFF80001000) /\
  exists e, idt_init (replicate 48 0xFFFFFFFF80001000) (replicate 256 zero_gate) !! 33%nat = Some e /\
    gate_address e = 0xFFFFFFFF80001000.
Proof.
  assert (Hf : Forall (fun a => 0 <= a < 2 ^ 64) (replicate 48 0xFFFFFFFF80001000)) by (apply Forall_replicate; lia).
  split; [exact Hf |].
  destruct (idt_init_correct (replicate 48 0xFFFFFFFF80001000) (replicate 256 zero_gate) eq_refl eq_refl Hf) as (_ & H & _).
  destruct (H 33 ltac:(lia)) as (e & He & Ha & _). exists e. split; [exact He |]. rewrite lookup_replicate_2 in Ha by lia. congruence.
Defined.

Lemma tss_denies_ports_witness : port_allowed (tss_set_rsp0 0xFFFF900000004000 (tss_init zero_tss)) (sizeof_tss - 1) 0x60 = false.
Proof. apply (tss_denies_ports 0xFFFF900000004000 0x60). lia. Defined.
End Cpu.
