(* ===== verification/Hardware.v ===== *)
(** * Port input and output: [hal/io.c], [hal/pic.c], [hal/pit.c], [hal/apic.c]

    The devices are outside the kernel: [PortIO] has the two instructions the
    kernel uses, [Bus] what it relies on.  A bus is observed through the sequence
    of bytes written to it; the two interrupt controllers are what their data
    sheet makes of that sequence ([chip]). *)
From S2P Require Import Prelude.
#[local] Open Scope Z_scope.

Class PortIO (D : Type) := {
  inb : Z -> D -> Z * D;
  outb : Z -> Z -> D -> D;
}.

Module Hal.

Definition PIC1_COMMAND : Z := 0x20.
Definition PIC1_DATA : Z := 0x21.
Definition PIC2_COMMAND : Z := 0xA0.
Definition PIC2_DATA : Z := 0xA1.
Definition PIT_CHANNEL0 : Z := 0x40.
Definition PIT_COMMAND : Z := 0x43.
Definition KEYBOARD_DATA : Z := 0x60.
Definition KEYBOARD_STATUS : Z := 0x64.
Definition KEYBOARD_COMMAND : Z := 0x64.

Definition PIC_PRIMARY_VECTOR : Z := 32.
Definition PIC_SECONDARY_VECTOR : Z := 40.
Definition PIC_ICW1_ICW4 : Z := 0x01.
Definition PIC_ICW1_INIT : Z := 0x10.
Definition PIC_ICW4_8086 : Z := 0x01.
Definition PIC_EOI : Z := 0x20.

Definition PIT_DEFAULT_FREQUENCY_HZ : Z := 100.
Definition PIT_MODE_SQUARE : Z := 0x36.

Section hal.
Context {D : Type} `{PortIO D}.
Implicit Types d : D.

Definition io_wait d : D := outb 0x80 0 d.

(** ** [hal/pic.c] *)

(** A shift by 32 or more has no defined result in C. *)
Definition pic_set_irq_mask (irq_line : Z) (masked : bool) d : option D :=
  let '(data_port, irq_bit) := if irq_line <? 8 then (PIC1_DATA, irq_line) else (PIC2_DATA, u8 (irq_line - 8)) in
  let '(mask, d) := inb data_port d in
  if irq_bit >=? 32 then None
  else
    let mask := if masked then u8 (Z.lor mask (u8 (Z.shiftl 1 irq_bit)))
                else Z.land mask (u8 (Z.lnot (Z.shiftl 1 irq_bit))) in
    Some (outb data_port mask d).

Definition pic_remap (master_offset slave_offset : Z) d : D :=
  let '(master_mask, d) := inb PIC1_DATA d in
  let '(slave_mask, d) := inb PIC2_DATA d in
  let d := io_wait (outb PIC1_COMMAND (Z.lor PIC_ICW1_INIT PIC_ICW1_ICW4) d) in
  let d := io_wait (outb PIC2_COMMAND (Z.lor PIC_ICW1_INIT PIC_ICW1_ICW4) d) in
  let d := io_wait (outb PIC1_DATA master_offset d) in
  let d := io_wait (outb PIC2_DATA slave_offset d) in
  let d := io_wait (outb PIC1_DATA 0x04 d) in
  let d := io_wait (outb PIC2_DATA 0x02 d) in
  let d := io_wait (outb PIC1_DATA PIC_ICW4_8086 d) in
  let d := io_wait (outb PIC2_DATA PIC_ICW4_8086 d) in
  outb PIC2_DATA slave_mask (outb PIC1_DATA master_mask d).

Definition pic_mask_all d : D := outb PIC2_DATA 0xFF (outb PIC1_DATA 0xFF d).
Definition pic_mask_irq (irq_line : Z) d : option D := pic_set_irq_mask irq_line true d.
Definition pic_unmask_irq (irq_line : Z) d : option D := pic_set_irq_mask irq_line false d.

Definition pic_send_eoi (irq_line : Z) d : D :=
  let d := if irq_line >=? 8 then outb PIC2_COMMAND PIC_EOI d else d in
  outb PIC1_COMMAND PIC_EOI d.

Definition pic_init d : D := pic_mask_all (pic_remap PIC_PRIMARY_VECTOR PIC_SECONDARY_VECTOR d).

(** ** [hal/pit.c] *)
Definition pit_program (frequency_hz : Z) d : D :=
  let frequency_hz := if frequency_hz =? 0 then PIT_DEFAULT_FREQUENCY_HZ else frequency_hz in
  let divisor := 1193182 / frequency_hz in
  let divisor := if divisor =? 0 then 1 else divisor in
  outb PIT_CHANNEL0 (Z.land (Z.shiftr divisor 8) 0xFF)
    (outb PIT_CHANNEL0 (Z.land divisor 0xFF) (outb PIT_COMMAND PIT_MODE_SQUARE d)).
End hal.

(** ** [hal/apic.c]: the base register as read and written by [rdmsr] and [wrmsr] *)
Definition IA32_APIC_BASE_MSR : Z := 0x1B.
Definition IA32_APIC_BASE_ENABLE : Z := Z.shiftl 1 11.
Definition IA32_APIC_BASE_X2APIC : Z := Z.shiftl 1 10.

Definition apic_disable {M : Type} (rdmsr : Z -> M -> Z * Z) (wrmsr : Z -> Z -> Z -> M -> M) (m : M) : M :=
  let '(low, high) := rdmsr IA32_APIC_BASE_MSR m in
  let apic_base := Z.lor (Z.shiftl high 32) low in
  let apic_base := Z.land apic_base (u64 (Z.lnot (Z.lor IA32_APIC_BASE_ENABLE IA32_APIC_BASE_X2APIC))) in
  wrmsr IA32_APIC_BASE_MSR (u32 (Z.land apic_base 0xFFFFFFFF)) (u32 (Z.shiftr apic_base 32)) m.

(** ** The interrupt controllers (8259A), as the bytes written make them

    [icw]: which initialisation word a chip expects next, 0 when it takes
    operation words. *)
Record chip_t := mk_chip { imr : Z; vector_base : Z; icw : Z }.

Inductive side := Master | Slave.
#[global] Instance side_eq_dec : EqDecision side.
Proof. solve_decision. Defined.
Definition command_port (s : side) : Z := match s with Master => PIC1_COMMAND | Slave => PIC2_COMMAND end.
Definition data_port (s : side) : Z := match s with Master => PIC1_DATA | Slave => PIC2_DATA end.

Definition chip_write (s : side) (c : chip_t) (w : Z * Z) : chip_t :=
  let '(port, v) := w in
  if port =? command_port s then (if Z.testbit v 4 then mk_chip 0 (vector_base c) 2 else c)
  else if port =? data_port s then
    if icw c =? 0 then mk_chip (u8 v) (vector_base c) 0
    else if icw c =? 2 then mk_chip (imr c) (8 * (u8 v / 8)) 3
    else if icw c =? 3 then mk_chip (imr c) (vector_base c) 4
    else mk_chip (imr c) (vector_base c) 0
  else c.

Definition chip (s : side) (writes : list (Z * Z)) : chip_t := foldl (chip_write s) (mk_chip 0 0 0) writes.

(** Whether a line is masked. *)
Definition side_of (line : Z) : side := if line <? 8 then Master else Slave.
Definition masked (writes : list (Z * Z)) (line : Z) : bool := Z.testbit (imr (chip (side_of line) writes)) (line mod 8).

Class Bus (D : Type) `{PortIO D} := {
  log : D -> list (Z * Z);
  log_outb p v d : log (outb p v d) = log d ++ [(p, v)];
  log_inb p d : log (snd (inb p d)) = log d;
  inb_byte p d : 0 <= fst (inb p d) < 256;
  inb_imr s d : icw (chip s (log d)) = 0 -> fst (inb (data_port s) d) = imr (chip s (log d));
}.

Lemma chip_snoc s l w : chip s (l ++ [w]) = chip_write s (chip s l) w.
Proof. unfold chip. by rewrite foldl_app. Qed.

Lemma imr_range s l : 0 <= imr (chip s l) < 256.
Proof.
  induction l as [|[p v] l IH] using rev_ind; [done |]. rewrite chip_snoc. cbn. pose proof (u8_range v).
  repeat case_match; cbn; done || lia.
Qed.

Section laws.
Context {D : Type} `{Bus D}.
Implicit Types d : D.

Lemma inb_pair p d : exists v d', inb p d = (v, d') /\ log d' = log d /\ 0 <= v < 256 /\
  forall s, p = data_port s -> icw (chip s (log d)) = 0 -> v = imr (chip s (log d)).
Proof.
  destruct (inb p d) as [v d'] eqn:E. exists v, d'. split; [done |]. split; [by rewrite <- (log_inb p d), E |].
  split; [pose proof (inb_byte p d) as Hb; by rewrite E in Hb |]. intros s -> Hs. rewrite <- (inb_imr s d Hs). by rewrite E.
Qed.

Lemma eoi_log line d : log (pic_send_eoi line d) =
  log d ++ (if line >=? 8 then [(PIC2_COMMAND, PIC_EOI)] else []) ++ [(PIC1_COMMAND, PIC_EOI)].
Proof. unfold pic_send_eoi. destruct (line >=? 8); rewrite !log_outb; by rewrite <- ?app_assoc. Qed.

(** An end of interrupt leaves the masks alone. *)
Lemma eoi_chip line d s : chip s (log (pic_send_eoi line d)) = chip s (log d).
Proof.
  rewrite eoi_log. destruct (line >=? 8); cbn [app]; [rewrite (app_assoc (log d) [_] [_] : log d ++ [_; _] = _), !chip_snoc | rewrite chip_snoc];
    by destruct s.
Qed.

(** pic_init leaves both controllers ready, with all sixteen lines masked and
    with the interrupt vectors 32 to 39 and 40 to 47, in whatever state it finds
    them; pit_program loads the divisor of the frequency, cut to 16 bits. *)
Theorem pic_init_correct d hz (Hhz : 0 <= hz < 2 ^ 32) :
  chip Master (log (pic_init d)) = mk_chip 0xFF 32 0 /\ chip Slave (log (pic_init d)) = mk_chip 0xFF 40 0 /\
  (forall line, 0 <= line < 16 -> masked (log (pic_init d)) line = true) /\
  exists lo hi, log (pit_program hz d) = log d ++ [(PIT_COMMAND, 0x36); (PIT_CHANNEL0, lo); (PIT_CHANNEL0, hi)] /\
    lo + 256 * hi = (if decide (hz = 0) then 11931 else Z.max 1 (1193182 / hz)) mod 2 ^ 16.
Proof.
  assert (Hc : forall s, chip s (log (pic_init d)) = mk_chip 0xFF (match s with Master => 32 | Slave => 40 end) 0).
  { intros s. unfold pic_init, pic_mask_all, pic_remap, io_wait.
    destruct (inb_pair PIC1_DATA d) as (v1 & d1 & -> & E1 & _). destruct (inb_pair PIC2_DATA d1) as (v2 & d2 & -> & E2 & _).
    rewrite !log_outb, !chip_snoc. destruct s; reflexivity. }
  split; [apply (Hc Master) |]. split; [apply (Hc Slave) |]. split.
  - intros line Hl. unfold masked. rewrite Hc. cbn [imr]. change 0xFF with (Z.ones 8). apply Z.ones_spec_low. pose proof (Z.mod_pos_bound line 8). lia.
  - unfold pit_program. eexists _, _. rewrite !log_outb, <- !app_assoc. split; [done |].
    change 255 with (Z.ones 8). rewrite !Z.land_ones, Z.shiftr_div_pow2 by lia. unfold PIT_DEFAULT_FREQUENCY_HZ.
    destruct (Z.eqb_spec hz 0) as [->|Hne].
    + rewrite decide_True by done. reflexivity.
    + rewrite decide_False by done. assert (0 <= 1193182 / hz) by (apply Z.div_pos; lia).
      replace (if 1193182 / hz =? 0 then 1 else 1193182 / hz) with (Z.max 1 (1193182 / hz)) by (destruct (Z.eqb_spec (1193182 / hz) 0); lia).
      generalize (Z.max 1 (1193182 / hz)). intros n. change (2 ^ 16) with (2 ^ 8 * 2 ^ 8). rewrite Z.rem_mul_r by lia. done.
Qed.

Lemma set_mask_log line m d : 0 <= line < 16 -> icw (chip (side_of line) (log d)) = 0 ->
  exists d' v, pic_set_irq_mask line m d = Some d' /\ log d' = log d ++ [(data_port (side_of line), v)] /\
    v = (if m then u8 (Z.lor (imr (chip (side_of line) (log d))) (u8 (Z.shiftl 1 (line mod 8))))
         else Z.land (imr (chip (side_of line) (log d))) (u8 (Z.lnot (Z.shiftl 1 (line mod 8))))).
Proof.
  intros Hl Hr. unfold pic_set_irq_mask, side_of in *.
  destruct (Z.ltb_spec line 8).
  - destruct (inb_pair PIC1_DATA d) as (v & d' & -> & E & _ & Hv). rewrite (Hv Master) by done.
    destruct (Z.geb_spec line 32); [lia |]. rewrite (Z.mod_small line 8) by lia. eexists _, _. split; [done |]. by rewrite log_outb, E.
  - destruct (inb_pair PIC2_DATA d) as (v & d' & -> & E & _ & Hv). rewrite (Hv Slave) by done.
    rewrite (u8_id (line - 8)) by lia. destruct (Z.geb_spec (line - 8) 32); [lia |].
    replace (line mod 8) with (line - 8) by (apply (Z.mod_unique _ _ 1); lia). eexists _, _. split; [done |]. by rewrite log_outb, E.
Qed.

(** masking or unmasking a line changes the mask of that line and of no other
    of the sixteen, on either controller. *)
Theorem pic_set_irq_mask_correct line m d (Hl : 0 <= line < 16) (Hr : forall s, icw (chip s (log d)) = 0) :
  exists d', pic_set_irq_mask line m d = Some d' /\ (forall s, icw (chip s (log d')) = 0) /\
    (forall s, vector_base (chip s (log d')) = vector_base (chip s (log d))) /\
    forall l, 0 <= l < 16 -> masked (log d') l = if decide (l = line) then m else masked (log d) l.
Proof.
  destruct (set_mask_log line m d Hl (Hr _)) as (d' & v & E & El & Ev). exists d'. split; [done |].
  assert (Hc : forall s, chip s (log d') = if decide (s = side_of line) then mk_chip (u8 v) (vector_base (chip s (log d))) 0 else chip s (log d)).
  { intros s. rewrite El, chip_snoc. unfold chip_write. pose proof (Hr s) as Hs.
    destruct s, (side_of line); cbn; rewrite ?Hs; done. }
  split; [intros s; rewrite Hc; case_decide; [done | apply Hr] |]. split; [intros s; rewrite Hc; by case_decide |].
  intros l Hll. unfold masked. rewrite Hc. pose proof (Z.mod_pos_bound l 8). pose proof (Z.mod_pos_bound line 8).
  assert (Hm : l = line <-> side_of l = side_of line /\ l mod 8 = line mod 8).
  { unfold side_of. split; [by intros -> |]. pose proof (Z.div_mod l 8). pose proof (Z.div_mod line 8).
    destruct (Z.ltb_spec l 8), (Z.ltb_spec line 8); intros [? ?]; try done; lia. }
  case_decide as Hs; cbn [imr].
  - assert (Hb : Z.testbit (u8 v) (l mod 8) = if decide (l mod 8 = line mod 8) then m else Z.testbit (imr (chip (side_of line) (log d))) (l mod 8)).
    { rewrite Ev. destruct m; unfold u8; rewrite ?testbit_mod_pow2 by lia.
      - rewrite Z.lor_spec, testbit_mod_pow2, testbit_shiftl1 by lia. destruct (Z.eqb_spec (l mod 8) (line mod 8)); case_decide; try done.
        + by rewrite orb_true_r.
        + by rewrite orb_false_r.
      - rewrite Z.land_spec, testbit_mod_pow2, Z.lnot_spec, testbit_shiftl1 by lia. destruct (Z.eqb_spec (l mod 8) (line mod 8)); case_decide; try done.
        + by rewrite andb_false_r.
        + by rewrite andb_true_r. }
    rewrite Hb, Hs. repeat case_decide; try done; naive_solver.
  - rewrite decide_False; [done |]. naive_solver.
Qed.
End laws.

(** [apic_disable] clears the two enable bits of the base register and keeps the rest. *)
Lemma apic_disable_correct {M : Type} (rdmsr : Z -> M -> Z * Z) (wrmsr : Z -> Z -> Z -> M -> M) m low high
    (Hr : rdmsr IA32_APIC_BASE_MSR m = (low, high)) (Hlow : 0 <= low < 2 ^ 32) (Hhigh : 0 <= high < 2 ^ 32) :
  exists low' high', apic_disable rdmsr wrmsr m = wrmsr IA32_APIC_BASE_MSR low' high' m /\
    high' = high /\ forall k, 0 <= k < 32 -> Z.testbit low' k = Z.testbit low k && negb ((k =? 10) || (k =? 11)).
Proof.
  unfold apic_disable. rewrite Hr. eexists _, _. split; [done |]. set (a := Z.land _ (u64 _)).
  assert (Ha : forall k, 0 <= k -> Z.testbit a k = (if k <? 32 then Z.testbit low k else Z.testbit high (k - 32)) && (k <? 64) && negb ((k =? 10) || (k =? 11))).
  { intros k Hk. unfold a. rewrite Z.land_spec, Z.lor_spec. destruct (Z.ltb_spec k 32).
    - rewrite Z.shiftl_spec_low by lia. unfold u64. rewrite testbit_mod_pow2, Z.lnot_spec by lia. unfold IA32_APIC_BASE_ENABLE, IA32_APIC_BASE_X2APIC.
      rewrite Z.lor_spec, !testbit_shiftl1 by lia. rewrite (proj2 (Z.ltb_lt k 64)) by lia. rewrite andb_true_r. cbn [orb]. by rewrite orb_comm.
    - rewrite Z.shiftl_spec by lia. rewrite <- (Z.mod_small low (2 ^ 32)) by lia. rewrite testbit_mod_pow2_high, orb_false_r by lia.
      unfold u64. destruct (Z.ltb_spec k 64).
      + rewrite testbit_mod_pow2, Z.lnot_spec by lia. unfold IA32_APIC_BASE_ENABLE, IA32_APIC_BASE_X2APIC.
        rewrite Z.lor_spec, !testbit_shiftl1 by lia. by rewrite orb_comm, andb_true_r.
      + rewrite testbit_mod_pow2_high by lia. by rewrite !andb_false_r. }
  split.
  - apply Z.bits_inj'. intros k Hk. unfold u32. destruct (Z.ltb_spec k 32).
    + rewrite testbit_mod_pow2, Z.shiftr_spec, Ha by lia. destruct (Z.ltb_spec (k + 32) 32); [lia |].
      rewrite (proj2 (Z.ltb_lt _ 64)), (proj2 (Z.eqb_neq (k + 32) 10)), (proj2 (Z.eqb_neq (k + 32) 11)) by lia. cbn. rewrite !andb_true_r. f_equal. lia.
    + rewrite testbit_mod_pow2_high by lia. rewrite <- (Z.mod_small high (2 ^ 32)) by lia. by rewrite testbit_mod_pow2_high by lia.
  - intros k Hk. unfold u32. rewrite testbit_mod_pow2, Z.land_spec by lia. change 0xFFFFFFFF with (Z.ones 32). rewrite Z.ones_spec_low, andb_true_r by lia.
    rewrite Ha by lia. rewrite (proj2 (Z.ltb_lt k 32)), (proj2 (Z.ltb_lt k 64)) by lia. by rewrite andb_true_r.
Qed.

(** ** A concrete bus: the bytes written; the controllers answer with their masks,
    the keyboard controller is always ready and acknowledges. *)
Definition demo_bus : Type := list (Z * Z).
#[global] Instance demo_port : PortIO demo_bus := {
  inb p l := (if p =? PIC1_DATA then imr (chip Master l) else if p =? PIC2_DATA then imr (chip Slave l)
              else if p =? KEYBOARD_STATUS then 0x21 else if p =? KEYBOARD_DATA then 0xFA else 0, l);
  outb p v l := l ++ [(p, v)];
}.
#[global] Instance demo_laws : Bus demo_bus.
Proof.
  refine {| log := fun l : demo_bus => l |}; try done.
  - intros p d. cbn. pose proof (imr_range Master d). pose proof (imr_range Slave d). repeat case_match; lia.
  - by intros [] d.
Defined.

Lemma pic_init_correct_witness :
  chip Slave (log (pic_init ([] : demo_bus))) = mk_chip 0xFF 40 0 /\
  exists lo hi, log (pit_program 100 ([] : demo_bus)) = [(PIT_COMMAND, 0x36); (PIT_CHANNEL0, lo); (PIT_CHANNEL0, hi)] /\
    lo + 256 * hi = 11931.
Proof.
  destruct (pic_init_correct ([] : demo_bus) 100 ltac:(lia)) as (_ & H & _ & lo & hi & E & Hd).
  split; [exact H |]. exists lo, hi. split; [exact E |]. rewrite Hd. reflexivity.
Defined.

Lemma pic_set_irq_mask_correct_witness :
  (forall s, icw (chip s (log (pic_init ([] : demo_bus)))) = 0) /\
  exists d', pic_set_irq_mask 12 false (pic_init ([] : demo_bus)) = Some d' /\ masked (log d') 12 = false /\ masked (log d') 4 = true.
Proof.
  assert (Hr : forall s, icw (chip s (log (pic_init ([] : demo_bus)))) = 0) by (intros []; reflexivity).
  split; [exact Hr |]. destruct (pic_set_irq_mask_correct 12 false (pic_init ([] : demo_bus)) ltac:(lia) Hr) as (d' & E & _ & _ & Hm).
  exists d'. split; [exact E |]. split; [rewrite (Hm 12) by lia | rewrite (Hm 4) by lia]; reflexivity.
Defined.
End Hal.
