(* ===== verification/Interrupts.v ===== *)
(** * Interrupts: [cpu/irq.c], [cpu/isr.c], [cpu/exceptions.c], and the
    initialisation of the devices behind them

    A handler is the address of its code; [call] runs the code at an address.  The
    keyboard controller answers a status byte that the drivers wait for; the waits
    are loops with fuel, and [Controller] says how long they can be. *)
From S2P Require Import Prelude PageAllocator Memory Pmm Vma PageTable PageTableSpec DemandPaging CpuTables Hardware.
Import Hal.
#[local] Open Scope Z_scope.

Module Irq.

Definition IRQ_BASE_VECTOR : Z := 32.
Definition IRQ_COUNT : Z := 16.
Definition IRQ_TIMER_LINE : Z := 0.
Definition IRQ_KEYBOARD_LINE : Z := 1.
Definition IRQ_MOUSE_LINE : Z := 12.

(** ** [cpu/irq.c] *)
Definition irq_init (irq_handlers : list Z) : list Z :=
  for_to 0 IRQ_COUNT (fun line h => <[Z.to_nat line := 0]> h) irq_handlers.

Definition irq_register_handler (irq_line handler : Z) (irq_handlers : list Z) : list Z * bool :=
  if irq_line >=? IRQ_COUNT then (irq_handlers, false)
  else (<[Z.to_nat irq_line := handler]> irq_handlers, true).

Section dispatch.
Context {D S : Type} `{PortIO D}.
Context (call : Z -> D * S -> option (D * S)).

Definition irq_dispatch (irq_handlers : list Z) (interrupt_number : Z) (st : D * S) : option (D * S) :=
  if (interrupt_number <? IRQ_BASE_VECTOR) || (interrupt_number >=? IRQ_BASE_VECTOR + IRQ_COUNT) then Some st
  else
    let irq_line := u8 (interrupt_number - IRQ_BASE_VECTOR) in
    handler ← irq_handlers !! Z.to_nat irq_line;
    '(d, s) ← (if negb (handler =? 0) then call handler st else Some st);
    Some (pic_send_eoi irq_line d, s).
End dispatch.

(** ** [cpu/exceptions.c], [cpu/exceptions/page_fault.c], [cpu/isr.c] *)
Definition EXCEPTION_PAGE_FAULT : Z := 14.

(** What an interrupt does to the interrupted program: it goes on, or
    [kernel_panic] stops the machine for good. *)
Inductive ended (T : Type) := Resumed (t : T) | Halted.
Arguments Resumed {T} t. Arguments Halted {T}.

Section exceptions.
Context {A D X : Type} `{PageAllocator A} `{PortIO D}.
Context (call : Z -> D * (pt_state A * X) -> option (D * (pt_state A * X))).

Definition page_fault_handler (vs : Vma.vma_state) (cr2 error : Z) (s : pt_state A) : ended (pt_state A) :=
  let '(s, handled) := vmm_handle_page_fault vs cr2 error s in
  if handled : bool then Resumed s else Halted.

Definition exception_dispatch (vs : Vma.vma_state) (cr2 interrupt_number error : Z) (s : pt_state A) : ended (pt_state A) :=
  if interrupt_number =? EXCEPTION_PAGE_FAULT then page_fault_handler vs cr2 error s else Halted.

Definition isr_dispatch (irq_handlers : list Z) (vs : Vma.vma_state) (cr2 interrupt_number error : Z)
    (st : D * (pt_state A * X)) : option (ended (D * (pt_state A * X))) :=
  if interrupt_number <? 32 then
    Some (match exception_dispatch vs cr2 interrupt_number error (fst (snd st)) with
          | Resumed s => Resumed (fst st, (s, snd (snd st)))
          | Halted => Halted
          end)
  else st ← irq_dispatch call irq_handlers interrupt_number st; Some (Resumed st).
End exceptions.

(** ** Devices: [pit_init], [keyboard_init], [mouse_init] *)

(** The addresses the linker gives to the three handlers. *)
Record symbols := mk_symbols { pit_irq_handler : Z; keyboard_irq_handler : Z; mouse_irq_handler : Z }.

Section devices.
Context {D : Type} `{PortIO D} (sym : symbols).

Definition pit_init (frequency_hz : Z) (st : list Z * D) : option (list Z * D) :=
  let '(h, d) := st in
  let d := pit_program frequency_hz d in
  let '(h, _) := irq_register_handler IRQ_TIMER_LINE (pit_irq_handler sym) h in
  d ← pic_unmask_irq IRQ_TIMER_LINE d; Some (h, d).

Definition keyboard_init (st : list Z * D) : option (list Z * D) :=
  let '(h, d) := st in
  let '(h, _) := irq_register_handler IRQ_KEYBOARD_LINE (keyboard_irq_handler sym) h in
  d ← pic_unmask_irq IRQ_KEYBOARD_LINE d; Some (h, d).

Fixpoint mouse_wait_write (fuel : nat) (d : D) : option D :=
  match fuel with
  | O => None
  | S fuel' =>
    let '(v, d) := inb KEYBOARD_STATUS d in
    if negb (Z.land v 0x02 =? 0) then mouse_wait_write fuel' d else Some d
  end.

Fixpoint mouse_wait_read (fuel : nat) (d : D) : option D :=
  match fuel with
  | O => None
  | S fuel' =>
    let '(v, d) := inb KEYBOARD_STATUS d in
    if Z.land v 0x01 =? 0 then mouse_wait_read fuel' d else Some d
  end.

Definition mouse_write (fuel : nat) (data : Z) (d : D) : option D :=
  d ← mouse_wait_write fuel d;
  let d := outb KEYBOARD_COMMAND 0xD4 d in
  d ← mouse_wait_write fuel d;
  Some (outb KEYBOARD_DATA data d).

Definition mouse_read (fuel : nat) (d : D) : option (Z * D) :=
  d ← mouse_wait_read fuel d; Some (inb KEYBOARD_DATA d).

Definition mouse_init (fuel : nat) (st : list Z * D) : option (list Z * D) :=
  let '(h, d) := st in
  let '(h, _) := irq_register_handler IRQ_MOUSE_LINE (mouse_irq_handler sym) h in
  d ← pic_unmask_irq IRQ_MOUSE_LINE d;
  d ← pic_unmask_irq 2 d;
  d ← mouse_wait_write fuel d;
  let d := outb KEYBOARD_COMMAND 0xA8 d in
  d ← mouse_wait_write fuel d;
  let d := outb KEYBOARD_COMMAND 0x20 d in
  '(status, d) ← mouse_read fuel d;
  let status := Z.lor status 0x02 in
  d ← mouse_wait_write fuel d;
  let d := outb KEYBOARD_COMMAND 0x60 d in
  d ← mouse_wait_write fuel d;
  let d := outb KEYBOARD_DATA status d in
  d ← mouse_write fuel 0xF6 d;
  '(ack, d) ← mouse_read fuel d;
  if negb (ack =? 0xFA) then Some (h, d)
  else
    d ← mouse_write fuel 0xF4 d;
    '(ack, d) ← mouse_read fuel d;
    if negb (ack =? 0xFA) then Some (h, d) else Some (h, d).

(** The calls of [kmain] that set up interrupts, in its order. *)
Definition boot_interrupts (fuel : nat) (st : list Z * D) : option (list Z * D) :=
  let '(h, d) := st in
  st ← pit_init 100 (irq_init h, pic_init d);
  st ← keyboard_init st;
  mouse_init fuel st.
End devices.

(** ** What the controller promises: within [n] readings of its status it takes a
    byte, and right after a command that has an answer it offers one: reading its
    configuration, and the two commands passed on to the mouse. *)
Definition answered (writes : list (Z * Z)) : Prop := exists l,
  writes = l ++ [(KEYBOARD_COMMAND, 0x20)] \/
  writes = l ++ [(KEYBOARD_COMMAND, 0xD4); (KEYBOARD_DATA, 0xF6)] \/
  writes = l ++ [(KEYBOARD_COMMAND, 0xD4); (KEYBOARD_DATA, 0xF4)].

Definition poll {D} `{PortIO D} (d : D) : D := snd (inb KEYBOARD_STATUS d).

Class Controller (D : Type) (n : nat) `{Bus D} := {
  takes d : exists k, (k < n)%nat /\ Z.land (fst (inb KEYBOARD_STATUS (Nat.iter k poll d))) 0x02 = 0;
  offers d p v : answered (log d ++ [(p, v)]) ->
    exists k, (k < n)%nat /\ Z.land (fst (inb KEYBOARD_STATUS (Nat.iter k poll (outb p v d)))) 0x01 <> 0;
}.

Section controller.
Context {D : Type} {n : nat} `{Controller D n} (sym : symbols).
Implicit Types d : D.

Lemma wait_write_ok fuel d : (n <= fuel)%nat -> exists d', mouse_wait_write fuel d = Some d' /\ log d' = log d.
Proof.
  intros Hf. destruct (takes (n := n) d) as (k & Hk & E). assert (Hkf : (k < fuel)%nat) by lia. clear Hk Hf. revert d E Hkf.
  induction fuel as [|fuel IH] in k |- *; intros d E Hk; [lia |]. cbn [mouse_wait_write].
  destruct (inb_pair KEYBOARD_STATUS d) as (v & d1 & E1 & El & _). rewrite E1.
  destruct (Z.eqb_spec (Z.land v 2) 0) as [|Hv]; cbn [negb]; [by exists d1 |].
  destruct k as [|k]; [cbn in E; rewrite E1 in E; done |]. rewrite Nat.iter_succ_r in E. unfold poll at 2 in E. rewrite E1 in E. cbn [snd] in E.
  destruct (IH k d1 E ltac:(lia)) as (d' & -> & El'). exists d'. split; [done | congruence].
Qed.

Lemma read_ok fuel d0 p0 v0 : (n <= fuel)%nat -> answered (log d0 ++ [(p0, v0)]) ->
  exists v d', mouse_read fuel (outb p0 v0 d0) = Some (v, d') /\ log d' = log d0 ++ [(p0, v0)] /\ 0 <= v < 256.
Proof.
  intros Hf Hw. unfold mouse_read. destruct (offers (n := n) d0 p0 v0 Hw) as (k & Hk & E).
  assert (Hkf : (k < fuel)%nat) by lia. clear Hk Hf. rewrite <- log_outb. revert E. generalize (outb p0 v0 d0). intros d E.
  assert (Hwait : exists d', mouse_wait_read fuel d = Some d' /\ log d' = log d).
  { revert d E Hkf. induction fuel as [|fuel IH] in k |- *; intros d E Hk; [lia |]. cbn [mouse_wait_read].
    destruct (inb_pair KEYBOARD_STATUS d) as (v & d1 & E1 & El & _). rewrite E1.
    destruct (Z.eqb_spec (Z.land v 1) 0) as [Hv|]; [| by exists d1].
    destruct k as [|k]; [cbn in E; rewrite E1 in E; done |]. rewrite Nat.iter_succ_r in E. unfold poll at 2 in E. rewrite E1 in E. cbn [snd] in E.
    destruct (IH k d1 E ltac:(lia)) as (d' & -> & El'). exists d'. split; [done | congruence]. }
  destruct Hwait as (d' & -> & El'). cbn [mbind option_bind].
  destruct (inb_pair KEYBOARD_DATA d') as (v & d2 & E2 & El2 & Hr & _). rewrite E2. exists v, d2. split; [done |]. split; [congruence | done].
Qed.

Lemma write_ok fuel data d : (n <= fuel)%nat -> exists d', mouse_write fuel data d = Some (outb KEYBOARD_DATA data d') /\
  log d' = log d ++ [(KEYBOARD_COMMAND, 0xD4)].
Proof.
  intros Hf. unfold mouse_write. destruct (wait_write_ok fuel d Hf) as (d1 & -> & E1). cbn [mbind option_bind].
  destruct (wait_write_ok fuel (outb KEYBOARD_COMMAND 0xD4 d1) Hf) as (d2 & -> & E2). cbn [mbind option_bind].
  exists d2. split; [done |]. by rewrite E2, log_outb, E1.
Qed.

(** The bytes [mouse_init] writes to the controller: the mouse port and its
    interrupt are enabled, keeping the other settings, and the mouse is told to use
    its defaults and, if it acknowledges, to report. *)
Definition mouse_commands (status : Z) (acknowledged : bool) : list (Z * Z) :=
  [(KEYBOARD_COMMAND, 0xA8); (KEYBOARD_COMMAND, 0x20); (KEYBOARD_COMMAND, 0x60); (KEYBOARD_DATA, Z.lor status 0x02);
   (KEYBOARD_COMMAND, 0xD4); (KEYBOARD_DATA, 0xF6)] ++
  (if acknowledged then [(KEYBOARD_COMMAND, 0xD4); (KEYBOARD_DATA, 0xF4)] else []).

Lemma mouse_init_log fuel h d d1 d2 : (n <= fuel)%nat -> pic_unmask_irq IRQ_MOUSE_LINE d = Some d1 -> pic_unmask_irq 2 d1 = Some d2 ->
  exists d' status ok, mouse_init sym fuel (h, d) = Some (<[12%nat := mouse_irq_handler sym]> h, d') /\
    log d' = log d2 ++ mouse_commands status ok /\ 0 <= status < 256.
Proof.
  intros Hf E1 E2. unfold mouse_init. change (irq_register_handler IRQ_MOUSE_LINE (mouse_irq_handler sym) h) with (<[12%nat := mouse_irq_handler sym]> h, true).
  cbv iota beta. rewrite E1; cbn [mbind option_bind]. rewrite E2; cbn [mbind option_bind].
  destruct (wait_write_ok fuel d2 Hf) as (d3 & -> & E3). cbn [mbind option_bind]. cbv zeta.
  destruct (wait_write_ok fuel (outb KEYBOARD_COMMAND 0xA8 d3) Hf) as (d4 & -> & E4). rewrite log_outb, E3 in E4. cbn [mbind option_bind].
  destruct (read_ok fuel d4 KEYBOARD_COMMAND 0x20 Hf) as (status & d5 & -> & E5 & Hs); [eexists; left; reflexivity |].
  rewrite E4 in E5. cbn [mbind option_bind].
  destruct (wait_write_ok fuel d5 Hf) as (d6 & -> & E6). cbn [mbind option_bind].
  destruct (wait_write_ok fuel (outb KEYBOARD_COMMAND 0x60 d6) Hf) as (d7 & -> & E7). rewrite log_outb, E6, E5 in E7. cbn [mbind option_bind].
  destruct (write_ok fuel 0xF6 (outb KEYBOARD_DATA (Z.lor status 2) d7) Hf) as (d8 & -> & E8). rewrite log_outb, E7 in E8. cbn [mbind option_bind].
  destruct (read_ok fuel d8 KEYBOARD_DATA 0xF6 Hf) as (ack & d9 & -> & E9 & _).
  { rewrite E8. eexists. right. left. rewrite <- app_assoc. reflexivity. }
  rewrite E8 in E9. cbn [mbind option_bind]. destruct (ack =? 0xFA); cbn [negb].
  - destruct (write_ok fuel 0xF4 d9 Hf) as (d10 & -> & E10). rewrite E9 in E10. cbn [mbind option_bind].
    destruct (read_ok fuel d10 KEYBOARD_DATA 0xF4 Hf) as (ack2 & d11 & -> & E11 & _).
    { rewrite E10. eexists. right. right. rewrite <- app_assoc. reflexivity. }
    cbn [mbind option_bind]. exists d11, status, true. split; [by destruct (negb (ack2 =? 0xFA)) |]. split; [| done].
    rewrite E11, E10, <- !app_assoc. reflexivity.
  - exists d9, status, false. split; [done |]. split; [| done]. rewrite E9, <- !app_assoc. reflexivity.
Qed.

Lemma chip_foreign s l k : Forall (fun w => fst w <> command_port s /\ fst w <> data_port s) k -> chip s (l ++ k) = chip s l.
Proof.
  induction k as [|[p v] k IH] using rev_ind; [by rewrite app_nil_r |]. rewrite Forall_app. intros [Hk Hw].
  rewrite app_assoc, chip_snoc, IH by done. inversion Hw as [|? ? [Hp1 Hp2] _]; subst. cbn [fst] in *.
  unfold chip_write. by rewrite (proj2 (Z.eqb_neq _ _) Hp1), (proj2 (Z.eqb_neq _ _) Hp2).
Qed.

Lemma irq_init_zero h : length h = 16%nat -> irq_init h = replicate 16 0.
Proof. intros Hl. do 17 (destruct h as [|? h]; try discriminate Hl). reflexivity. Qed.

Lemma masked_chip l l' line : (forall s, chip s l = chip s l') -> masked l line = masked l' line.
Proof. intros Hc. unfold masked. by rewrite Hc. Qed.

(** C37: after the calls by which kmain sets up interrupts, which all return, the
    timer, the keyboard, the mouse and the cascade are the only lines unmasked, the
    first three have their handlers and no other line has one, and the lines raise
    the vectors from 32 on. *)
Theorem boot_interrupts_correct fuel h d (Hf : (n <= fuel)%nat) (Hl : length h = 16%nat) :
  exists h' d', boot_interrupts sym fuel (h, d) = Some (h', d') /\
    (forall line, 0 <= line < 16 -> masked (log d') line = false <->
       line = IRQ_TIMER_LINE \/ line = IRQ_KEYBOARD_LINE \/ line = 2 \/ line = IRQ_MOUSE_LINE) /\
    (forall s, icw (chip s (log d')) = 0) /\
    vector_base (chip Master (log d')) = IRQ_BASE_VECTOR /\ vector_base (chip Slave (log d')) = IRQ_BASE_VECTOR + 8 /\
    h' = <[12%nat := mouse_irq_handler sym]> (<[1%nat := keyboard_irq_handler sym]> (<[0%nat := pit_irq_handler sym]> (replicate 16 0))).
Proof.
  unfold boot_interrupts. rewrite irq_init_zero by done. destruct (pic_init_correct d 100 ltac:(lia)) as (Hm & Hs & Hall & _).
  set (d0 := pic_init d) in *. unfold pit_init, keyboard_init, pic_unmask_irq.
  change (irq_register_handler IRQ_TIMER_LINE (pit_irq_handler sym) (replicate 16 0)) with (<[0%nat := pit_irq_handler sym]> (replicate 16 0), true).
  change (pic_set_irq_mask IRQ_TIMER_LINE) with (pic_set_irq_mask (D := D) 0). cbv iota beta.
  destruct (pic_init_correct d0 100 ltac:(lia)) as (_ & _ & _ & lo & hi & Epit & _).
  assert (Hc0 : forall s, chip s (log (pit_program 100 d0)) = chip s (log d0)) by (intros s; rewrite Epit; apply chip_foreign; by destruct s; repeat constructor).
  assert (Hr0 : forall s, icw (chip s (log (pit_program 100 d0))) = 0) by (intros s; rewrite Hc0; destruct s; by rewrite ?Hm, ?Hs).
  destruct (pic_set_irq_mask_correct 0 false (pit_program 100 d0) ltac:(lia) Hr0) as (d1 & E1 & Hr1 & Hv1 & Hm1).
  rewrite E1. cbn [mbind option_bind].
  change (irq_register_handler IRQ_KEYBOARD_LINE (keyboard_irq_handler sym) (<[0%nat := pit_irq_handler sym]> (replicate 16 0)))
    with (<[1%nat := keyboard_irq_handler sym]> (<[0%nat := pit_irq_handler sym]> (replicate 16 0)), true).
  change (pic_set_irq_mask IRQ_KEYBOARD_LINE) with (pic_set_irq_mask (D := D) 1). cbv iota beta.
  destruct (pic_set_irq_mask_correct 1 false d1 ltac:(lia) Hr1) as (d2 & E2 & Hr2 & Hv2 & Hm2).
  rewrite E2. cbn [mbind option_bind].
  destruct (pic_set_irq_mask_correct 12 false d2 ltac:(lia) Hr2) as (d3 & E3 & Hr3 & Hv3 & Hm3).
  destruct (pic_set_irq_mask_correct 2 false d3 ltac:(lia) Hr3) as (d4 & E4 & Hr4 & Hv4 & Hm4).
  destruct (mouse_init_log fuel (<[1%nat := keyboard_irq_handler sym]> (<[0%nat := pit_irq_handler sym]> (replicate 16 0))) d2 d3 d4 Hf E3 E4)
    as (d5 & status & ok & E5 & El & _).
  exists (<[12%nat := mouse_irq_handler sym]> (<[1%nat := keyboard_irq_handler sym]> (<[0%nat := pit_irq_handler sym]> (replicate 16 0)))), d5.
  split; [exact E5 |].
  assert (Hc5 : forall s, chip s (log d5) = chip s (log d4)) by (intros s; rewrite El; apply chip_foreign; destruct s, ok; repeat constructor; done).
  split; [| split; [intros s; by rewrite Hc5 |]].
  - intros line Hline. rewrite (masked_chip _ _ _ Hc5), Hm4, Hm3, Hm2, Hm1, (masked_chip _ _ _ Hc0), Hall by done.
    unfold IRQ_TIMER_LINE, IRQ_KEYBOARD_LINE, IRQ_MOUSE_LINE. repeat case_decide; (split; [try done; lia | try done; lia]).
  - rewrite !Hc5, !Hv4, !Hv3, !Hv2, !Hv1, !Hc0, Hm, Hs. done.
Qed.
End controller.

(** ** Dispatching *)
Section isr.
Context {A D X : Type} `{PageAllocator A} `{Bus D}.
Context (call : Z -> D * (pt_state A * X) -> option (D * (pt_state A * X))).

Lemma irq_dispatch_line h line d s handler : 0 <= line < 16 -> h !! Z.to_nat line = Some handler ->
  irq_dispatch call h (IRQ_BASE_VECTOR + line) (d, s) =
  '(d, s) ← (if negb (handler =? 0) then call handler (d, s) else Some (d, s)); Some (pic_send_eoi line d, s).
Proof.
  intros Hl Hh. unfold irq_dispatch, IRQ_BASE_VECTOR, IRQ_COUNT.
  destruct (Z.ltb_spec (32 + line) 32); [lia |]. destruct (Z.geb_spec (32 + line) (32 + 16)); [lia |]. cbn [orb].
  replace (u8 (32 + line - 32)) with line by (rewrite u8_id; lia). rewrite Hh. done.
Qed.

(** C16: an interrupt runs what its vector stands for.  A page fault that demand
    paging resolves resumes the program in the state it left, any other exception
    stops the machine.  A device line runs the handler registered for it, once, if
    there is one, and ends with the acknowledgement of its controllers, which
    leaves the masks alone.  Vectors beyond the lines do nothing. *)
Theorem isr_dispatch_correct h vs cr2 vector error d (s : pt_state A) (x : X) (Hl : length h = 16%nat) (Hv : 0 <= vector) :
  let result := isr_dispatch call h vs cr2 vector error (d, (s, x)) in
  (vector = EXCEPTION_PAGE_FAULT -> result =
     Some (let '(s', ok) := vmm_handle_page_fault vs cr2 error s in if ok : bool then Resumed (d, (s', x)) else Halted)) /\
  (vector < 32 -> vector <> EXCEPTION_PAGE_FAULT -> result = Some Halted) /\
  (forall line handler, 0 <= line < 16 -> vector = IRQ_BASE_VECTOR + line -> h !! Z.to_nat line = Some handler ->
     forall d1 s1, (if decide (handler = 0) then Some (d, (s, x)) else call handler (d, (s, x))) = Some (d1, s1) ->
     exists d2, result = Some (Resumed (d2, s1)) /\
       log d2 = log d1 ++ (if decide (8 <= line) then [(PIC2_COMMAND, PIC_EOI)] else []) ++ [(PIC1_COMMAND, PIC_EOI)] /\
       forall c, chip c (log d2) = chip c (log d1)) /\
  (IRQ_BASE_VECTOR + 16 <= vector -> result = Some (Resumed (d, (s, x)))).
Proof.
  intros result. unfold result, isr_dispatch. split; [| split; [| split]].
  - intros ->. cbn [Z.ltb Z.compare EXCEPTION_PAGE_FAULT exception_dispatch fst snd]. unfold exception_dispatch, page_fault_handler.
    cbn [Z.eqb Pos.eqb EXCEPTION_PAGE_FAULT]. by destruct (vmm_handle_page_fault vs cr2 error s) as [s' []].
  - intros Hlt Hne. rewrite (proj2 (Z.ltb_lt vector 32)) by lia. unfold exception_dispatch. by rewrite (proj2 (Z.eqb_neq _ _) Hne).
  - intros line handler Hline -> Hh d1 s1 Ec. unfold IRQ_BASE_VECTOR in *. rewrite (proj2 (Z.ltb_ge (32 + line) 32)) by lia.
    change (32 + line) with (IRQ_BASE_VECTOR + line). rewrite (irq_dispatch_line h line d (s, x) handler Hline Hh).
    assert (Ec' : (if negb (handler =? 0) then call handler (d, (s, x)) else Some (d, (s, x))) = Some (d1, s1))
      by (rewrite <- Ec; destruct (Z.eqb_spec handler 0); case_decide; done).
    rewrite Ec'. cbn [mbind option_bind]. eexists. split; [done |]. split; [| intros c; apply eoi_chip].
    rewrite eoi_log. destruct (Z.geb_spec line 8), (decide (8 <= line)); done || lia.
  - intros Hge. unfold IRQ_BASE_VECTOR in Hge. rewrite (proj2 (Z.ltb_ge vector 32)) by lia. unfold irq_dispatch, IRQ_BASE_VECTOR, IRQ_COUNT.
    rewrite (proj2 (Z.ltb_ge vector 32)), (proj2 (Z.geb_le vector (32 + 16))) by lia. done.
Qed.
End isr.

(** ** Witnesses *)
#[global] Instance demo_controller : Controller demo_bus 1.
Proof. split; intros; exists 0%nat; (split; [lia |]); cbn; done. Defined.

Definition demo_symbols : symbols := mk_symbols 0x1000 0x2000 0x3000.

Lemma boot_interrupts_correct_witness :
  exists h' d', boot_interrupts demo_symbols 1 (replicate 16 7, [] : demo_bus) = Some (h', d') /\
    masked (log d') 12 = false /\ masked (log d') 5 = true /\ h' !! 1%nat = Some 0x2000.
Proof.
  destruct (boot_interrupts_correct (n := 1) demo_symbols 1 (replicate 16 7) ([] : demo_bus) ltac:(lia) eq_refl)
    as (h' & d' & E & Hm & _ & _ & _ & Hh).
  exists h', d'. split; [exact E |]. split; [apply Hm; unfold IRQ_MOUSE_LINE; lia |].
  split; [apply not_false_is_true; intros Hf; apply Hm in Hf; unfold IRQ_TIMER_LINE, IRQ_KEYBOARD_LINE, IRQ_MOUSE_LINE in Hf; lia |].
  rewrite Hh. reflexivity.
Defined.

(** The keyboard's interrupt on the tables [boot_interrupts] leaves, with a handler
    that counts. *)
Definition demo_call (a : Z) (st : demo_bus * (pt_state Pmm.pmm_t * Z)) : option (demo_bus * (pt_state Pmm.pmm_t * Z)) :=
  let '(d, (s, x)) := st in Some (d, (s, x + a)).

Lemma isr_dispatch_correct_witness :
  exists d2, isr_dispatch demo_call (<[1%nat := 0x2000]> (replicate 16 0)) demo_areas 0 33 0 ([] : demo_bus, (demo_pt, 5)) =
    Some (Resumed (d2, (demo_pt, 0x2005))) /\ log d2 = [(PIC1_COMMAND, PIC_EOI)].
Proof.
  destruct (isr_dispatch_correct demo_call (<[1%nat := 0x2000]> (replicate 16 0)) demo_areas 0 33 0 ([] : demo_bus) demo_pt 5
    ltac:(by rewrite length_insert) ltac:(lia)) as (_ & _ & H & _).
  destruct (H 1 0x2000 ltac:(lia) ltac:(done) ltac:(change (Z.to_nat 1) with 1%nat; rewrite list_lookup_insert_eq; [done | rewrite length_replicate; lia]) [] (demo_pt, 0x2005) ltac:(done)) as (d2 & E & El & _).
  exists d2. split; [exact E | exact El].
Defined.
End Irq.
