(* ===== verification/Reports.v ===== *)
(** * What the kernel prints about itself

    The reports on exceptions ([cpu/exceptions.c], [cpu/exceptions/*.c]) and the dump
    functions ([mm/memory_map.c], [vmm/vma/vma.c], [vmm/page_table.c], [elf/elf.c]): each
    is the list of its calls of [kprintf], whose text [Convert.kprintf] gives. *)
From Stdlib Require Import Ascii String.
From S2P Require Import Prelude PageAllocator Memory Convert Pmm Vma PageTable PageTableSpec DemandPaging Elf CpuTables Hardware Interrupts.
Import Mem Str Convert.
#[local] Open Scope Z_scope.

Module Reports.

(** ** Strings of the program *)
Definition bytes (s : string) : list Z := (fun c => Z.of_N (N_of_ascii c)) <$> list_ascii_of_string s.

(** The array a C string literal is. *)
Definition literal (s : string) : list Z := bytes s ++ [0].

(** The newline. *)
Definition nl : string := String "010" EmptyString.

(** A call of [kprintf]; the strings among its arguments are literals. *)
Record call := printf { format : string; arguments : list arg }.
Definition str (s : string) : arg := ArgS (literal s).

(** The text a sequence of calls prints. *)
Fixpoint output (l : list call) : option (list Z) :=
  match l with
  | [] => Some []
  | c :: l => t ← kprintf (literal (format c)) (arguments c); u ← output l; Some (t ++ u)
  end.

(** ** [cpu/interrupt_context.h] *)
Record registers_t := mk_regs {
  r15 : Z; r14 : Z; r13 : Z; r12 : Z; r11 : Z; r10 : Z; r9 : Z; r8 : Z;
  rdi : Z; rsi : Z; rbp : Z; rdx : Z; rcx : Z; rbx : Z; rax : Z;
}.
Record interrupt_frame_t := mk_iframe { rip : Z; cs : Z; rflags : Z; rsp : Z; ss : Z }.
Record interrupt_context_t := mk_context {
  regs : registers_t; interrupt_number : Z; error_code : Z; frame : interrupt_frame_t;
}.

#[local] Open Scope string_scope.
#[local] Notation "a +++ b" := (String.append a b) (at level 60, right associativity).

(** ** [cpu/exceptions/panic.c] *)
Definition kernel_panic (reason : string) (context : interrupt_context_t) : list call :=
  [ printf nl [];
    printf ("========================================" +++ nl) [];
    printf ("              KERNEL PANIC" +++ nl) [];
    printf ("========================================" +++ nl) [];
    printf (nl +++ "Exception : %s" +++ nl) [str reason];
    printf ("Interrupt : %llu" +++ nl) [ArgZ (interrupt_number context)];
    printf ("Error Code: 0x%016llx" +++ nl) [ArgZ (error_code context)];
    printf (nl +++ "CPU State" +++ nl) [];
    printf ("----------------------------------------" +++ nl) [];
    printf ("RIP    : %p" +++ nl) [ArgZ (rip (frame context))];
    printf ("CS     : 0x%llx" +++ nl) [ArgZ (cs (frame context))];
    printf ("RFLAGS : 0x%llx" +++ nl) [ArgZ (rflags (frame context))];
    printf ("RSP    : %p" +++ nl) [ArgZ (rsp (frame context))];
    printf ("SS     : 0x%llx" +++ nl) [ArgZ (ss (frame context))];
    printf (nl +++ "General Registers" +++ nl) [];
    printf ("----------------------------------------" +++ nl) [];
    printf ("RAX : %016llx" +++ nl) [ArgZ (rax (regs context))];
    printf ("RBX : %016llx" +++ nl) [ArgZ (rbx (regs context))];
    printf ("RCX : %016llx" +++ nl) [ArgZ (rcx (regs context))];
    printf ("RDX : %016llx" +++ nl) [ArgZ (rdx (regs context))];
    printf ("RSI : %016llx" +++ nl) [ArgZ (rsi (regs context))];
    printf ("RDI : %016llx" +++ nl) [ArgZ (rdi (regs context))];
    printf ("RBP : %016llx" +++ nl) [ArgZ (rbp (regs context))];
    printf ("R8  : %016llx" +++ nl) [ArgZ (r8 (regs context))];
    printf ("R9  : %016llx" +++ nl) [ArgZ (r9 (regs context))];
    printf ("R10 : %016llx" +++ nl) [ArgZ (r10 (regs context))];
    printf ("R11 : %016llx" +++ nl) [ArgZ (r11 (regs context))];
    printf ("R12 : %016llx" +++ nl) [ArgZ (r12 (regs context))];
    printf ("R13 : %016llx" +++ nl) [ArgZ (r13 (regs context))];
    printf ("R14 : %016llx" +++ nl) [ArgZ (r14 (regs context))];
    printf ("R15 : %016llx" +++ nl) [ArgZ (r15 (regs context))] ].

(** ** [cpu/exceptions.c] *)
Definition exception_names : list string :=
  [ "Divide Error"; "Debug"; "Non-Maskable Interrupt"; "Breakpoint"; "Overflow"; "BOUND Range Exceeded";
    "Invalid Opcode"; "Device Not Available"; "Double Fault"; "Coprocessor Segment Overrun"; "Invalid TSS";
    "Segment Not Present"; "Stack-Segment Fault"; "General Protection Fault"; "Page Fault"; "Reserved";
    "x87 Floating-Point Exception"; "Alignment Check"; "Machine Check"; "SIMD Floating-Point Exception";
    "Virtualization Exception"; "Control Protection Exception"; "Reserved"; "Reserved"; "Reserved"; "Reserved";
    "Reserved"; "Reserved"; "Hypervisor Injection Exception"; "VMM Communication Exception"; "Security Exception";
    "Reserved" ].

Definition print_register (name : string) (value : Z) : call := printf ("%s = %p" +++ nl) [str name; ArgZ value].

Definition generic_exception_handler (context : interrupt_context_t) : list call :=
  let name := if (interrupt_number context <? 32)%Z
              then default "Unknown Exception" (exception_names !! Z.to_nat (interrupt_number context))
              else "Unknown Exception" in
  [ printf nl [];
    printf ("================================" +++ nl) [];
    printf ("CPU EXCEPTION" +++ nl) [];
    printf ("================================" +++ nl) [];
    printf ("Vector      = %u" +++ nl) [ArgZ (interrupt_number context)];
    printf ("Name        = %s" +++ nl) [str name];
    printf ("Error Code  = %p" +++ nl) [ArgZ (error_code context)];
    printf ("RIP         = %p" +++ nl) [ArgZ (rip (frame context))];
    printf ("CS          = %p" +++ nl) [ArgZ (cs (frame context))];
    printf ("RFLAGS      = %p" +++ nl) [ArgZ (rflags (frame context))];
    printf nl [];
    print_register "RAX" (rax (regs context));
    print_register "RBX" (rbx (regs context));
    print_register "RCX" (rcx (regs context));
    print_register "RDX" (rdx (regs context));
    print_register "RBP" (rbp (regs context));
    print_register "RSI" (rsi (regs context));
    print_register "RDI" (rdi (regs context));
    print_register "R8" (r8 (regs context));
    print_register "R9" (r9 (regs context));
    print_register "R10" (r10 (regs context));
    print_register "R11" (r11 (regs context));
    print_register "R12" (r12 (regs context));
    print_register "R13" (r13 (regs context));
    print_register "R14" (r14 (regs context));
    print_register "R15" (r15 (regs context));
    printf (nl +++ "System halted." +++ nl) [] ].

(** ** [cpu/exceptions/page_fault.c] *)
Definition yes_no (b : bool) : arg := str (if b then "Yes" else "No").

Definition page_fault_messages (fault_address error : Z) : list call :=
  [ printf ("Page Fault!" +++ nl) [];
    printf ("Fault Address = %p" +++ nl) [ArgZ fault_address];
    printf ("=========================" +++ nl) [];
    printf ("Present        :%s" +++ nl) [yes_no (Z.testbit error 0)];
    printf ("Write          :%s" +++ nl) [yes_no (Z.testbit error 1)];
    printf ("User Mode      :%s" +++ nl) [yes_no (Z.testbit error 2)];
    printf ("Reserved Bit   :%s" +++ nl) [yes_no (Z.testbit error 3)];
    printf ("Instruction    :%s" +++ nl) [yes_no (Z.testbit error 4)];
    printf ("=========================" +++ nl) [] ].

Section exceptions.
Context {A : Type} `{PageAllocator A}.

Definition page_fault_handler (vs : Vma.vma_state) (cr2 : Z) (context : interrupt_context_t) (s : pt_state A)
    : list call * Irq.ended (pt_state A) :=
  let messages := page_fault_messages cr2 (error_code context) in
  let '(s, handled) := vmm_handle_page_fault vs cr2 (error_code context) s in
  if handled : bool then (messages, Irq.Resumed s)
  else ((messages ++ kernel_panic "PAGE FAULT" context)%list, Irq.Halted).

(** Outside the table of names the code reads beyond it. *)
Definition exception_dispatch (vs : Vma.vma_state) (cr2 : Z) (context : interrupt_context_t) (s : pt_state A)
    : option (list call * Irq.ended (pt_state A)) :=
  if (interrupt_number context =? Irq.EXCEPTION_PAGE_FAULT)%Z then Some (page_fault_handler vs cr2 context s)
  else
    name ← exception_names !! Z.to_nat (interrupt_number context);
    Some (kernel_panic name context, Irq.Halted).
End exceptions.

(** ** Dumps *)

(** [mm/memory_map.c]; [entries] is the table the bootloader gave. *)
Definition memory_map_dump (entries : list Pmm.memmap_entry) : list call :=
  ([ printf nl []; printf ("========== Memory Map ==========" +++ nl) [] ] ++
   imap (fun i entry =>
     printf ("[%u] Base = %p Length = %u KB Type = %u " +++ nl)
       [ArgZ (Z.of_nat i); ArgZ (Pmm.e_base entry); ArgZ (Pmm.e_length entry / 1024); ArgZ (Pmm.e_type entry)]) entries ++
   [ printf ("====================================" +++ nl) [] ])%list.

Definition vma_dump (s : Vma.vma_state) : list call :=
  ([ printf nl []; printf ("============== VMA TABLE ================" +++ nl) [] ] ++
   if (Vma.vma_count s =? 0)%Z then
     [ printf ("NO VMA's" +++ nl) []; printf ("===============================" +++ nl) [] ]
   else
     concat ((fun i =>
       let v := Vma.entry (Vma.vma_table s) (Z.of_nat i) in
       let flag b name := if flag_set (Vma.flags v) b then [printf name []] else [] in
       [ printf ("VMA %u" +++ nl) [ArgZ (Z.of_nat i)];
         printf ("Start : %p" +++ nl) [ArgZ (Vma.start v)];
         printf ("End : %p" +++ nl) [ArgZ (Vma.end_ v)];
         printf "Flags : " [] ] ++
       flag Vma.VMA_READ "READ" ++ flag Vma.VMA_WRITE "WRITE" ++ flag Vma.VMA_EXECUTE "EXECUTE" ++
       flag Vma.VMA_DEMAND_PAGED "DEMAND" ++ [ printf nl [] ]) <$> seq 0 (Z.to_nat (Vma.vma_count s))) ++
     [ printf ("====================================" +++ nl) [] ])%list.

Section page_table.
Context {A : Type} `{PageAllocator A}.

(** The state is that after the walk, which creates nothing. *)
Definition page_table_dump (virtual_address : Z) (s : pt_state A) : pt_state A * list call :=
  let '(s, r) := page_walk_internal (page_table_get_pml4 s) virtual_address false s in
  let head :=
    [ printf (nl +++ "===== Page Table Dump =====" +++ nl) [];
      printf ("Virtual Address : %p" +++ nl) [ArgZ virtual_address];
      printf ("PML4 Index      : %u" +++ nl) [ArgZ (PML4_INDEX virtual_address)];
      printf ("PDPT Index      : %u" +++ nl) [ArgZ (PDPT_INDEX virtual_address)];
      printf ("PD Index        : %u" +++ nl) [ArgZ (PD_INDEX virtual_address)];
      printf ("PT Index        : %u" +++ nl) [ArgZ (PT_INDEX virtual_address)] ] in
  if (w_entry r =? NULL)%Z then
    (s, (head ++ [ printf ("Walk Status     : %s" +++ nl) [str (page_walk_status_name (w_status r))];
                   printf ("============================" +++ nl) [] ])%list)
  else
    let e := read_entry s (w_entry r) in
    let flag (b : bool) := str (if b then "YES" else "NO") in
    (s, (head ++ [ printf ("Leaf Level      : %s" +++ nl) [str (page_walk_level_name (w_level r))];
                   printf ("Entry Pointer   : %p" +++ nl) [ArgZ (w_entry r)];
                   printf ("Entry Value     : %016llx" +++ nl) [ArgZ e];
                   printf ("Present         : %s" +++ nl) [flag (page_is_present e)];
                   printf ("Writable        : %s" +++ nl) [flag (page_is_writable e)];
                   printf ("User            : %s" +++ nl) [flag (page_is_user e)];
                   printf ("Executable      : %s" +++ nl) [flag (page_is_executable e)];
                   printf ("============================" +++ nl) [] ])%list).
End page_table.

(** [elf/elf.c]; the section fields are at bytes 40 and 60 of the header. *)
Definition elf_print_header (m : mem) (header : Z) : list call :=
  [ printf ("========== ELF ==========" +++ nl) [];
    printf ("Entry          : 0x%llx" +++ nl) [ArgZ (Elf.e_entry m header)];
    printf ("PH Offset      : %llu" +++ nl) [ArgZ (Elf.e_phoff m header)];
    printf ("PH Count       : %u" +++ nl) [ArgZ (Elf.e_phnum m header)];
    printf ("SH Offset      : %llu" +++ nl) [ArgZ (load64 m (header + 40))];
    printf ("SH Count       : %u" +++ nl) [ArgZ (load16 m (header + 60))];
    printf ("=========================" +++ nl) [] ].

Definition elf_print_program_header (m : mem) (ph : Z) : list call :=
  [ printf ("Type=%uOffset=%lluVAddr=0x%llxFile=%lluMem=%llu" +++ nl)
      [ArgZ (Elf.p_type m ph); ArgZ (Elf.p_offset m ph); ArgZ (Elf.p_vaddr m ph); ArgZ (Elf.p_filesz m ph);
       ArgZ (Elf.p_memsz m ph)] ].
#[local] Close Scope string_scope.

(** ** Formats, read *)

(** The directive behind a '%', the format behind it and the arguments left. *)
Definition read_directive (fmt : list Z) (args : list arg) : option (token * list Z * list arg) :=
  let ells : nat := if deref fmt =? CH_l then (if deref (tl fmt) =? CH_l then 2%nat else 1%nat) else 0%nat in
  let rest := drop ells fmt in
  let take_z f := '(v, r) ← arg_z args; Some (f v, tl rest, r) in
  if deref rest =? CH_x then take_z (if (ells =? 0)%nat then THex else TLongHex (ells =? 2)%nat)
  else if deref rest =? CH_u then take_z (TUint ells)
  else if deref rest =? CH_p then take_z (TPtr ells)
  else if negb (ells =? 0)%nat then None
  else if deref rest =? CH_c then take_z TChar
  else if deref rest =? CH_s then '(s, r) ← arg_s args; Some (TStr s, tl rest, r)
  else if known (deref rest) || (deref rest =? 0) then None
  else Some (TUnknown (deref rest), tl rest, args).

(** The tokens of a format and the arguments it leaves. *)
Fixpoint tokenize (fuel : nat) (fmt : list Z) (args : list arg) : option (list token * list arg) :=
  match fuel with
  | O => None
  | S fuel =>
    match fmt with
    | [] => None
    | [0] => Some ([], args)
    | c :: fmt =>
      if c =? 0 then None
      else if c =? CH_PERCENT then
        '(t, fmt, args) ← read_directive fmt args; '(l, args) ← tokenize fuel fmt args; Some (t :: l, args)
      else '(l, args) ← tokenize fuel fmt args; Some (TLit c :: l, args)
    end
  end.

Lemma deref_cons l c : deref l = c -> c <> 0 -> l = c :: tl l.
Proof. destruct l; cbn; congruence. Qed.

Lemma arg_z_some args v r : arg_z args = Some (v, r) -> args = ArgZ v :: r.
Proof. by destruct args as [|[x|x] y]; intros [= <- <-]. Qed.

Lemma arg_s_some args v r : arg_s args = Some (v, r) -> args = ArgS v :: r.
Proof. by destruct args as [|[x|x] y]; intros [= <- <-]. Qed.

Lemma read_directive_sound fmt args t rest args' :
  read_directive fmt args = Some (t, rest, args') ->
  CH_PERCENT :: fmt = fmt_of t ++ rest /\ args = args_of t ++ args' /\ token_ok t.
Proof.
  unfold read_directive. set (ells := if deref fmt =? CH_l then _ else O).
  assert (Hells : fmt = ell ells ++ drop ells fmt /\ (ells <= 2)%nat).
  { unfold ells. destruct (Z.eqb_spec (deref fmt) CH_l) as [E|E]; [| by split; [| lia]].
    apply deref_cons in E as ->; [| done]. cbn [tl].
    destruct (Z.eqb_spec (deref (tl fmt)) CH_l) as [E|E]; [| by split; [| lia]].
    apply deref_cons in E as ->; [| done]. by split; [| lia]. }
  destruct Hells as [Hf Hle]. generalize dependent (drop ells fmt). generalize dependent ells. clear.
  intros ells Hle l ->.
  destruct (Z.eqb_spec (deref l) CH_x) as [E|_].
  { apply deref_cons in E as ->; [| done]. destruct (arg_z args) as [[v r]|] eqn:Ea; [| done]. apply arg_z_some in Ea as ->.
    destruct ells as [|[|[|ells]]]; cbn; intros [= <- <- <-]; try lia; done. }
  destruct (Z.eqb_spec (deref l) CH_u) as [E|_].
  { apply deref_cons in E as ->; [| done]. destruct (arg_z args) as [[v r]|] eqn:Ea; [| done]. apply arg_z_some in Ea as ->.
    cbn. intros [= <- <- <-]. cbn. by rewrite <- app_assoc. }
  destruct (Z.eqb_spec (deref l) CH_p) as [E|_].
  { apply deref_cons in E as ->; [| done]. destruct (arg_z args) as [[v r]|] eqn:Ea; [| done]. apply arg_z_some in Ea as ->.
    cbn. intros [= <- <- <-]. cbn. by rewrite <- app_assoc. }
  destruct ells as [|ells]; [cbn [Nat.eqb negb ell replicate app] | done].
  destruct (Z.eqb_spec (deref l) CH_c) as [E|_].
  { apply deref_cons in E as ->; [| done]. destruct (arg_z args) as [[v r]|] eqn:Ea; [| done]. apply arg_z_some in Ea as ->.
    by intros [= <- <- <-]. }
  destruct (Z.eqb_spec (deref l) CH_s) as [E|_].
  { apply deref_cons in E as ->; [| done]. destruct (arg_s args) as [[v r]|] eqn:Ea; [| done]. apply arg_s_some in Ea as ->.
    by intros [= <- <- <-]. }
  destruct (known (deref l)) eqn:Ek; [done |]. destruct (Z.eqb_spec (deref l) 0) as [|Hn]; [done |].
  cbn [orb]. intros [= <- <- <-]. split; [| done]. cbn. f_equal. by apply deref_cons.
Qed.

Lemma tokenize_sound fuel : forall fmt args l rest, tokenize fuel fmt args = Some (l, rest) ->
  fmt = concat (fmt_of <$> l) ++ [0] /\ args = concat (args_of <$> l) ++ rest /\ Forall token_ok l.
Proof.
  induction fuel as [|fuel IH]; intros fmt args l rest; [done |]. cbn [tokenize].
  destruct fmt as [|c fmt]; [done |]. intros E.
  assert (Hc : (c = 0 /\ fmt = [] /\ l = [] /\ rest = args) \/ (c <> 0 /\
    (if c =? CH_PERCENT then
        '(t, fmt, args) ← read_directive fmt args; '(l, args) ← tokenize fuel fmt args; Some (t :: l, args)
      else '(l, args) ← tokenize fuel fmt args; Some (TLit c :: l, args)) = Some (l, rest))).
  { destruct c; [destruct fmt; [left; by injection E as <- <- | done] | right; done | right; done]. }
  destruct Hc as [(-> & -> & -> & ->)|[Hc E2]]; [done |]. clear E. rename E2 into E.
  destruct (Z.eqb_spec c CH_PERCENT) as [->|Hp].
  - destruct (read_directive fmt args) as [[[t f2] a2]|] eqn:Er; [| done]. cbn [mbind option_bind] in E.
    destruct (tokenize fuel f2 a2) as [[l2 a3]|] eqn:Et; [| done]. injection E as <- <-.
    destruct (read_directive_sound _ _ _ _ _ Er) as (-> & -> & Ht). destruct (IH _ _ _ _ Et) as (-> & -> & Hl).
    cbn [fmap list_fmap concat]. rewrite <- !app_assoc. split_and!; [done | done | by constructor].
  - destruct (tokenize fuel fmt args) as [[l2 a3]|] eqn:Et; [| done]. injection E as <- <-.
    destruct (IH _ _ _ _ Et) as (-> & -> & Hl). cbn [fmap list_fmap concat fmt_of args_of app].
    rewrite (proj2 (Z.eqb_neq c CH_PERCENT)) by done. split_and!; [done | done | by constructor].
Qed.

(** The reference text of a call. *)
Definition text (c : call) : option (list Z) :=
  '(l, _) ← tokenize (S (length (literal (format c)))) (literal (format c)) (arguments c);
  Some (concat (text_of <$> l)).

Lemma text_printed c t : text c = Some t -> kprintf (literal (format c)) (arguments c) = Some t.
Proof.
  unfold text. destruct (tokenize _ _ _) as [[l rest]|] eqn:E; [| done]. intros [= <-].
  destruct (tokenize_sound _ _ _ _ _ E) as (-> & -> & Hl). by apply kprintf_tokens.
Qed.

Fixpoint texts (l : list call) : option (list Z) :=
  match l with [] => Some [] | c :: l => t ← text c; u ← texts l; Some (t ++ u) end.

Lemma texts_output l t : texts l = Some t -> output l = Some t.
Proof.
  revert t; induction l as [|c l IH]; intros t; [done |]. cbn [texts output].
  destruct (text c) as [u|] eqn:E; [| done]. rewrite (text_printed c u E). cbn [mbind option_bind].
  destruct (texts l) as [w|]; [| done]. rewrite (IH w eq_refl). done.
Qed.

(** ** What a panic shows *)
#[local] Open Scope string_scope.
Definition line (s : string) : list Z := bytes (s +++ nl).

(** The lines of [kernel_panic]: the frame of the exception, and for the error code
    and the general registers the letters of the directive only. *)
Definition panic_lines (reason : string) (number : Z) (f : interrupt_frame_t) : list (list Z) :=
  ([ line ""; line "========================================"; line "              KERNEL PANIC";
     line "========================================";
     bytes (nl +++ "Exception : ") ++ cstr (literal reason) ++ bytes nl;
     bytes "Interrupt : " ++ dec_text (u32 number) ++ bytes nl;
     line "Error Code: 0x016llx"; line (nl +++ "CPU State"); line "----------------------------------------";
     bytes "RIP    : 0x" ++ hex_text (u64 (rip f)) ++ bytes nl;
     bytes "CS     : 0x" ++ hex_text (u64 (cs f)) ++ bytes nl;
     bytes "RFLAGS : 0x" ++ hex_text (u64 (rflags f)) ++ bytes nl;
     bytes "RSP    : 0x" ++ hex_text (u64 (rsp f)) ++ bytes nl;
     bytes "SS     : 0x" ++ hex_text (u64 (ss f)) ++ bytes nl;
     line (nl +++ "General Registers"); line "----------------------------------------";
     line "RAX : 016llx"; line "RBX : 016llx"; line "RCX : 016llx"; line "RDX : 016llx"; line "RSI : 016llx";
     line "RDI : 016llx"; line "RBP : 016llx"; line "R8  : 016llx"; line "R9  : 016llx"; line "R10 : 016llx";
     line "R11 : 016llx"; line "R12 : 016llx"; line "R13 : 016llx"; line "R14 : 016llx"; line "R15 : 016llx" ])%list.

Definition panic_text (reason : string) (context : interrupt_context_t) : list Z :=
  concat (panic_lines reason (interrupt_number context) (frame context)).

Lemma kernel_panic_text reason context : output (kernel_panic reason context) = Some (panic_text reason context).
Proof. apply texts_output. reflexivity. Qed.

Lemma output_app l1 l2 t1 t2 : output l1 = Some t1 -> output l2 = Some t2 -> output (l1 ++ l2)%list = Some (t1 ++ t2)%list.
Proof.
  revert t1; induction l1 as [|c l1 IH]; intros t1 E1 E2; [by injection E1 as <- |]. cbn [output app] in *.
  destruct (kprintf _ _) as [t|]; [| done]. cbn [mbind option_bind] in *. destruct (output l1) as [u|]; [| done].
  injection E1 as <-. rewrite (IH u eq_refl E2). cbn [mbind option_bind]. by rewrite <- app_assoc.
Qed.

(** The lines of a page fault. *)
Definition answer (b : bool) : list Z := bytes (if b then "Yes" else "No").
Definition page_fault_text (cr2 error : Z) : list Z :=
  concat ([ line "Page Fault!"; bytes "Fault Address = 0x" ++ hex_text (u64 cr2) ++ bytes nl;
     line "=========================";
     bytes "Present        :" ++ answer (Z.testbit error 0) ++ bytes nl;
     bytes "Write          :" ++ answer (Z.testbit error 1) ++ bytes nl;
     bytes "User Mode      :" ++ answer (Z.testbit error 2) ++ bytes nl;
     bytes "Reserved Bit   :" ++ answer (Z.testbit error 3) ++ bytes nl;
     bytes "Instruction    :" ++ answer (Z.testbit error 4) ++ bytes nl;
     line "=========================" ])%list.

Lemma page_fault_messages_text cr2 error : output (page_fault_messages cr2 error) = Some (page_fault_text cr2 error).
Proof.
  apply texts_output. unfold page_fault_messages, page_fault_text.
  destruct (Z.testbit error 0), (Z.testbit error 1), (Z.testbit error 2), (Z.testbit error 3), (Z.testbit error 4); reflexivity.
Qed.
#[local] Close Scope string_scope.

(** ** Exceptions, with what they print *)
Section dispatch.
Context {A : Type} `{PageAllocator A}.
Implicit Types s : pt_state A.

Lemma name_found v : 0 <= v < 32 -> exists name, exception_names !! Z.to_nat v = Some name.
Proof. intros Hv. apply lookup_lt_is_Some. change (length exception_names) with 32%nat. lia. Qed.


(** Two contexts that differ in the error code and the general registers only. *)
Lemma panic_hides reason c1 c2 : interrupt_number c1 = interrupt_number c2 -> frame c1 = frame c2 ->
  output (kernel_panic reason c1) = output (kernel_panic reason c2).
Proof. intros E1 E2. rewrite !kernel_panic_text. unfold panic_text. by rewrite E1, E2. Qed.
End dispatch.

(** A divide error at [0xFFFFFFFF80001234]. *)
Definition demo_context : interrupt_context_t :=
  mk_context (mk_regs 1 2 3 4 5 6 7 8 9 10 11 12 13 14 15) 0 0 (mk_iframe 0xFFFFFFFF80001234 8 0x202 0xFFFF900000004000 16).


(** ** The dumps print for every state *)
Definition prints (c : call) : Prop := is_Some (kprintf (literal (format c)) (arguments c)).

Lemma output_prints l : Forall prints l -> is_Some (output l).
Proof. induction 1 as [|c l [t Ht] _ [u Hu]]; [by eexists |]. cbn [output]. rewrite Ht, Hu. by eexists. Qed.

(** A call whose format reads off against its arguments. *)
Ltac prints_call := eexists; apply text_printed; reflexivity.
Ltac prints_all := repeat (apply Forall_cons_2; [prints_call |]); try apply Forall_nil_2.

Lemma memory_map_dump_prints entries : Forall prints (memory_map_dump entries).
Proof.
  unfold memory_map_dump. apply Forall_app. split; [prints_all |]. apply Forall_app. split; [| prints_all].
  apply Forall_forall. intros c (i & e & -> & _)%elem_of_lookup_imap. prints_call.
Qed.

Lemma vma_dump_prints s : Forall prints (vma_dump s).
Proof.
  unfold vma_dump. apply Forall_app. split; [prints_all |]. destruct (Vma.vma_count s =? 0)%Z; [prints_all |].
  apply Forall_app. split; [| prints_all]. apply Forall_concat, Forall_fmap, Forall_forall. intros i _. cbn [compose].
  cbv beta zeta. apply Forall_app. split; [prints_all |].
  repeat (apply Forall_app; split; [destruct (flag_set _ _); prints_all |]). prints_all.
Qed.

Lemma page_table_dump_prints {A} `{PageAllocator A} va (s : pt_state A) : Forall prints (page_table_dump va s).2.
Proof.
  unfold page_table_dump. destruct (page_walk_internal _ _ _ _) as [s' r]. destruct (w_entry r =? NULL)%Z.
  - cbn [snd]. apply Forall_app. split; [prints_all |]. destruct (w_status r); prints_all.
  - cbn [snd]. apply Forall_app. split; [prints_all |].
    apply Forall_cons_2; [destruct (w_level r); prints_call |]. do 2 (apply Forall_cons_2; [prints_call |]).
    do 4 (apply Forall_cons_2; [match goal with |- context [str (if ?b then _ else _)] => destruct b end; prints_call |]).
    prints_all.
Qed.

Lemma elf_print_prints m header : Forall prints (elf_print_header m header) /\ Forall prints (elf_print_program_header m header).
Proof. split; prints_all. Qed.
End Reports.
