(* ===== verification/Framebuffer.v ===== *)
(** * The framebuffer and the drawing primitives: [framebuffer/framebuffer.c],
    [graphics/graphics.c]

    The screen is the kernel memory at [fb]; coordinates are [size_t], so that a
    negative C [int] arrives as a large unsigned number and is clipped.  What an
    operation draws is stated as an [ink]: the colour it gives to every pixel, or
    nothing.  [paints] relates the states before and after a drawing with its ink. *)
From S2P Require Import Prelude Memory.
Import Mem.
#[local] Open Scope Z_scope.

Module Framebuffer.

Definition store32 : Z -> Z -> mem -> mem := store_le 4.

Record fb_t := mk_fb {
  fb : Z; fb_width : Z; fb_height : Z; fb_pitch : Z; fb_address : Z;
  fb_mem : mem;
}.
Definition with_fb_mem (m : mem) (s : fb_t) : fb_t :=
  mk_fb (fb s) (fb_width s) (fb_height s) (fb_pitch s) (fb_address s) m.

Definition framebuffer_init (address width height pitch : Z) (s : fb_t) : fb_t :=
  mk_fb address width height (pitch / 4) address (fb_mem s).

Definition framebuffer_width (s : fb_t) : Z := fb_width s.
Definition framebuffer_height (s : fb_t) : Z := fb_height s.

Definition framebuffer_putpixel (x y color : Z) (s : fb_t) : fb_t :=
  if (x >=? fb_width s) || (y >=? fb_height s) then s
  else with_fb_mem (store32 (u64 (fb s + 4 * u64 (y * fb_pitch s + x))) color (fb_mem s)) s.

Definition framebuffer_clear (color : Z) (s : fb_t) : fb_t :=
  for_to 0 (fb_height s) (fun y s =>
    for_to 0 (fb_width s) (fun x s => framebuffer_putpixel x y color s) s) s.

Definition framebuffer_scroll (pixels clear_color : Z) (s : fb_t) : fb_t :=
  if pixels >=? fb_height s then framebuffer_clear clear_color s
  else
    let row_size := u64 (fb_pitch s * 4) in
    let m := k_memmove (fb s) (u64 (fb s + 4 * u64 (pixels * fb_pitch s)))
               (u64 (u64 (fb_height s - pixels) * row_size)) (fb_mem s) in
    let bottom := u64 (fb s + 4 * u64 (u64 (fb_height s - pixels) * fb_pitch s)) in
    for_to 0 pixels (fun y s =>
      for_to 0 (fb_width s) (fun x s =>
        with_fb_mem (store32 (u64 (bottom + 4 * u64 (y * fb_pitch s + x))) clear_color (fb_mem s)) s) s)
      (with_fb_mem m s).

(** ** [graphics/graphics.c] *)
Definition draw_pixel (x y color : Z) (s : fb_t) : fb_t :=
  let width := framebuffer_width s in
  let height := framebuffer_height s in
  if (x >=? width) || (y >=? height) then s else framebuffer_putpixel x y color s.

(** The end of a loop is computed in [size_t] and wraps around. *)
Definition draw_rect (x y width height color : Z) (s : fb_t) : fb_t :=
  for_to y (u64 (y + height)) (fun yy s =>
    for_to x (u64 (x + width)) (fun xx s => draw_pixel xx yy color s) s) s.

Definition fill_rect (x y width height color : Z) (s : fb_t) : fb_t :=
  for_to y (u64 (y + height)) (fun py s =>
    for_to x (u64 (x + width)) (fun px s => draw_pixel px py color s) s) s.

Definition abs_int (value : Z) : Z := if value <? 0 then i32 (- value) else value.

(** The loop of [draw_line]; [draw_pixel] takes the coordinates as [size_t]. *)
Fixpoint line_loop (fuel : nat) (x0 y0 x1 y1 sx sy dx dy err color : Z) (s : fb_t) : option fb_t :=
  match fuel with
  | O => None
  | S fuel' =>
    let s := draw_pixel (u64 x0) (u64 y0) color s in
    if (x0 =? x1) && (y0 =? y1) then Some s
    else
      let e2 := i32 (2 * err) in
      let '(err, x0) := if e2 >=? dy then (i32 (err + dy), i32 (x0 + sx)) else (err, x0) in
      let '(err, y0) := if e2 <=? dx then (i32 (err + dx), i32 (y0 + sy)) else (err, y0) in
      line_loop fuel' x0 y0 x1 y1 sx sy dx dy err color s
  end.

Definition draw_line (fuel : nat) (x0 y0 x1 y1 color : Z) (s : fb_t) : option fb_t :=
  let dx := abs_int (i32 (x1 - x0)) in
  let sx := if x0 <? x1 then 1 else -1 in
  let dy := i32 (- abs_int (i32 (y1 - y0))) in
  let sy := if y0 <? y1 then 1 else -1 in
  let err := i32 (dx + dy) in
  line_loop fuel x0 y0 x1 y1 sx sy dx dy err color s.

(** ** The screen *)
Record fb_ok (s : fb_t) : Prop := {
  ok_width : 0 <= fb_width s <= fb_pitch s;
  ok_height : 0 <= fb_height s < 2 ^ 64;
  ok_base : 0 <= fb s;
  ok_end : fb s + 4 * (fb_pitch s * fb_height s) < 2 ^ 64;
}.

Definition on_screen (s : fb_t) (x y : Z) : Prop := 0 <= x < fb_width s /\ 0 <= y < fb_height s.
#[global] Instance on_screen_dec s x y : Decision (on_screen s x y).
Proof. unfold on_screen. apply _. Defined.

Definition pixel_addr (s : fb_t) (x y : Z) : Z := fb s + 4 * (y * fb_pitch s + x).
Definition pixel (s : fb_t) (x y : Z) : Z := load32 (fb_mem s) (pixel_addr s x y).

(** The same screen, with other contents. *)
Definition same_screen (s s' : fb_t) : Prop := exists m, s' = with_fb_mem m s.

(** ** Inks *)
Definition ink := Z -> Z -> option Z.
Definition no_ink : ink := fun _ _ => None.
(** [f] drawn after [g]. *)
Definition over (f g : ink) : ink := fun x y => match f x y with Some c => Some c | None => g x y end.

Definition dot (x y color : Z) : ink := fun x' y' => if (x' =? x) && (y' =? y) then Some color else None.
Definition rect (x0 y0 x1 y1 color : Z) : ink :=
  fun x y => if (x0 <=? x) && (x <? x1) && (y0 <=? y) && (y <? y1) then Some color else None.

Record paints (s s' : fb_t) (f : ink) : Prop := {
  pa_screen : same_screen s s';
  pa_pixel x y : on_screen s x y -> pixel s' x y = match f x y with Some c => u32 c | None => pixel s x y end;
  pa_rest a : 0 <= a < 2 ^ 64 -> (forall x y, on_screen s x y -> ~ pixel_addr s x y <= a < pixel_addr s x y + 4) ->
    load8 (fb_mem s') a = load8 (fb_mem s) a;
}.

Lemma same_screen_refl s : same_screen s s.
Proof. exists (fb_mem s). by destruct s. Qed.
Lemma same_screen_trans s1 s2 s3 : same_screen s1 s2 -> same_screen s2 s3 -> same_screen s1 s3.
Proof. intros [m ->] [m' ->]. by exists m'. Qed.
Lemma same_screen_ok s s' : same_screen s s' -> fb_ok s -> fb_ok s'.
Proof. intros [m ->] []. by split. Qed.
#[export] Hint Resolve same_screen_refl same_screen_trans same_screen_ok : zenith.

Lemma paints_nothing s : paints s s no_ink.
Proof. split; [auto with zenith | done | done]. Qed.

Lemma paints_ext s s' f g : paints s s' f -> (forall x y, on_screen s x y -> f x y = g x y) -> paints s s' g.
Proof. intros [H1 H2 H3] Hfg. split; [done | | done]. intros x y Ho. rewrite H2 by done. by rewrite Hfg. Qed.

Lemma paints_trans s1 s2 s3 f g : paints s1 s2 f -> paints s2 s3 g -> paints s1 s3 (over g f).
Proof.
  intros [[m ->] Hp Hr] [[m' ->] Hp' Hr']. split; [by exists m' | |].
  - intros x y Ho. rewrite Hp' by exact Ho. unfold over. destruct (g x y); [done |]. by apply Hp.
  - intros a Ha Hn. rewrite Hr'; [by apply Hr | done | exact Hn].
Qed.

Lemma paints_screen s s' f : paints s s' f -> same_screen s s'.
Proof. by intros []. Qed.
Lemma paints_ok s s' f : paints s s' f -> fb_ok s -> fb_ok s'.
Proof. intros [H _ _]. by apply same_screen_ok. Qed.
#[export] Hint Resolve paints_nothing paints_screen paints_ok : zenith.

(** ** Addresses of pixels *)
Section screen.
Context (s : fb_t) (Hok : fb_ok s).

Lemma pixel_index x y : on_screen s x y -> 0 <= y * fb_pitch s + x < fb_pitch s * fb_height s.
Proof. destruct Hok as [Hw Hh _ _]. intros [Hx Hy]. nia. Qed.

Lemma pixel_addr_range x y : on_screen s x y ->
  fb s <= pixel_addr s x y /\ pixel_addr s x y + 4 <= fb s + 4 * (fb_pitch s * fb_height s).
Proof. intros Ho. pose proof (pixel_index x y Ho). unfold pixel_addr. lia. Qed.

Lemma pixel_addr_apart x y x' y' : on_screen s x y -> on_screen s x' y' -> (x, y) <> (x', y') ->
  pixel_addr s x y + 4 <= pixel_addr s x' y' \/ pixel_addr s x' y' + 4 <= pixel_addr s x y.
Proof.
  destruct Hok as [Hw Hh _ _]. intros [Hx Hy] [Hx' Hy'] Hne. unfold pixel_addr.
  destruct (Z.lt_trichotomy y y') as [?|[->|?]]; [left; nia | | right; nia].
  assert (x <> x') by congruence. lia.
Qed.

(** The address the code computes. *)
Lemma code_addr x y : on_screen s x y -> u64 (fb s + 4 * u64 (y * fb_pitch s + x)) = pixel_addr s x y.
Proof.
  intros Ho. pose proof (pixel_index x y Ho). pose proof (pixel_addr_range x y Ho). destruct Hok as [_ _ Hb He].
  unfold pixel_addr in *. rewrite (u64_id (_ + x)) by lia. apply u64_id. lia.
Qed.

Lemma store_paints x y color : on_screen s x y ->
  paints s (with_fb_mem (store32 (pixel_addr s x y) color (fb_mem s)) s) (dot x y color).
Proof.
  intros Ho. pose proof (pixel_addr_range x y Ho). destruct Hok as [Hw Hh Hb He].
  split; [by eexists | |].
  - intros x' y' Ho'. unfold pixel. cbn [fb_mem with_fb_mem]. change (pixel_addr (with_fb_mem _ s) x' y') with (pixel_addr s x' y').
    unfold dot. destruct (decide ((x', y') = (x, y))) as [[= -> ->]|Hne].
    + rewrite !Z.eqb_refl. cbn [andb]. unfold load32, store32. by rewrite load_le_store_le by lia.
    + replace ((x' =? x) && (y' =? y)) with false
        by (symmetry; apply andb_false_iff; destruct (Z.eqb_spec x' x), (Z.eqb_spec y' y); auto; congruence).
      apply load_le_ext. intros a Ha. pose proof (pixel_addr_range x' y' Ho').
      pose proof (pixel_addr_apart x y x' y' Ho Ho' ltac:(congruence)). apply load8_store_le_ne; lia.
  - intros a Ha Hn. cbn [fb_mem with_fb_mem]. pose proof (Hn x y Ho). apply load8_store_le_ne; lia.
Qed.

Lemma putpixel_paints x y color : 0 <= x -> 0 <= y -> paints s (framebuffer_putpixel x y color s) (dot x y color).
Proof.
  intros Hx Hy. unfold framebuffer_putpixel. destruct (decide (on_screen s x y)) as [Ho|Hno].
  - pose proof Ho as [? ?]. rewrite (proj2 (orb_false_iff _ _)) by (rewrite !Z.geb_leb, !Z.leb_gt; lia).
    rewrite code_addr by done. by apply store_paints.
  - rewrite (proj2 (orb_true_iff _ _)) by (unfold on_screen in Hno; rewrite !Z.geb_leb, !Z.leb_le; lia).
    eapply paints_ext; [apply paints_nothing |]. intros x' y' Ho. unfold no_ink, dot.
    destruct (Z.eqb_spec x' x), (Z.eqb_spec y' y); cbn; congruence.
Qed.

Lemma draw_pixel_paints x y color : 0 <= x -> 0 <= y -> paints s (draw_pixel x y color s) (dot x y color).
Proof.
  intros Hx Hy. pose proof (putpixel_paints x y color Hx Hy) as H. unfold draw_pixel, framebuffer_width, framebuffer_height.
  destruct (_ || _) eqn:E; [| done]. unfold framebuffer_putpixel in H. by rewrite E in H.
Qed.
End screen.

(** ** Loops of drawings *)
Definition overs (a b : Z) (g : Z -> ink) : ink := for_to a b (fun j acc => over (g j) acc) no_ink.

Lemma for_range_rel {S T} (R : S -> T -> Prop) n i (f : Z -> S -> S) (g : Z -> T -> T) s t :
  R s t -> (forall j s t, i <= j < i + Z.of_nat n -> R s t -> R (f j s) (g j t)) ->
  R (for_range n i f s) (for_range n i g t).
Proof.
  revert i s t; induction n as [|n IH]; intros i s t H0 Hs; [done |]. cbn. apply IH; [apply Hs; [lia | done] |].
  intros j s' t' Hj. apply Hs. lia.
Qed.

Lemma loop_paints s a b f g : fb_ok s ->
  (forall j t, a <= j < b -> same_screen s t -> fb_ok t -> paints t (f j t) (g j)) ->
  paints s (for_to a b f s) (overs a b g).
Proof.
  intros Hok Hf. unfold overs, for_to.
  apply (for_range_rel (fun t i => paints s t i)); [apply paints_nothing |].
  intros j t i Hj Ht. eapply paints_trans; [exact Ht |]. apply Hf; [lia | |]; eauto with zenith.
Qed.

Lemma overs_none a b g x y : (forall j, a <= j < b -> g j x y = None) -> overs a b g x y = None.
Proof.
  intros Hg. unfold overs. destruct (Z.le_gt_cases a b) as [Hab|Hab]; [| rewrite for_to_empty by lia; done].
  apply (for_to_inv (fun _ (i : ink) => i x y = None)); [done | done |].
  intros j t Hj Ht. unfold over. by rewrite Hg.
Qed.

(** One colour: the union. *)
Lemma overs_some a b g x y c : (forall j, a <= j < b -> g j x y = None \/ g j x y = Some c) ->
  (exists j, a <= j < b /\ g j x y = Some c) -> overs a b g x y = Some c.
Proof.
  intros Hg (k & Hk & Ek). unfold overs.
  assert (H : (k < b)%Z /\ for_to a b (fun j acc => over (g j) acc) no_ink x y = Some c); [| by destruct H].
  split; [lia |].
  pose proof (for_to_inv (fun j (i : ink) => k < j -> i x y = Some c) a b (fun j acc => over (g j) acc) no_ink) as H.
  apply H; [lia | lia | | lia]. clear H. intros j t Hj Ht Hkj. unfold over.
  destruct (Hg j Hj) as [E|E]; rewrite E; [| done]. apply Ht. destruct (decide (k = j)) as [->|]; [congruence | lia].
Qed.

Definition ink_of (c : Z) (o : option Z) : Prop := o = None \/ o = Some c.

Lemma overs_ink_of a b g x y c : (forall j, a <= j < b -> ink_of c (g j x y)) -> ink_of c (overs a b g x y).
Proof.
  intros Hg. unfold overs. destruct (Z.le_gt_cases a b); [| rewrite for_to_empty by lia; by left].
  apply (for_to_inv (fun _ (i : ink) => ink_of c (i x y))); [done | by left |].
  intros j t Hj Ht. unfold over. destruct (Hg j Hj) as [ -> | -> ]; [done | by right].
Qed.

Lemma overs_iff a b g x y c : (forall j, a <= j < b -> ink_of c (g j x y)) ->
  overs a b g x y = Some c <-> exists j, a <= j < b /\ g j x y = Some c.
Proof.
  intros Hg. split; [| by apply overs_some]. intros E.
  destruct (decide (Exists (fun j => g j x y = Some c) (seqZ a (b - a)))) as [Hex|Hno].
  - apply Exists_exists in Hex as (j & Hj & Ej). apply elem_of_seqZ in Hj. exists j. split; [lia | done].
  - rewrite overs_none in E; [done |]. intros j Hj. destruct (Hg j Hj) as [?|Ej]; [done |].
    exfalso. apply Hno, Exists_exists. exists j. split; [apply elem_of_seqZ; lia | done].
Qed.

Lemma ink_of_eq c o o' : ink_of c o -> ink_of c o' -> (o = Some c <-> o' = Some c) -> o = o'.
Proof. unfold ink_of. intros [ -> | -> ] [ -> | -> ] [H1 H2]; try done; [by apply H2 | by symmetry; apply H1]. Qed.

Lemma rect_in x0 y0 x1 y1 c x y : x0 <= x < x1 -> y0 <= y < y1 -> rect x0 y0 x1 y1 c x y = Some c.
Proof. intros. unfold rect. destruct (_ && _) eqn:E; [done |]. rewrite !andb_false_iff, !Z.leb_gt, !Z.ltb_ge in E. lia. Qed.
Lemma rect_out x0 y0 x1 y1 c x y : ~ (x0 <= x < x1 /\ y0 <= y < y1) -> rect x0 y0 x1 y1 c x y = None.
Proof. intros. unfold rect. destruct (_ && _) eqn:E; [| done]. bool_to_prop. lia. Qed.
Lemma dot_in x y c : dot x y c x y = Some c.
Proof. unfold dot. by rewrite !Z.eqb_refl. Qed.
Lemma dot_out x y c x' y' : (x', y') <> (x, y) -> dot x y c x' y' = None.
Proof. intros. unfold dot. destruct (Z.eqb_spec x' x), (Z.eqb_spec y' y); try done. congruence. Qed.

Lemma overs_row x0 x1 x y py c : overs x0 x1 (fun px => dot px py c) x y = rect x0 py x1 (py + 1) c x y.
Proof.
  destruct (decide (x0 <= x < x1 /\ y = py)) as [[Hx ->]|Hn].
  - rewrite rect_in by lia. apply overs_some; [intros j _; unfold dot; destruct (_ && _); auto |].
    exists x. split; [lia | apply dot_in].
  - rewrite rect_out by lia. apply overs_none. intros j Hj. apply dot_out. intros [= -> ->]. lia.
Qed.

Lemma overs_rows x0 x1 y0 y1 c x y :
  overs y0 y1 (fun py => overs x0 x1 (fun px => dot px py c)) x y = rect x0 y0 x1 y1 c x y.
Proof.
  destruct (decide (x0 <= x < x1 /\ y0 <= y < y1)) as [[Hx Hy]|Hn].
  - rewrite rect_in by lia. apply overs_some.
    + intros j _. rewrite overs_row. unfold rect. destruct (_ && _); auto.
    + exists y. split; [lia |]. rewrite overs_row. apply rect_in; lia.
  - rewrite rect_out by lia. apply overs_none. intros j Hj. rewrite overs_row. apply rect_out. lia.
Qed.

(** ** The drawing functions *)
Lemma fill_paints s x y width height color : fb_ok s -> 0 <= x -> 0 <= y ->
  paints s (fill_rect x y width height color s) (rect x y (u64 (x + width)) (u64 (y + height)) color).
Proof.
  intros Hok Hx Hy. eapply paints_ext; [| intros px py _; apply overs_rows].
  apply loop_paints; [done |]. intros py t Hpy _ Hokt. apply loop_paints; [done |]. intros px u Hpx _ Hoku.
  apply draw_pixel_paints; [done | lia | lia].
Qed.

(** [draw_rect] is the same loop. *)
Lemma draw_rect_fill x y width height color s : draw_rect x y width height color s = fill_rect x y width height color s.
Proof. done. Qed.

Lemma clear_paints s color : fb_ok s ->
  paints s (framebuffer_clear color s) (fun _ _ => Some color).
Proof.
  intros Hok. eapply (paints_ext _ _ (rect 0 0 (fb_width s) (fb_height s) color)); [| intros x y [Hx Hy]; by apply rect_in].
  eapply paints_ext; [| intros px py _; apply overs_rows].
  unfold framebuffer_clear. apply loop_paints; [done |]. intros py t Hpy [m ->] Hokt. apply loop_paints; [done |].
  intros px u Hpx _ Hoku. apply putpixel_paints; [done | lia | lia].
Qed.

(** fill_rect gives its colour to the pixels of the rectangle that are on the
    screen and changes nothing else in memory, provided the end of the rectangle
    fits in [size_t]; a rectangle that starts left of or above the screen and
    ends on it wraps around and draws nothing at all. *)
Theorem fill_rect_correct s x y width height color (Hok : fb_ok s)
    (Hx : 0 <= x < 2 ^ 64) (Hy : 0 <= y < 2 ^ 64) (Hw : 0 <= width < 2 ^ 64) (Hh : 0 <= height < 2 ^ 64) :
  let s' := fill_rect x y width height color s in
  (x + width < 2 ^ 64 -> y + height < 2 ^ 64 -> paints s s' (rect x y (x + width) (y + height) color)) /\
  (2 ^ 64 <= x + width -> paints s s' no_ink) /\
  (2 ^ 64 <= y + height -> s' = s).
Proof.
  intros s'. pose proof (fill_paints s x y width height color Hok ltac:(lia) ltac:(lia)) as H.
  split; [intros ? ?; by rewrite !u64_id in H by lia |]. split.
  - intros Hw2. eapply paints_ext; [exact H |]. intros px py [Hpx _]. apply rect_out.
    replace (u64 (x + width)) with (x + width - 2 ^ 64) by word_lia. lia.
  - intros Hh2. unfold s', fill_rect. apply for_to_empty.
    replace (u64 (y + height)) with (y + height - 2 ^ 64) by word_lia. lia.
Qed.

(** ** Lines *)
Definition dots (pts : list (Z * Z)) (color : Z) : ink := fun x y => if decide ((x, y) ∈ pts) then Some color else None.

(** Off the screen [draw_pixel] draws nothing, also for a negative [int]. *)
Lemma draw_int_pixel_paints s x y color : fb_ok s -> - 2 ^ 31 <= x < 2 ^ 31 -> - 2 ^ 31 <= y < 2 ^ 31 ->
  fb_width s <= 2 ^ 31 -> fb_height s <= 2 ^ 31 ->
  paints s (draw_pixel (u64 x) (u64 y) color s) (dots [(x, y)] color).
Proof.
  intros Hok Hx Hy Hw Hh. pose proof (u64_range x). pose proof (u64_range y).
  eapply paints_ext; [apply draw_pixel_paints; [done | lia | lia] |].
  intros px py [Hpx Hpy]. unfold dots. case_decide as Hd.
  - apply list_elem_of_singleton in Hd as [= -> ->]. rewrite !u64_id by lia. apply dot_in.
  - apply dot_out. intros [= E1 E2]. apply Hd, list_elem_of_singleton. f_equal; word_lia.
Qed.

Lemma dots_over pts p color x y : over (dots pts color) (dots [p] color) x y = dots (p :: pts) color x y.
Proof.
  unfold over, dots. destruct (decide ((x, y) ∈ pts)) as [H|H].
  - by rewrite decide_True by (apply elem_of_cons; auto).
  - destruct (decide ((x, y) = p)) as [<-|Hne].
    + by rewrite !decide_True by (rewrite ?list_elem_of_singleton, ?elem_of_cons; auto).
    + by rewrite !decide_False by (rewrite ?list_elem_of_singleton, ?elem_of_cons; naive_solver).
Qed.

(** [j] minor steps after [i] major ones: within half a pixel of the straight
    line with major extent [M] and minor extent [N]. *)
Definition near (M N i j : Z) : Prop := 0 <= j <= N /\ - M <= 2 * (i * N - j * M) <= M.

(** The points of a line: [at_ k j] is the point after [k] major and [j] minor steps. *)
Definition line_of (at_ : Z -> Z -> Z * Z) (M N : Z) (pts : list (Z * Z)) : Prop :=
  Z.of_nat (length pts) = M + 1 /\ pts !! 0%nat = Some (at_ 0 0) /\ last pts = Some (at_ M N) /\
  forall k p, pts !! k = Some p -> exists j, p = at_ (Z.of_nat k) j /\ near M N (Z.of_nat k) j.

Section line.
Context (x0 y0 sx sy DX DY color : Z).
Context (Hx0 : - 2 ^ 28 <= x0 <= 2 ^ 28) (Hy0 : - 2 ^ 28 <= y0 <= 2 ^ 28).
Context (Hsx : sx = 1 \/ sx = -1) (Hsy : sy = 1 \/ sy = -1).
Context (HDX : 0 <= DX <= 2 ^ 29) (HDY : 0 <= DY <= 2 ^ 29).
Let x1 := x0 + sx * DX.
Let y1 := y0 + sy * DY.
Let err i j := DX - DY - i * DY + j * DX.

(** The rest of a line from its [i]-th point on. *)
Definition rest (at_ : Z -> Z -> Z * Z) (M N i j : Z) (pts : list (Z * Z)) : Prop :=
  Z.of_nat (length pts) = M - i + 1 /\ pts !! 0%nat = Some (at_ i j) /\ last pts = Some (at_ M N) /\
  forall k p, pts !! k = Some p -> exists j', p = at_ (i + Z.of_nat k) j' /\ near M N (i + Z.of_nat k) j'.

Lemma rest_last at_ M N : 0 <= M -> near M N M N -> rest at_ M N M N [at_ M N].
Proof.
  intros HM Hn. split; [cbn; lia |]. split; [done |]. split; [done |].
  intros [|k] p; [| done]. intros [= <-]. exists N. by rewrite Z.add_0_r.
Qed.

Lemma rest_cons at_ M N i j j' pts : near M N i j -> rest at_ M N (i + 1) j' pts -> rest at_ M N i j (at_ i j :: pts).
Proof.
  intros Hn (Hl & H0 & He & Hk). split; [cbn [length]; lia |]. split; [done |].
  split; [destruct pts; [done | exact He] |]. intros [|k] p.
  - intros [= <-]. exists j. by rewrite Z.add_0_r.
  - cbn. intros E. destruct (Hk k p E) as (j'' & -> & Hn'). exists j''. by replace (i + Z.of_nat (S k)) with (i + 1 + Z.of_nat k) by lia.
Qed.

Definition shallow_at (i j : Z) : Z * Z := (x0 + sx * i, y0 + sy * j).
Definition steep_at (j i : Z) : Z * Z := (x0 + sx * i, y0 + sy * j).

(** The next minor step. *)
Definition minor (M N i j : Z) : Z := if 2 * ((i + 1) * N - j * M) >=? M then j + 1 else j.

Lemma minor_near M N i j : 0 < M -> 0 <= N <= M -> 0 <= i < M ->
  0 <= j -> - M <= 2 * (i * N - j * M) < M ->
  0 <= minor M N i j /\ - M <= 2 * ((i + 1) * N - minor M N i j * M) < M.
Proof. intros. unfold minor. destruct (_ >=? _) eqn:E; bool_to_prop; lia. Qed.

Lemma near_of M N i j : 0 < M -> 0 <= N -> 0 <= i <= M -> 0 <= j -> - M <= 2 * (i * N - j * M) < M -> near M N i j.
Proof. intros HM HN Hi Hj HD. split; [| lia]. split; [done |]. assert (i * N <= M * N) by nia. assert (2 * ((j - N) * M) <= M) by lia. nia. Qed.

Lemma minor_end M N j : 0 < M -> - M <= 2 * (M * N - j * M) < M -> j = N.
Proof. intros HM H. assert (- M <= 2 * ((N - j) * M) < M) by lia. nia. Qed.

Context (s0 : fb_t) (Hw : fb_width s0 <= 2 ^ 31) (Hh : fb_height s0 <= 2 ^ 31).

Ltac sgn := destruct Hsx as [Esx|Esx], Hsy as [Esy|Esy]; rewrite ?Esx, ?Esy; lia.

(** One more point in front of a painted line. *)
Lemma line_cons s s2 p pts : paints s s2 (dots [p] color) -> forall s', paints s2 s' (dots pts color) ->
  paints s s' (dots (p :: pts) color).
Proof.
  intros Hp s' Hs. eapply paints_ext; [eapply paints_trans; [exact Hp | exact Hs] |]. intros x y _. apply dots_over.
Qed.

Lemma loop_pixel s x y : same_screen s0 s -> fb_ok s -> - 2 ^ 31 <= x < 2 ^ 31 -> - 2 ^ 31 <= y < 2 ^ 31 ->
  paints s (draw_pixel (u64 x) (u64 y) color s) (dots [(x, y)] color) /\
  same_screen s0 (draw_pixel (u64 x) (u64 y) color s) /\ fb_ok (draw_pixel (u64 x) (u64 y) color s).
Proof.
  intros Hs Hok Hx Hy. assert (Hp : paints s (draw_pixel (u64 x) (u64 y) color s) (dots [(x, y)] color))
    by (apply draw_int_pixel_paints; [done | lia | lia | |]; by destruct Hs as [m ->]).
  split; [done |]. split; eauto with zenith.
Qed.

Lemma shallow_loop fuel : forall i j s, DY <= DX -> 0 < DX -> 0 <= i <= DX -> (Z.to_nat (DX - i) < fuel)%nat ->
  0 <= j -> - DX <= 2 * (i * DY - j * DX) < DX -> same_screen s0 s -> fb_ok s ->
  exists s' pts, line_loop fuel (x0 + sx * i) (y0 + sy * j) x1 y1 sx sy DX (- DY) (err i j) color s = Some s' /\
    rest shallow_at DX DY i j pts /\ paints s s' (dots pts color).
Proof.
  induction fuel as [|fuel IH]; intros i j s Hle HM Hi Hf Hj HD Hs Hok; [lia |].
  pose proof (near_of DX DY i j HM ltac:(lia) Hi Hj HD) as Hn. pose proof Hn as [Hjn _].
  destruct (loop_pixel s (x0 + sx * i) (y0 + sy * j)) as (Hp & Hs2 & Hok2);
    [done | done | sgn | sgn |].
  cbn [line_loop]. unfold x1 at 1, y1 at 1. destruct (decide (i = DX)) as [->|Hne].
  { assert (j = DY) as -> by (apply (minor_end DX); lia). rewrite !Z.eqb_refl. cbn [andb].
    eexists _, [shallow_at DX DY]. split; [done |]. split; [apply rest_last; [lia | done] | exact Hp]. }
  rewrite (proj2 (Z.eqb_neq (x0 + sx * i) (x0 + sx * DX))) by (sgn). cbn [andb].
  pose proof (minor_near DX DY i j HM ltac:(lia) ltac:(lia) Hj HD) as [Hj' HD'].
  pose proof (near_of DX DY (i + 1) _ HM ltac:(lia) ltac:(lia) Hj' HD') as [Hjn' _].
  destruct (IH (i + 1) (minor DX DY i j) (draw_pixel (u64 (x0 + sx * i)) (u64 (y0 + sy * j)) color s)) as (s' & pts & E & Hr & Hps);
    try done; try lia.
  exists s', (shallow_at i j :: pts). split; [| split; [by eapply rest_cons | by eapply line_cons]].
  rewrite <- E. unfold err, minor in *. rewrite (i32_id (2 * _)) by lia.
  rewrite (proj2 (Z.geb_le _ _)) by lia. rewrite (i32_id (x0 + sx * i + sx)) by (sgn).
  rewrite (i32_id (_ + - DY)) by lia.
  destruct (Z.geb_spec (2 * ((i + 1) * DY - j * DX)) DX).
  - rewrite (proj2 (Z.leb_le _ _)) by lia. rewrite (i32_id (y0 + sy * j + sy)) by (sgn).
    rewrite i32_id by lia. f_equal; lia.
  - rewrite (proj2 (Z.leb_gt _ _)) by lia. f_equal; lia.
Qed.

Lemma steep_loop fuel : forall i j s, DX <= DY -> 0 < DY -> 0 <= j <= DY -> (Z.to_nat (DY - j) < fuel)%nat ->
  0 <= i -> - DY <= 2 * (j * DX - i * DY) < DY -> same_screen s0 s -> fb_ok s ->
  exists s' pts, line_loop fuel (x0 + sx * i) (y0 + sy * j) x1 y1 sx sy DX (- DY) (err i j) color s = Some s' /\
    rest steep_at DY DX j i pts /\ paints s s' (dots pts color).
Proof.
  induction fuel as [|fuel IH]; intros i j s Hle HM Hj Hf Hi HD Hs Hok; [lia |].
  pose proof (near_of DY DX j i HM ltac:(lia) Hj Hi HD) as Hn. pose proof Hn as [Hin _].
  destruct (loop_pixel s (x0 + sx * i) (y0 + sy * j)) as (Hp & Hs2 & Hok2); [done | done | sgn | sgn |].
  cbn [line_loop]. unfold x1 at 1, y1 at 1. destruct (decide (j = DY)) as [->|Hne].
  { assert (i = DX) as -> by (apply (minor_end DY); lia). rewrite !Z.eqb_refl. cbn [andb].
    eexists _, [steep_at DY DX]. split; [done |]. split; [apply rest_last; [lia | done] | exact Hp]. }
  rewrite (proj2 (Z.eqb_neq (y0 + sy * j) (y0 + sy * DY))) by sgn. rewrite andb_false_r.
  pose proof (minor_near DY DX j i HM ltac:(lia) ltac:(lia) Hi HD) as [Hi' HD'].
  pose proof (near_of DY DX (j + 1) _ HM ltac:(lia) ltac:(lia) Hi' HD') as [Hin' _].
  destruct (IH (minor DY DX j i) (j + 1) (draw_pixel (u64 (x0 + sx * i)) (u64 (y0 + sy * j)) color s)) as (s' & pts & E & Hr & Hps);
    try done; try lia.
  exists s', (steep_at j i :: pts). split; [| split; [by eapply rest_cons | by eapply line_cons]].
  rewrite <- E. unfold err, minor in *. rewrite (i32_id (2 * _)) by lia.
  destruct (Z.geb_spec (2 * ((j + 1) * DX - i * DY)) DY).
  - rewrite (proj2 (Z.geb_le _ _)) by lia. rewrite (i32_id (_ + - DY)) by lia. rewrite (i32_id (x0 + sx * i + sx)) by sgn.
    rewrite (proj2 (Z.leb_le _ _)) by lia. rewrite (i32_id (y0 + sy * j + sy)) by sgn. rewrite i32_id by lia. f_equal; lia.
  - rewrite (Z.geb_leb _ (- DY)), (proj2 (Z.leb_gt _ _)) by lia.
    rewrite (proj2 (Z.leb_le _ _)) by lia. rewrite (i32_id (y0 + sy * j + sy)) by sgn. rewrite i32_id by lia. f_equal; lia.
Qed.

Lemma line_of_rest at_ M N pts : rest at_ M N 0 0 pts -> line_of at_ M N pts.
Proof. intros (Hl & H0 & He & Hk). split; [lia |]. done. Qed.

Lemma line_loop_spec fuel : fb_ok s0 -> Z.max DX DY < Z.of_nat fuel ->
  exists s' pts, line_loop fuel x0 y0 x1 y1 sx sy DX (- DY) (DX - DY) color s0 = Some s' /\
    paints s0 s' (dots pts color) /\
    (DY <= DX -> line_of shallow_at DX DY pts) /\ (DX < DY -> line_of steep_at DY DX pts).
Proof.
  intros Hok Hf. destruct (decide (DX = 0 /\ DY = 0)) as [[E1 E2]|Hne].
  - destruct fuel as [|fuel]; [lia |]. cbn [line_loop].
    destruct (loop_pixel s0 x0 y0 ltac:(auto with zenith) Hok ltac:(lia) ltac:(lia)) as (Hp & _ & _).
    rewrite !(proj2 (Z.eqb_eq _ _)) by (unfold x1, y1; rewrite ?E1, ?E2; lia). cbn [andb].
    eexists _, [(x0, y0)]. split; [done |]. split; [done |]. split; [intros _ | lia].
    rewrite E1, E2. apply line_of_rest. replace (x0, y0) with (shallow_at 0 0) by (unfold shallow_at; f_equal; lia).
    apply rest_last; [done |]. split; lia.
  - destruct (decide (DY <= DX)) as [Hle|Hle].
    + destruct (shallow_loop fuel 0 0 s0) as (s' & pts & E & Hr & Hp); auto with zenith; try lia.
      replace (x0 + sx * 0) with x0 in E by lia. replace (y0 + sy * 0) with y0 in E by lia.
      replace (err 0 0) with (DX - DY) in E by (unfold err; lia).
      exists s', pts. split; [done |]. split; [done |]. split; [intros _; by apply line_of_rest | lia].
    + destruct (steep_loop fuel 0 0 s0) as (s' & pts & E & Hr & Hp); auto with zenith; try lia.
      replace (x0 + sx * 0) with x0 in E by lia. replace (y0 + sy * 0) with y0 in E by lia.
      replace (err 0 0) with (DX - DY) in E by (unfold err; lia).
      exists s', pts. split; [done |]. split; [done |]. split; [lia | intros _; by apply line_of_rest].
Qed.
End line.

(** C19: draw_line ends for all end points below [2^28], after one pixel for every
    step of the longer side; it starts and ends at the given points, every pixel
    is within half a pixel of the straight line between them, pixels off the
    screen are clipped, and nothing else in memory changes. *)
Theorem draw_line_correct s x0 y0 x1 y1 color fuel (Hok : fb_ok s)
    (Hw : fb_width s <= 2 ^ 31) (Hh : fb_height s <= 2 ^ 31)
    (Hx0 : - 2 ^ 28 <= x0 <= 2 ^ 28) (Hy0 : - 2 ^ 28 <= y0 <= 2 ^ 28)
    (Hx1 : - 2 ^ 28 <= x1 <= 2 ^ 28) (Hy1 : - 2 ^ 28 <= y1 <= 2 ^ 28)
    (Hf : Z.max (Z.abs (x1 - x0)) (Z.abs (y1 - y0)) < Z.of_nat fuel) :
  let DX := Z.abs (x1 - x0) in let DY := Z.abs (y1 - y0) in
  let sx := if x0 <? x1 then 1 else -1 in let sy := if y0 <? y1 then 1 else -1 in
  exists s' pts, draw_line fuel x0 y0 x1 y1 color s = Some s' /\ paints s s' (dots pts color) /\
    pts !! 0%nat = Some (x0, y0) /\ last pts = Some (x1, y1) /\
    (DY <= DX -> line_of (fun i j => (x0 + sx * i, y0 + sy * j)) DX DY pts) /\
    (DX < DY -> line_of (fun j i => (x0 + sx * i, y0 + sy * j)) DY DX pts).
Proof.
  intros DX DY sx sy.
  assert (Hsx : (sx = 1 \/ sx = -1) /\ x0 + sx * DX = x1) by (unfold sx, DX; destruct (Z.ltb_spec x0 x1); lia).
  assert (Hsy : (sy = 1 \/ sy = -1) /\ y0 + sy * DY = y1) by (unfold sy, DY; destruct (Z.ltb_spec y0 y1); lia).
  destruct Hsx as [Hsx E1], Hsy as [Hsy E2].
  destruct (line_loop_spec x0 y0 sx sy DX DY color Hx0 Hy0 Hsx Hsy ltac:(lia) ltac:(lia) s Hw Hh fuel Hok Hf)
    as (s' & pts & E & Hp & H1 & H2).
  rewrite E1, E2 in E. exists s', pts. split.
  { rewrite <- E. unfold draw_line, abs_int. rewrite !(i32_id (_ - _)) by lia. fold sx sy.
    replace (if x1 - x0 <? 0 then i32 (- (x1 - x0)) else x1 - x0) with DX
      by (destruct (Z.ltb_spec (x1 - x0) 0); [rewrite i32_id by lia |]; lia).
    replace (if y1 - y0 <? 0 then i32 (- (y1 - y0)) else y1 - y0) with DY
      by (destruct (Z.ltb_spec (y1 - y0) 0); [rewrite i32_id by lia |]; lia).
    rewrite (i32_id (- DY)) by lia. by rewrite i32_id by lia. }
  split; [done |]. split; [| split; [| by split]];
    (destruct (decide (DY <= DX)) as [Hle|Hle]; [destruct (H1 Hle) as (_ & A & B & _) | destruct (H2 ltac:(lia)) as (_ & A & B & _)]);
    (rewrite A || rewrite B); unfold shallow_at, steep_at; by rewrite ?Z.mul_0_r, ?Z.add_0_r, ?E1, ?E2.
Qed.

(** ** Scrolling *)
Lemma overs_bottom w h p c x y : overs 0 p (fun j => overs 0 w (fun i => dot i (h - p + j) c)) x y = rect 0 (h - p) w h c x y.
Proof.
  destruct (decide (0 <= x < w /\ h - p <= y < h)) as [[Hx Hy]|Hn].
  - rewrite rect_in by lia. apply overs_some.
    + intros j _. rewrite overs_row. unfold rect. destruct (_ && _); auto.
    + exists (y - (h - p)). split; [lia |]. rewrite overs_row. apply rect_in; lia.
  - rewrite rect_out by lia. apply overs_none. intros j Hj. rewrite overs_row. apply rect_out. lia.
Qed.

Section scroll.
Context (s : fb_t) (pixels : Z) (Hok : fb_ok s) (Hp : 0 <= pixels < fb_height s).
Let moved : mem := k_memmove (fb s) (u64 (fb s + 4 * u64 (pixels * fb_pitch s)))
  (u64 (u64 (fb_height s - pixels) * u64 (fb_pitch s * 4))) (fb_mem s).
Let screen := fb_pitch s * fb_height s.

Let kept := (fb_height s - pixels) * fb_pitch s.

Lemma kept_rows : 0 <= kept <= screen /\ 0 <= pixels * fb_pitch s <= screen /\
  pixels * fb_pitch s + kept = screen /\ 0 <= fb_pitch s <= screen.
Proof. destruct Hok as [? ? ? ?]. unfold screen, kept. nia. Qed.

Lemma moved_load a : 0 <= a < 2 ^ 64 ->
  load8 moved a = if decide (fb s <= a < fb s + 4 * kept)
                  then load8 (fb_mem s) (a + 4 * (pixels * fb_pitch s)) else load8 (fb_mem s) a.
Proof.
  intros Ha. pose proof kept_rows. destruct Hok as [Hw Hh Hb He]. fold screen in He. unfold moved.
  rewrite (u64_id (pixels * _)), (u64_id (fb s + _)), (u64_id (fb_pitch s * 4)), (u64_id (_ - _)) by lia.
  replace ((fb_height s - pixels) * (fb_pitch s * 4)) with (4 * kept) by (unfold kept; lia).
  rewrite u64_id by lia. rewrite memmove_load by lia.
  destruct (decide _); [f_equal; lia | done].
Qed.

Lemma moved_pixel x y : on_screen s x y -> y + pixels < fb_height s ->
  load32 moved (pixel_addr s x y) = pixel s x (y + pixels).
Proof.
  intros [Hx Hy] Hyp. pose proof kept_rows. destruct Hok as [Hw Hh Hb He]. fold screen in He.
  pose proof (pixel_addr_range s Hok x y (conj Hx Hy)).
  assert (Hk : pixel_addr s x y + 4 <= fb s + 4 * kept) by (unfold pixel_addr, kept; nia).
  unfold pixel, load32. replace (pixel_addr s x (y + pixels)) with (pixel_addr s x y + 4 * (pixels * fb_pitch s)) by (unfold pixel_addr; lia).
  apply load_le_shift. intros a Ha. by rewrite moved_load, decide_True by lia.
Qed.

(** The address of a pixel of the bottom rows. *)
Lemma bottom_addr x y : 0 <= x < fb_width s -> 0 <= y < pixels ->
  u64 (u64 (fb s + 4 * u64 (u64 (fb_height s - pixels) * fb_pitch s)) + 4 * u64 (y * fb_pitch s + x)) =
  pixel_addr s x (fb_height s - pixels + y).
Proof.
  intros Hx Hy. pose proof kept_rows. destruct Hok as [Hw Hh Hb He]. fold screen in He.
  assert (Ho : on_screen s x (fb_height s - pixels + y)) by (split; lia).
  pose proof (pixel_addr_range s Hok x _ Ho).
  rewrite (u64_id (fb_height s - pixels)) by lia. fold kept. rewrite (u64_id kept), (u64_id (fb s + _)) by lia.
  assert (0 <= y * fb_pitch s + x <= screen) by (unfold screen; nia).
  rewrite (u64_id (_ + x)) by lia. unfold pixel_addr in *.
  replace ((fb_height s - pixels + y) * fb_pitch s) with (kept + y * fb_pitch s) in * by (unfold kept; lia).
  rewrite u64_id by lia. lia.
Qed.
End scroll.

(** framebuffer_scroll moves every row up by the given number of pixels, gives
    the colour to the rows that become free (to all of them when the distance is
    the height or more), and writes nothing outside the framebuffer. *)
Theorem framebuffer_scroll_correct s pixels color (Hok : fb_ok s) (Hp : 0 <= pixels) :
  let s' := framebuffer_scroll pixels color s in
  same_screen s s' /\
  (forall x y, on_screen s x y -> pixel s' x y = if decide (y + pixels < fb_height s) then pixel s x (y + pixels) else u32 color) /\
  (forall a, 0 <= a < 2 ^ 64 -> ~ fb s <= a < fb s + 4 * (fb_pitch s * fb_height s) -> load8 (fb_mem s') a = load8 (fb_mem s) a).
Proof.
  intros s'. subst s'. unfold framebuffer_scroll. destruct (Z.geb_spec pixels (fb_height s)) as [Hge|Hlt].
  - destruct (clear_paints s color Hok) as [H1 H2 H3]. split; [done |]. split.
    + intros x y Ho. pose proof Ho as [? ?]. rewrite decide_False by lia. by apply H2.
    + intros a Ha Hn. apply H3; [done |]. intros x y Ho. pose proof (pixel_addr_range s Hok x y Ho). lia.
  - cbv zeta. set (m := k_memmove _ _ _ _). set (s1 := with_fb_mem m s).
    assert (Hok1 : fb_ok s1) by (apply (same_screen_ok s); [by eexists | done]).
    match goal with |- same_screen s ?s2 /\ _ => assert (Hb : paints s1 s2 (rect 0 (fb_height s - pixels) (fb_width s) (fb_height s) color)) end.
    { eapply paints_ext; [| intros; apply overs_bottom]. apply loop_paints; [done |]. intros y t Hy [mt ->] Hokt.
      apply loop_paints; [done |]. intros x u Hx [mu ->] Hoku. cbn [fb fb_width fb_height fb_pitch fb_address fb_mem with_fb_mem s1].
      rewrite (bottom_addr s pixels Hok) by (cbn in *; lia). apply (store_paints (with_fb_mem mu (with_fb_mem mt s1)) Hoku).
      split; cbn in *; lia. }
    destruct Hb as [[m2 E] H2 H3]. rewrite E in *. split; [by eexists |]. split.
    + intros x y Ho. rewrite H2 by exact Ho. pose proof Ho as [? ?]. case_decide.
      * rewrite rect_out by lia. by apply (moved_pixel s pixels).
      * by rewrite rect_in by lia.
    + intros a Ha Hn. rewrite H3; [| done | intros x y Ho; pose proof (pixel_addr_range s Hok x y Ho); change (pixel_addr s1 x y) with (pixel_addr s x y); lia].
      cbn [fb_mem s1 with_fb_mem]. unfold m. rewrite (moved_load s pixels) by (done || lia). rewrite decide_False; [done |].
      pose proof (kept_rows s pixels Hok ltac:(lia)). lia.
Qed.

(** ** Witnesses: a screen of 4 by 3 pixels, one word of padding in each row *)
Definition demo_screen : fb_t := framebuffer_init 4096 4 3 20 (mk_fb 0 0 0 0 0 ∅).
Lemma demo_screen_ok : fb_ok demo_screen.
Proof. split; vm_compute; intuition congruence. Qed.

Lemma fill_rect_correct_witness :
  fb_ok demo_screen /\ paints demo_screen (fill_rect 1 1 2 5 7 demo_screen) (rect 1 1 3 6 7) /\
  paints demo_screen (fill_rect (u64 (-1)) 0 3 3 7 demo_screen) no_ink.
Proof.
  split; [exact demo_screen_ok |]. split.
  - apply (fill_rect_correct demo_screen 1 1 2 5 7 demo_screen_ok); lia.
  - apply (fill_rect_correct demo_screen (u64 (-1)) 0 3 3 7 demo_screen_ok); vm_compute; intuition congruence.
Defined.

Lemma draw_line_correct_witness :
  fb_ok demo_screen /\
  exists s' pts, draw_line 6 0 2 3 1 9 demo_screen = Some s' /\ paints demo_screen s' (dots pts 9) /\ length pts = 4%nat.
Proof.
  split; [exact demo_screen_ok |].
  destruct (draw_line_correct demo_screen 0 2 3 1 9 6 demo_screen_ok) as (s' & pts & E & Hp & _ & _ & Hl & _); try (cbn; lia).
  destruct (Hl ltac:(cbn; lia)) as [Hlen _]. exists s', pts. split; [exact E |]. split; [exact Hp |]. cbn in Hlen. lia.
Defined.

Lemma framebuffer_scroll_correct_witness :
  fb_ok demo_screen /\ same_screen demo_screen (framebuffer_scroll 1 3 demo_screen).
Proof.
  split; [exact demo_screen_ok |]. apply (framebuffer_scroll_correct demo_screen 1 3 demo_screen_ok). lia.
Defined.

Example line_points :
  option_map (fun s => map (fun y => map (fun x => pixel s x y) [0; 1; 2; 3]) [0; 1; 2]) (draw_line 6 0 2 3 1 9 demo_screen) =
  Some [[0; 0; 0; 0]; [0; 0; 9; 9]; [9; 9; 0; 0]].
Proof. reflexivity. Qed.

(** A rectangle that starts one column left of the screen is not drawn. *)
Example off_the_left :
  map (fun x => pixel (fill_rect (u64 (-1)) 0 3 3 7 demo_screen) x 0) [0; 1; 2; 3] = [0; 0; 0; 0].
Proof. reflexivity. Qed.
End Framebuffer.
