(* ===== verification/Font.v ===== *)
(** * Characters: [font/font.c], [font/font8x8_data.h], [draw_text] of [graphics/graphics.c]

    A character is a C [char], a number from -128 to 127; a text is the list of its
    characters, which a NUL ends.  Positions are computed as in C: an [int] plus a
    [uint32_t] is a [uint32_t], which [draw_rect] takes as [size_t]. *)
From S2P Require Import Prelude Memory Framebuffer.
Import Mem Framebuffer.
#[local] Open Scope Z_scope.

Module Font.

(** One row of 8 bits per line of a glyph, the lowest bit leftmost. *)
Definition font8x8_basic : list (list Z) := [
  [0x00; 0x00; 0x00; 0x00; 0x00; 0x00; 0x00; 0x00];
  [0x00; 0x00; 0x00; 0x00; 0x00; 0x00; 0x00; 0x00];
  [0x00; 0x00; 0x00; 0x00; 0x00; 0x00; 0x00; 0x00];
  [0x00; 0x00; 0x00; 0x00; 0x00; 0x00; 0x00; 0x00];
  [0x00; 0x00; 0x00; 0x00; 0x00; 0x00; 0x00; 0x00];
  [0x00; 0x00; 0x00; 0x00; 0x00; 0x00; 0x00; 0x00];
  [0x00; 0x00; 0x00; 0x00; 0x00; 0x00; 0x00; 0x00];
  [0x00; 0x00; 0x00; 0x00; 0x00; 0x00; 0x00; 0x00];
  [0x00; 0x00; 0x00; 0x00; 0x00; 0x00; 0x00; 0x00];
  [0x00; 0x00; 0x00; 0x00; 0x00; 0x00; 0x00; 0x00];
  [0x00; 0x00; 0x00; 0x00; 0x00; 0x00; 0x00; 0x00];
  [0x00; 0x00; 0x00; 0x00; 0x00; 0x00; 0x00; 0x00];
  [0x00; 0x00; 0x00; 0x00; 0x00; 0x00; 0x00; 0x00];
  [0x00; 0x00; 0x00; 0x00; 0x00; 0x00; 0x00; 0x00];
  [0x00; 0x00; 0x00; 0x00; 0x00; 0x00; 0x00; 0x00];
  [0x00; 0x00; 0x00; 0x00; 0x00; 0x00; 0x00; 0x00];
  [0x00; 0x00; 0x00; 0x00; 0x00; 0x00; 0x00; 0x00];
  [0x00; 0x00; 0x00; 0x00; 0x00; 0x00; 0x00; 0x00];
  [0x00; 0x00; 0x00; 0x00; 0x00; 0x00; 0x00; 0x00];
  [0x00; 0x00; 0x00; 0x00; 0x00; 0x00; 0x00; 0x00];
  [0x00; 0x00; 0x00; 0x00; 0x00; 0x00; 0x00; 0x00];
  [0x00; 0x00; 0x00; 0x00; 0x00; 0x00; 0x00; 0x00];
  [0x00; 0x00; 0x00; 0x00; 0x00; 0x00; 0x00; 0x00];
  [0x00; 0x00; 0x00; 0x00; 0x00; 0x00; 0x00; 0x00];
  [0x00; 0x00; 0x00; 0x00; 0x00; 0x00; 0x00; 0x00];
  [0x00; 0x00; 0x00; 0x00; 0x00; 0x00; 0x00; 0x00];
  [0x00; 0x00; 0x00; 0x00; 0x00; 0x00; 0x00; 0x00];
  [0x00; 0x00; 0x00; 0x00; 0x00; 0x00; 0x00; 0x00];
  [0x00; 0x00; 0x00; 0x00; 0x00; 0x00; 0x00; 0x00];
  [0x00; 0x00; 0x00; 0x00; 0x00; 0x00; 0x00; 0x00];
  [0x00; 0x00; 0x00; 0x00; 0x00; 0x00; 0x00; 0x00];
  [0x00; 0x00; 0x00; 0x00; 0x00; 0x00; 0x00; 0x00];
  [0x00; 0x00; 0x00; 0x00; 0x00; 0x00; 0x00; 0x00];
  [0x18; 0x3C; 0x3C; 0x18; 0x18; 0x00; 0x18; 0x00];
  [0x36; 0x36; 0x00; 0x00; 0x00; 0x00; 0x00; 0x00];
  [0x36; 0x36; 0x7F; 0x36; 0x7F; 0x36; 0x36; 0x00];
  [0x0C; 0x3E; 0x03; 0x1E; 0x30; 0x1F; 0x0C; 0x00];
  [0x00; 0x63; 0x33; 0x18; 0x0C; 0x66; 0x63; 0x00];
  [0x1C; 0x36; 0x1C; 0x6E; 0x3B; 0x33; 0x6E; 0x00];
  [0x06; 0x06; 0x03; 0x00; 0x00; 0x00; 0x00; 0x00];
  [0x18; 0x0C; 0x06; 0x06; 0x06; 0x0C; 0x18; 0x00];
  [0x06; 0x0C; 0x18; 0x18; 0x18; 0x0C; 0x06; 0x00];
  [0x00; 0x66; 0x3C; 0xFF; 0x3C; 0x66; 0x00; 0x00];
  [0x00; 0x0C; 0x0C; 0x3F; 0x0C; 0x0C; 0x00; 0x00];
  [0x00; 0x00; 0x00; 0x00; 0x00; 0x0C; 0x0C; 0x06];
  [0x00; 0x00; 0x00; 0x3F; 0x00; 0x00; 0x00; 0x00];
  [0x00; 0x00; 0x00; 0x00; 0x00; 0x0C; 0x0C; 0x00];
  [0x60; 0x30; 0x18; 0x0C; 0x06; 0x03; 0x01; 0x00];
  [0x3E; 0x63; 0x73; 0x7B; 0x6F; 0x67; 0x3E; 0x00];
  [0x0C; 0x0E; 0x0C; 0x0C; 0x0C; 0x0C; 0x3F; 0x00];
  [0x1E; 0x33; 0x30; 0x1C; 0x06; 0x33; 0x3F; 0x00];
  [0x1E; 0x33; 0x30; 0x1C; 0x30; 0x33; 0x1E; 0x00];
  [0x38; 0x3C; 0x36; 0x33; 0x7F; 0x30; 0x78; 0x00];
  [0x3F; 0x03; 0x1F; 0x30; 0x30; 0x33; 0x1E; 0x00];
  [0x1C; 0x06; 0x03; 0x1F; 0x33; 0x33; 0x1E; 0x00];
  [0x3F; 0x33; 0x30; 0x18; 0x0C; 0x0C; 0x0C; 0x00];
  [0x1E; 0x33; 0x33; 0x1E; 0x33; 0x33; 0x1E; 0x00];
  [0x1E; 0x33; 0x33; 0x3E; 0x30; 0x18; 0x0E; 0x00];
  [0x00; 0x0C; 0x0C; 0x00; 0x00; 0x0C; 0x0C; 0x00];
  [0x00; 0x0C; 0x0C; 0x00; 0x00; 0x0C; 0x0C; 0x06];
  [0x18; 0x0C; 0x06; 0x03; 0x06; 0x0C; 0x18; 0x00];
  [0x00; 0x00; 0x3F; 0x00; 0x00; 0x3F; 0x00; 0x00];
  [0x06; 0x0C; 0x18; 0x30; 0x18; 0x0C; 0x06; 0x00];
  [0x1E; 0x33; 0x30; 0x18; 0x0C; 0x00; 0x0C; 0x00];
  [0x3E; 0x63; 0x7B; 0x7B; 0x7B; 0x03; 0x1E; 0x00];
  [0x0C; 0x1E; 0x33; 0x33; 0x3F; 0x33; 0x33; 0x00];
  [0x3F; 0x66; 0x66; 0x3E; 0x66; 0x66; 0x3F; 0x00];
  [0x3C; 0x66; 0x03; 0x03; 0x03; 0x66; 0x3C; 0x00];
  [0x1F; 0x36; 0x66; 0x66; 0x66; 0x36; 0x1F; 0x00];
  [0x7F; 0x46; 0x16; 0x1E; 0x16; 0x46; 0x7F; 0x00];
  [0x7F; 0x46; 0x16; 0x1E; 0x16; 0x06; 0x0F; 0x00];
  [0x3C; 0x66; 0x03; 0x03; 0x73; 0x66; 0x7C; 0x00];
  [0x33; 0x33; 0x33; 0x3F; 0x33; 0x33; 0x33; 0x00];
  [0x1E; 0x0C; 0x0C; 0x0C; 0x0C; 0x0C; 0x1E; 0x00];
  [0x78; 0x30; 0x30; 0x30; 0x33; 0x33; 0x1E; 0x00];
  [0x67; 0x66; 0x36; 0x1E; 0x36; 0x66; 0x67; 0x00];
  [0x0F; 0x06; 0x06; 0x06; 0x46; 0x66; 0x7F; 0x00];
  [0x63; 0x77; 0x7F; 0x7F; 0x6B; 0x63; 0x63; 0x00];
  [0x63; 0x67; 0x6F; 0x7B; 0x73; 0x63; 0x63; 0x00];
  [0x1C; 0x36; 0x63; 0x63; 0x63; 0x36; 0x1C; 0x00];
  [0x3F; 0x66; 0x66; 0x3E; 0x06; 0x06; 0x0F; 0x00];
  [0x1E; 0x33; 0x33; 0x33; 0x3B; 0x1E; 0x38; 0x00];
  [0x3F; 0x66; 0x66; 0x3E; 0x36; 0x66; 0x67; 0x00];
  [0x1E; 0x33; 0x07; 0x0E; 0x38; 0x33; 0x1E; 0x00];
  [0x3F; 0x2D; 0x0C; 0x0C; 0x0C; 0x0C; 0x1E; 0x00];
  [0x33; 0x33; 0x33; 0x33; 0x33; 0x33; 0x3F; 0x00];
  [0x33; 0x33; 0x33; 0x33; 0x33; 0x1E; 0x0C; 0x00];
  [0x63; 0x63; 0x63; 0x6B; 0x7F; 0x77; 0x63; 0x00];
  [0x63; 0x63; 0x36; 0x1C; 0x1C; 0x36; 0x63; 0x00];
  [0x33; 0x33; 0x33; 0x1E; 0x0C; 0x0C; 0x1E; 0x00];
  [0x7F; 0x63; 0x31; 0x18; 0x4C; 0x66; 0x7F; 0x00];
  [0x1E; 0x06; 0x06; 0x06; 0x06; 0x06; 0x1E; 0x00];
  [0x03; 0x06; 0x0C; 0x18; 0x30; 0x60; 0x40; 0x00];
  [0x1E; 0x18; 0x18; 0x18; 0x18; 0x18; 0x1E; 0x00];
  [0x08; 0x1C; 0x36; 0x63; 0x00; 0x00; 0x00; 0x00];
  [0x00; 0x00; 0x00; 0x00; 0x00; 0x00; 0x00; 0xFF];
  [0x0C; 0x0C; 0x18; 0x00; 0x00; 0x00; 0x00; 0x00];
  [0x00; 0x00; 0x1E; 0x30; 0x3E; 0x33; 0x6E; 0x00];
  [0x07; 0x06; 0x06; 0x3E; 0x66; 0x66; 0x3B; 0x00];
  [0x00; 0x00; 0x1E; 0x33; 0x03; 0x33; 0x1E; 0x00];
  [0x38; 0x30; 0x30; 0x3e; 0x33; 0x33; 0x6E; 0x00];
  [0x00; 0x00; 0x1E; 0x33; 0x3f; 0x03; 0x1E; 0x00];
  [0x1C; 0x36; 0x06; 0x0f; 0x06; 0x06; 0x0F; 0x00];
  [0x00; 0x00; 0x6E; 0x33; 0x33; 0x3E; 0x30; 0x1F];
  [0x07; 0x06; 0x36; 0x6E; 0x66; 0x66; 0x67; 0x00];
  [0x0C; 0x00; 0x0E; 0x0C; 0x0C; 0x0C; 0x1E; 0x00];
  [0x30; 0x00; 0x30; 0x30; 0x30; 0x33; 0x33; 0x1E];
  [0x07; 0x06; 0x66; 0x36; 0x1E; 0x36; 0x67; 0x00];
  [0x0E; 0x0C; 0x0C; 0x0C; 0x0C; 0x0C; 0x1E; 0x00];
  [0x00; 0x00; 0x33; 0x7F; 0x7F; 0x6B; 0x63; 0x00];
  [0x00; 0x00; 0x1F; 0x33; 0x33; 0x33; 0x33; 0x00];
  [0x00; 0x00; 0x1E; 0x33; 0x33; 0x33; 0x1E; 0x00];
  [0x00; 0x00; 0x3B; 0x66; 0x66; 0x3E; 0x06; 0x0F];
  [0x00; 0x00; 0x6E; 0x33; 0x33; 0x3E; 0x30; 0x78];
  [0x00; 0x00; 0x3B; 0x6E; 0x66; 0x06; 0x0F; 0x00];
  [0x00; 0x00; 0x3E; 0x03; 0x1E; 0x30; 0x1F; 0x00];
  [0x08; 0x0C; 0x3E; 0x0C; 0x0C; 0x2C; 0x18; 0x00];
  [0x00; 0x00; 0x33; 0x33; 0x33; 0x33; 0x6E; 0x00];
  [0x00; 0x00; 0x33; 0x33; 0x33; 0x1E; 0x0C; 0x00];
  [0x00; 0x00; 0x63; 0x6B; 0x7F; 0x7F; 0x36; 0x00];
  [0x00; 0x00; 0x63; 0x36; 0x1C; 0x36; 0x63; 0x00];
  [0x00; 0x00; 0x33; 0x33; 0x33; 0x3E; 0x30; 0x1F];
  [0x00; 0x00; 0x3F; 0x19; 0x0C; 0x26; 0x3F; 0x00];
  [0x38; 0x0C; 0x0C; 0x07; 0x0C; 0x0C; 0x38; 0x00];
  [0x18; 0x18; 0x18; 0x00; 0x18; 0x18; 0x18; 0x00];
  [0x07; 0x0C; 0x0C; 0x38; 0x0C; 0x0C; 0x07; 0x00];
  [0x6E; 0x3B; 0x00; 0x00; 0x00; 0x00; 0x00; 0x00];
  [0x00; 0x00; 0x00; 0x00; 0x00; 0x00; 0x00; 0x00]].

Definition glyph (c row : Z) : Z := default 0 (default [] (font8x8_basic !! Z.to_nat c) !! Z.to_nat row).

Definition font_set_scale (scale : Z) (font_scale : Z) : Z := if scale =? 0 then 1 else scale.

Definition letter_spacing : Z := 2.

Definition draw_char_scaled (x y c color scale : Z) (s : fb_t) : fb_t :=
  if (c <? 0) || (c >? 127) then s
  else
    for_to 0 8 (fun row s =>
      let bits := u8 (glyph c row) in
      for_to 0 8 (fun col s =>
        if negb (Z.land bits (Z.shiftl 1 col) =? 0) then
          draw_rect (u32 (x + u32 (col * scale))) (u32 (y + u32 (row * scale))) scale scale color s
        else s) s) s.

Definition draw_char (font_scale x y c color : Z) (s : fb_t) : fb_t := draw_char_scaled x y c color font_scale s.

Fixpoint draw_text_scaled (x y : Z) (text : list Z) (color scale spacing : Z) (s : fb_t) : fb_t :=
  match text with
  | [] => s
  | c :: text' =>
    if c =? 0 then s
    else draw_text_scaled (i32 (u32 x + u32 (u32 (8 * scale) + spacing))) y text' color scale spacing
           (draw_char_scaled x y c color scale s)
  end.

Definition draw_string (font_scale x y : Z) (str : list Z) (color : Z) (s : fb_t) : fb_t :=
  draw_text_scaled x y str color font_scale letter_spacing s.

(** [draw_text]: the positions are [size_t], narrowed to [int] for each character. *)
Fixpoint draw_text_loop (x y : Z) (text : list Z) (color scale : Z) (s : fb_t) : fb_t :=
  match text with
  | [] => s
  | c :: text' =>
    if c =? 0 then s
    else if c =? 10 then draw_text_loop 0 (u64 (y + u32 (8 * scale))) text' color scale s
    else draw_text_loop (u64 (x + u32 (8 * scale))) y text' color scale
           (draw_char_scaled (i32 x) (i32 y) c color scale s)
  end.

Definition draw_text (font_scale x y : Z) (text : option (list Z)) (color : Z) (s : fb_t) : fb_t :=
  match text with None => s | Some text => draw_text_loop x y text color font_scale s end.

Definition font_text_width_scaled (text : list Z) (scale spacing : Z) : Z :=
  let len := Str.k_strlen text in
  if len =? 0 then 0 else u64 (len * u32 (8 * scale) + (len - 1) * spacing).

Definition font_text_width (font_scale : Z) (text : list Z) : Z := font_text_width_scaled text font_scale 0.

(** ** What is drawn *)
Definition glyph_bit (c row col : Z) : bool := Z.testbit (u8 (glyph c row)) col.

(** The pixels of a character whose top left corner is [(x, y)]. *)
Definition char_ink (x y c color scale : Z) : ink := fun px py =>
  if (x <=? px) && (px <? x + 8 * scale) && (y <=? py) && (py <? y + 8 * scale) && (0 <=? c) && (c <=? 127)
     && glyph_bit c ((py - y) / scale) ((px - x) / scale)
  then Some color else None.

Definition cell_ink (x y c color scale row col : Z) : ink :=
  if glyph_bit c row col then
    rect (u32 (x + u32 (col * scale))) (u32 (y + u32 (row * scale)))
      (u64 (u32 (x + u32 (col * scale)) + scale)) (u64 (u32 (y + u32 (row * scale)) + scale)) color
  else no_ink.
Definition raw_char_ink (x y c color scale : Z) : ink :=
  if (c <? 0) || (c >? 127) then no_ink
  else overs 0 8 (fun row => overs 0 8 (fun col => cell_ink x y c color scale row col)).

Lemma draw_char_paints s x y c color scale : fb_ok s ->
  paints s (draw_char_scaled x y c color scale s) (raw_char_ink x y c color scale).
Proof.
  intros Hok. unfold draw_char_scaled, raw_char_ink. destruct (_ || _); [apply paints_nothing |].
  apply loop_paints; [done |]. intros row t Hrow _ Hokt. apply loop_paints; [done |]. intros col u Hcol _ Hoku.
  unfold cell_ink, glyph_bit. rewrite <- land_bit_nonzero by lia. destruct (negb _); [| apply paints_nothing].
  rewrite draw_rect_fill. apply fill_paints; [done | |]; apply u32_range.
Qed.
#[export] Hint Resolve draw_char_paints : zenith.

Lemma div_iff d s q : 0 < s -> d / s = q <-> q * s <= d < q * s + s.
Proof. intros. split; [intros <-; pose proof (Z.div_mod d s); pose proof (Z.mod_pos_bound d s); lia |]. intros. symmetry. apply (Z.div_unique d s q (d - q * s)); lia. Qed.

(** Where the positions neither wrap nor are negative, the rectangles are the
    scaled bits of the glyph. *)
Section position.
Context (x y c color scale : Z) (Hs : 0 < scale).
Context (Hx : 0 <= x) (Hx2 : x + 8 * scale < 2 ^ 31) (Hy : 0 <= y) (Hy2 : y + 8 * scale < 2 ^ 31).

Lemma cell_ink_of row col px py : ink_of color (cell_ink x y c color scale row col px py).
Proof. unfold cell_ink, rect, no_ink, ink_of. destruct (glyph_bit _ _ _); [destruct (_ && _) |]; auto. Qed.

Lemma cell_ink_iff row col px py : 0 <= row < 8 -> 0 <= col < 8 ->
  cell_ink x y c color scale row col px py = Some color <->
  glyph_bit c row col = true /\ (px - x) / scale = col /\ (py - y) / scale = row.
Proof.
  intros Hr Hc. unfold cell_ink. rewrite !div_iff by done.
  assert (0 <= col * scale <= 7 * scale) by nia. assert (0 <= row * scale <= 7 * scale) by nia.
  rewrite !(u32_id (_ * scale)), !(u32_id (_ + _)), !u64_id by lia.
  destruct (glyph_bit _ _ _); [| by split; [| intros []]].
  destruct (decide (x + col * scale <= px < x + col * scale + scale /\ y + row * scale <= py < y + row * scale + scale)).
  - rewrite rect_in by lia. split; [intros _; split; [done | lia] | done].
  - rewrite rect_out by lia. split; [done | lia].
Qed.

Lemma char_ink_iff px py : char_ink x y c color scale px py = Some color <->
  0 <= c <= 127 /\ 0 <= (px - x) / scale < 8 /\ 0 <= (py - y) / scale < 8 /\
  glyph_bit c ((py - y) / scale) ((px - x) / scale) = true.
Proof.
  unfold char_ink.
  assert (Hd : forall d, 0 <= d / scale < 8 <-> 0 <= d < 8 * scale).
  { intros d. pose proof (Z.div_mod d scale ltac:(lia)). pose proof (Z.mod_pos_bound d scale Hs). split; nia. }
  rewrite !Hd. destruct (_ && _) eqn:E; bool_to_prop.
  - split; [intros _ | done]. repeat split; try lia. done.
  - split; [done |]. intros (Hc & Hdx & Hdy & Hb). rewrite Hb, andb_true_r, !andb_false_iff, !Z.leb_gt, !Z.ltb_ge in E. lia.
Qed.

Lemma raw_char_ink_eq px py : raw_char_ink x y c color scale px py = char_ink x y c color scale px py.
Proof.
  unfold raw_char_ink. destruct ((c <? 0) || (c >? 127)) eqn:E.
  { symmetry. destruct (char_ink x y c color scale px py) as [k|] eqn:Ek; [| done]. exfalso.
    assert (k = color) as -> by (unfold char_ink in Ek; case_match; congruence). apply char_ink_iff in Ek as [Hc _].
    apply orb_true_iff in E as [E|E]; bool_to_prop; lia. }
  bool_to_prop. apply (ink_of_eq color).
  - apply overs_ink_of. intros row _. apply overs_ink_of. intros col _. apply cell_ink_of.
  - unfold char_ink, ink_of. destruct (_ && _); auto.
  - rewrite overs_iff by (intros; apply overs_ink_of; intros; apply cell_ink_of). rewrite char_ink_iff. split.
    + intros (row & Hr & Hrow). apply overs_iff in Hrow as (col & Hc & Hcol); [| intros; apply cell_ink_of].
      apply cell_ink_iff in Hcol as (Hb & <- & <-); [| done | done]. split; [lia | done].
    + intros (Hc & Hdx & Hdy & Hb). exists ((py - y) / scale). split; [done |].
      apply overs_iff; [intros; apply cell_ink_of |]. exists ((px - x) / scale). split; [done |]. by apply cell_ink_iff.
Qed.
End position.

(** draw_char_scaled gives its colour to exactly the pixels of the screen that
    lie in the square of a set bit of the character's glyph, each bit [scale]
    pixels wide and high, and changes nothing else; a [char] outside 0..127 draws
    nothing. *)
Theorem draw_char_correct s x y c color scale (Hok : fb_ok s) (Hs : 0 < scale)
    (Hx : 0 <= x) (Hx2 : x + 8 * scale < 2 ^ 31) (Hy : 0 <= y) (Hy2 : y + 8 * scale < 2 ^ 31) :
  paints s (draw_char_scaled x y c color scale s) (char_ink x y c color scale).
Proof. eapply paints_ext; [by apply draw_char_paints |]. intros px py _. by apply raw_char_ink_eq. Qed.

Lemma draw_char_correct_witness :
  fb_ok demo_screen /\ paints demo_screen (draw_char_scaled 1 0 65 9 2 demo_screen) (char_ink 1 0 65 9 2).
Proof. split; [exact demo_screen_ok |]. apply (draw_char_correct demo_screen 1 0 65 9 2 demo_screen_ok); lia. Defined.

(** The dot over the letter i. *)
Example dot_of_i : map (fun y => map (fun x => pixel (draw_char_scaled 0 0 105 9 1 demo_screen) x y) [0; 1; 2; 3]) [0; 1; 2] =
  [[0; 0; 9; 9]; [0; 0; 0; 0]; [0; 9; 9; 9]].
Proof. reflexivity. Qed.

(** ** Texts: some ink, on the screen only *)
Definition draws (s s' : fb_t) : Prop := exists f, paints s s' f.

Lemma draws_refl s : draws s s.
Proof. eexists. apply paints_nothing. Qed.
Lemma draws_trans s1 s2 s3 : draws s1 s2 -> draws s2 s3 -> draws s1 s3.
Proof. intros [f Hf] [g Hg]. eexists. by eapply paints_trans. Qed.
Lemma draws_ok s s' : draws s s' -> fb_ok s -> fb_ok s'.
Proof. intros [f Hf]. eauto with zenith. Qed.
Lemma draws_paints s s' f : paints s s' f -> draws s s'.
Proof. by exists f. Qed.
#[export] Hint Resolve draws_refl draws_trans draws_ok draws_paints : zenith.

Lemma draw_char_draws s x y c color scale : fb_ok s -> draws s (draw_char_scaled x y c color scale s).
Proof. intros. eapply draws_paints. by apply draw_char_paints. Qed.

Lemma draw_text_scaled_draws text : forall s x y color scale spacing, fb_ok s ->
  draws s (draw_text_scaled x y text color scale spacing s).
Proof.
  induction text as [|c text IH]; intros s x y color scale spacing Hok; cbn [draw_text_scaled]; [apply draws_refl |].
  case_match; [apply draws_refl |]. pose proof (draw_char_draws s x y c color scale Hok) as Hc.
  eapply draws_trans; [exact Hc |]. apply IH. eauto with zenith.
Qed.
End Font.
