(* ===== verification/Terminal.v ===== *)
(** * The terminal: [terminal/terminal.c], and the keyboard driver in front of it

    A grid of 50 rows of 80 cells with a cursor, an input line, and the drawing of
    the grid on the framebuffer.  An access outside the grid or the input buffer
    has no result. *)
From S2P Require Import Prelude Memory Framebuffer Font.
Import Mem Framebuffer Font.
#[local] Open Scope Z_scope.

Module Terminal.

Definition TERM_COLS : Z := 80.
Definition TERM_ROWS : Z := 50.
Definition INPUT_BUFFER_SIZE : Z := 256.

Record terminal_cell_t := mk_cell { character : Z; foreground : Z; background : Z }.
Definition blank : terminal_cell_t := mk_cell 32 0xFFFFFF 0x000000.
(** The static buffer before [terminal_init]. *)
Definition zero_cell : terminal_cell_t := mk_cell 0 0 0.

Abbreviation grid := (gmap (Z * Z) terminal_cell_t).

Record term := mk_term {
  cursor_row : Z; cursor_col : Z;
  terminal_buffer : grid;
  terminal_color : Z;
  terminal_origin_x : Z; terminal_origin_y : Z;
  input_buffer : list Z; input_length : Z;
  font_scale : Z;
  screen : fb_t;
}.

Definition with_cursor (row col : Z) (t : term) : term :=
  mk_term row col (terminal_buffer t) (terminal_color t) (terminal_origin_x t) (terminal_origin_y t)
    (input_buffer t) (input_length t) (font_scale t) (screen t).
Definition with_buffer (b : grid) (t : term) : term :=
  mk_term (cursor_row t) (cursor_col t) b (terminal_color t) (terminal_origin_x t) (terminal_origin_y t)
    (input_buffer t) (input_length t) (font_scale t) (screen t).
Definition with_color (c : Z) (t : term) : term :=
  mk_term (cursor_row t) (cursor_col t) (terminal_buffer t) c (terminal_origin_x t) (terminal_origin_y t)
    (input_buffer t) (input_length t) (font_scale t) (screen t).
Definition with_origin (x y : Z) (t : term) : term :=
  mk_term (cursor_row t) (cursor_col t) (terminal_buffer t) (terminal_color t) x y
    (input_buffer t) (input_length t) (font_scale t) (screen t).
Definition with_input (b : list Z) (n : Z) (t : term) : term :=
  mk_term (cursor_row t) (cursor_col t) (terminal_buffer t) (terminal_color t) (terminal_origin_x t) (terminal_origin_y t)
    b n (font_scale t) (screen t).
Definition with_screen (s : fb_t) (t : term) : term :=
  mk_term (cursor_row t) (cursor_col t) (terminal_buffer t) (terminal_color t) (terminal_origin_x t) (terminal_origin_y t)
    (input_buffer t) (input_length t) (font_scale t) s.

Definition cell (b : grid) (row col : Z) : terminal_cell_t := default zero_cell (b !! (row, col)).
Definition set_cell (row col : Z) (v : terminal_cell_t) (b : grid) : option grid :=
  if (0 <=? row) && (row <? TERM_ROWS) && (0 <=? col) && (col <? TERM_COLS) then Some (<[(row, col) := v]> b) else None.

(** The loops over whole rows stay inside the grid by their bounds. *)
Definition scroll_rows (b : grid) : grid :=
  for_to 1 TERM_ROWS (fun row b =>
    for_to 0 TERM_COLS (fun col b => <[(row - 1, col) := cell b row col]> b) b) b.
Definition clear_row (row : Z) (b : grid) : grid :=
  for_to 0 TERM_COLS (fun col b => <[(row, col) := blank]> b) b.

Definition terminal_scroll (t : term) : term :=
  with_cursor (TERM_ROWS - 1) 0 (with_buffer (clear_row (TERM_ROWS - 1) (scroll_rows (terminal_buffer t))) t).

Definition terminal_set_origin (x y : Z) (t : term) : term := with_origin x y t.

Definition terminal_init (t : term) : term :=
  with_buffer (for_to 0 TERM_ROWS clear_row (terminal_buffer t)) (with_color 0xFFFFFF (with_cursor 0 0 t)).

Definition terminal_putchar (c : Z) (t : term) : option term :=
  if c =? 10 then
    let t := with_cursor (cursor_row t + 1) 0 t in
    Some (if cursor_row t >=? TERM_ROWS then terminal_scroll t else t)
  else if cursor_row t >=? TERM_ROWS then Some (terminal_scroll t)
  else
    b ← set_cell (cursor_row t) (cursor_col t) (mk_cell c (terminal_color t) 0x000000) (terminal_buffer t);
    let t := with_cursor (cursor_row t) (cursor_col t + 1) (with_buffer b t) in
    Some (if cursor_col t >=? TERM_COLS then
            let t := with_cursor (cursor_row t + 1) 0 t in
            if cursor_row t >=? TERM_ROWS then terminal_scroll t else t
          else t).

(** [int + size_t] is a [size_t], narrowed to the [int] parameters of [draw_char]. *)
Definition terminal_render (t : term) : term :=
  let s := fill_rect (u64 (terminal_origin_x t)) (u64 (terminal_origin_y t)) (TERM_COLS * 16) (TERM_ROWS * 16) 0x000000 (screen t) in
  with_screen
    (for_to 0 TERM_ROWS (fun row s =>
       for_to 0 TERM_COLS (fun col s =>
         let cell := cell (terminal_buffer t) row col in
         if character cell =? 32 then s
         else draw_char (font_scale t) (i32 (u64 (terminal_origin_x t + col * 16))) (i32 (u64 (terminal_origin_y t + row * 16)))
                (character cell) (foreground cell) s) s) s) t.

Definition terminal_backspace (t : term) : option term :=
  if (cursor_row t =? 0) && (cursor_col t =? 0) then Some t
  else
    let t := if cursor_col t =? 0 then with_cursor (cursor_row t - 1) TERM_COLS t else t in
    let t := with_cursor (cursor_row t) (cursor_col t - 1) t in
    b ← set_cell (cursor_row t) (cursor_col t) blank (terminal_buffer t);
    Some (terminal_render (with_buffer b t)).

Fixpoint write_loop (str : list Z) (t : term) : option term :=
  match str with
  | [] => Some t
  | c :: str' => if c =? 0 then Some t else t ← terminal_putchar c t; write_loop str' t
  end.

Definition terminal_write (str : list Z) (t : term) : option term :=
  t ← write_loop str t; Some (terminal_render t).

Definition terminal_set_color (color : Z) (t : term) : term := with_color color t.

Definition set_input (i c : Z) (l : list Z) : option (list Z) :=
  if (0 <=? i) && (i <? Z.of_nat (length l)) then Some (<[Z.to_nat i := c]> l) else None.

Definition terminal_handle_key (c : Z) (t : term) : option term :=
  if input_length t >=? INPUT_BUFFER_SIZE - 1 then Some t
  else
    l ← set_input (input_length t) c (input_buffer t);
    let n := input_length t + 1 in
    l ← set_input n 0 l;
    t ← terminal_putchar c (with_input l n t);
    Some (terminal_render t).

Definition terminal_get_input (t : term) : list Z := input_buffer t.

(** ** The keyboard: [drivers/scancode.c], [drivers/keyboard.c] *)
Definition scancode_table : list (Z * Z) := [
  (0x02, 49); (0x03, 50); (0x04, 51); (0x05, 52); (0x06, 53); (0x07, 54); (0x08, 55); (0x09, 56); (0x0A, 57); (0x0B, 48);
  (0x10, 113); (0x11, 119); (0x12, 101); (0x13, 114); (0x14, 116); (0x15, 121); (0x16, 117); (0x17, 105); (0x18, 111); (0x19, 112);
  (0x1E, 97); (0x1F, 115); (0x20, 100); (0x21, 102); (0x22, 103); (0x23, 104); (0x24, 106); (0x25, 107); (0x26, 108);
  (0x2C, 122); (0x2D, 120); (0x2E, 99); (0x2F, 118); (0x30, 98); (0x31, 110); (0x32, 109);
  (0x39, 32); (0x1C, 10); (0x0E, 8)].

Definition scancode_to_ascii (scancode : Z) : Z :=
  if scancode >=? 128 then 0
  else match find (fun e => fst e =? scancode) scancode_table with Some e => snd e | None => 0 end.

(** [keyboard_handler] on the byte read from the data port. *)
Definition keyboard_handler (scancode : Z) (t : term) : option term :=
  if negb (Z.land scancode 0x80 =? 0) then Some t
  else
    let c := scancode_to_ascii scancode in
    if c =? 8 then terminal_backspace t
    else if negb (c =? 0) then terminal_handle_key c t
    else Some t.
End Terminal.
