(* ===== verification/TerminalSpec.v ===== *)
(** * What the terminal promises

    The grid shows the last 50 lines of the text written so far ([shows]); the
    drawing puts every cell of the grid on its 16 by 16 square of the screen
    ([grid_ink]); no sequence of calls leaves the grid, the input line or the
    screen. *)
From S2P Require Import Prelude Memory Framebuffer Font Terminal.
Import Mem Framebuffer Font Terminal.
#[local] Open Scope Z_scope.

(** ** The grid *)
Lemma cell_insert b r c v r' c' : cell (<[(r, c) := v]> b) r' c' = if decide (r' = r /\ c' = c) then v else cell b r' c'.
Proof.
  unfold cell. case_decide as E; [destruct E as [-> ->]; by rewrite lookup_insert_eq |].
  rewrite lookup_insert_ne; [done |]. intros [= -> ->]. by apply E.
Qed.

Lemma set_cell_some r c v b : 0 <= r < TERM_ROWS -> 0 <= c < TERM_COLS -> set_cell r c v b = Some (<[(r, c) := v]> b).
Proof.
  intros Hr Hc. unfold set_cell, TERM_ROWS, TERM_COLS in *.
  by rewrite (proj2 (Z.leb_le 0 r)), (proj2 (Z.ltb_lt r 50)), (proj2 (Z.leb_le 0 c)), (proj2 (Z.ltb_lt c 80)) by lia.
Qed.

Lemma clear_row_cell row b r c : cell (clear_row row b) r c = if decide (r = row /\ 0 <= c < 80) then blank else cell b r c.
Proof.
  unfold clear_row, TERM_COLS.
  loop_invariant (fun j (t : grid) => cell t r c = if decide (r = row /\ 0 <= c < j) then blank else cell b r c) H.
  apply H; [lia | rewrite decide_False by lia; done |]. clear H. intros j t Hj Ht. rewrite cell_insert, Ht.
  repeat case_decide; done || lia.
Qed.

Lemma scroll_row_cell row b r c : 0 < row ->
  cell (for_to 0 80 (fun col b => <[(row - 1, col) := cell b row col]> b) b) r c =
  if decide (r = row - 1 /\ 0 <= c < 80) then cell b row c else cell b r c.
Proof.
  intros Hrow.
  loop_invariant (fun j (t : grid) => forall r c, cell t r c = if decide (r = row - 1 /\ 0 <= c < j) then cell b row c else cell b r c) H.
  apply H; [lia | intros; rewrite decide_False by lia; done |]. clear H. intros j t Hj Ht r' c'. rewrite cell_insert, !Ht.
  repeat case_decide; try done; try lia. f_equal; lia.
Qed.

Lemma scroll_rows_cell b r c : 0 <= r < 50 -> 0 <= c < 80 ->
  cell (scroll_rows b) r c = if decide (r < 49) then cell b (r + 1) c else cell b r c.
Proof.
  intros Hr Hc. unfold scroll_rows, TERM_ROWS, TERM_COLS.
  loop_invariant (fun j (t : grid) => forall r, 0 <= r < 50 -> cell t r c = if decide (r < j - 1) then cell b (r + 1) c else cell b r c) H.
  rewrite H; [repeat case_decide; done || lia | lia | intros; rewrite decide_False by lia; done | | done]. clear H.
  intros j t Hj Ht r' Hr'. rewrite scroll_row_cell by lia. rewrite !Ht by lia. repeat case_decide; try done; try lia.
  f_equal; lia.
Qed.

(** ** Lines of text *)
Definition line_at (lines : list (list terminal_cell_t)) (i c : Z) : terminal_cell_t :=
  default blank (default [] (lines !! Z.to_nat i) !! Z.to_nat c).

(** The grid shows the finished lines [log] and the line [cur] the cursor is on:
    all of them up to the 50th, from then on the last 50. *)
Record shows (t : term) (log : list (list terminal_cell_t)) (cur : list terminal_cell_t) : Prop := {
  sh_col : cursor_col t = Z.of_nat (length cur) /\ (length cur < 80)%nat;
  sh_row : cursor_row t = Z.min (Z.of_nat (length log)) 49;
  sh_cells r c : 0 <= r < 50 -> 0 <= c < 80 ->
    cell (terminal_buffer t) r c = line_at (log ++ [cur]) (Z.of_nat (length log) - cursor_row t + r) c;
}.

(** How a text is laid out: a line ends at a newline or at its 80th character. *)
Definition lay (color c : Z) (text : list (list terminal_cell_t) * list terminal_cell_t) :=
  let '(log, cur) := text in
  if c =? 10 then (log ++ [cur], [])
  else
    let cur := cur ++ [mk_cell c color 0x000000] in
    if Z.of_nat (length cur) =? 80 then (log ++ [cur], []) else (log, cur).

Fixpoint layout (color : Z) (str : list Z) (text : list (list terminal_cell_t) * list terminal_cell_t) :=
  match str with
  | [] => text
  | c :: str' => if c =? 0 then text else layout color str' (lay color c text)
  end.

Lemma line_at_app_nil L i c : line_at (L ++ [[]]) i c = line_at L i c.
Proof.
  unfold line_at. destruct (decide (Z.to_nat i < length L)%nat).
  - by rewrite lookup_app_l by lia.
  - rewrite lookup_app_r by lia. rewrite (lookup_ge_None_2 L) by lia.
    by destruct (Z.to_nat i - length L)%nat as [|m].
Qed.

Lemma line_at_snoc log cur v i c : 0 <= i -> 0 <= c ->
  line_at (log ++ [cur ++ [v]]) i c =
  if decide (i = Z.of_nat (length log) /\ c = Z.of_nat (length cur)) then v else line_at (log ++ [cur]) i c.
Proof.
  intros Hi Hc. unfold line_at. destruct (decide (Z.to_nat i < length log)%nat).
  { rewrite decide_False by lia. by rewrite !lookup_app_l by lia. }
  rewrite !(lookup_app_r log) by lia. destruct (Z.to_nat i - length log)%nat as [|m] eqn:E; cbn.
  - destruct (decide (Z.to_nat c < length cur)%nat).
    { rewrite decide_False by lia. by rewrite lookup_app_l by lia. }
    rewrite lookup_app_r, (lookup_ge_None_2 cur) by lia. case_decide as Hd.
    + by replace (Z.to_nat c - length cur)%nat with 0%nat by lia.
    + destruct (Z.to_nat c - length cur)%nat eqn:E2; [lia | done].
  - rewrite decide_False by lia. done.
Qed.

(** The end of a line: a new row, or all rows one up. *)
Lemma commit_line t log l n : cursor_row t = Z.min n 49 -> n = Z.of_nat (length log) ->
  (forall r c, 0 <= r < 50 -> 0 <= c < 80 -> cell (terminal_buffer t) r c = line_at (log ++ [l]) (n - cursor_row t + r) c) ->
  let t1 := with_cursor (cursor_row t + 1) 0 t in
  shows (if cursor_row t1 >=? TERM_ROWS then terminal_scroll t1 else t1) (log ++ [l]) [].
Proof.
  intros Hrow Hn Hcell. cbv zeta. cbn [cursor_row with_cursor]. unfold TERM_ROWS.
  assert (Hl : Z.of_nat (length (log ++ [l])) = n + 1) by (rewrite length_app; cbn; lia).
  destruct (Z.geb_spec (cursor_row t + 1) 50); (split; cbn [cursor_row cursor_col terminal_buffer with_cursor with_buffer terminal_scroll];
    [cbn; lia | unfold TERM_ROWS; lia | intros r c Hr Hc; rewrite line_at_app_nil, Hl]).
  - rewrite clear_row_cell. unfold TERM_ROWS. case_decide.
    + unfold line_at. rewrite (lookup_ge_None_2 (log ++ [l])) by lia. done.
    + rewrite scroll_rows_cell, decide_True by lia. rewrite Hcell by lia. f_equal. lia.
  - rewrite Hcell by lia. f_equal. lia.
Qed.

Lemma putchar_shows t log cur c : shows t log cur ->
  exists t', terminal_putchar c t = Some t' /\
    shows t' (fst (lay (terminal_color t) c (log, cur))) (snd (lay (terminal_color t) c (log, cur))).
Proof.
  intros [[Hcol Hlen] Hrow Hcell]. unfold terminal_putchar, lay. destruct (c =? 10).
  { eexists. split; [done |]. cbn [fst snd]. apply (commit_line t log cur (Z.of_nat (length log))); done. }
  unfold TERM_ROWS. destruct (Z.geb_spec (cursor_row t) 50); [lia |].
  rewrite set_cell_some by (unfold TERM_ROWS, TERM_COLS; lia). cbn [mbind option_bind].
  set (v := mk_cell c (terminal_color t) 0x000000).
  set (t1 := with_cursor (cursor_row t) (cursor_col t + 1) (with_buffer (<[(cursor_row t, cursor_col t) := v]> (terminal_buffer t)) t)).
  assert (Hc1 : forall r c, 0 <= r < 50 -> 0 <= c < 80 ->
    cell (terminal_buffer t1) r c = line_at (log ++ [cur ++ [v]]) (Z.of_nat (length log) - cursor_row t1 + r) c).
  { intros r c' Hr Hc. change (cursor_row t1) with (cursor_row t). rewrite line_at_snoc by lia.
    unfold t1. cbn [terminal_buffer with_cursor with_buffer]. rewrite cell_insert, Hcell by lia. repeat case_decide; done || lia. }
  eexists. split; [done |]. rewrite length_app. cbn [length]. cbn [cursor_col t1 with_cursor with_buffer]. unfold TERM_COLS.
  destruct (Z.geb_spec (cursor_col t + 1) 80).
  - rewrite (proj2 (Z.eqb_eq _ 80)) by lia. cbn [fst snd]. apply (commit_line t1 log (cur ++ [v]) (Z.of_nat (length log))); done.
  - rewrite (proj2 (Z.eqb_neq _ 80)) by lia. cbn [fst snd]. split; [| done | exact Hc1].
    rewrite length_app. unfold t1. cbn [cursor_col with_cursor with_buffer length]. lia.
Qed.

(** ** Staying inside the grid *)
Definition cursor_ok (t : term) : Prop := 0 <= cursor_row t < TERM_ROWS /\ 0 <= cursor_col t < TERM_COLS.

(** All but the cursor and the grid. *)
Definition same_rest (t t' : term) : Prop :=
  t' = with_cursor (cursor_row t') (cursor_col t') (with_buffer (terminal_buffer t') t).

Lemma same_rest_trans t1 t2 t3 : same_rest t1 t2 -> same_rest t2 t3 -> same_rest t1 t3.
Proof. unfold same_rest. intros -> ->. done. Qed.

Lemma same_rest_intro r c b t : same_rest t (with_cursor r c (with_buffer b t)).
Proof. by destruct t. Qed.

Lemma scroll_ok t : cursor_ok (terminal_scroll t) /\ same_rest t (terminal_scroll t).
Proof.
  unfold terminal_scroll. generalize (clear_row (TERM_ROWS - 1) (scroll_rows (terminal_buffer t))). intros b.
  split; [| apply same_rest_intro]. unfold cursor_ok, TERM_ROWS, TERM_COLS; cbn. lia.
Qed.

Lemma new_row_ok t : 0 <= cursor_row t < TERM_ROWS ->
  let t1 := with_cursor (cursor_row t + 1) 0 t in
  let t2 := if cursor_row t1 >=? TERM_ROWS then terminal_scroll t1 else t1 in cursor_ok t2 /\ same_rest t t2.
Proof.
  intros Hr t1 t2. subst t2. assert (Hs : same_rest t t1) by (destruct t; reflexivity).
  change (cursor_row t1) with (cursor_row t + 1). destruct (Z.geb_spec (cursor_row t + 1) TERM_ROWS).
  - destruct (scroll_ok t1) as [H1 H2]. split; [done | by eapply same_rest_trans].
  - split; [| done]. unfold cursor_ok, t1, TERM_ROWS, TERM_COLS in *; cbn. lia.
Qed.

Lemma putchar_ok c t : cursor_ok t -> exists t', terminal_putchar c t = Some t' /\ cursor_ok t' /\ same_rest t t'.
Proof.
  intros [Hr Hc]. unfold terminal_putchar. destruct (c =? 10); [eexists; split; [done |]; by apply new_row_ok |].
  destruct (Z.geb_spec (cursor_row t) TERM_ROWS); [lia |]. rewrite set_cell_some by done. cbn [mbind option_bind].
  set (b := <[_ := _]> _). eexists. split; [done |]. cbn [cursor_row cursor_col with_cursor with_buffer].
  destruct (Z.geb_spec (cursor_col t + 1) TERM_COLS).
  - destruct (new_row_ok (with_cursor (cursor_row t) (cursor_col t + 1) (with_buffer b t)) Hr) as [H1 H2].
    split; [exact H1 |]. eapply same_rest_trans; [| exact H2]. by destruct t.
  - unfold cursor_ok. cbn [cursor_row cursor_col with_cursor with_buffer]. split; [lia |]. by destruct t.
Qed.

Lemma write_loop_ok str : forall t, cursor_ok t -> exists t', write_loop str t = Some t' /\ cursor_ok t' /\ same_rest t t'.
Proof.
  induction str as [|c str IH]; intros t Hok; cbn [write_loop]; [exists t; split; [done |]; split; [done | by destruct t] |].
  case_match; [exists t; split; [done |]; split; [done | by destruct t] |].
  destruct (putchar_ok c t Hok) as (t1 & -> & Hok1 & Hs1). cbn [mbind option_bind].
  destruct (IH t1 Hok1) as (t2 & E2 & Hok2 & Hs2). exists t2. split; [done |]. split; [done | by eapply same_rest_trans].
Qed.

Lemma shows_cursor t log cur : shows t log cur -> cursor_ok t.
Proof. intros [[Hc Hl] Hr _]. unfold cursor_ok, TERM_ROWS, TERM_COLS. lia. Qed.

Lemma write_loop_shows str : forall t log cur, shows t log cur ->
  exists t', write_loop str t = Some t' /\ same_rest t t' /\
    let '(log', cur') := layout (terminal_color t) str (log, cur) in shows t' log' cur'.
Proof.
  induction str as [|c str IH]; intros t log cur Hs; cbn [write_loop layout]; [exists t; split; [done |]; split; [by destruct t | done] |].
  case_match; [exists t; split; [done |]; split; [by destruct t | done] |].
  destruct (putchar_shows t log cur c Hs) as (t1 & E & Hs1). destruct (putchar_ok c t (shows_cursor _ _ _ Hs)) as (t1' & E' & _ & Hr).
  rewrite E in E'. injection E' as <-. rewrite E. cbn [mbind option_bind].
  destruct (IH t1 _ _ Hs1) as (t2 & E2 & Hr2 & Hs2). exists t2. split; [done |]. split; [by eapply same_rest_trans |].
  replace (terminal_color t1) with (terminal_color t) in Hs2 by (rewrite Hr; done).
  destruct (lay (terminal_color t) c (log, cur)) as [log1 cur1]. exact Hs2.
Qed.

(** ** What is drawn *)

(** The pixels of the terminal, 16 by 16 for each cell: the cell's glyph in its
    foreground colour on black. *)
Definition grid_ink (t : term) : ink := fun px py =>
  let dx := px - terminal_origin_x t in
  let dy := py - terminal_origin_y t in
  if (0 <=? dx) && (dx <? 1280) && (0 <=? dy) && (dy <? 800) then
    let cl := cell (terminal_buffer t) (dy / 16) (dx / 16) in
    let c := character cl in
    Some (if negb (c =? 32) && (0 <=? c) && (c <=? 127) && glyph_bit c (dy mod 16 / 2) (dx mod 16 / 2) then foreground cl else 0)
  else None.

Definition cell_draw (t : term) (row col : Z) : ink :=
  let cl := cell (terminal_buffer t) row col in
  if character cl =? 32 then no_ink
  else raw_char_ink (i32 (u64 (terminal_origin_x t + col * 16))) (i32 (u64 (terminal_origin_y t + row * 16)))
         (character cl) (foreground cl) (font_scale t).

Lemma render_paints t : fb_ok (screen t) ->
  paints (screen t) (screen (terminal_render t))
    (over (overs 0 50 (fun row => overs 0 80 (fun col => cell_draw t row col)))
      (rect (u64 (terminal_origin_x t)) (u64 (terminal_origin_y t)) (u64 (u64 (terminal_origin_x t) + 1280)) (u64 (u64 (terminal_origin_y t) + 800)) 0)).
Proof.
  intros Hok. pose proof (u64_range (terminal_origin_x t)). pose proof (u64_range (terminal_origin_y t)).
  assert (Hf : paints (screen t) (fill_rect (u64 (terminal_origin_x t)) (u64 (terminal_origin_y t)) (TERM_COLS * 16) (TERM_ROWS * 16) 0 (screen t))
    (rect (u64 (terminal_origin_x t)) (u64 (terminal_origin_y t)) (u64 (u64 (terminal_origin_x t) + 1280)) (u64 (u64 (terminal_origin_y t) + 800)) 0))
    by (apply fill_paints; [done | lia | lia]).
  eapply paints_trans; [exact Hf |]. cbn [screen terminal_render with_screen].
  apply loop_paints; [eauto with zenith |]. intros row s Hrow _ Hs. apply loop_paints; [done |]. intros col s' Hcol _ Hs'.
  unfold cell_draw, draw_char. destruct (_ =? 32); [apply paints_nothing | by apply draw_char_paints].
Qed.

Lemma overs_only a b g x y k : a <= k < b -> (forall j, a <= j < b -> j <> k -> g j x y = None) -> overs a b g x y = g k x y.
Proof.
  intros Hk Hn. destruct (g k x y) as [c|] eqn:E.
  - apply overs_some; [| by exists k]. intros j Hj. destruct (decide (j = k)) as [->|]; [by right | left; auto].
  - apply overs_none. intros j Hj. destruct (decide (j = k)) as [->|]; [done | auto].
Qed.

Section drawing.
Context (t : term) (Hscale : font_scale t = 2).
Context (Hx : 0 <= terminal_origin_x t) (Hx2 : terminal_origin_x t + 1280 < 2 ^ 31).
Context (Hy : 0 <= terminal_origin_y t) (Hy2 : terminal_origin_y t + 800 < 2 ^ 31).

Lemma cell_draw_ink row col px py : 0 <= row < 50 -> 0 <= col < 80 ->
  cell_draw t row col px py =
  if decide ((px - terminal_origin_x t) / 16 = col /\ (py - terminal_origin_y t) / 16 = row) then
    let cl := cell (terminal_buffer t) row col in
    if character cl =? 32 then None
    else char_ink (terminal_origin_x t + col * 16) (terminal_origin_y t + row * 16) (character cl) (foreground cl) 2 px py
  else None.
Proof.
  intros Hr Hc. unfold cell_draw. rewrite !u64_id, !i32_id by lia. cbv zeta.
  destruct (_ =? 32); [by case_decide |]. rewrite Hscale, raw_char_ink_eq by lia.
  case_decide as Hd; [done |]. unfold char_ink. destruct (_ && _) eqn:E; [| done]. bool_to_prop.
  exfalso. apply Hd. rewrite !div_iff by lia. lia.
Qed.

Lemma char_ink_cell c color px py row col : (px - terminal_origin_x t) / 16 = col -> (py - terminal_origin_y t) / 16 = row ->
  char_ink (terminal_origin_x t + col * 16) (terminal_origin_y t + row * 16) c color 2 px py =
  if (0 <=? c) && (c <=? 127) && glyph_bit c ((py - terminal_origin_y t) mod 16 / 2) ((px - terminal_origin_x t) mod 16 / 2)
  then Some color else None.
Proof.
  intros Ec Er. pose proof (proj1 (div_iff _ 16 col ltac:(lia)) Ec). pose proof (proj1 (div_iff _ 16 row ltac:(lia)) Er).
  rewrite !Z.mod_eq, Ec, Er by lia. unfold char_ink.
  rewrite (proj2 (Z.leb_le _ px)), (proj2 (Z.ltb_lt px _)), (proj2 (Z.leb_le _ py)), (proj2 (Z.ltb_lt py _)) by lia. cbn [andb].
  by replace (px - (terminal_origin_x t + col * 16)) with (px - terminal_origin_x t - 16 * col) by lia;
    replace (py - (terminal_origin_y t + row * 16)) with (py - terminal_origin_y t - 16 * row) by lia.
Qed.

Lemma grid_drawn px py :
  over (overs 0 50 (fun row => overs 0 80 (fun col => cell_draw t row col)))
    (rect (terminal_origin_x t) (terminal_origin_y t) (terminal_origin_x t + 1280) (terminal_origin_y t + 800) 0) px py = grid_ink t px py.
Proof.
  unfold grid_ink. cbv zeta. set (dx := px - terminal_origin_x t). set (dy := py - terminal_origin_y t).
  destruct (_ && _) eqn:E.
  - bool_to_prop. assert (Hc : 0 <= dx / 16 < 80) by (split; [apply Z.div_pos | apply Z.div_lt_upper_bound]; lia).
    assert (Hr : 0 <= dy / 16 < 50) by (split; [apply Z.div_pos | apply Z.div_lt_upper_bound]; lia).
    unfold over. rewrite (overs_only 0 50 _ px py (dy / 16)), (overs_only 0 80 _ px py (dx / 16)); try done.
    + rewrite cell_draw_ink, decide_True by done. cbv zeta. rewrite rect_in by lia.
      destruct (_ =? 32); [done |]. rewrite char_ink_cell by done. fold dx dy. by destruct (_ && _).
    + intros col Hcol Hne. by rewrite cell_draw_ink, decide_False by naive_solver.
    + intros row Hrow Hne. apply overs_none. intros col Hcol. by rewrite cell_draw_ink, decide_False by naive_solver.
  - unfold over. rewrite overs_none.
    + apply rect_out. rewrite !andb_false_iff, !Z.leb_gt, !Z.ltb_ge in E. lia.
    + intros row Hrow. apply overs_none. intros col Hcol. rewrite cell_draw_ink by done. case_decide as Hd; [| done].
      exfalso. rewrite !div_iff in Hd by lia. rewrite !andb_false_iff, !Z.leb_gt, !Z.ltb_ge in E. lia.
Qed.
End drawing.

(** ** Writing *)
Lemma render_fields t : cursor_row (terminal_render t) = cursor_row t /\ cursor_col (terminal_render t) = cursor_col t /\
  terminal_buffer (terminal_render t) = terminal_buffer t /\ input_buffer (terminal_render t) = input_buffer t /\
  input_length (terminal_render t) = input_length t /\ terminal_color (terminal_render t) = terminal_color t.
Proof. done. Qed.

Lemma render_shows t log cur : shows t log cur -> shows (terminal_render t) log cur.
Proof. intros []. by split. Qed.

Lemma render_draws t : fb_ok (screen t) -> draws (screen t) (screen (terminal_render t)).
Proof. intros Hok. eapply draws_paints, render_paints, Hok. Qed.

(** The drawing stands at a place where no coordinate leaves the range of [int]. *)
Definition placed (t : term) : Prop :=
  font_scale t = 2 /\ 0 <= terminal_origin_x t < 2 ^ 31 - 1280 /\ 0 <= terminal_origin_y t < 2 ^ 31 - 800.

Lemma render_shown t : placed t -> fb_ok (screen t) -> paints (screen t) (screen (terminal_render t)) (grid_ink t).
Proof.
  intros (Hsc & Hx & Hy) Hok. eapply paints_ext; [by apply render_paints |]. intros px py _.
  rewrite !(u64_id (terminal_origin_x t)), !(u64_id (terminal_origin_y t)), !u64_id by lia. apply grid_drawn; lia.
Qed.

(** C18: terminal_write lays the text out behind the text written before (a line
    ends at a newline or after 80 characters), the grid then shows the last 50
    lines of it, and every cell of the grid is drawn on its square of the screen;
    nothing else in memory changes. *)
Theorem terminal_write_correct str t log cur (Hs : shows t log cur) (Hok : fb_ok (screen t)) (Hp : placed t) :
  exists t', terminal_write str t = Some t' /\
    (let '(log', cur') := layout (terminal_color t) str (log, cur) in shows t' log' cur') /\
    paints (screen t) (screen t') (grid_ink t') /\
    input_buffer t' = input_buffer t /\ input_length t' = input_length t.
Proof.
  destruct (write_loop_shows str t log cur Hs) as (t1 & E & Hr & Hs1). unfold terminal_write. rewrite E. cbn [mbind option_bind].
  exists (terminal_render t1). split; [done |].
  assert (Hsc : screen t1 = screen t) by (by rewrite Hr). assert (Hp1 : placed t1) by (unfold placed in *; by rewrite Hr).
  split; [destruct (layout _ _ _); by apply render_shows |]. split; [| by rewrite Hr].
  rewrite <- Hsc. change (grid_ink (terminal_render t1)) with (grid_ink t1). apply render_shown; [done | by rewrite Hsc].
Qed.

(** a backspace takes back the last character of the line: after typing one
    that does not end the line, the grid shows the same text as before. *)
Theorem terminal_backspace_correct c t log cur (Hs : shows t log cur) (Hc : c <> 10) (Hl : (length cur < 79)%nat) :
  exists t1 t2, terminal_putchar c t = Some t1 /\ terminal_backspace t1 = Some t2 /\
    shows t1 log (cur ++ [mk_cell c (terminal_color t) 0]) /\ shows t2 log cur.
Proof.
  destruct (putchar_shows t log cur c Hs) as (t1 & E & Hs1).
  assert (El : lay (terminal_color t) c (log, cur) = (log, cur ++ [mk_cell c (terminal_color t) 0])).
  { unfold lay. rewrite (proj2 (Z.eqb_neq c 10)) by done. rewrite length_app. cbn [length]. by rewrite (proj2 (Z.eqb_neq _ 80)) by lia. }
  rewrite El in Hs1. cbn [fst snd] in Hs1. pose proof Hs1 as [[Hc1 Hl1] Hr1 Hcell1]. rewrite length_app in Hc1, Hl1. cbn [length] in Hc1, Hl1.
  exists t1. eexists. split; [exact E |]. split.
  { unfold terminal_backspace. rewrite (proj2 (Z.eqb_neq (cursor_col t1) 0)), andb_false_r by lia. cbn [cursor_row cursor_col with_cursor].
    rewrite set_cell_some by (unfold TERM_ROWS, TERM_COLS; lia). done. }
  split; [exact Hs1 |]. apply render_shows.
  split; cbn [cursor_row cursor_col terminal_buffer with_cursor with_buffer]; [lia | done |].
  intros r c' Hr Hc'. rewrite cell_insert, Hcell1 by done. rewrite line_at_snoc by lia. rewrite Hc1.
  case_decide as Hd.
  - destruct Hd as [-> ->]. unfold line_at. rewrite lookup_app_r by lia.
    replace (_ - length log)%nat with 0%nat by lia. cbn. by rewrite (lookup_ge_None_2 cur) by lia.
  - rewrite decide_False; [done |]. intros [? ?]. apply Hd. lia.
Qed.

(** ** All calls *)
Inductive call :=
  | CallInit | CallPutchar (c : Z) | CallWrite (str : list Z) | CallBackspace | CallColor (color : Z)
  | CallOrigin (x y : Z) | CallKey (c : Z) | CallScancode (code : Z) | CallRender.

Definition do_call (k : call) (t : term) : option term :=
  match k with
  | CallInit => Some (terminal_init t)
  | CallPutchar c => terminal_putchar c t
  | CallWrite str => terminal_write str t
  | CallBackspace => terminal_backspace t
  | CallColor color => Some (terminal_set_color color t)
  | CallOrigin x y => Some (terminal_set_origin x y t)
  | CallKey c => terminal_handle_key c t
  | CallScancode code => keyboard_handler code t
  | CallRender => Some (terminal_render t)
  end.

Fixpoint do_calls (l : list call) (t : term) : option term :=
  match l with [] => Some t | k :: l' => t ← do_call k t; do_calls l' t end.

(** The characters a call hands to [terminal_handle_key]. *)
Definition typed (k : call) : list Z :=
  match k with
  | CallKey c => [c]
  | CallScancode code =>
    let c := scancode_to_ascii code in
    if negb (Z.land code 0x80 =? 0) || (c =? 8) || (c =? 0) then [] else [c]
  | _ => []
  end.

Definition input_line (t : term) : list Z := take (Z.to_nat (input_length t)) (input_buffer t).

Record term_ok (t : term) : Prop := {
  to_cursor : cursor_ok t;
  to_screen : fb_ok (screen t);
  to_buffer : length (input_buffer t) = 256%nat;
  to_length : 0 <= input_length t <= 255;
  to_end : input_buffer t !! Z.to_nat (input_length t) = Some 0;
}.

(** A call that keeps the input line. *)
Definition kept (t t' : term) : Prop :=
  cursor_ok t' /\ draws (screen t) (screen t') /\ input_buffer t' = input_buffer t /\ input_length t' = input_length t.

Lemma kept_ok t t' : term_ok t -> kept t t' -> term_ok t' /\ draws (screen t) (screen t') /\ input_line t' = input_line t.
Proof.
  intros [H1 H2 H3 H4 H5] (K1 & K2 & K3 & K4). split; [| split; [done | unfold input_line; by rewrite K3, K4]].
  split; rewrite ?K3, ?K4; try done. eauto with zenith.
Qed.

Lemma same_rest_kept t t' : cursor_ok t' -> same_rest t t' -> kept t t'.
Proof. intros Hc Hr. split; [done |]. rewrite Hr. split; [apply draws_refl | done]. Qed.

Lemma kept_render t t' : fb_ok (screen t) -> kept t t' -> kept t (terminal_render t').
Proof.
  intros Hok (K1 & K2 & K3 & K4). split; [done |]. split; [| done]. eapply draws_trans; [exact K2 |].
  apply render_draws. eauto with zenith.
Qed.

Lemma backspace_kept t : cursor_ok t -> fb_ok (screen t) -> exists t', terminal_backspace t = Some t' /\ kept t t'.
Proof.
  intros [Hr Hc] Hok. unfold terminal_backspace. destruct (_ && _) eqn:E.
  { exists t. split; [done |]. split; [done |]. split; [apply draws_refl | done]. }
  unfold TERM_ROWS, TERM_COLS in *. apply andb_false_iff in E. rewrite !Z.eqb_neq in E.
  destruct (Z.eqb_spec (cursor_col t) 0); cbn [cursor_row cursor_col with_cursor];
    (rewrite set_cell_some by (unfold TERM_ROWS, TERM_COLS; lia)); cbn [mbind option_bind];
    (eexists; split; [done |]; apply kept_render; [done |]; split;
      [unfold cursor_ok, TERM_ROWS, TERM_COLS; cbn; lia | split; [apply draws_refl | done]]).
Qed.

Lemma init_kept t : kept t (terminal_init t).
Proof. unfold terminal_init. generalize (for_to 0 TERM_ROWS clear_row (terminal_buffer t)). intros b. split; [done |]. split; [apply draws_refl | done]. Qed.

Lemma key_ok c t : term_ok t -> exists t', terminal_handle_key c t = Some t' /\ term_ok t' /\
  draws (screen t) (screen t') /\ input_line t' = take 255 (input_line t ++ [c]).
Proof.
  intros Hok. pose proof Hok as [H1 H2 H3 H4 H5]. unfold terminal_handle_key, INPUT_BUFFER_SIZE.
  assert (Hll : length (input_line t) = Z.to_nat (input_length t)) by (unfold input_line; rewrite length_take; lia).
  destruct (Z.geb_spec (input_length t) (256 - 1)).
  { exists t. split; [done |]. split; [done |]. split; [apply draws_refl |].
    rewrite take_app_le by lia. by rewrite take_ge by lia. }
  unfold set_input. rewrite (proj2 (andb_true_iff _ _)) by (rewrite Z.leb_le, Z.ltb_lt; lia). cbn [mbind option_bind].
  rewrite length_insert, (proj2 (andb_true_iff _ _)) by (rewrite Z.leb_le, Z.ltb_lt; lia). cbn [mbind option_bind].
  set (l := <[_ := 0]> _).
  destruct (putchar_ok c (with_input l (input_length t + 1) t) H1) as (t' & E & Hc & Hr). rewrite E. cbn [mbind option_bind].
  exists (terminal_render t'). split; [done |].
  assert (Hin : input_buffer t' = l /\ input_length t' = input_length t + 1 /\ screen t' = screen t) by (by rewrite Hr).
  destruct Hin as (Hb & Hn & Hsc).
  assert (Hd : draws (screen t) (screen (terminal_render t'))) by (rewrite <- Hsc; apply render_draws; by rewrite Hsc).
  split; [| split; [done |]].
  - split; [done | eauto with zenith | | |]; cbn [input_buffer input_length terminal_render with_screen]; rewrite ?Hb, ?Hn.
    + unfold l. by rewrite !length_insert.
    + lia.
    + unfold l. rewrite list_lookup_insert_eq by (rewrite length_insert; lia). done.
  - unfold input_line. cbn [input_buffer input_length terminal_render with_screen]. rewrite Hb, Hn. unfold l.
    rewrite take_insert_ge by lia. replace (Z.to_nat (input_length t + 1)) with (S (Z.to_nat (input_length t))) by lia.
    rewrite (take_S_r _ _ c) by (apply list_lookup_insert_eq; lia). rewrite take_insert_ge by lia.
    rewrite (take_ge (_ ++ _)) by (rewrite length_app, length_take; cbn; lia). done.
Qed.

Lemma call_ok k t : term_ok t -> exists t', do_call k t = Some t' /\ term_ok t' /\
  draws (screen t) (screen t') /\ input_line t' = take 255 (input_line t ++ typed k).
Proof.
  intros Hok. pose proof Hok as [H1 H2 H3 H4 H5].
  assert (Hnil : take 255 (input_line t ++ []) = input_line t)
    by (rewrite app_nil_r, take_ge; [done | unfold input_line; rewrite length_take; lia]).
  assert (Hk : forall t', kept t t' -> exists t1, Some t' = Some t1 /\ term_ok t1 /\ draws (screen t) (screen t1) /\
    input_line t1 = take 255 (input_line t ++ [])).
  { intros t' Hkt. exists t'. rewrite Hnil. split; [done |]. by apply kept_ok. }
  destruct k as [|c|str| |color|x y|c|code|]; cbn [do_call typed].
  - apply Hk, init_kept.
  - destruct (putchar_ok c t H1) as (t' & -> & Hc & Hr). by apply Hk, same_rest_kept.
  - unfold terminal_write. destruct (write_loop_ok str t H1) as (t' & -> & Hc & Hr). cbn [mbind option_bind].
    apply Hk, kept_render; [done |]. by apply same_rest_kept.
  - destruct (backspace_kept t H1 H2) as (t' & -> & Hkt). by apply Hk.
  - apply Hk. split; [done |]. split; [apply draws_refl | done].
  - apply Hk. split; [done |]. split; [apply draws_refl | done].
  - by apply key_ok.
  - unfold keyboard_handler. destruct (negb (Z.land code 128 =? 0)).
    { apply Hk. split; [done |]. split; [apply draws_refl | done]. }
    cbn [orb]. destruct (scancode_to_ascii code =? 8).
    { destruct (backspace_kept t H1 H2) as (t' & -> & Hkt). by apply Hk. }
    cbn [orb]. destruct (scancode_to_ascii code =? 0); cbn [negb].
    { apply Hk. split; [done |]. split; [apply draws_refl | done]. }
    by apply key_ok.
  - apply Hk, kept_render; [done |]. split; [done |]. split; [apply draws_refl | done].
Qed.

Lemma take_take_app {A} n (l k : list A) : take n (take n l ++ k) = take n (l ++ k).
Proof.
  destruct (decide (length l <= n)%nat); [by rewrite (take_ge l) by lia |].
  rewrite !take_app_le by (rewrite ?length_take; lia). by rewrite take_take, Nat.min_id.
Qed.

(** C35: no sequence of terminal calls and key presses leaves the grid, overruns the
    input line or writes anywhere but to the pixels of the screen; the input line
    is always the first 255 characters typed, ended by a NUL (a backspace does not
    take a character back from it). *)
Theorem terminal_calls_safe l t (Hok : term_ok t) :
  exists t', do_calls l t = Some t' /\ term_ok t' /\ draws (screen t) (screen t') /\
    input_line t' = take 255 (input_line t ++ concat (map typed l)).
Proof.
  assert (H255 : forall t0, term_ok t0 -> (length (input_line t0) <= 255)%nat)
    by (intros t0 []; unfold input_line; rewrite length_take; lia).
  revert t Hok. induction l as [|k l IH]; intros t Hok; cbn [do_calls map concat].
  - exists t. split; [done |]. split; [done |]. split; [apply draws_refl |].
    pose proof (H255 t Hok). by rewrite app_nil_r, take_ge by lia.
  - destruct (call_ok k t Hok) as (t1 & -> & Hok1 & Hd1 & Hl1). cbn [mbind option_bind].
    destruct (IH t1 Hok1) as (t2 & E2 & Hok2 & Hd2 & Hl2). exists t2. split; [done |]. split; [done |].
    split; [by eapply draws_trans |]. rewrite Hl2, Hl1, app_assoc. apply take_take_app.
Qed.

(** ** Witnesses *)
Definition demo_term : term := mk_term 0 0 ∅ 0xFFFFFF 0 0 (replicate 256 0) 0 2 demo_screen.

Lemma demo_term_ok : term_ok demo_term.
Proof. split; [split; done | exact demo_screen_ok | done | done | done]. Qed.

Lemma terminal_calls_safe_witness :
  term_ok demo_term /\
  exists t', do_calls [CallInit; CallScancode 0x23; CallKey 105; CallBackspace; CallScancode 0x9E] demo_term = Some t' /\
    term_ok t' /\ input_line t' = [104; 105].
Proof.
  split; [exact demo_term_ok |].
  destruct (terminal_calls_safe [CallInit; CallScancode 0x23; CallKey 105; CallBackspace; CallScancode 0x9E] demo_term demo_term_ok)
    as (t' & E & Hok & _ & Hl).
  exists t'. split; [exact E |]. split; [exact Hok |]. rewrite Hl. reflexivity.
Defined.

(** Right after [terminal_init] the terminal shows the empty text. *)
Lemma init_shows t : shows (terminal_init t) [] [].
Proof.
  unfold terminal_init. set (b := for_to 0 TERM_ROWS clear_row (terminal_buffer t)).
  assert (Hb : forall r c, 0 <= r < 50 -> 0 <= c < 80 -> cell b r c = blank).
  { intros r c Hr Hc. unfold b, TERM_ROWS.
    pose proof (for_to_inv (fun j (g : grid) => forall r', 0 <= r' < j -> cell g r' c = blank) 0 50 clear_row (terminal_buffer t)) as Hi.
    apply Hi; [lia | lia | | lia]. clear Hi. intros j g Hj Hg r' Hr'. rewrite clear_row_cell. case_decide; [done |]. apply Hg. lia. }
  split; cbn [cursor_col cursor_row terminal_buffer with_buffer with_color with_cursor length]; [lia | done |].
  intros r c Hr Hc. rewrite Hb by done. unfold line_at. cbn [app].
  generalize (Z.to_nat (Z.of_nat 0 - 0 + r)). by intros [|m].
Qed.

Lemma terminal_write_correct_witness :
  let t := terminal_init demo_term in
  shows t [] [] /\ fb_ok (screen t) /\ placed t /\
  exists t', terminal_write [36; 10; 104] t = Some t' /\
    shows t' [[mk_cell 36 0xFFFFFF 0]] [mk_cell 104 0xFFFFFF 0] /\ paints (screen t) (screen t') (grid_ink t').
Proof.
  cbv zeta. pose proof (init_shows demo_term) as Hs. assert (Hp : placed (terminal_init demo_term)) by (repeat split; cbn; lia).
  split; [exact Hs |]. split; [exact demo_screen_ok |]. split; [exact Hp |].
  destruct (terminal_write_correct [36; 10; 104] (terminal_init demo_term) [] [] Hs demo_screen_ok Hp) as (t' & E & Hs' & Hpt & _).
  exists t'. split; [exact E |]. split; [exact Hs' | exact Hpt].
Defined.

Lemma terminal_backspace_correct_witness :
  let t := terminal_init demo_term in
  shows t [] [] /\ exists t1 t2, terminal_putchar 104 t = Some t1 /\ terminal_backspace t1 = Some t2 /\ shows t2 [] [].
Proof.
  cbv zeta. pose proof (init_shows demo_term) as Hs. split; [exact Hs |].
  destruct (terminal_backspace_correct 104 (terminal_init demo_term) [] [] Hs) as (t1 & t2 & E1 & E2 & _ & H2); [lia | cbn; lia |].
  exists t1, t2. split; [exact E1 |]. split; [exact E2 | exact H2].
Defined.
