(* ===== verification/Mouse.v ===== *)
(** * The mouse: [mouse_handler] of [drivers/mouse.c]

    Three bytes make a packet: the buttons, and the movement in both directions as
    signed bytes.  The position is kept on the screen. *)
From S2P Require Import Prelude Hardware.
Import Hal.
#[local] Open Scope Z_scope.

Module Mouse.

Record MouseState := mk_state { x : Z; y : Z; left : bool; right : bool; middle : bool }.

(** The driver's variables, and [gui_needs_redraw]. *)
Record mouse := mk_mouse {
  mouse_state : MouseState;
  mouse_packet : list Z; packet_index : Z;
  skip : Z; gui_needs_redraw : bool;
}.

Section mouse.
Context {D : Type} `{PortIO D}.
(** [framebuffer_width()] and [framebuffer_height()]. *)
Context (width height : Z).

Definition clamp (v size : Z) : Z :=
  let v := if v <? 0 then 0 else v in
  if u64 v >=? size then i32 (u64 (size - 1)) else v.

(** The part of the handler that takes a whole packet. *)
Definition mouse_take_packet (m : mouse) : mouse :=
  let b0 := default 0 (mouse_packet m !! 0%nat) in
  let b1 := default 0 (mouse_packet m !! 1%nat) in
  let b2 := default 0 (mouse_packet m !! 2%nat) in
  let st := mk_state (x (mouse_state m)) (y (mouse_state m)) (negb (Z.land b0 0x01 =? 0)) (negb (Z.land b0 0x02 =? 0)) (negb (Z.land b0 0x04 =? 0)) in
  if Z.land b0 0x08 =? 0 then mk_mouse st (mouse_packet m) 0 (skip m) (gui_needs_redraw m)
  else
    let dx := i8 b1 in
    let dy := i8 b2 in
    let st := mk_state (clamp (i32 (x st + dx)) width) (clamp (i32 (y st - dy)) height) (left st) (right st) (middle st) in
    let skip := u8 (skip m + 1) in
    if skip >=? 3 then mk_mouse st (mouse_packet m) 0 0 true
    else mk_mouse st (mouse_packet m) 0 skip (gui_needs_redraw m).

(** A byte past the end of [mouse_packet] has no result. *)
Definition mouse_handler (st : D * mouse) : option (D * mouse) :=
  let '(d, m) := st in
  let '(status, d) := inb KEYBOARD_STATUS d in
  if negb (Z.land status 0x21 =? 0x21) then Some (d, m)
  else
    let '(b, d) := inb KEYBOARD_DATA d in
    if packet_index m >=? Z.of_nat (length (mouse_packet m)) then None
    else
      let m := mk_mouse (mouse_state m) (<[Z.to_nat (packet_index m) := b]> (mouse_packet m)) (u8 (packet_index m + 1)) (skip m) (gui_needs_redraw m) in
      if packet_index m <? 3 then Some (d, m) else Some (d, mouse_take_packet m).
End mouse.

(** ** What the driver keeps true *)
Record mouse_ok (width height : Z) (m : mouse) : Prop := {
  mo_x : 0 <= x (mouse_state m) < width;
  mo_y : 0 <= y (mouse_state m) < height;
  mo_packet : length (mouse_packet m) = 3%nat;
  mo_index : 0 <= packet_index m < 3;
  mo_skip : 0 <= skip m < 3;
}.

Lemma i8_range v : - 128 <= i8 v < 128.
Proof. unfold i8. pose proof (Z.mod_pos_bound (v + 2 ^ 7) (2 ^ 8)). lia. Qed.

Lemma clamp_min v size : 0 < size <= 2 ^ 31 -> - 2 ^ 31 <= v < 2 ^ 31 -> clamp v size = Z.max 0 (Z.min (size - 1) v).
Proof.
  intros Hs Hv. unfold clamp. destruct (Z.ltb_spec v 0).
  - rewrite u64_id by lia. destruct (Z.geb_spec 0 size); lia.
  - rewrite u64_id by lia. destruct (Z.geb_spec v size); [| lia]. rewrite u64_id, i32_id by lia. lia.
Qed.

(** The position after a movement: straight on, stopped by the edges of the screen. *)
Definition moved (size v d : Z) : Z := Z.max 0 (Z.min (size - 1) (v + d)).

Section specification.
Context {D : Type} `{Bus D} (width height : Z).
Context (Hw : 0 < width <= 2 ^ 30) (Hh : 0 < height <= 2 ^ 30).

Definition packet_effect (b0 b1 b2 : Z) (m : MouseState) : MouseState :=
  let held k := Z.testbit b0 k in
  if Z.testbit b0 3 then
    mk_state (moved width (x m) (i8 b1)) (moved height (y m) (- i8 b2)) (held 0) (held 1) (held 2)
  else mk_state (x m) (y m) (held 0) (held 1) (held 2).

Lemma take_packet_spec m b0 b1 b2 : mouse_ok width height m -> mouse_packet m = [b0; b1; b2] ->
  mouse_state (mouse_take_packet width height m) = packet_effect b0 b1 b2 (mouse_state m) /\
  packet_index (mouse_take_packet width height m) = 0 /\ mouse_packet (mouse_take_packet width height m) = mouse_packet m /\
  0 <= skip (mouse_take_packet width height m) < 3.
Proof.
  intros [Hx Hy _ _ Hs] Hp. unfold mouse_take_packet, packet_effect. rewrite Hp.
  change (default 0 ([b0; b1; b2] !! 0%nat)) with b0. change (default 0 ([b0; b1; b2] !! 1%nat)) with b1. change (default 0 ([b0; b1; b2] !! 2%nat)) with b2.
  rewrite (land_bit_nonzero b0 0 ltac:(lia) : negb (Z.land b0 1 =? 0) = _), (land_bit_nonzero b0 1 ltac:(lia) : negb (Z.land b0 2 =? 0) = _),
    (land_bit_nonzero b0 2 ltac:(lia) : negb (Z.land b0 4 =? 0) = _).
  pose proof (land_bit_nonzero b0 3 ltac:(lia)) as H3. change (Z.shiftl 1 3) with 8 in H3. pose proof (i8_range b1). pose proof (i8_range b2).
  destruct (Z.testbit b0 3), (Z.land b0 8 =? 0); try done; cbn [x y left right middle].
  rewrite (u8_id (skip m + 1)) by lia. rewrite !i32_id, !clamp_min by lia.
  unfold moved. replace (y (mouse_state m) + - i8 b2) with (y (mouse_state m) - i8 b2) by lia.
  destruct (Z.geb_spec (skip m + 1) 3); cbn [mouse_state packet_index mouse_packet skip]; (split; [done | split; [done | split; [done | lia]]]).
Qed.

Lemma packet_effect_ok b0 b1 b2 m : 0 <= x m < width -> 0 <= y m < height ->
  0 <= x (packet_effect b0 b1 b2 m) < width /\ 0 <= y (packet_effect b0 b1 b2 m) < height.
Proof. intros Hx Hy. unfold packet_effect, moved. destruct (Z.testbit b0 3); cbn [x y]; lia. Qed.

(** One interrupt. *)
Lemma handler_ok d m : mouse_ok width height m ->
  exists d' m', mouse_handler width height (d, m) = Some (d', m') /\ mouse_ok width height m'.
Proof.
  intros Hok. pose proof Hok as [Hx Hy Hp Hi Hs]. unfold mouse_handler.
  destruct (inb KEYBOARD_STATUS d) as [status d1]. destruct (negb _); [by exists d1, m |].
  destruct (inb KEYBOARD_DATA d1) as [b d2]. destruct (Z.geb_spec (packet_index m) (Z.of_nat (length (mouse_packet m)))); [lia |].
  cbn [packet_index]. rewrite (u8_id (packet_index m + 1)) by lia. set (m1 := mk_mouse _ _ _ _ _).
  assert (Hl : length (mouse_packet m1) = 3%nat) by (unfold m1; cbn; by rewrite length_insert).
  destruct (Z.ltb_spec (packet_index m + 1) 3).
  - exists d2, m1. split; [done |]. split; cbn; try done; lia.
  - destruct (mouse_packet m1) as [|b0 [|b1 [|b2 [|]]]] eqn:Ep; try discriminate Hl.
    set (m2 := mk_mouse (mouse_state m1) [b0; b1; b2] 0 (skip m1) (gui_needs_redraw m1)).
    assert (E2 : mouse_take_packet width height m1 = mouse_take_packet width height m2) by (unfold mouse_take_packet; by rewrite Ep).
    destruct (take_packet_spec m2 b0 b1 b2) as (Hst & Hi' & Hpk & Hsk); [by split; cbn; try lia | done |].
    exists d2, (mouse_take_packet width height m1). split; [done |]. rewrite E2.
    destruct (packet_effect_ok b0 b1 b2 (mouse_state m) Hx Hy) as [Hx' Hy'].
    split; rewrite ?Hst, ?Hi', ?Hpk; try done; lia.
Qed.

(** Interrupt after interrupt. *)
Fixpoint interrupts (n : nat) (st : D * mouse) : option (D * mouse) :=
  match n with O => Some st | S n' => st ← mouse_handler width height st; interrupts n' st end.

(** The controller has the bytes for the mouse, one for each interrupt. *)
Fixpoint delivers (d : D) (bytes : list Z) (d' : D) : Prop :=
  match bytes with
  | [] => d = d'
  | b :: bytes' => exists status d1 d2, inb KEYBOARD_STATUS d = (status, d1) /\ Z.land status 0x21 = 0x21 /\
      inb KEYBOARD_DATA d1 = (b, d2) /\ delivers d2 bytes' d'
  end.

Lemma interrupts_app n1 n2 st : interrupts (n1 + n2) st = st ← interrupts n1 st; interrupts n2 st.
Proof. revert st; induction n1 as [|n1 IH]; intros st; cbn; [done |]. destruct (mouse_handler width height st); cbn; [apply IH | done]. Qed.

Lemma interrupts_ok n : forall d m, mouse_ok width height m ->
  exists d' m', interrupts n (d, m) = Some (d', m') /\ mouse_ok width height m'.
Proof.
  induction n as [|n IH]; intros d m Hok; [by exists d, m |]. cbn [interrupts].
  destruct (handler_ok d m Hok) as (d1 & m1 & -> & Hok1). cbn [mbind option_bind]. by apply IH.
Qed.

Lemma handler_byte d b d' m : delivers d [b] d' -> (packet_index m < Z.of_nat (length (mouse_packet m))) ->
  mouse_handler width height (d, m) =
  let m := mk_mouse (mouse_state m) (<[Z.to_nat (packet_index m) := b]> (mouse_packet m)) (u8 (packet_index m + 1)) (skip m) (gui_needs_redraw m) in
  Some (d', if packet_index m <? 3 then m else mouse_take_packet width height m).
Proof.
  intros (status & d1 & d2 & E1 & Es & E2 & Ed) Hi. cbn in Ed. subst d'. unfold mouse_handler. rewrite E1, Es. cbn [negb Z.eqb Pos.eqb].
  rewrite E2. destruct (Z.geb_spec (packet_index m) (Z.of_nat (length (mouse_packet m)))); [lia |]. cbv zeta. by case_match.
Qed.

Lemma three_bytes d b0 b1 b2 d' m : delivers d [b0; b1; b2] d' -> mouse_ok width height m -> packet_index m = 0 ->
  exists m', interrupts 3 (d, m) = Some (d', m') /\ mouse_ok width height m' /\ packet_index m' = 0 /\
    mouse_state m' = packet_effect b0 b1 b2 (mouse_state m).
Proof.
  intros (st0 & e0 & d1 & A1 & A2 & A3 & st1 & e1 & d2 & B1 & B2 & B3 & st2 & e2 & d3 & C1 & C2 & C3 & Ed) Hok Hi. cbn in Ed. subst d3.
  pose proof Hok as [Hx Hy Hp _ Hs]. destruct m as [ms pk pi sk red]. cbn in Hx, Hy, Hp, Hs, Hi. subst pi.
  destruct pk as [|q0 [|q1 [|q2 [|]]]]; try discriminate Hp. cbn [interrupts].
  rewrite (handler_byte d b0 d1) by (done || (by exists st0, e0, d1)). cbn [mbind option_bind].
  rewrite (handler_byte d1 b1 d2) by (done || (by exists st1, e1, d2)). cbn [mbind option_bind].
  rewrite (handler_byte d2 b2 d') by (done || (by exists st2, e2, d')). cbn [mbind option_bind].
  set (m2 := mk_mouse ms [b0; b1; b2] 0 sk red).
  destruct (take_packet_spec m2 b0 b1 b2) as (Hst & Hi' & Hpk & Hsk); [by split; cbn; try lia | done |].
  exists (mouse_take_packet width height m2). split; [reflexivity |].
  destruct (packet_effect_ok b0 b1 b2 ms Hx Hy) as [Hx' Hy'].
  split; [| split; [done | exact Hst]]. split; rewrite ?Hst, ?Hi', ?Hpk; try done; lia.
Qed.

Lemma delivers_app d l1 l2 d' : delivers d (l1 ++ l2) d' -> exists d1, delivers d l1 d1 /\ delivers d1 l2 d'.
Proof.
  revert d; induction l1 as [|b l1 IH]; intros d Hd; [by exists d |]. destruct Hd as (st & e & d1 & A1 & A2 & A3 & Hd).
  destruct (IH d1 Hd) as (d2 & H1 & H2). exists d2. split; [by exists st, e, d1 | done].
Qed.

(** C38: whatever the controller answers, no interrupt writes past the packet buffer
    and the position stays on the screen; and whole packets that arrive byte by
    byte move it, one after the other, by the signed distances they carry (stopped
    at the edges) and set the buttons to theirs. *)
Theorem mouse_correct d m n packets d' (Hok : mouse_ok width height m) :
  (exists d1 m1, interrupts n (d, m) = Some (d1, m1) /\ mouse_ok width height m1) /\
  (packet_index m = 0 -> delivers d (concat (map (fun p => [fst (fst p); snd (fst p); snd p]) packets)) d' ->
   exists m1, interrupts (3 * length packets) (d, m) = Some (d', m1) /\ mouse_ok width height m1 /\ packet_index m1 = 0 /\
     mouse_state m1 = foldl (fun s p => packet_effect (fst (fst p)) (snd (fst p)) (snd p) s) (mouse_state m) packets).
Proof.
  split; [by apply interrupts_ok |]. revert d m Hok. induction packets as [|[[b0 b1] b2] ps IH]; intros d m Hok Hi Hd.
  - cbn in Hd. subst d'. by exists m.
  - cbn [map concat fst snd] in Hd. apply delivers_app in Hd as (d1 & Hd1 & Hd2).
    destruct (three_bytes d b0 b1 b2 d1 m Hd1 Hok Hi) as (m1 & E1 & Hok1 & Hi1 & Hs1).
    destruct (IH d1 m1 Hok1 Hi1 Hd2) as (m2 & E2 & Hok2 & Hi2 & Hs2). exists m2.
    replace (3 * length ((b0, b1, b2) :: ps))%nat with (3 + 3 * length ps)%nat by (cbn [length]; lia).
    rewrite interrupts_app, E1. cbn [mbind option_bind]. split; [done |]. split; [done |]. split; [done |]. cbn [foldl fst snd]. by rewrite Hs2, Hs1.
Qed.
End specification.

(** ** Witness: a controller that holds the bytes to come *)
Definition queue : Type := list Z.
#[global] Instance queue_port : PortIO queue := {
  inb p d := if p =? KEYBOARD_STATUS then ((match d with [] => 0 | _ => 0x21 end), d)
             else match d with [] => (0, []) | b :: d' => (b, d') end;
  outb p v d := d;
}.
Definition demo_mouse : mouse := mk_mouse (mk_state 100 100 false false false) [0; 0; 0] 0 0 false.

Lemma demo_mouse_ok : mouse_ok 640 480 demo_mouse.
Proof. split; cbn; done || lia. Qed.

Lemma mouse_correct_witness :
  mouse_ok 640 480 demo_mouse /\
  exists m1, interrupts 640 480 6 ([0x09; 10; 3; 0x08; 0x80; 0xFF] : queue, demo_mouse) = Some ([], m1) /\
    mouse_state m1 = mk_state 0 98 false false false.
Proof.
  split; [exact demo_mouse_ok |].
  destruct (mouse_correct (D := queue) 640 480 ltac:(lia) ltac:(lia) [0x09; 10; 3; 0x08; 0x80; 0xFF] demo_mouse 0
    [(0x09, 10, 3); (0x08, 0x80, 0xFF)] [] demo_mouse_ok) as [_ H].
  destruct (H eq_refl) as (m1 & E & _ & _ & Hs).
  - do 6 (eexists _, _, _; split; [reflexivity |]; split; [reflexivity |]; split; [reflexivity |]). reflexivity.
  - exists m1. split; [exact E |]. rewrite Hs. reflexivity.
Defined.

(** Packets (0x08, 5, 9) without buttons, less the very first byte: the driver takes
    a distance for the buttons and the buttons for a distance, packet after packet;
    it discards the movement and reports two buttons held. *)
Example out_of_step :
  option_map (fun r => mouse_state (snd r)) (interrupts 640 480 6 ([5; 9; 0x08; 5; 9; 0x08] : queue, demo_mouse)) =
  Some (mk_state 100 100 true false true).
Proof. reflexivity. Qed.
End Mouse.
