(* ===== verification/Windows.v ===== *)
(** * Windows: [gui/window_manager.c], [gui/windows.c]

    The manager keeps pointers to windows that belong to the applications: a store
    from addresses to windows, and the array of pointers, the last one on top.  An
    address without a window cannot be read. *)
From S2P Require Import Prelude Memory Framebuffer Font.
Import Mem Framebuffer Font.
#[local] Open Scope Z_scope.

Module Windows.

Definition MAX_WINDOWS : Z := 32.
Definition TITLEBAR_HEIGHT : Z := 24.

Record Window := mk_window {
  wx : Z; wy : Z; width : Z; height : Z;
  visible : bool; focused : bool; minimised : bool; maximised : bool;
  dragging : bool; resizing : bool;
  drag_offset_x : Z; drag_offset_y : Z;
  title : list Z;
  draw_content : Z;
}.

Definition set_drag (d : bool) (ox oy : Z) (w : Window) : Window :=
  mk_window (wx w) (wy w) (width w) (height w) (visible w) (focused w) (minimised w) (maximised w) d (resizing w) ox oy (title w) (draw_content w).
Definition set_position (x y : Z) (w : Window) : Window :=
  mk_window x y (width w) (height w) (visible w) (focused w) (minimised w) (maximised w) (dragging w) (resizing w)
    (drag_offset_x w) (drag_offset_y w) (title w) (draw_content w).

Record manager := mk_manager {
  windows : list Z; window_count : Z; drag_window : Z;
  store : gmap Z Window;
}.
Definition with_store (v : gmap Z Window) (s : manager) : manager := mk_manager (windows s) (window_count s) (drag_window s) v.
Definition with_drag (v : Z) (s : manager) : manager := mk_manager (windows s) (window_count s) v (store s).

Definition window_manager_init (s : manager) : manager := mk_manager (windows s) 0 (drag_window s) (store s).

Definition window_manager_add (window : Z) (s : manager) : manager :=
  if window_count s >=? MAX_WINDOWS then s
  else mk_manager (<[Z.to_nat (window_count s) := window]> (windows s)) (window_count s + 1) (drag_window s) (store s).

Definition contains (w : Window) (x y : Z) : bool :=
  (x >=? wx w) && (x <? i32 (wx w + width w)) && (y >=? wy w) && (y <? i32 (wy w + height w)).

Definition window_in_titlebar (w : Window) (x y : Z) : bool :=
  (x >=? wx w) && (x <? i32 (wx w + width w)) && (y >=? wy w) && (y <? i32 (wy w + TITLEBAR_HEIGHT)).

Section manager.
(** Where the compiler puts the string literal that is returned for no window. *)
Context (NULL_LITERAL : Z).

Fixpoint window_at_loop (n : nat) (x y : Z) (s : manager) : option Z :=
  match n with
  | O => Some NULL_LITERAL
  | S i =>
    p ← windows s !! i;
    w ← store s !! p;
    if negb (visible w) then window_at_loop i x y s
    else if contains w x y then Some p
    else window_at_loop i x y s
  end.

Definition window_manager_get_window_at (x y : Z) (s : manager) : option Z := window_at_loop (Z.to_nat (window_count s)) x y s.

Definition window_manager_mouse_down (x y : Z) (s : manager) : option manager :=
  p ← window_manager_get_window_at x y s;
  if p =? NULL then Some s
  else
    w ← store s !! p;
    if negb (window_in_titlebar w x y) then Some s
    else Some (with_store (<[p := set_drag true (i32 (x - wx w)) (i32 (y - wy w)) w]> (store s)) (with_drag p s)).

Definition window_manager_mouse_move (x y : Z) (s : manager) : option manager :=
  if drag_window s =? NULL then Some s
  else
    w ← store s !! drag_window s;
    Some (with_store (<[drag_window s := set_position (i32 (x - drag_offset_x w)) (i32 (y - drag_offset_y w)) w]> (store s)) s).

Definition window_manager_mouse_up (s : manager) : option manager :=
  if drag_window s =? NULL then Some s
  else
    w ← store s !! drag_window s;
    Some (with_drag NULL (with_store (<[drag_window s := set_drag false (drag_offset_x w) (drag_offset_y w) w]> (store s)) s)).

(** ** The manager's invariant *)

(** Coordinates whose sums are no overflow. *)
Definition small (v : Z) : Prop := - 2 ^ 29 <= v <= 2 ^ 29.

Record manager_ok (s : manager) : Prop := {
  mg_array : length (windows s) = 32%nat;
  mg_count : 0 <= window_count s <= 32;
  mg_windows i p : (Z.of_nat i < window_count s) -> windows s !! i = Some p -> p <> NULL /\ exists w, store s !! p = Some w;
  mg_small p w : store s !! p = Some w -> small (wx w) /\ small (wy w) /\ 0 <= width w <= 2 ^ 29 /\ 0 <= height w <= 2 ^ 29;
  mg_literal : NULL_LITERAL <> NULL /\ store s !! NULL_LITERAL = None;
  mg_drag : drag_window s <> NULL -> exists w, store s !! drag_window s = Some w;
}.

(** Whether a window is visible and covers a point. *)
Definition covers (s : manager) (x y : Z) (p : Z) : Prop :=
  exists w, store s !! p = Some w /\ visible w = true /\ wx w <= x < wx w + width w /\ wy w <= y < wy w + height w.

Lemma contains_iff w x y : small (wx w) -> small (wy w) -> 0 <= width w <= 2 ^ 29 -> 0 <= height w <= 2 ^ 29 ->
  contains w x y = true <-> wx w <= x < wx w + width w /\ wy w <= y < wy w + height w.
Proof.
  unfold small, contains. intros. rewrite !i32_id, !andb_true_iff, !Z.geb_le, !Z.ltb_lt by lia. lia.
Qed.

Lemma window_at_spec n x y s : manager_ok s -> Z.of_nat n <= window_count s ->
  (exists i p, window_at_loop n x y s = Some p /\ (i < n)%nat /\ windows s !! i = Some p /\ covers s x y p /\
     forall j q, (i < j < n)%nat -> windows s !! j = Some q -> ~ covers s x y q) \/
  (window_at_loop n x y s = Some NULL_LITERAL /\ forall j q, (j < n)%nat -> windows s !! j = Some q -> ~ covers s x y q).
Proof.
  intros Hok. pose proof Hok as [Ha Hc Hwin Hsm _ _]. induction n as [|n IH]; intros Hn; [right; split; [done | lia] |].
  cbn [window_at_loop]. destruct (lookup_lt_is_Some_2 (windows s) n) as [p Ep]; [lia |].
  destruct (Hwin n p ltac:(lia) Ep) as (Hp & w & Ew). rewrite Ep. cbn [mbind option_bind]. rewrite Ew. cbn [mbind option_bind].
  destruct (Hsm p w Ew) as (Hs1 & Hs2 & Hs3 & Hs4). pose proof (contains_iff w x y Hs1 Hs2 Hs3 Hs4) as Hci.
  assert (Hcov : covers s x y p <-> visible w = true /\ contains w x y = true).
  { rewrite Hci. unfold covers. split; [intros (w' & Ew' & Hv & Hr); rewrite Ew in Ew'; by injection Ew' as <- | intros [Hv Hr]; by exists w]. }
  assert (Hskip : ~ covers s x y p ->
    (exists i q, window_at_loop n x y s = Some q /\ (i < S n)%nat /\ windows s !! i = Some q /\ covers s x y q /\
       forall j r, (i < j < S n)%nat -> windows s !! j = Some r -> ~ covers s x y r) \/
    (window_at_loop n x y s = Some NULL_LITERAL /\ forall j q, (j < S n)%nat -> windows s !! j = Some q -> ~ covers s x y q)).
  { intros Hno. assert (Hlast : forall j q, (j < S n)%nat -> windows s !! j = Some q -> (j < n)%nat \/ q = p).
    { intros j q Hj Hq. destruct (decide (j = n)) as [->|]; [right; congruence | left; lia]. }
    destruct (IH ltac:(lia)) as [(i & q & E & Hi & Hq & Hcq & Hj)|[E Hj]]; [left | right].
    - exists i, q. split; [done |]. split; [lia |]. split; [done |]. split; [done |]. intros j r Hjr Hr.
      destruct (Hlast j r ltac:(lia) Hr) as [? | ->]; [apply (Hj j); [lia | done] | done].
    - split; [done |]. intros j q Hjq Hq. destruct (Hlast j q Hjq Hq) as [? | ->]; [by apply (Hj j) | done]. }
  destruct (visible w) eqn:Ev; cbn [negb]; [| apply Hskip; rewrite Hcov; naive_solver].
  destruct (contains w x y) eqn:Ec; [| apply Hskip; rewrite Hcov; naive_solver].
  left. exists n, p. split; [done |]. split; [lia |]. split; [done |]. split; [by apply Hcov |]. lia.
Qed.

(** window_manager_get_window_at returns the topmost of the visible windows that
    cover a point; where there is none it returns the address of a string, which
    is not NULL, so that a press there makes window_manager_mouse_down read a
    window where there is none. *)
Theorem window_at_correct x y s (Hok : manager_ok s) :
  (exists i p, window_manager_get_window_at x y s = Some p /\ Z.of_nat i < window_count s /\ windows s !! i = Some p /\ covers s x y p /\
     forall j q, (i < j)%nat -> Z.of_nat j < window_count s -> windows s !! j = Some q -> ~ covers s x y q) \/
  (window_manager_get_window_at x y s = Some NULL_LITERAL /\ window_manager_mouse_down x y s = None /\
     forall j q, Z.of_nat j < window_count s -> windows s !! j = Some q -> ~ covers s x y q).
Proof.
  destruct (window_at_spec (Z.to_nat (window_count s)) x y s Hok) as [(i & p & E & Hi & Hp & Hc & Hj)|[E Hj]];
    [pose proof (mg_count _ Hok); lia | left | right].
  - exists i, p. split; [done |]. split; [lia |]. split; [done |]. split; [done |]. intros j q H1 H2. apply Hj. lia.
  - split; [done |]. split; [| intros j q Hlt; apply Hj; lia]. destruct (mg_literal _ Hok) as [Hl1 Hl2].
    unfold window_manager_mouse_down, window_manager_get_window_at. rewrite E. cbn [mbind option_bind].
    rewrite (proj2 (Z.eqb_neq _ _) Hl1). by rewrite Hl2.
Qed.

(** ** Dragging *)
Fixpoint moves (l : list (Z * Z)) (s : manager) : option manager :=
  match l with [] => Some s | (x, y) :: l' => s ← window_manager_mouse_move x y s; moves l' s end.

(** A window as it is while ([d]) and after it is dragged by [(dx, dy)], held at [(x, y)]. *)
Definition dragged (x y dx dy : Z) (d : bool) (w : Window) : Window :=
  set_position (wx w + dx) (wy w + dy) (set_drag d (x - wx w) (y - wy w) w).

Definition small_pair (q : Z * Z) : Prop := small (fst q) /\ small (snd q).

Lemma move_spec x y dx dy x1 y1 s p w : small x -> small y -> small x1 -> small y1 -> small (wx w) -> small (wy w) -> p <> NULL ->
  drag_window s = p -> store s !! p = Some (dragged x y dx dy true w) ->
  window_manager_mouse_move x1 y1 s = Some (with_store (<[p := dragged x y (x1 - x) (y1 - y) true w]> (store s)) s).
Proof.
  unfold small. intros Hx Hy Hx1 Hy1 Hwx Hwy Hp Hd Hs. unfold window_manager_mouse_move. rewrite Hd, (proj2 (Z.eqb_neq _ _) Hp), Hs.
  cbn [mbind option_bind]. do 3 f_equal. unfold dragged, set_position, set_drag; cbn [drag_offset_x drag_offset_y].
  rewrite !i32_id by lia. f_equal; lia.
Qed.

Lemma moves_spec l : forall x y dx dy s p w, small x -> small y -> Forall small_pair l -> small (wx w) -> small (wy w) -> p <> NULL ->
  drag_window s = p -> store s !! p = Some (dragged x y dx dy true w) ->
  let q := default (x + dx, y + dy) (last l) in
  moves l s = Some (with_store (<[p := dragged x y (fst q - x) (snd q - y) true w]> (store s)) s).
Proof.
  induction l as [|[x1 y1] l IH]; intros x y dx dy s p w Hx Hy Hl Hwx Hwy Hp Hd Hs; cbn [moves].
  - cbn. replace (x + dx - x) with dx by lia. replace (y + dy - y) with dy by lia. rewrite insert_id by done. by destruct s.
  - inversion Hl as [|? ? [Hx1 Hy1] Hl']; subst. cbn [fst snd] in *. rewrite (move_spec x y dx dy x1 y1 s (drag_window s) w) by done.
    cbn [mbind option_bind]. rewrite (IH x y (x1 - x) (y1 - y) _ (drag_window s) w); try done; [| by cbn; rewrite lookup_insert_eq].
    cbn [store with_store]. rewrite insert_insert_eq. cbv zeta.
    replace (default (x + (x1 - x), y + (y1 - y)) (last l)) with (default (x + dx, y + dy) (last ((x1, y1) :: l))); [done |].
    destruct l as [|q l]; [cbn; f_equal; lia |]. cbn [last]. by destruct (last (q :: l)) eqn:E; [| apply last_None in E].
Qed.

(** pressing the title bar of the topmost window at a point, moving and
    releasing takes that window, and no other, along by the distance from the point
    of the press to the last point; its size and contents are untouched, and later
    movements do nothing. *)
Theorem window_drag_correct x y l s p w (Hok : manager_ok s) (Hx : small x) (Hy : small y) (Hl : Forall small_pair l)
    (Hp : p <> NULL) (Hat : window_manager_get_window_at x y s = Some p) (Hw : store s !! p = Some w)
    (Htitle : wx w <= x < wx w + width w) (Htop : wy w <= y < wy w + TITLEBAR_HEIGHT) :
  let q := default (x, y) (last l) in
  exists s1 s2 s3, window_manager_mouse_down x y s = Some s1 /\ moves l s1 = Some s2 /\ window_manager_mouse_up s2 = Some s3 /\
    store s3 = <[p := dragged x y (fst q - x) (snd q - y) false w]> (store s) /\
    windows s3 = windows s /\ window_count s3 = window_count s /\ drag_window s3 = NULL /\
    (forall l', moves l' s3 = Some s3).
Proof.
  intros q. destruct (mg_small _ Hok p w Hw) as (Hwx & Hwy & Hww & Hwh). unfold small in *.
  assert (Ht : window_in_titlebar w x y = true).
  { unfold window_in_titlebar, TITLEBAR_HEIGHT in *. rewrite !i32_id, !andb_true_iff, !Z.geb_le, !Z.ltb_lt by lia. lia. }
  assert (Ed : set_drag true (i32 (x - wx w)) (i32 (y - wy w)) w = dragged x y 0 0 true w).
  { unfold dragged, set_drag, set_position; cbn. rewrite !i32_id by lia. f_equal; lia. }
  set (s1 := with_store (<[p := dragged x y 0 0 true w]> (store s)) (with_drag p s)).
  set (s2 := with_store (<[p := dragged x y (fst q - x) (snd q - y) true w]> (store s1)) s1).
  exists s1, s2. eexists. split; [| split; [| split]].
  - unfold window_manager_mouse_down. rewrite Hat. cbn [mbind option_bind]. rewrite (proj2 (Z.eqb_neq _ _) Hp), Hw. cbn [mbind option_bind].
    rewrite Ht. cbn [negb]. by rewrite Ed.
  - rewrite (moves_spec l x y 0 0 s1 p w); try done; [| by unfold s1; cbn; rewrite lookup_insert_eq].
    unfold s2, q. by rewrite !Z.add_0_r.
  - unfold window_manager_mouse_up. cbn [drag_window s2 s1 with_store with_drag store]. rewrite (proj2 (Z.eqb_neq _ _) Hp), lookup_insert_eq.
    cbn [mbind option_bind]. reflexivity.
  - cbn [store windows window_count drag_window with_store with_drag s2 s1]. rewrite !insert_insert_eq. repeat (split; [reflexivity |]).
    intros l'. induction l' as [|[x' y'] l' IH]; [done |]. cbn [moves]. unfold window_manager_mouse_move at 1. cbn [drag_window with_drag Z.eqb NULL]. exact IH.
Qed.

(** Adding a window keeps the invariant; the 33rd is ignored. *)
Lemma manager_add_ok p w s : manager_ok s -> p <> NULL -> store s !! p = Some w -> manager_ok (window_manager_add p s).
Proof.
  intros [Ha Hc Hwin Hsm Hlit Hdr] Hp Hw. unfold window_manager_add, MAX_WINDOWS. destruct (Z.geb_spec (window_count s) 32); [by split |].
  split; cbn [windows window_count drag_window store]; try done; [by rewrite length_insert | lia |].
  intros i q Hi Hq. destruct (decide (i = Z.to_nat (window_count s))) as [->|Hne].
  - rewrite list_lookup_insert_eq in Hq by lia. injection Hq as <-. split; [done | by exists w].
  - rewrite list_lookup_insert_ne in Hq by done. apply (Hwin i); [lia | done].
Qed.
End manager.

(** ** Drawing a window: [window_draw] *)
Definition window_draw (font_scale : Z) (w : Window) (s : fb_t) : fb_t :=
  let x := wx w in
  let y := wy w in
  let width := width w in
  let height := height w in
  let s := fill_rect (u64 (i32 (x + 4))) (u64 (i32 (y + 4))) (u64 width) (u64 height) 0x111827 s in
  let s := fill_rect (u64 x) (u64 y) (u64 width) (u64 height) 0x1E293B s in
  let s := fill_rect (u64 x) (u64 y) (u64 width) 32 0x334155 s in
  let s := fill_rect (u64 x) (u64 y) (u64 width) 1 0x64748B s in
  let s := fill_rect (u64 x) (u64 (i32 (y + height - 1))) (u64 width) 1 0x64748B s in
  let s := fill_rect (u64 x) (u64 y) 1 (u64 height) 0x64748B s in
  let s := fill_rect (u64 (i32 (x + width - 1))) (u64 y) 1 (u64 height) 0x64748B s in
  let s := fill_rect (u64 (i32 (x + 10))) (u64 (i32 (y + 10))) 10 10 0xEF4444 s in
  let s := fill_rect (u64 (i32 (x + 26))) (u64 (i32 (y + 10))) 10 10 0xFACC15 s in
  let s := fill_rect (u64 (i32 (x + 42))) (u64 (i32 (y + 10))) 10 10 0x22C55E s in
  draw_string font_scale (i32 (x + 80)) (i32 (y + 12)) (title w) 0xFFFFFF s.

Lemma fill_draws x y width height color s : fb_ok s -> draws s (fill_rect (u64 x) (u64 y) width height color s).
Proof. intros Hok. eapply draws_paints, fill_paints; [done | |]; apply u64_range. Qed.

(** One more drawing after another. *)
Lemma then_draws s s1 s2 : draws s s1 -> fb_ok s -> (fb_ok s1 -> draws s1 s2) -> draws s s2.
Proof. intros H1 Hok H2. eapply draws_trans; [exact H1 |]. apply H2. by eapply draws_ok. Qed.

Lemma window_draw_draws font_scale w s : fb_ok s -> draws s (window_draw font_scale w s).
Proof.
  intros Hok. unfold window_draw. cbv zeta. unfold draw_string.
  repeat (eapply then_draws; [| exact Hok | intros; first [apply draw_text_scaled_draws | apply fill_draws]; done]).
  apply draws_refl.
Qed.

(** ** Witnesses: two windows that overlap *)
Definition demo_window (x y : Z) : Window :=
  mk_window x y 100 60 true true false false false false 0 0 [] 0.
Definition demo_manager : manager :=
  mk_manager ([0x1000; 0x2000] ++ replicate 30 0) 2 NULL {[ 0x1000 := demo_window 10 10; 0x2000 := demo_window 50 20 ]}.

Lemma demo_store p w : store demo_manager !! p = Some w -> (p = 0x1000 /\ w = demo_window 10 10) \/ (p = 0x2000 /\ w = demo_window 50 20).
Proof. cbn [store demo_manager]. rewrite lookup_insert_Some, lookup_singleton_Some. naive_solver. Qed.

Lemma demo_manager_ok : manager_ok 0x3000 demo_manager.
Proof.
  split.
  - reflexivity.
  - cbn; lia.
  - intros i p Hi Hp. cbn [window_count demo_manager] in Hi. destruct i as [|[|i]]; [| | lia];
      injection Hp as <-; (split; [done | eexists; reflexivity]).
  - intros p w Hw. apply demo_store in Hw as [[_ ->]|[_ ->]]; unfold small; cbn; lia.
  - split; [done | reflexivity].
  - done.
Qed.

Lemma window_at_correct_witness :
  manager_ok 0x3000 demo_manager /\
  window_manager_get_window_at 0x3000 60 30 demo_manager = Some 0x2000 /\
  window_manager_mouse_down 0x3000 500 500 demo_manager = None.
Proof.
  split; [exact demo_manager_ok |]. split.
  - destruct (window_at_correct 0x3000 60 30 demo_manager demo_manager_ok) as [(i & p & E & _)|(E & _)]; vm_compute in E |- *; congruence.
  - destruct (window_at_correct 0x3000 500 500 demo_manager demo_manager_ok) as [(i & p & E & _ & Hp & (w & Hw & _ & Hx & _) & _)|(_ & E & _)];
      [| exact E]. apply demo_store in Hw as [[_ ->]|[_ ->]]; cbn in Hx; lia.
Defined.

Lemma window_drag_correct_witness :
  exists s1 s2 s3, window_manager_mouse_down 0x3000 60 25 demo_manager = Some s1 /\ moves [(70, 26); (40, 45)] s1 = Some s2 /\
    window_manager_mouse_up s2 = Some s3 /\ wx <$> store s3 !! 0x2000 = Some 30 /\ wy <$> store s3 !! 0x2000 = Some 40 /\
    store s3 !! 0x1000 = Some (demo_window 10 10).
Proof.
  destruct (window_drag_correct 0x3000 60 25 [(70, 26); (40, 45)] demo_manager 0x2000 (demo_window 50 20) demo_manager_ok)
    as (s1 & s2 & s3 & E1 & E2 & E3 & Es & _); try (unfold small; cbn; lia); try reflexivity; try done.
  - repeat constructor; unfold small; cbn; lia.
  - exists s1, s2, s3. rewrite Es. do 5 (split; [first [exact E1 | exact E2 | exact E3 | reflexivity] |]). reflexivity.
Defined.
End Windows.
