(* ===== verification/Gui.v ===== *)
(** * The desktop: [gui/desktop.c], [gui/cursor.c], [gui/renderer.c], [apps/terminal_app.c]

    One redraw: the background, the windows from the bottom to the top with their
    contents, and the mouse cursor over everything. *)
From Stdlib Require Import String Ascii.
From S2P Require Import Prelude Memory Framebuffer Font Terminal TerminalSpec Windows.
Import Mem Framebuffer Font Terminal Windows.
#[local] Open Scope Z_scope.

Module Gui.

Definition TOPBAR_HEIGHT : Z := 40.
Definition DOCK_WIDTH : Z := 72.
Definition GUI_TOPBAR : Z := 0x1E293B.
Definition GUI_TEXT : Z := 0xFFFFFF.
Definition GUI_SECONDARY : Z := 0xCBD5E1.
Definition GUI_BORDER : Z := 0x334155.

(** The characters of a string literal. *)
Definition chars (s : string) : list Z := map (fun a => Z.of_nat (nat_of_ascii a)) (list_ascii_of_string s).

Definition cursor_draw (x y : Z) (s : fb_t) : fb_t :=
  for_to (-5) 5 (fun i s => framebuffer_putpixel (u64 (i32 (x + i))) (u64 y) 0xFFFFFF s)
    (for_to (-5) 5 (fun i s => framebuffer_putpixel (u64 x) (u64 (i32 (y + i))) 0xFFFFFF s) s).

Definition renderer_clear (color : Z) (s : fb_t) : fb_t := framebuffer_clear color s.

Definition desktop_draw_background (s : fb_t) : fb_t :=
  let s := for_to TOPBAR_HEIGHT (framebuffer_height s) (fun y s =>
    let color := u32 (0x2D2D2D + y / 20) in
    fill_rect DOCK_WIDTH y (u64 (framebuffer_width s - DOCK_WIDTH)) 1 color s) s in
  let s := fill_rect 0 0 (framebuffer_width s) TOPBAR_HEIGHT GUI_TOPBAR s in
  let s := draw_text_scaled 20 14 (chars "Zenith OS") GUI_TEXT 2 0 s in
  let text_width := font_text_width_scaled (chars "Development Build") 2 0 in
  let s := draw_text_scaled (i32 (u64 (framebuffer_width s - text_width - 20))) 14 (chars "Development Build") GUI_SECONDARY 2 0 s in
  let s := fill_rect 0 (TOPBAR_HEIGHT - 1) (framebuffer_width s) 1 GUI_BORDER s in
  let s := fill_rect 0 TOPBAR_HEIGHT DOCK_WIDTH (u64 (framebuffer_height s - TOPBAR_HEIGHT)) 0x1E293B s in
  let s := fill_rect 18 70 36 36 0x475569 (fill_rect 17 69 38 38 0x64748B s) in
  let s := fill_rect 18 120 36 36 0x475569 (fill_rect 17 119 38 38 0x64748B s) in
  let s := fill_rect 18 170 36 36 0x475569 (fill_rect 17 169 38 38 0x64748B s) in
  fill_rect 18 220 36 36 0x475569 (fill_rect 17 219 38 38 0x64748B s).

(** ** The terminal's window *)
Definition terminal_app_draw (w : Window) (t : term) : term :=
  terminal_render (terminal_set_origin (i32 (wx w + 20)) (i32 (wy w + 40)) t).

Definition terminal_window (terminal_app_draw_address : Z) : Window :=
  mk_window 150 80 900 600 true true false false false false 0 0
    (chars "Terminal" ++ replicate 56 0) terminal_app_draw_address.

Definition terminal_app_init (window : Z) (m : manager) (t : term) : option (manager * term) :=
  let t := terminal_init t in
  t ← terminal_write (chars "ZenithOS Terminal v0.1" ++ [10; 10]) t;
  t ← terminal_write (chars "Type " ++ [34] ++ chars "help" ++ [34] ++ chars " to begin" ++ [10; 10]) t;
  let t := terminal_set_color 0x22C55E t in
  t ← terminal_write (chars "$") t;
  let t := terminal_set_color 0xFFFFFF t in
  Some (window_manager_add window m, t).

Section desktop.
(** The address of [terminal_app_draw], the one function a window draws itself with. *)
Context (terminal_app_draw_address : Z).

Definition call_draw_content (f : Z) (w : Window) (t : term) : option term :=
  if f =? terminal_app_draw_address then Some (terminal_app_draw w t) else None.

Fixpoint draw_windows (n : nat) (i : nat) (m : manager) (t : term) : option term :=
  match n with
  | O => Some t
  | S n' =>
    p ← windows m !! i;
    w ← store m !! p;
    t ← (if visible w then
           let t := with_screen (window_draw (font_scale t) w (screen t)) t in
           if draw_content w =? NULL then Some t else call_draw_content (draw_content w) w t
         else Some t);
    draw_windows n' (S i) m t
  end.

Definition window_manager_draw (m : manager) (t : term) : option term := draw_windows (Z.to_nat (window_count m)) 0 m t.

Definition desktop_draw (mouse_x mouse_y : Z) (m : manager) (t : term) : option term :=
  let t := with_screen (desktop_draw_background (screen t)) t in
  t ← window_manager_draw m t;
  Some (with_screen (cursor_draw mouse_x mouse_y (screen t)) t).

(** ** What a redraw does *)
Definition cursor_ink (x y : Z) : ink := fun px py =>
  if decide ((px = x /\ y - 5 <= py < y + 5) \/ (py = y /\ x - 5 <= px < x + 5)) then Some 0xFFFFFF else None.


Lemma cursor_paints x y s : fb_ok s -> fb_width s <= 2 ^ 31 -> fb_height s <= 2 ^ 31 -> 0 <= x < 2 ^ 30 -> 0 <= y < 2 ^ 30 ->
  paints s (cursor_draw x y s) (cursor_ink x y).
Proof.
  intros Hok Hw Hh Hx Hy. unfold cursor_draw.
  assert (H1 : paints s (for_to (-5) 5 (fun i s => framebuffer_putpixel (u64 x) (u64 (i32 (y + i))) 0xFFFFFF s) s)
    (overs (-5) 5 (fun i => dot (u64 x) (u64 (i32 (y + i))) 0xFFFFFF)))
    by (apply loop_paints; [done |]; intros i t Hi _ Ht; apply putpixel_paints; [done | |]; apply u64_range).
  eapply paints_ext; [eapply paints_trans; [exact H1 |] |].
  { apply loop_paints; [eauto with zenith |]. intros i t Hi _ Ht. apply putpixel_paints; [done | |]; apply u64_range. }
  intros px py [Hpx Hpy].
  assert (Hd : forall i, -5 <= i < 5 -> ink_of 0xFFFFFF (dot (u64 x) (u64 (i32 (y + i))) 0xFFFFFF px py) /\
                                     ink_of 0xFFFFFF (dot (u64 (i32 (x + i))) (u64 y) 0xFFFFFF px py))
    by (intros i _; unfold dot, ink_of; repeat case_match; auto).
  assert (Hv : overs (-5) 5 (fun i => dot (u64 x) (u64 (i32 (y + i))) 0xFFFFFF) px py = Some 0xFFFFFF <-> px = x /\ y - 5 <= py < y + 5).
  { rewrite overs_iff by (intros i Hi; by apply Hd). rewrite u64_id by lia. split.
    - intros (i & Hi & E). rewrite i32_id in E by lia. unfold dot in E. destruct (Z.eqb_spec px x), (Z.eqb_spec py (u64 (y + i))); try done.
      split; [done |]. word_lia.
    - intros [-> Hr]. exists (py - y). split; [lia |]. rewrite i32_id, u64_id by lia. replace (y + (py - y)) with py by lia. apply dot_in. }
  assert (Hh2 : overs (-5) 5 (fun i => dot (u64 (i32 (x + i))) (u64 y) 0xFFFFFF) px py = Some 0xFFFFFF <-> py = y /\ x - 5 <= px < x + 5).
  { rewrite overs_iff by (intros i Hi; by apply Hd). rewrite (u64_id y) by lia. split.
    - intros (i & Hi & E). rewrite i32_id in E by lia. unfold dot in E. destruct (Z.eqb_spec px (u64 (x + i))), (Z.eqb_spec py y); try done.
      split; [done |]. word_lia.
    - intros [-> Hr]. exists (px - x). split; [lia |]. rewrite i32_id, u64_id by lia. replace (x + (px - x)) with px by lia. apply dot_in. }
  assert (Ho1 := overs_ink_of (-5) 5 (fun i => dot (u64 x) (u64 (i32 (y + i))) 0xFFFFFF) px py 0xFFFFFF (fun i Hi => proj1 (Hd i Hi))).
  assert (Ho2 := overs_ink_of (-5) 5 (fun i => dot (u64 (i32 (x + i))) (u64 y) 0xFFFFFF) px py 0xFFFFFF (fun i Hi => proj2 (Hd i Hi))).
  unfold over, cursor_ink. destruct Ho2 as [E2|E2]; rewrite E2 in *; [destruct Ho1 as [E1|E1]; rewrite E1 in * |];
    case_decide; try done; naive_solver.
Qed.

Lemma rect_draws x y width height color s : fb_ok s -> 0 <= x -> 0 <= y -> draws s (fill_rect x y width height color s).
Proof. intros. eapply draws_paints. by apply fill_paints. Qed.

Lemma background_draws s : fb_ok s -> draws s (desktop_draw_background s).
Proof.
  intros Hok. unfold desktop_draw_background, TOPBAR_HEIGHT, DOCK_WIDTH. cbv zeta.
  repeat lazymatch goal with
  | |- draws _ (draw_text_scaled _ _ _ _ _ _ _) => eapply then_draws; [| exact Hok | intros Hk; apply (draw_text_scaled_draws _ _ _ _ _ _ _ Hk)]
  | |- draws _ (fill_rect _ _ _ _ _ _) => eapply then_draws; [| exact Hok | intros Hk; apply (rect_draws _ _ _ _ _ _ Hk); lia]
  end.
  eapply draws_paints. apply (loop_paints s 40 (framebuffer_height s) _
    (fun y => rect 72 y (u64 (72 + u64 (framebuffer_width s - 72))) (u64 (y + 1)) (u32 (0x2D2D2D + y / 20))) Hok).
  intros y t Hy [mt ->] Ht. change (framebuffer_width (with_fb_mem mt s)) with (framebuffer_width s). apply fill_paints; [done | lia | lia].
Qed.

(** The contents of every window can be drawn. *)
Definition drawable (m : manager) : Prop := forall p w, store m !! p = Some w -> draw_content w = NULL \/ draw_content w = terminal_app_draw_address.

(** Only the drawing and the place of the drawing change. *)
Definition redrawn (t t' : term) : Prop :=
  draws (screen t) (screen t') /\
  cursor_row t' = cursor_row t /\ cursor_col t' = cursor_col t /\ terminal_buffer t' = terminal_buffer t /\
  input_buffer t' = input_buffer t /\ input_length t' = input_length t /\ terminal_color t' = terminal_color t /\ font_scale t' = font_scale t.

Lemma redrawn_refl t : redrawn t t.
Proof. split; [apply draws_refl | done]. Qed.
Lemma redrawn_trans t1 t2 t3 : redrawn t1 t2 -> redrawn t2 t3 -> redrawn t1 t3.
Proof.
  intros (D1 & A1 & A2 & A3 & A4 & A5 & A6 & A7) (D2 & B1 & B2 & B3 & B4 & B5 & B6 & B7).
  split; [by eapply draws_trans | split_and!; congruence].
Qed.
Lemma redrawn_screen t s : draws (screen t) s -> redrawn t (with_screen s t).
Proof. by split. Qed.

Lemma draw_windows_ok NULL_LITERAL n : forall i m t, manager_ok NULL_LITERAL m -> drawable m -> fb_ok (screen t) -> Z.of_nat (i + n) <= window_count m ->
  exists t', draw_windows n i m t = Some t' /\ redrawn t t'.
Proof.
  induction n as [|n IH]; intros i m t Hm Hd Hok Hn; [exists t; split; [done | apply redrawn_refl] |]. cbn [draw_windows].
  destruct (lookup_lt_is_Some_2 (windows m) i) as [p Ep]; [pose proof (mg_array _ _ Hm); pose proof (mg_count _ _ Hm); lia |].
  destruct (mg_windows _ _ Hm i p ltac:(lia) Ep) as (_ & w & Ew). rewrite Ep; cbn [mbind option_bind]; rewrite Ew; cbn [mbind option_bind].
  match goal with |- context [if visible w then ?a else _] => assert (H1 : exists t1, (if visible w then a else Some t) = Some t1 /\ redrawn t t1) end.
  { destruct (visible w); [| exists t; split; [done | apply redrawn_refl]]. cbv zeta.
    pose proof (window_draw_draws (font_scale t) w (screen t) Hok) as Hw.
    set (t1 := with_screen (window_draw (font_scale t) w (screen t)) t). assert (Hr1 : redrawn t t1) by (by apply redrawn_screen).
    destruct (Z.eqb_spec (draw_content w) NULL); [by exists t1 |]. destruct (Hd p w Ew) as [?|E]; [done |].
    unfold call_draw_content. rewrite E, Z.eqb_refl. exists (terminal_app_draw w t1). split; [done |].
    eapply redrawn_trans; [exact Hr1 |]. split; [| done]. apply (render_draws (terminal_set_origin (i32 (wx w + 20)) (i32 (wy w + 40)) t1)).
    eapply draws_ok; [exact Hw | done]. }
  destruct H1 as (t1 & -> & Hr1). cbn [mbind option_bind].
  destruct (IH (S i) m t1 Hm Hd) as (t2 & E2 & Hr2); [eapply draws_ok; [apply Hr1 | done] | lia |].
  exists t2. split; [done | by eapply redrawn_trans].
Qed.

(** C39: drawing the desktop ends for every set of windows and every state of the
    terminal, reads no window that is not there and writes only to the pixels of
    the screen; the terminal's text stays as it was, and the mouse cursor is
    visible over everything. *)
Theorem desktop_draw_correct NULL_LITERAL mx my m t (Hm : manager_ok NULL_LITERAL m) (Hd : drawable m) (Hok : fb_ok (screen t))
    (Hw : fb_width (screen t) <= 2 ^ 31) (Hh : fb_height (screen t) <= 2 ^ 31) (Hx : 0 <= mx < 2 ^ 30) (Hy : 0 <= my < 2 ^ 30) :
  exists t', desktop_draw mx my m t = Some t' /\ redrawn t t' /\
    forall px py, on_screen (screen t) px py ->
      (px = mx /\ my - 5 <= py < my + 5) \/ (py = my /\ mx - 5 <= px < mx + 5) -> pixel (screen t') px py = 0xFFFFFF.
Proof.
  unfold desktop_draw. set (t0 := with_screen (desktop_draw_background (screen t)) t).
  assert (Hr0 : redrawn t t0) by (apply redrawn_screen, background_draws, Hok).
  assert (Hok0 : fb_ok (screen t0)) by (eapply draws_ok; [apply Hr0 | done]).
  destruct (draw_windows_ok NULL_LITERAL (Z.to_nat (window_count m)) 0 m t0 Hm Hd Hok0) as (t1 & E1 & Hr1); [pose proof (mg_count _ _ Hm); lia |].
  unfold window_manager_draw. rewrite E1. cbn [mbind option_bind].
  assert (Hr : redrawn t t1) by (by eapply redrawn_trans).
  assert (Hok1 : fb_ok (screen t1)) by (eapply draws_ok; [apply Hr | done]).
  destruct Hr as [[f [[sm Es] Hp Hrest]] Hkeep].
  assert (Hcur : paints (screen t1) (cursor_draw mx my (screen t1)) (cursor_ink mx my)) by (apply cursor_paints; [done | by rewrite Es | by rewrite Es | done | done]).
  eexists. split; [done |]. split.
  - split; [| exact Hkeep]. cbn [screen with_screen]. eapply draws_trans; [| by eexists]. exists f. split; [by eexists | done | done].
  - intros px py Ho Hpx. cbn [screen with_screen]. rewrite (pa_pixel _ _ _ Hcur) by (rewrite Es; exact Ho).
    unfold cursor_ink. by rewrite decide_True.
Qed.
End desktop.

(** ** The terminal's first screen *)
Lemma write_shows str t log cur : shows t log cur ->
  exists t', terminal_write str t = Some t' /\ terminal_color t' = terminal_color t /\
    let '(log', cur') := layout (terminal_color t) str (log, cur) in shows t' log' cur'.
Proof.
  intros Hs. destruct (write_loop_shows str t log cur Hs) as (t1 & E & Hr & Hs1). unfold terminal_write. rewrite E. cbn [mbind option_bind].
  exists (terminal_render t1). split; [done |]. split; [by rewrite Hr |]. destruct (layout _ _ _). by apply render_shows.
Qed.

Definition in_color (c : Z) (s : string) : list terminal_cell_t := map (fun a => mk_cell a c 0) (chars s).

(** [terminal_app_init] leaves the banner, a line of advice and a green prompt. *)
Lemma terminal_app_init_shows window m t :
  exists t', terminal_app_init window m t = Some (window_manager_add window m, t') /\
    shows t' [in_color 0xFFFFFF "ZenithOS Terminal v0.1"; []; map (fun a => mk_cell a 0xFFFFFF 0)
                (chars "Type " ++ [34] ++ chars "help" ++ [34] ++ chars " to begin"); []] (in_color 0x22C55E "$") /\
    terminal_color t' = 0xFFFFFF.
Proof.
  unfold terminal_app_init.
  destruct (write_shows (chars "ZenithOS Terminal v0.1" ++ [10; 10]) (terminal_init t) [] [] (init_shows t)) as (t1 & E1 & C1 & S1).
  rewrite E1. cbn [mbind option_bind]. change (terminal_color (terminal_init t)) with 0xFFFFFF in *.
  destruct (write_shows (chars "Type " ++ [34] ++ chars "help" ++ [34] ++ chars " to begin" ++ [10; 10]) t1 _ _ S1) as (t2 & E2 & C2 & S2).
  rewrite E2. cbn [mbind option_bind]. rewrite C1 in *.
  assert (Sg : forall log cur, shows t2 log cur -> shows (terminal_set_color 0x22C55E t2) log cur) by (intros log cur []; by split).
  destruct (write_shows (chars "$") (terminal_set_color 0x22C55E t2) _ _ (Sg _ _ S2)) as (t3 & E3 & C3 & S3).
  rewrite E3. cbn [mbind option_bind]. eexists. split; [done |]. split; [| done]. destruct S3. by split.
Qed.

(** ** Witness: the terminal's window on the demo screen *)
Definition demo_desktop : manager :=
  mk_manager (0x1000 :: replicate 31 0) 1 NULL {[ 0x1000 := terminal_window 0x5000 ]}.

Lemma demo_desktop_store p w : store demo_desktop !! p = Some w -> p = 0x1000 /\ w = terminal_window 0x5000.
Proof. cbn [store demo_desktop]. rewrite lookup_singleton_Some. by intros [<- <-]. Qed.

Lemma demo_desktop_ok : manager_ok 0x3000 demo_desktop.
Proof.
  split.
  - reflexivity.
  - cbn; lia.
  - intros i p Hi Hp. cbn [window_count demo_desktop] in Hi. destruct i as [|i]; [| lia].
    injection Hp as <-. split; [done | eexists; reflexivity].
  - intros p w Hw. apply demo_desktop_store in Hw as [_ ->]. unfold small; cbn [wx wy width height terminal_window]; lia.
  - split; [done | reflexivity].
  - done.
Qed.

Lemma desktop_draw_correct_witness :
  exists t', desktop_draw 0x5000 2 1 demo_desktop demo_term = Some t' /\ terminal_buffer t' = terminal_buffer demo_term /\
    pixel (screen t') 2 0 = 0xFFFFFF.
Proof.
  destruct (desktop_draw_correct 0x5000 0x3000 2 1 demo_desktop demo_term demo_desktop_ok) as (t' & E & Hr & Hp).
  - intros p w Hw. apply demo_desktop_store in Hw as [_ ->]. right. reflexivity.
  - exact demo_screen_ok.
  - cbn; lia.
  - cbn; lia.
  - lia.
  - lia.
  - exists t'. split; [exact E |]. split; [apply Hr |]. apply Hp; [split; cbn; lia | left; lia].
Defined.
End Gui.
