(* ===== verification/Sync.v ===== *)
(** * Locks between processors: [sync/spinlock.c], [sync/irq_spinlock.c]

    Several processors run [irq_spin_lock] and [irq_spin_unlock] on one lock.
    Every step of a processor is one access to the lock or to its own interrupt
    flag, and the steps interleave in any order; the exchange is atomic, as the
    [xchg] of [arch/x86_64/atomic.asm] is. *)
From S2P Require Import Prelude.
#[local] Open Scope Z_scope.

Module Sync.

Record irq_spinlock_t := mk_irq_spinlock { locked : Z; irq_was_enabled : bool }.

Definition irq_spinlock_init : irq_spinlock_t := mk_irq_spinlock 0 false.

(** [xchg]: the old value, and the lock with the new one. *)
Definition atomic_xchg_u64 (v : Z) (l : irq_spinlock_t) : Z * irq_spinlock_t :=
  (locked l, mk_irq_spinlock (u64 v) (irq_was_enabled l)).

(** The next thing a processor does. *)
Inductive place :=
  | Outside      (** not in a call: next it calls [irq_spin_lock] *)
  | SaveFlag     (** [lock->irq_was_enabled = cpu_interrupts_enabled()] *)
  | ClearFlag    (** [cpu_cli()] *)
  | Exchange     (** the exchange of [spin_lock] *)
  | Spin         (** its inner loop *)
  | Inside       (** the lock is held: next it calls [irq_spin_unlock] *)
  | Release      (** [lock->locked = 0] *)
  | RestoreFlag  (** [if (lock->irq_was_enabled) cpu_sti()] *).

#[global] Instance place_eq_dec : EqDecision place.
Proof. solve_decision. Defined.

Record cpu := mk_cpu { at_ : place; iflag : bool }.

(** One step of a processor. *)
Definition cpu_step (c : cpu) (l : irq_spinlock_t) : cpu * irq_spinlock_t :=
  match at_ c with
  | Outside => (mk_cpu SaveFlag (iflag c), l)
  | SaveFlag => (mk_cpu ClearFlag (iflag c), mk_irq_spinlock (locked l) (iflag c))
  | ClearFlag => (mk_cpu Exchange false, l)
  | Exchange =>
    let '(old, l) := atomic_xchg_u64 1 l in
    (mk_cpu (if old =? 0 then Inside else Spin) (iflag c), l)
  | Spin => (mk_cpu (if locked l =? 0 then Exchange else Spin) (iflag c), l)
  | Inside => (mk_cpu Release (iflag c), l)
  | Release => (mk_cpu RestoreFlag (iflag c), mk_irq_spinlock 0 (irq_was_enabled l))
  | RestoreFlag => (mk_cpu Outside (if irq_was_enabled l then true else iflag c), l)
  end.

Record machine := mk_machine { cpus : list cpu; lock : irq_spinlock_t }.

(** Processor [i] makes a step. *)
Definition step (i : nat) (m : machine) : machine :=
  match cpus m !! i with
  | Some c => let '(c, l) := cpu_step c (lock m) in mk_machine (<[i := c]> (cpus m)) l
  | None => m
  end.

Definition run (schedule : list nat) (m : machine) : machine := foldl (fun m i => step i m) m schedule.

(** All processors outside, the lock free. *)
Definition start (flags : list bool) : machine := mk_machine (mk_cpu Outside <$> flags) irq_spinlock_init.

(** ** Mutual exclusion *)
Definition holds (c : cpu) : Prop := at_ c = Inside \/ at_ c = Release.
#[global] Instance holds_dec c : Decision (holds c).
Proof. unfold holds. apply _. Defined.

(** The calls between [cpu_cli] and the release run with interrupts off. *)
Definition masked (c : cpu) : Prop := match at_ c with Exchange | Spin | Inside | Release => iflag c = false | _ => True end.

Record lock_inv (m : machine) : Prop := {
  li_one i j c d : cpus m !! i = Some c -> cpus m !! j = Some d -> holds c -> holds d -> i = j;
  li_word : (locked (lock m) = 1 /\ exists i c, cpus m !! i = Some c /\ holds c) \/
            (locked (lock m) = 0 /\ forall i c, cpus m !! i = Some c -> ~ holds c);
  li_masked i c : cpus m !! i = Some c -> masked c;
}.

Lemma start_inv flags : lock_inv (start flags).
Proof.
  assert (H : forall i c, cpus (start flags) !! i = Some c -> at_ c = Outside).
  { intros i c. unfold start; cbn. rewrite list_lookup_fmap. destruct (flags !! i); [by intros [= <-] | done]. }
  split.
  - intros i j c d Hc _ [E|E]; rewrite (H i c Hc) in E; done.
  - right. split; [done |]. intros i c Hc [E|E]; rewrite (H i c Hc) in E; done.
  - intros i c Hc. unfold masked. by rewrite (H i c Hc).
Qed.

(** A step that neither takes nor releases the lock. *)
Lemma keep_inv m i c c' l :
  lock_inv m -> cpus m !! i = Some c -> locked l = locked (lock m) -> masked c' ->
  (holds c' <-> holds c) -> lock_inv (mk_machine (<[i := c']> (cpus m)) l).
Proof.
  intros [H1 Hw Hm] Hc Hl Hmc Hh. pose proof (lookup_lt_Some _ _ _ Hc) as Hlt.
  assert (Hx : forall j d, <[i := c']> (cpus m) !! j = Some d ->
    exists e, cpus m !! j = Some e /\ (holds d <-> holds e) /\ masked d).
  { intros j d. rewrite list_lookup_insert. case_decide as E; [destruct E as [-> _]; intros [= <-]; by exists c |].
    intros Hd. exists d. split; [done |]. split; [done |]. by apply (Hm j). }
  split; cbn.
  - intros j k d e Hd He Hhd Hhe. destruct (Hx j d Hd) as (d' & Hd' & Hd2 & _). destruct (Hx k e He) as (e' & He' & He2 & _).
    apply (H1 j k d' e'); [done | done | by apply Hd2 | by apply He2].
  - rewrite Hl. destruct Hw as [[Hw (j & d & Hd & Hhd)]|[Hw Hn]]; [left | right]; (split; [done |]).
    + exists j. destruct (decide (i = j)) as [->|Hne].
      * exists c'. rewrite list_lookup_insert_eq by done. split; [done |]. apply Hh. congruence.
      * exists d. by rewrite list_lookup_insert_ne.
    + intros j d Hd Hhd. destruct (Hx j d Hd) as (e & He & Hde & _). apply (Hn j e He). by apply Hde.
  - intros j d Hd. by destruct (Hx j d Hd) as (_ & _ & _ & ?).
Qed.

Lemma step_inv i m : lock_inv m -> lock_inv (step i m).
Proof.
  intros Hi. unfold step. destruct (cpus m !! i) as [c|] eqn:Hc; [| done]. pose proof (lookup_lt_Some _ _ _ Hc) as Hlt.
  pose proof Hi as [H1 Hw Hm]. pose proof (Hm i c Hc) as Hmc. destruct c as [p f]. unfold cpu_step, masked in *; cbn in *.
  assert (Hkeep : forall p' f' l, locked l = locked (lock m) -> masked (mk_cpu p' f') ->
    (holds (mk_cpu p' f') <-> holds (mk_cpu p f)) -> lock_inv (mk_machine (<[i := mk_cpu p' f']> (cpus m)) l))
    by (intros; by eapply keep_inv).
  destruct p; cbn; try (apply Hkeep; [done | done | unfold holds; cbn; naive_solver]).
  - destruct Hw as [[Hw He]|[Hw Hn]]; rewrite Hw; cbn [Z.eqb]; change (u64 1) with 1.
    + apply Hkeep; [done | done | unfold holds; cbn; naive_solver].
    + assert (Hx : forall j d, <[i := mk_cpu Inside f]> (cpus m) !! j = Some d -> holds d -> j = i).
      { intros j d. rewrite list_lookup_insert. case_decide as E; [by destruct E as [-> _] |].
        intros Hd Hh. by destruct (Hn j d Hd). }
      split; cbn.
      * intros j k d e Hd He Hhd Hhe. by rewrite (Hx j d), (Hx k e).
      * left. split; [done |]. exists i, (mk_cpu Inside f). rewrite list_lookup_insert_eq by done. split; [done | by left].
      * intros j d. rewrite list_lookup_insert. case_decide as E; [by destruct E as [-> _]; intros [= <-] | apply Hm].
  - destruct (locked (lock m) =? 0); (apply Hkeep; [done | done | unfold holds; cbn; naive_solver]).
  - assert (Hx : forall j d, <[i := mk_cpu RestoreFlag f]> (cpus m) !! j = Some d -> ~ holds d).
    { intros j d. rewrite list_lookup_insert. case_decide as E; [destruct E as [-> _]; intros [= <-] [?|?]; done |].
      intros Hd Hh. apply E. split; [| done]. apply (H1 i j (mk_cpu Release f) d); try done. by right. }
    split; cbn.
    + intros j k d e Hd He Hhd Hhe. by destruct (Hx j d Hd).
    + right. split; [done | exact Hx].
    + intros j d. rewrite list_lookup_insert. case_decide as E; [by destruct E as [-> _]; intros [= <-] | apply Hm].
Qed.

Lemma runs_inv schedule m : lock_inv m -> lock_inv (run schedule m).
Proof. revert m; induction schedule as [|i l IH]; intros m Hi; [done |]. cbn. apply IH. by apply step_inv. Qed.

(** C34: however the steps of any number of processors interleave, at most one of
    them holds the lock, the lock word is 1 exactly while one does, and the holder
    runs with interrupts disabled. *)
Theorem irq_spinlock_exclusion flags schedule :
  let m := run schedule (start flags) in
  (forall i j c d, cpus m !! i = Some c -> cpus m !! j = Some d -> holds c -> holds d -> i = j) /\
  (locked (lock m) = 0 \/ locked (lock m) = 1) /\
  (locked (lock m) = 1 <-> exists i c, cpus m !! i = Some c /\ holds c) /\
  (forall i c, cpus m !! i = Some c -> holds c -> iflag c = false).
Proof.
  intros m. destruct (runs_inv schedule _ (start_inv flags)) as [H1 Hw Hm]. fold m in H1, Hw, Hm.
  split; [exact H1 |]. split; [destruct Hw as [[? _]|[? _]]; auto |]. split.
  - destruct Hw as [[Hw He]|[Hw Hn]]; [done |]. split; [by rewrite Hw |]. intros (i & c & Hc & Hh). by destruct (Hn i c Hc).
  - intros i c Hc Hh. pose proof (Hm i c Hc) as Hmc. unfold masked in Hmc. by destruct Hh as [E|E]; rewrite E in Hmc.
Qed.

(** ** One processor: the calls as functions *)

(** [irq_spin_lock] when no other processor runs: without a result when the lock
    is taken, since nobody releases it. *)
Definition irq_spin_lock (l : irq_spinlock_t) (irq : bool) : option (irq_spinlock_t * bool) :=
  if locked l =? 0 then Some (mk_irq_spinlock 1 irq, false) else None.

Definition irq_spin_unlock (l : irq_spinlock_t) (irq : bool) : irq_spinlock_t * bool :=
  (mk_irq_spinlock 0 (irq_was_enabled l), if irq_was_enabled l then true else irq).

(** They are the steps of the processor running alone: four to the lock, three to
    the flag again; without the lock it spins for ever. *)
Lemma alone l irq :
  run (replicate 4 0%nat) (mk_machine [mk_cpu Outside irq] l) =
    match irq_spin_lock l irq with
    | Some (l', irq') => mk_machine [mk_cpu Inside irq'] l'
    | None => mk_machine [mk_cpu Spin false] (mk_irq_spinlock 1 irq)
    end /\
  run (replicate 3 0%nat) (mk_machine [mk_cpu Inside irq] l) =
    let '(l', irq') := irq_spin_unlock l irq in mk_machine [mk_cpu Outside irq'] l'.
Proof.
  unfold irq_spin_lock, irq_spin_unlock, run, step; cbn. split; [| by destruct (irq_was_enabled l)].
  destruct (Z.eqb_spec (locked l) 0); done.
Qed.

Lemma spins_forever n irq w : w <> 0 ->
  run (replicate n 0%nat) (mk_machine [mk_cpu Spin irq] (mk_irq_spinlock w irq)) = mk_machine [mk_cpu Spin irq] (mk_irq_spinlock w irq).
Proof.
  intros Hw. induction n as [|n IH]; [done |]. cbn. unfold step; cbn.
  destruct (Z.eqb_spec w 0); [done |]. exact IH.
Qed.

(** Two processors, interrupts on at the first and off at the second: the second
    overwrites the saved flag while the first holds the lock, and the first leaves
    with its interrupts off. *)
Example flag_lost :
  let m := run [0; 0; 0; 0; 1; 1; 0; 0; 0]%nat (start [true; false]) in
  cpus m !! 0%nat = Some (mk_cpu Outside false).
Proof. reflexivity. Qed.
End Sync.
