(* ===== verification/Mutex.v ===== *)
(** * The mutex: [sync/mutex.c]

    On the scheduler model.  The guard is the interrupt-disabling spinlock of
    [Sync.v], on one processor.  A task that waits leaves [mutex_lock] inside
    [scheduler_yield]; when it runs again it goes on with the next round of the
    loop ([mutex_loop]). *)
From S2P Require Import Prelude PageAllocator Memory KAlloc Fd Elf TaskQueue PageTable System Scheduler Sync.
Import Mem Task Scheduler Sync.
#[local] Open Scope Z_scope.

Module Mutex.

Record mutex_t := mk_mutex { guard : irq_spinlock_t; m_locked : bool; owner : Z; wait_queue : Z }.

Definition mutex_init : mutex_t := mk_mutex irq_spinlock_init false NULL NULL.

Section mutex.
Context {K A : Type} `{KAlloc K}.
Implicit Types s : sys K A.

Definition with_guard (g : irq_spinlock_t) (m : mutex_t) : mutex_t := mk_mutex g (m_locked m) (owner m) (wait_queue m).
Definition with_owner (l : bool) (o : Z) (m : mutex_t) : mutex_t := mk_mutex (guard m) l o (wait_queue m).
Definition with_wait (q : Z) (m : mutex_t) : mutex_t := mk_mutex (guard m) (m_locked m) (owner m) q.

(** Taking and releasing the guard. *)
Definition enter (m : mutex_t) s : option (mutex_t * sys K A) :=
  '(g, irq) ← irq_spin_lock (guard m) (irq_enabled s); Some (with_guard g m, with_irq_enabled irq s).
Definition leave (m : mutex_t) s : mutex_t * sys K A :=
  let '(g, irq) := irq_spin_unlock (guard m) (irq_enabled s) in (with_guard g m, with_irq_enabled irq s).

(** The rounds of [mutex_lock]; one round is enough for a running task, since its
    [scheduler_yield] then switches away. *)
Fixpoint mutex_loop (fuel : nat) (current : Z) (m : mutex_t) s : option (mutex_t * sys K A * outcome) :=
  match fuel with
  | O => None
  | S fuel' =>
    '(m, s) ← enter m s;
    if owner m =? current then Some (leave m s, Returned)
    else if negb (m_locked m) then Some (leave (with_owner true current m) s, Returned)
    else
      s ← update_task current (set_state TASK_BLOCKED) s;
      '(ts', h) ← task_queue_push (wait_queue m) current (ts s);
      let '(m, s) := leave (with_wait h m) (with_ts ts' s) in
      '(s, o) ← scheduler_yield s;
      match o with
      | Returned => mutex_loop fuel' current m s
      | Switched w restores => Some ((m, s), Switched w restores)
      end
  end.

Definition mutex_lock (fuel : nat) (mutex : option mutex_t) s : option (option mutex_t * sys K A * outcome) :=
  match mutex with
  | None => Some (None, s, Returned)
  | Some m =>
    let current := current_task s in
    if current =? NULL then Some (Some m, s, Returned)
    else if owner m =? current then Some (Some m, s, Returned)
    else '(m, s, o) ← mutex_loop fuel current m s; Some (Some m, s, o)
  end.

Definition mutex_unlock (mutex : option mutex_t) s : option (option mutex_t * sys K A) :=
  match mutex with
  | None => Some (None, s)
  | Some m =>
    let current := current_task s in
    if current =? NULL then Some (Some m, s)
    else
      '(m, s) ← enter m s;
      if negb (owner m =? current) then let '(m, s) := leave m s in Some (Some m, s)
      else if wait_queue m =? NULL then
        let '(m, s) := leave (with_owner false NULL m) s in Some (Some m, s)
      else
        let next := wait_queue m in
        '(ts', h) ← task_queue_remove (wait_queue m) next (ts s);
        let m := with_owner (m_locked m) next (with_wait h m) in
        s ← scheduler_unblock next (with_ts ts' s);
        let '(m, s) := leave m s in Some (Some m, s)
  end.
End mutex.
End Mutex.
