(* ===== verification/MutexSpec.v ===== *)
(** * The mutex gives the lock to one task at a time, in order

    [minv] relates the mutex to the scheduler's view: the tasks parked in the view
    are the waiting queue of the mutex. *)
From S2P Require Import Prelude PageAllocator Memory KAlloc Fd Elf TaskQueue PageTable System Scheduler SchedulerSpec SchedulerWake SchedulerProps Sync Mutex.
Import Mem Task Scheduler Sync Mutex.
#[local] Open Scope Z_scope.

Section links.
Context {K A : Type} `{KAlloc K}.
Implicit Types s : sys K A.

(** ** What scheduler operations leave alone: every task but those in [D] *)
Definition same_off s s' (D : list Z) : Prop := forall q, q ∉ D -> ts s' !! q = ts s !! q.

Lemma same_off_trans s1 s2 s3 D : same_off s1 s2 D -> same_off s2 s3 D -> same_off s1 s3 D.
Proof. intros H1 H2 q Hq. by rewrite H2, H1. Qed.

Lemma same_off_weaken s s' D D' : same_off s s' D -> D ⊆ D' -> same_off s s' D'.
Proof. intros H1 HD q Hq. apply H1. set_solver. Qed.

Lemma update_task_off p f s s' : update_task p f s = Some s' -> same_off s s' [p].
Proof.
  unfold update_task, update. destruct (ts s !! p) as [t|]; [| done]. intros [= <-] q Hq. cbn.
  rewrite lookup_insert_ne; [done |]. intros <-. apply Hq. by left.
Qed.

Lemma push_ready_off p s s' R B S : linked s R B S -> (p ∉ R ++ B ++ S) -> p <> NULL -> is_Some (ts s !! p) ->
  push_ready p s = Some s' -> same_off s s' (R ++ [p]).
Proof.
  intros (HR & _ & _ & Hnd) Hp Hp0 [t Ht]. apply NoDup_app in Hnd as (HRn & _ & _).
  destruct (push_spec (ts s) (ready_queue s) R p t HR) as (ts' & h' & E & _ & _ & Hfr); [| done | done |].
  { apply NoDup_app. split; [done |]. split; [| apply NoDup_singleton]. intros x Hx ->%list_elem_of_singleton. set_solver. }
  unfold push_ready. rewrite E. cbn [mbind option_bind]. intros [= <-] q Hq. by apply Hfr.
Qed.

Lemma remove_blocked_off p s s' R B S : linked s R B S -> (p ∉ B) -> p <> NULL ->
  remove_blocked p s = Some s' -> ts s' = ts s.
Proof.
  intros (_ & HB & _ & Hnd) Hp Hp0. apply NoDup_app in Hnd as (_ & _ & Hnd). apply NoDup_app in Hnd as (HBn & _ & _).
  destruct (remove_spec (ts s) (blocked_queue s) B p HB HBn Hp0) as (ts' & h' & E & _ & _ & _ & Hmiss).
  unfold remove_blocked. rewrite E. cbn [mbind option_bind]. intros [= <-]. by destruct (Hmiss Hp) as [-> _].
Qed.

Lemma reset_off p s s' : scheduler_reset_resume_state p s = Some s' -> same_off s s' [p].
Proof.
  unfold scheduler_reset_resume_state. destruct (p =? NULL); [by intros [= <-] | apply update_task_off].
Qed.

Lemma requeue_off s s' v : sched_inv s v -> requeue_current s = Some s' -> same_off s s' (v_ready (abs_requeue v)).
Proof.
  intros Hi. unfold requeue_current. destruct (si_current _ _ Hi) as [Hc _].
  destruct ((current_task s =? NULL) || (current_task s =? idle s)); [by intros [= <-] |].
  destruct (ts s !! current_task s) as [t|] eqn:Ht; [| done]. cbn [mbind option_bind].
  case_bool_decide as Hst; [| by intros [= <-]].
  assert (Hu : U s !! current_task s = Some (set_next NULL t)) by (unfold U, unlinked; by rewrite lookup_fmap, Ht).
  destruct (unqueued s v _ _ Hi Hu) as [Hq _]; [by cbn; rewrite Hst .. |].
  pose proof (inv_not_null s v _ _ Hi Hu) as Hn0.
  assert (Hr : v_running v = true) by (apply (si_running _ _ Hi _ _ Hu); exact Hst).
  assert (HD : v_ready (abs_requeue v) = v_ready v ++ [current_task s]) by (unfold abs_requeue; rewrite Hr, <- Hc; done).
  destruct (update_task_spec _ (set_state TASK_READY) s _ _ _ _ ltac:(done) Hu (si_linked _ _ Hi)) as (s1 & E1 & HU1 & Hl1 & _).
  rewrite E1. cbn [mbind option_bind].
  destruct (scheduler_reset_resume_state (current_task s) s1) as [s2|] eqn:E2; [| done]. cbn [mbind option_bind]. intros E3.
  assert (Hl2 : linked s2 (v_ready v) (v_blocked v) (v_sleeping v) /\ is_Some (ts s2 !! current_task s)).
  { revert E2. unfold scheduler_reset_resume_state. destruct (Z.eqb_spec (current_task s) NULL); [done |].
    destruct (update_task_spec (current_task s) reset s1 (set_state TASK_READY (set_next NULL t)) _ _ _ ltac:(done)
      ltac:(by rewrite HU1, lookup_insert_eq) Hl1) as (s3 & E & HU3 & Hl3 & _). unfold reset in E. rewrite E. intros [= <-].
    split; [done |]. destruct (U_lookup s3 (current_task s) (reset (set_state TASK_READY (set_next NULL t)))) as (t3 & Ht3 & _).
    { rewrite HU3. apply lookup_insert_eq. } by exists t3. }
  destruct Hl2 as [Hl2 Hs2]. apply update_task_off in E1. apply reset_off in E2.
  pose proof (push_ready_off _ _ _ _ _ _ Hl2 Hq Hn0 Hs2 E3) as H3. rewrite HD.
  eapply same_off_trans; [| exact H3]. eapply same_off_weaken; [eapply same_off_trans; eassumption | set_solver].
Qed.

Lemma switch_to_off s n s' m : scheduler_switch_to n s = Some (s', m) -> same_off s s' [n].
Proof.
  unfold scheduler_switch_to. destruct (n =? NULL); [by intros [= <- _] |].
  destruct (ts s !! n) as [t|]; [| done]. cbn [mbind option_bind].
  assert (Hx : forall s1 s2 : sys K A, ts s1 = ts s ->
    (if current_task s1 =? idle s1 then Some s1 else update_task n (set_state TASK_RUNNING) s1) = Some s2 -> same_off s s2 [n]).
  { intros s1 s2 E1. destruct (_ =? _); [by intros [= <-] q _; rewrite E1 |].
    intros E2 q Hq. by rewrite (update_task_off _ _ _ _ E2 q Hq), E1. }
  assert (Hy : forall (s1 : sys K A) (o : option (sys K A)) , ts s1 = ts s -> o = (if current_task s1 =? idle s1 then Some s1 else update_task n (set_state TASK_RUNNING) s1) ->
    mbind (fun s5 : sys K A => Some (s5, current_task s5)) o = Some (s', m) -> same_off s s' [n]).
  { intros s1 o E1 ->. destruct (if _ =? _ then _ else _) as [s2|] eqn:E2; [| done]. cbn. intros [= <- _]. by eapply Hx. }
  destruct (t_process t =? NULL); [| destruct (ps s !! t_process t); [| done]]; cbn [mbind option_bind];
    (eapply Hy; [| reflexivity]; done).
Qed.

Lemma schedule_off s s' n v : sched_inv s v -> scheduler_schedule s = Some (s', n) ->
  same_off s s' (v_idle v :: v_ready v).
Proof.
  intros Hi. unfold scheduler_schedule. rewrite (next_task_eq s v Hi). destruct (si_idle _ _ Hi) as [Hid _].
  unfold abs_dispatch. pose proof (si_linked _ _ Hi) as Hl. destruct (v_ready v) as [|r R] eqn:Er; cbn [v_current].
  - rewrite Hid. destruct (idle s =? NULL); [by intros [= <- _] |]. rewrite Z.eqb_refl. cbn [mbind option_bind].
    intros E. eapply same_off_weaken; [by eapply switch_to_off | set_solver].
  - destruct (r =? NULL); [by intros [= <- _] |]. destruct (r =? idle s); cbn [mbind option_bind].
    { intros E. eapply same_off_weaken; [by eapply switch_to_off | set_solver]. }
    assert (Hh : ready_queue s = r) by (rewrite (ready_head s v Hi), Er; done).
    unfold scheduler_ready_queue_pop. rewrite Hh. destruct (r =? NULL); [cbn [mbind option_bind]; intros E; eapply same_off_weaken; [by eapply switch_to_off | set_solver] |].
    destruct (ts s !! r) as [t|]; [| done]. cbn [mbind option_bind].
    destruct (update_task r (set_next NULL) (with_ready_queue (t_next t) s)) as [s1|] eqn:E1; [| done]. cbn [mbind option_bind].
    intros E. apply update_task_off in E1. eapply same_off_weaken; [| instantiate (1 := [r]); set_solver].
    eapply same_off_trans; [| by eapply switch_to_off]. intros q Hq. by rewrite (E1 q Hq).
Qed.

Lemma yield_off s s' o v : sched_inv s v -> scheduler_yield s = Some (s', o) ->
  same_off s s' (v_idle v :: v_ready (abs_requeue v)).
Proof.
  intros Hi. rewrite yield_unfold. cbv zeta.
  destruct (requeue_spec (with_irq_enabled false s) v (inv_irq s v false Hi)) as (s1 & E1 & Hi1 & _).
  pose proof (requeue_off _ s1 v (inv_irq s v false Hi) E1) as H1. rewrite E1. cbn [mbind option_bind].
  destruct (scheduler_schedule s1) as [[s2 n]|] eqn:E2; [| done]. cbn [mbind option_bind].
  pose proof (schedule_off s1 s2 n _ Hi1 E2) as H2.
  assert (Hall : same_off s s2 (v_idle v :: v_ready (abs_requeue v))).
  { eapply same_off_trans; [eapply same_off_weaken; [exact H1 | set_solver] |]. eapply same_off_weaken; [exact H2 |].
    unfold abs_requeue. by destruct (v_running v). }
  assert (Hres : forall b, same_off s (interrupt_restore b s2) (v_idle v :: v_ready (abs_requeue v))) by (by intros []).
  destruct ((n =? NULL) || (n =? current_task s)); [intros [= <- _]; apply Hres |].
  destruct (task_resume_uses_interrupt_frame _ _) as [b|]; [| done]. cbn [mbind option_bind].
  destruct (ts s2 !! current_task s2) as [t|]; [| done]. cbn [mbind option_bind].
  destruct b; [destruct (_ =? NULL) |]; intros [= <- _]; (exact Hall || apply Hres).
Qed.

Lemma unblock_off p s s' v : sched_inv s v -> (p ∉ v_blocked v) -> scheduler_unblock p s = Some s' ->
  same_off s s' (p :: v_ready v).
Proof.
  intros Hi Hpb. unfold scheduler_unblock. destruct (Z.eqb_spec p NULL); [by intros [= <-] |].
  destruct (ts s !! p) as [t|] eqn:Ht; [| done]. cbn [mbind option_bind]. case_bool_decide as Hst; [| by intros [= <-]].
  cbn [negb interrupt_save]. assert (Hu : U s !! p = Some (set_next NULL t)) by (unfold U, unlinked; by rewrite lookup_fmap, Ht).
  destruct (remove_blocked_spec (with_irq_enabled false s) p _ _ _ (si_linked _ _ Hi)) as (s0 & E0 & HU0 & Hl0 & _); [done |].
  unfold interrupt_save. rewrite E0. cbn [mbind option_bind].
  pose proof (remove_blocked_off p _ s0 _ _ _ (si_linked _ _ (inv_irq s v false Hi)) Hpb ltac:(done) E0) as H0. cbn in H0.
  assert (Hq : p ∉ v_ready v ++ filter (.≠ p) (v_blocked v) ++ v_sleeping v).
  { rewrite !elem_of_app. destruct (list_filter_ne p (v_blocked v)) as [Hn _]. intros [Hp|[Hp|Hp]]; [| done |]; revert Hp.
    - eapply not_in_list; [apply (si_ready _ _ Hi) | exact Hu | by cbn; rewrite Hst].
    - eapply not_in_list; [apply (si_sleeping _ _ Hi) | exact Hu | by cbn; rewrite Hst]. }
  destruct (make_ready s0 p _ _ _ _ Hl0 ltac:(rewrite HU0; exact Hu) ltac:(done) Hq) as (s1 & s2 & s3 & E1 & E2 & E3 & _ & _ & _).
  rewrite E1. cbn [mbind option_bind]. rewrite E2. cbn [mbind option_bind]. rewrite E3. cbn [mbind option_bind].
  intros [= <-].
  assert (Hl2 : exists R' B' S', linked s2 R' B' S' /\ R' = v_ready v /\ (p ∉ R' ++ B' ++ S') /\ is_Some (ts s2 !! p)).
  { destruct (update_task_spec p (set_state TASK_READY) s0 _ _ _ _ ltac:(done) ltac:(rewrite HU0; exact Hu) Hl0) as (a & Ea & HUa & Hla & _).
    assert (a = s1) as -> by congruence. unfold scheduler_reset_resume_state in E2. destruct (Z.eqb_spec p NULL); [done |].
    destruct (update_task_spec p reset s1 _ _ _ _ ltac:(done) ltac:(rewrite HUa; apply lookup_insert_eq) Hla) as (b & Eb & HUb & Hlb & _).
    unfold reset in Eb. assert (b = s2) as -> by congruence. eexists _, _, _. split; [exact Hlb |]. split; [done |]. split; [exact Hq |].
    destruct (U_lookup s2 p _ ltac:(rewrite HUb; apply lookup_insert_eq)) as (tb & Htb & _). by exists tb. }
  destruct Hl2 as (R' & B' & S' & Hl2 & -> & Hq2 & Hs2). pose proof (push_ready_off p s2 s3 _ _ _ Hl2 Hq2 ltac:(done) Hs2 E3) as H3.
  apply update_task_off in E1. apply reset_off in E2.
  assert (Hall : same_off s0 s3 (p :: v_ready v)).
  { eapply same_off_trans; [eapply same_off_weaken; [eapply same_off_trans; eassumption | set_solver] |].
    eapply same_off_weaken; [exact H3 | set_solver]. }
  intros q Hq'. destruct (irq_enabled s); cbn; by rewrite (Hall q Hq'), H0.
Qed.
End links.

(** ** The invariant of the mutex *)
Section mutex.
Context {K A : Type} `{KAlloc K}.
Implicit Types s : sys K A.

Record minv (m : mutex_t) s (v : view) : Prop := {
  mi_sched : sched_inv s v;
  mi_guard : locked (guard m) = 0;
  mi_wait : q_rep (ts s) (wait_queue m) (v_parked v);
  mi_locked : m_locked m = negb (owner m =? NULL);
  mi_waiters : v_parked v <> [] -> owner m <> NULL;
  mi_owner : owner m <> NULL -> is_Some (U s !! owner m);
  mi_not_waiting : owner m ∉ v_parked v;
}.

(** The running task joins the waiting tasks, and the next one runs. *)
Definition parked (v : view) : view :=
  mk_view (v_ready v) (v_blocked v) (v_sleeping v) (v_parked v ++ [v_current v]) (v_current v) false (v_idle v).
Definition abs_wait (v : view) : view := abs_dispatch (parked v).

Lemma inv_relink s s' v :
  sched_inv s v -> U s' = U s -> linked s' (v_ready v) (v_blocked v) (v_sleeping v) ->
  ps s' = ps s -> pending_task s' = pending_task s -> idle s' = idle s -> current_task s' = current_task s -> sched_inv s' v.
Proof.
  intros Hi HU Hl Hps Hp Hid Hc. destruct Hi. split; unfold in_state in *; rewrite ?HU, ?Hps, ?Hp, ?Hid, ?Hc; done.
Qed.

Lemma linked_off s s' R B S D : linked s R B S -> same_off s s' D -> (forall q, q ∈ R ++ B ++ S -> q ∉ D) ->
  ready_queue s' = ready_queue s -> blocked_queue s' = blocked_queue s -> sleep_queue s' = sleep_queue s -> linked s' R B S.
Proof.
  intros (HR & HB & HS & Hnd) Hoff HD E1 E2 E3. unfold linked. rewrite E1, E2, E3.
  split_and!; try done; (eapply q_rep_ext; [| eassumption]; intros q Hq; rewrite Hoff; [done | apply HD; set_solver]).
Qed.

(** Waiting tasks are in no queue of the scheduler, and neither run nor idle. *)
Lemma waiting_apart m s v q : minv m s v -> q ∈ v_parked v ->
  (q ∉ v_ready v ++ v_blocked v ++ v_sleeping v) /\ q <> v_idle v /\ (v_running v = true -> q <> v_current v) /\
  exists u, U s !! q = Some u /\ t_state u = TASK_BLOCKED.
Proof.
  intros [Hi _ _ _ _ _ _] Hq. pose proof (proj1 (Forall_forall _ _) (si_parked_state _ _ Hi) q Hq) as (u & Hu & Hst).
  split; [| split; [| split; [| by exists u]]].
  - rewrite !elem_of_app. intros [Hx|[Hx|Hx]]; [| by apply (si_parked _ _ Hi q) |]; revert Hx.
    + eapply not_in_list; [apply (si_ready _ _ Hi) | exact Hu | by rewrite Hst].
    + eapply not_in_list; [apply (si_sleeping _ _ Hi) | exact Hu | by rewrite Hst].
  - intros ->. destruct (si_idle _ _ Hi) as [-> (w & Hw & Hws)] in Hu; congruence.
  - intros Hr ->. destruct (running_current s v Hi Hr) as (_ & w & Hw & Hws). congruence.
Qed.

Lemma minv_nonnull m s v q : minv m s v -> q ∈ v_parked v -> q <> NULL /\ is_Some (ts s !! q).
Proof. intros Hm Hq. by apply (q_rep_in _ _ _ q (mi_wait _ _ _ Hm)). Qed.

Lemma enter_free (m : mutex_t) s : locked (guard m) = 0 ->
  enter m s = Some (with_guard (mk_irq_spinlock 1 (irq_enabled s)) m, with_irq_enabled false s).
Proof. intros Hg. unfold enter, irq_spin_lock. by rewrite Hg. Qed.

Lemma leave_spec (m : mutex_t) s b : irq_was_enabled (guard m) = b -> irq_enabled s = false ->
  leave m s = (with_guard (mk_irq_spinlock 0 b) m, with_irq_enabled b s).
Proof. intros Hb Hs. unfold leave, irq_spin_unlock. rewrite Hb, Hs. by destruct b. Qed.

Lemma irq_back s : with_irq_enabled (irq_enabled s) (with_irq_enabled false s) = s.
Proof. by destruct s. Qed.

(** The running task [c] is taken from the processor's hands and put at the end of
    the waiting queue. *)
Lemma park_spec m s v u : minv m s v -> v_running v = true -> U s !! v_current v = Some u ->
  exists s1 ts' h, update_task (v_current v) (set_state TASK_BLOCKED) (with_irq_enabled false s) = Some s1 /\
    task_queue_push (wait_queue m) (v_current v) (ts s1) = Some (ts', h) /\
    sched_inv (with_ts ts' s1) (parked v) /\ q_rep ts' h (v_parked v ++ [v_current v]) /\
    frame_q (with_irq_enabled false s) (with_ts ts' s1) /\ U (with_ts ts' s1) = <[v_current v := set_state TASK_BLOCKED u]> (U s).
Proof.
  intros Hm Hr Hu. pose proof Hm as [Hi Hg Hw _ _ _ _]. destruct (running_current s v Hi Hr) as (Hci & u2 & Hu2 & Hus).
  assert (u2 = u) as -> by congruence. destruct (unqueued s v _ u Hi Hu) as [Hq Hpk]; [by rewrite Hus .. |].
  pose proof (inv_not_null s v _ _ Hi Hu) as Hn0. destruct (si_current _ _ Hi) as [Hc _].
  destruct (update_task_spec (v_current v) (set_state TASK_BLOCKED) (with_irq_enabled false s) u _ _ _ ltac:(done) Hu (si_linked _ _ Hi))
    as (s1 & E1 & HU1 & Hl1 & Hf1). change (U (with_irq_enabled false s)) with (U s) in HU1.
  pose proof (update_task_off _ _ _ _ E1) as Ho1.
  assert (Hw1 : q_rep (ts s1) (wait_queue m) (v_parked v)).
  { eapply q_rep_ext; [| exact Hw]. intros q Hq'. rewrite Ho1; [done |]. intros ->%list_elem_of_singleton. done. }
  assert (Hnd : NoDup (v_parked v ++ [v_current v])).
  { apply NoDup_app. split; [apply (si_parked_nodup _ _ Hi) |]. split; [| apply NoDup_singleton].
    by intros q Hq1 ->%list_elem_of_singleton. }
  destruct (U_lookup s1 (v_current v) _ ltac:(rewrite HU1; apply lookup_insert_eq)) as (t1 & Ht1 & _).
  destruct (push_spec (ts s1) (wait_queue m) _ _ t1 Hw1 Hnd Hn0 Ht1) as (ts' & h & E2 & Hrep & Hun & Hoff).
  exists s1, ts', h. split; [done |]. split; [done |]. set (s2 := with_ts ts' s1).
  assert (HU2 : U s2 = <[v_current v := set_state TASK_BLOCKED u]> (U s)) by (rewrite <- HU1; exact Hun).
  assert (Hl2 : linked s2 (v_ready v) (v_blocked v) (v_sleeping v)).
  { apply (linked_off s1 s2 _ _ _ (v_parked v ++ [v_current v])); try done.
    intros q Hq1 [Hq2| ->%list_elem_of_singleton]%elem_of_app; [| done]. by destruct (waiting_apart m s v q Hm Hq2). }
  assert (Hf2 : frame_q (with_irq_enabled false s) s2) by exact Hf1.
  split; [| split_and!; try done].
  pose proof Hf2 as ((Hid & Hps & _ & _ & _ & _ & _ & _ & Hpend) & Hct & _).
  clearbody s2. cbn in Hct.
  set (v1 := mk_view (v_ready v) (v_blocked v) (v_sleeping v) (v_parked v) (v_current v) false (v_idle v)).
  assert (Hi2 : sched_inv s2 v1).
  { apply (inv_update s s2 v v1 (v_current v) u (set_state TASK_BLOCKED u)); try done; cbn.
    - by rewrite Hct.
    - rewrite Hct, <- Hc. by rewrite Hu.
    - split; [done | by intros [_ ?]].
    - intros q Hqc. rewrite Hr. split; [by intros [? _] | by intros [_ ?]].
    - intros q Hin. right. split; [| done]. intros ->. set_solver.
    - intros q Hin. right. split; [| done]. intros ->. set_solver.
    - intros q Hin. right. split; [| done]. intros ->. set_solver.
    - intros q Hin. split; [by intros -> | done].
    - apply (si_parked_nodup _ _ Hi). }
  destruct Hi2. split; try done; cbn in *.
  - intros q [Hq1| ->%list_elem_of_singleton]%elem_of_app; [by apply si_parked | set_solver].
  - apply Forall_app. split; [done |]. constructor; [| done]. exists (set_state TASK_BLOCKED u). split; [rewrite HU2; apply lookup_insert_eq | done].
Qed.

(** ** [mutex_lock] *)

(** The mutex, but for the flag its guard saved. *)
Definition mutex_is (m : mutex_t) (o w : Z) : Prop :=
  owner m = o /\ wait_queue m = w /\ locked (guard m) = 0 /\ m_locked m = negb (o =? NULL).

(** The running task goes on waiting, and the processor to the next task. *)
Definition waits m s (v : view) (m' : mutex_t) s' o : Prop :=
  owner m' = owner m /\ minv m' s' (abs_wait v) /\ frame s s' /\ same_tasks s s' /\
  current_task s' <> current_task s /\ exists w, o = Switched w [irq_enabled s].

Lemma loop_spec fuel m s v : minv m s v -> v_running v = true ->
  exists m' s' o, mutex_loop (S fuel) (current_task s) m s = Some (m', s', o) /\
    ((owner m = current_task s /\ o = Returned /\ s' = s /\ mutex_is m' (owner m) (wait_queue m)) \/
     (owner m = NULL /\ o = Returned /\ s' = s /\ mutex_is m' (current_task s) (wait_queue m)) \/
     (owner m <> NULL /\ owner m <> current_task s /\ waits m s v m' s' o)).
Proof.
  intros Hm Hr. pose proof Hm as [Hi Hg Hw Hlk Hwt Ho Hn]. destruct (si_current _ _ Hi) as [Hc Hsome].
  pose proof (si_here _ _ Hi Hr) as Hcn. cbn [mutex_loop]. rewrite (enter_free m s Hg). cbn [mbind option_bind].
  cbn [owner with_guard m_locked wait_queue]. rewrite Hlk.
  destruct (Z.eqb_spec (owner m) (current_task s)) as [Eo|Eo].
  { erewrite (leave_spec _ _ (irq_enabled s)) by done. rewrite <- Hc in Eo. eexists _, _, _. split; [reflexivity |]. left.
    split; [congruence |]. split; [done |]. split; [apply irq_back |]. done. }
  destruct (Z.eqb_spec (owner m) NULL) as [En|En]; cbn [negb].
  { erewrite (leave_spec _ _ (irq_enabled s)) by done. eexists _, _, _. split; [reflexivity |]. right. left.
    split; [done |]. split; [done |]. split; [apply irq_back |]. split_and!; try done. cbn.
    destruct (Z.eqb_spec (current_task s) NULL); [congruence | done]. }
  destruct (running_current s v Hi Hr) as (Hci & u & Hu & Hus). rewrite <- Hc.
  destruct (park_spec m s v u Hm Hr Hu) as (s1 & ts' & h & -> & E2 & Hi2 & Hrep & Hf2 & HU2). cbn [mbind option_bind].
  rewrite E2. cbn [mbind option_bind]. set (s2 := with_ts ts' s1) in *. pose proof Hf2 as (Hfr & Hct & _ & _ & _ & _ & Hirq).
  rewrite (leave_spec _ s2 (irq_enabled s)) by done. cbn [with_wait with_guard guard m_locked owner wait_queue].
  set (s3 := with_irq_enabled (irq_enabled s) s2).
  assert (Hi3 : sched_inv s3 (parked v)) by by apply inv_irq.
  destruct (yield_spec s3 _ Hi3) as (s4 & o & E4 & Hi4 & Hf4 & _ & Hk4 & _ & _ & Hsw). rewrite E4. cbn [mbind option_bind].
  change (abs_yield (parked v)) with (abs_wait v) in *.
  assert (Hne : v_current (abs_wait v) <> current_task s3).
  { change (current_task s3) with (current_task s2). rewrite Hct. cbn. rewrite <- Hc. unfold abs_wait, abs_dispatch, parked. cbn.
    destruct (unqueued s v _ u Hi Hu) as [Hq _]; [by rewrite Hus .. |]. destruct (si_idle _ _ Hi) as [Hid _].
    destruct (v_ready v) as [|r R] eqn:Er; cbn; [congruence |]. intros ->. apply Hq. by left. }
  destruct (Hsw Hne) as [-> _]. eexists _, _, _. split; [reflexivity |]. right. right. split; [done |]. split; [congruence |].
  assert (Hst : same_tasks s s4).
  { eapply same_tasks_trans; [by apply (insert_same_tasks s s2 _ u _ Hu HU2) | by apply kept_same_tasks]. }
  split; [done |]. split; [| split; [by apply (frame_trans s s3 s4) |]; split; [done |]; split; [| by eexists]].
  - split; try done; cbn.
    + unfold abs_wait, abs_dispatch, parked; cbn. destruct (v_ready v) eqn:Er; cbn.
      all: eapply q_rep_ext; [| exact Hrep]; intros q Hq; rewrite (yield_off s3 s4 _ _ Hi3 E4); [done |]; unfold abs_requeue; cbn.
      all: assert (Hqq : (q ∉ v_ready v) /\ q <> v_idle v) by
        (apply elem_of_app in Hq as [Hq| ->%list_elem_of_singleton];
         [destruct (waiting_apart m s v q Hm Hq) as (? & ? & _); set_solver |
          destruct (unqueued s v _ u Hi Hu) as [Hq' _]; [by rewrite Hus .. |]; destruct (si_idle _ _ Hi) as [-> _]; set_solver]).
      all: rewrite Er in *; set_solver.
    + rewrite Hlk. by destruct (Z.eqb_spec (owner m) NULL).
    + intros _. destruct (Ho En) as [w Hx]. unfold same_tasks in Hst. apply elem_of_dom. rewrite Hst. apply elem_of_dom. by exists w.
    + assert (Hpp : v_parked (abs_wait v) = v_parked v ++ [v_current v]) by (unfold abs_wait, abs_dispatch, parked; cbn; by destruct (v_ready v)).
      rewrite Hpp. intros [?| E]%elem_of_app; [done |]. apply list_elem_of_singleton in E. congruence.
  - destruct (si_current _ _ Hi4) as [<- _]. change (current_task s3) with (current_task s2) in Hne. rewrite Hct in Hne. exact Hne.
Qed.

Lemma minv_is m m' s v o w : minv m s v -> mutex_is m' o w -> w = wait_queue m ->
  (v_parked v <> [] -> o <> NULL) -> (o <> NULL -> is_Some (U s !! o)) -> (o ∉ v_parked v) -> minv m' s v.
Proof. intros [Hi Hg Hw Hlk Hwt Ho Hn] (<- & <- & Hg' & Hlk') E. split; try done. by rewrite E. Qed.

(** What a call of [mutex_lock] by the running task, or its next round, does. *)
Definition locked_by m s (v : view) m' s' o : Prop :=
  (o = Returned /\ s' = s /\ owner m' = current_task s /\ minv m' s v /\ (owner m = current_task s \/ owner m = NULL)) \/
  (owner m <> NULL /\ owner m <> current_task s /\ waits m s v m' s' o).

Lemma round_spec fuel m s v : minv m s v -> v_running v = true ->
  exists m' s' o, mutex_loop (S fuel) (current_task s) m s = Some (m', s', o) /\ locked_by m s v m' s' o.
Proof.
  intros Hm Hr. destruct (loop_spec fuel m s v Hm Hr) as (m' & s' & o & E & Hres). exists m', s', o. split; [done |].
  pose proof Hm as [Hi Hg Hw Hlk Hwt Ho Hn]. destruct (si_current _ _ Hi) as [Hc Hsome].
  pose proof (si_here _ _ Hi Hr) as Hcn. destruct (running_current s v Hi Hr) as (Hci & u & Hu & Hus).
  destruct Hres as [(E1 & -> & -> & Hmi)|[(E1 & -> & -> & Hmi)|Hw']]; [left | left | by right].
  - split; [done |]. split; [done |]. split; [destruct Hmi as (-> & _); done |]. split; [| by left].
    by apply (minv_is m m' s v _ _ Hm Hmi).
  - split; [done |]. split; [done |]. split; [by destruct Hmi as (-> & _) |]. split; [| by right].
    apply (minv_is m m' s v _ _ Hm Hmi); [done | congruence | intros _; rewrite <- Hc; by rewrite Hu |].
    destruct (unqueued s v _ u Hi Hu) as [_ Hpk]; [by rewrite Hus .. |]. congruence.
Qed.

(** [mutex_lock] called by a running task returns at once with the mutex its
    own when it was free or its own already, and otherwise puts the task at the end
    of the waiting queue, leaves the owner alone and switches to another task. *)
Theorem mutex_lock_correct m s v (Hm : minv m s v) (Hr : v_running v = true) :
  exists m' s' o, mutex_lock 1 (Some m) s = Some (Some m', s', o) /\ locked_by m s v m' s' o.
Proof.
  pose proof Hm as [Hi _ _ _ _ _ _]. destruct (si_current _ _ Hi) as [Hc _]. pose proof (si_here _ _ Hi Hr) as Hcn.
  unfold mutex_lock. destruct (Z.eqb_spec (current_task s) NULL); [congruence |].
  destruct (Z.eqb_spec (owner m) (current_task s)) as [E|E].
  - exists m, s, Returned. split; [done |]. left. split_and!; try done. by left.
  - destruct (round_spec 0 m s v Hm Hr) as (m' & s' & o & -> & Hres). by exists m', s', o.
Qed.

(** ** [mutex_unlock] *)

(** The mutex goes to the task that has waited longest, which becomes ready. *)
Definition handed_over (m : mutex_t) s (v : view) (m' : mutex_t) s' : Prop :=
  exists p W, v_parked v = p :: W /\ owner m' = p /\ minv m' s' (abs_unblock p v) /\
    v_parked (abs_unblock p v) = W /\ frame s s' /\ same_tasks s s' /\ current_task s' = current_task s.

Lemma hand_over_spec m s v p W : minv m s v -> owner m <> NULL -> v_parked v = p :: W ->
  exists m' s', (
    let next := wait_queue m in
    '(ts', h) ← task_queue_remove (wait_queue m) next (ts (with_irq_enabled false s));
    let m := with_owner (m_locked m) next (with_wait h (with_guard (mk_irq_spinlock 1 (irq_enabled s)) m)) in
    s ← scheduler_unblock next (with_ts ts' (with_irq_enabled false s));
    let '(m, s) := leave m s in Some (Some m, s)) = Some (Some m', s') /\ handed_over m s v m' s'.
Proof.
  intros Hm Hon Ep. pose proof Hm as [Hi Hg Hw Hlk Hwt Ho Hn]. cbv zeta. cbn [ts with_irq_enabled].
  rewrite Ep in Hw. pose proof Hw as (Hh & Hp0 & _). rewrite Hh.
  pose proof (si_parked_nodup _ _ Hi) as Hnd. rewrite Ep in Hnd. pose proof Hnd as [HpW _]%NoDup_cons.
  destruct (remove_spec (ts s) (wait_queue m) (p :: W) p Hw Hnd Hp0) as (ts' & h' & E & Hrep & Hun & Hoff & _).
  rewrite Hh in E. rewrite E. cbn [mbind option_bind].
  assert (HfW : filter (.≠ p) (p :: W) = W).
  { rewrite filter_cons_False by naive_solver. apply filter_all, Forall_forall. by intros q Hq ->. }
  rewrite HfW in Hrep. set (s1 := with_ts ts' (with_irq_enabled false s)).
  destruct (waiting_apart m s v p Hm) as (Hq & Hpi & Hpc & u & Hu & Hus); [rewrite Ep; by left |].
  assert (HU1 : U s1 = U s) by exact Hun.
  assert (Hi1 : sched_inv s1 v).
  { apply (inv_relink s s1 v Hi HU1); try done. apply (linked_off s s1 _ _ _ (p :: W) (si_linked _ _ Hi)); try done.
    intros q Hq1 Hq2. rewrite <- Ep in Hq2. by destruct (waiting_apart m s v q Hm Hq2) as [? _]. }
  destruct (unblock_spec s1 v p u Hi1 ltac:(by rewrite HU1)) as (s2 & E2 & Hf2 & Hb2 & _). destruct (Hb2 Hus) as [Hi2 HU2].
  rewrite E2. cbn [mbind option_bind]. pose proof Hf2 as (Hfr & Hct & _ & _ & _ & _ & Hirq).
  rewrite (leave_spec _ s2 (irq_enabled s)) by done. eexists _, _. split; [reflexivity |].
  exists p, W. split; [done |]. split; [done |].
  assert (Hpk : v_parked (abs_unblock p v) = W) by (cbn; by rewrite Ep).
  assert (Hpb : p ∉ v_blocked v) by set_solver.
  assert (Hst : same_tasks s s2) by (unfold same_tasks; rewrite HU2, HU1; by apply dom_insert_lookup_L; rewrite Hu).
  split; [| split_and!; [done | exact Hfr | exact Hst | exact Hct]].
  split; try done; rewrite ?Hpk.
  - by apply inv_irq.
  - cbn. eapply q_rep_ext; [| exact Hrep]. intros q HqW. rewrite (unblock_off p s1 s2 v Hi1 Hpb E2); [done |].
    intros [->|Hx]%elem_of_cons; [done |]. destruct (waiting_apart m s v q Hm) as [Hq3 _]; [rewrite Ep; by right |]. set_solver.
  - cbn. rewrite Hlk. by destruct (Z.eqb_spec (owner m) NULL), (Z.eqb_spec p NULL).
  - intros _. assert (Hp2 : is_Some (U s2 !! p)) by (rewrite HU2, lookup_insert_eq; by eexists). exact Hp2.
  - exact HpW.
Qed.

Lemma unlock_spec m s v : minv m s v -> v_running v = true ->
  exists m' s', mutex_unlock (Some m) s = Some (Some m', s') /\
    ((owner m <> current_task s /\ s' = s /\ owner m' = owner m /\ minv m' s v) \/
     (owner m = current_task s /\ v_parked v = [] /\ s' = s /\ owner m' = NULL /\ minv m' s v) \/
     (owner m = current_task s /\ handed_over m s v m' s')).
Proof.
  intros Hm Hr. pose proof Hm as [Hi Hg Hw Hlk Hwt Ho Hn]. destruct (si_current _ _ Hi) as [Hc _]. pose proof (si_here _ _ Hi Hr) as Hcn.
  unfold mutex_unlock. destruct (Z.eqb_spec (current_task s) NULL); [congruence |].
  rewrite (enter_free m s Hg). cbn [mbind option_bind]. cbn [owner with_guard].
  destruct (Z.eqb_spec (owner m) (current_task s)) as [E|E]; cbn [negb].
  2: { erewrite (leave_spec _ _ (irq_enabled s)) by done. rewrite irq_back. eexists _, _. split; [reflexivity |]. left.
       split; [done |]. split; [done |]. split; [done |]. by apply (minv_is m _ s v (owner m) (wait_queue m) Hm). }
  cbn [wait_queue with_guard]. destruct (v_parked v) as [|p W] eqn:Ep.
  - assert (Hw0 : wait_queue m = NULL) by exact Hw. rewrite Hw0. cbn [Z.eqb NULL].
    erewrite (leave_spec _ _ (irq_enabled s)) by done. rewrite irq_back. eexists _, _. split; [reflexivity |]. right. left.
    split; [done |]. split; [done |]. split; [done |]. split; [done |].
    apply (minv_is m _ s v NULL (wait_queue m) Hm); rewrite ?Ep; try done. set_solver.
  - assert (Hwn : wait_queue m <> NULL) by (destruct Hw as (-> & ? & _); done).
    destruct (Z.eqb_spec (wait_queue m) NULL); [done |].
    destruct (hand_over_spec m s v p W Hm ltac:(congruence) Ep) as (m' & s' & E' & Hh).
    exists m', s'. split; [exact E' |]. right. right. by split.
Qed.

(** [mutex_unlock] by the owner frees the mutex when no task waits; otherwise
    the task that has waited longest becomes its owner and ready to run, and the
    others keep their order.  A call by any other task changes nothing. *)
Theorem mutex_unlock_correct m s v (Hm : minv m s v) (Hr : v_running v = true) :
  exists m' s', mutex_unlock (Some m) s = Some (Some m', s') /\
    ((owner m <> current_task s /\ s' = s /\ owner m' = owner m /\ minv m' s v) \/
     (owner m = current_task s /\ v_parked v = [] /\ s' = s /\ owner m' = NULL /\ minv m' s v) \/
     (owner m = current_task s /\ handed_over m s v m' s')).
Proof. by apply unlock_spec. Qed.
End mutex.
