(* ===== verification/MutexHistory.v ===== *)
(** * Tasks that share a mutex

    Whatever tasks do between two switches (lock, unlock, give way), in any order,
    the mutex keeps them apart.  A task that waits goes on with the loop of
    [mutex_lock] when it next runs. *)
From S2P Require Import Prelude PageAllocator Memory KAlloc Fd Elf TaskQueue PageTable System Scheduler SchedulerSpec SchedulerWake SchedulerProps SchedulerDemo Sync Mutex MutexSpec.
Import Mem Task Scheduler Sync Mutex.
#[local] Open Scope Z_scope.

Section history.
Context {K A : Type} `{KAlloc K}.
Implicit Types s : sys K A.

(** What the running task does next; [irq] is its interrupt flag. *)
Inductive act := ActLock | ActUnlock | ActYield.
Record event := mk_event { ev_act : act; ev_irq : bool }.

(** [w_pending]: tasks inside [mutex_lock]; [w_inside]: tasks whose [mutex_lock]
    returned and that have not unlocked. *)
Record world := mk_world { w_mutex : mutex_t; w_sys : sys K A; w_pending : list Z; w_inside : list Z }.

Definition yields (w : world) : option world :=
  '(s, _) ← scheduler_yield (w_sys w); Some (mk_world (w_mutex w) s (w_pending w) (w_inside w)).

(** The end of a call of [mutex_lock] by [c], or of one of its rounds. *)
Definition lock_ended (c : Z) (m : mutex_t) s (o : outcome) (w : world) : world :=
  match o with
  | Returned => mk_world m s (filter (.≠ c) (w_pending w)) (c :: w_inside w)
  | Switched _ _ => mk_world m s (c :: filter (.≠ c) (w_pending w)) (w_inside w)
  end.

Definition world_step (e : event) (w : world) : option world :=
  let s := with_irq_enabled (ev_irq e) (w_sys w) in
  let w := mk_world (w_mutex w) s (w_pending w) (w_inside w) in
  let c := current_task s in
  if (c =? NULL) || (c =? idle s) then yields w
  else if decide (c ∈ w_pending w) then
    '(m, s, o) ← mutex_loop 1 c (w_mutex w) s; Some (lock_ended c m s o w)
  else match ev_act e with
  | ActLock =>
    '(m, s, o) ← mutex_lock 1 (Some (w_mutex w)) s; m ← m; Some (lock_ended c m s o w)
  | ActUnlock =>
    '(m, s) ← mutex_unlock (Some (w_mutex w)) s; m ← m;
    Some (mk_world m s (w_pending w) (filter (.≠ c) (w_inside w)))
  | ActYield => yields w
  end.

Fixpoint world_run (es : list event) (w : world) : option world :=
  match es with [] => Some w | e :: es' => w' ← world_step e w; world_run es' w' end.

(** ** The invariant *)
Record world_inv (w : world) (v : view) : Prop := {
  wi_mutex : minv (w_mutex w) (w_sys w) v;
  wi_exec : v_running v = true \/ v_current v = idle (w_sys w) \/ v_current v = NULL;
  wi_inside p : p ∈ w_inside w -> p = owner (w_mutex w) /\ p <> NULL;
  wi_pending p : p ∈ w_pending w -> p ∈ v_parked v \/ (p = owner (w_mutex w) /\ p <> NULL);
  wi_parked p : p ∈ v_parked v -> p ∈ w_pending w;
  wi_owner : owner (w_mutex w) <> NULL -> owner (w_mutex w) ∈ w_inside w ++ w_pending w;
}.

Lemma minv_irq (m : mutex_t) s v b : minv m s v -> minv m (with_irq_enabled b s) v.
Proof. intros []. split; try done. by apply inv_irq. Qed.

Lemma abs_yield_parked v : v_parked (abs_yield v) = v_parked v.
Proof. unfold abs_yield, abs_dispatch, abs_requeue. destruct (v_running v); cbn; by destruct (v_ready v); cbn. Qed.

Lemma minv_yield (m : mutex_t) s v : minv m s v ->
  exists s' o, scheduler_yield s = Some (s', o) /\ minv m s' (abs_yield v) /\ frame s s'.
Proof.
  intros Hm. pose proof Hm as [Hi Hg Hw Hlk Hwt Ho Hn]. destruct (yield_spec s v Hi) as (s' & o & E & Hi' & Hf & _ & Hk & _).
  exists s', o. split; [done |]. split; [| done]. split; rewrite ?abs_yield_parked; try done.
  - eapply q_rep_ext; [| exact Hw]. intros q Hq. rewrite (yield_off s s' o v Hi E); [done |].
    destruct (waiting_apart m s v q Hm Hq) as (Hq' & Hqi & Hqc & _). unfold abs_requeue. destruct (v_running v); cbn; [| set_solver].
    pose proof (Hqc eq_refl). set_solver.
  - intros Hon. apply elem_of_dom. pose proof (kept_same_tasks _ _ Hk) as Hst. unfold same_tasks in Hst. rewrite Hst.
    apply elem_of_dom. auto.
Qed.

Lemma yields_inv w v : world_inv w v -> exists w', yields w = Some w' /\ world_inv w' (abs_yield v).
Proof.
  intros [Hm Hx Hin Hpe Hpa Ho]. destruct (minv_yield _ _ _ Hm) as (s' & o & E & Hm' & Hf). unfold yields. rewrite E.
  cbn [mbind option_bind]. eexists. split; [reflexivity |]. split; cbn; rewrite ?abs_yield_parked; try done.
  pose proof Hm as [Hi _ _ _ _ _ _]. by eapply abs_yield_exec.
Qed.

Lemma abs_wait_parked v : v_parked (abs_wait v) = v_parked v ++ [v_current v].
Proof. unfold abs_wait, abs_dispatch, parked. cbn. by destruct (v_ready v). Qed.

(** A call or round of [mutex_lock] that ended as [locked_by] says. *)
Lemma lock_ended_inv w v m' s' o : world_inv w v -> v_running v = true ->
  (current_task (w_sys w) ∈ w_pending w -> owner (w_mutex w) = current_task (w_sys w)) ->
  locked_by (w_mutex w) (w_sys w) v m' s' o ->
  exists v', world_inv (lock_ended (current_task (w_sys w)) m' s' o w) v'.
Proof.
  intros [Hm Hx Hin Hpe Hpa Ho] Hr Hpo Hl. pose proof Hm as [Hi _ _ _ _ _ Hnw]. destruct (si_current _ _ Hi) as [Hc _].
  pose proof (si_here _ _ Hi Hr) as Hcn.
  destruct Hl as [(-> & -> & Eo & Hm' & Hold)|(Hon & Hoc & Eo & Hm' & Hf & Hst & Hne & x & ->)].
  - exists v. assert (Hcp : current_task (w_sys w) ∉ v_parked v) by (destruct Hm' as [_ _ _ _ _ _ Hn']; by rewrite Eo in Hn').
    split; cbn; try done.
    + intros p [->|Hp]%elem_of_cons; [split; congruence |]. destruct (Hin p Hp) as [-> ?]. split; [| done].
      destruct Hold; congruence.
    + intros p [Hpc Hp]%list_elem_of_filter. destruct (Hpe p Hp) as [?|[-> ?]]; [by left | right]. destruct Hold; congruence.
    + intros p Hp. apply list_elem_of_filter. split; [by intros -> | by apply Hpa].
    + rewrite Eo. intros _. by left.
  - exists (abs_wait v). unfold waits in *. split; cbn; rewrite ?abs_wait_parked, ?Eo; try done.
    + eapply (abs_leave_exec (w_sys w) v s' (parked v) Hi Hf). done.
    + intros p [->|[Hpc Hp]%list_elem_of_filter]%elem_of_cons; [left; rewrite Hc; set_solver |]. destruct (Hpe p Hp); [left; set_solver | by right].
    + intros p [Hp| ->%list_elem_of_singleton]%elem_of_app; [| rewrite Hc; left].
      destruct (decide (p = current_task (w_sys w))) as [->|]; [by left | right]. apply list_elem_of_filter. split; [done | by apply Hpa].
    + intros _. destruct (proj1 (elem_of_app _ _ _) (Ho Hon)) as [Hp|Hp]; apply elem_of_app; [by left | right].
      right. apply list_elem_of_filter. by split.
Qed.

Lemma step_world_inv e w v : world_inv w v -> exists w' v', world_step e w = Some w' /\ world_inv w' v'.
Proof.
  intros [Hm Hx Hin Hpe Hpa Ho]. unfold world_step. set (s := with_irq_enabled (ev_irq e) (w_sys w)).
  set (w1 := mk_world (w_mutex w) s (w_pending w) (w_inside w)).
  assert (Hw1 : world_inv w1 v) by (split; cbn; try done; by apply minv_irq).
  assert (Hy : exists w' v', yields w1 = Some w' /\ world_inv w' v').
  { destruct (yields_inv w1 v Hw1) as (w' & E & Hw'). by exists w', (abs_yield v). }
  pose proof Hw1 as [Hm1 _ _ _ _ _]. cbn [w_mutex w_sys] in Hm1. pose proof Hm1 as [Hi _ _ _ _ _ _].
  destruct (si_current _ _ Hi) as [Hc _].
  change (w_pending w1) with (w_pending w). change (w_mutex w1) with (w_mutex w). change (w_inside w1) with (w_inside w).
  destruct (Z.eqb_spec (current_task s) NULL) as [|Hcn]; [done |].
  destruct (Z.eqb_spec (current_task s) (idle s)) as [|Hci]; [done |]. cbn [orb].
  assert (Hr : v_running v = true).
  { destruct Hx as [Hx|[Hx|Hx]]; [done | |]; rewrite Hc in Hx; done. }
  destruct (running_current s v Hi Hr) as (_ & u & Hu & Hus). destruct (unqueued s v _ u Hi Hu) as [_ Hcp]; [by rewrite Hus .. |].
  rewrite Hc in Hcp. case_decide as Hp.
  - destruct (round_spec 0 (w_mutex w) s v Hm1 Hr) as (m' & s' & o & -> & Hl). cbn [mbind option_bind].
    destruct (lock_ended_inv w1 v m' s' o Hw1 Hr) as [v' Hv']; [| done |].
    + intros Hp'. destruct (Hpe _ Hp') as [|[E _]]; [done |]. symmetry. exact E.
    + eexists _, v'. split; [reflexivity | exact Hv'].
  - destruct (ev_act e); [| | exact Hy].
    + assert (Hlk : exists m' s' o, mutex_lock 1 (Some (w_mutex w)) s = Some (Some m', s', o) /\ locked_by (w_mutex w) s v m' s' o).
      { unfold mutex_lock. destruct (Z.eqb_spec (current_task s) NULL); [done |].
        destruct (Z.eqb_spec (owner (w_mutex w)) (current_task s)) as [E|E].
        - exists (w_mutex w), s, Returned. split; [done |]. left. split_and!; try done. by left.
        - destruct (round_spec 0 (w_mutex w) s v Hm1 Hr) as (m' & s' & o & -> & Hres). by exists m', s', o. }
      destruct Hlk as (m' & s' & o & -> & Hl). cbn [mbind option_bind].
      destruct (lock_ended_inv w1 v m' s' o Hw1 Hr) as [v' Hv']; [done | done |].
      eexists _, v'. split; [reflexivity | exact Hv'].
    + destruct (unlock_spec (w_mutex w) s v Hm1 Hr) as (m' & s' & -> & Hres). cbn [mbind option_bind].
      destruct Hres as [(E & -> & Eo & Hm')|[(E & Ep & -> & Eo & Hm')|(E & p & W & Ep & Eo & Hm' & EW & Hf & Hst & Hct)]].
      * eexists _, v. split; [reflexivity |]. split; cbn; rewrite ?Eo; try done.
        -- intros q [_ Hq]%list_elem_of_filter. by apply Hin.
        -- intros Hon. destruct (proj1 (elem_of_app _ _ _) (Ho Hon)) as [Hq|Hq]; apply elem_of_app; [left | by right].
           apply list_elem_of_filter. split; [exact E | done].
      * eexists _, v. split; [reflexivity |]. split; cbn; rewrite ?Eo; try done.
        -- intros q [Hq Hq2]%list_elem_of_filter. destruct (Hin q Hq2) as [Eq _]. exfalso. apply Hq. by rewrite Eq.
        -- intros q Hq. destruct (Hpe q Hq) as [?|[-> _]]; [by left |]. rewrite E in Hq. done.
      * eexists _, (abs_unblock p v). split; [reflexivity |]. pose proof Hf as (Hid & _).
        assert (Hp0 : p <> NULL). { destruct (minv_nonnull _ _ _ p Hm1) as (? & _); [rewrite Ep; by left | done]. }
        split; rewrite ?EW; cbn [w_mutex w_sys w_inside w_pending]; rewrite ?Eo; try done.
        -- cbn [v_running v_current abs_unblock]. by left.
        -- intros q [Hq Hq2]%list_elem_of_filter. destruct (Hin q Hq2) as [Eq _]. exfalso. apply Hq. by rewrite Eq.
        -- intros q Hq. destruct (Hpe q Hq) as [Hq'|[-> _]]; [| rewrite E in Hq; done].
           rewrite Ep in Hq'. apply elem_of_cons in Hq' as [->|Hq']; [by right | by left].
        -- intros q Hq. apply Hpa. rewrite Ep. by right.
        -- intros _. apply elem_of_app. right. apply Hpa. rewrite Ep. by left.
Qed.

Lemma run_world_inv es : forall w v, world_inv w v -> exists w' v', world_run es w = Some w' /\ world_inv w' v'.
Proof.
  induction es as [|e es IH]; intros w v Hw; [by exists w, v |]. cbn [world_run].
  destruct (step_world_inv e w v Hw) as (w1 & v1 & -> & Hw1). cbn [mbind option_bind]. by eapply IH.
Qed.

End history.

(** ** The two tasks of [SchedulerDemo.v] with a new mutex *)
Definition demo_events : list event :=
  [mk_event ActLock true; mk_event ActYield true; mk_event ActLock true; mk_event ActUnlock true; mk_event ActYield true].

(** The first task locks and gives way; the second has to wait, the first unlocks
    and gives way, and the second is in. *)
Example demo_hand_over :
  (fun w => (w_inside w, w_pending w)) <$> world_run demo_events (mk_world mutex_init demo [] []) = Some ([], [task2]) /\
  (fun w => (w_inside w, w_pending w)) <$> world_run (demo_events ++ [mk_event ActYield true]) (mk_world mutex_init demo [] []) =
    Some ([task2], []).
Proof. vm_compute. split; reflexivity. Qed.

#[local] Opaque demo.

Lemma demo_minv : minv mutex_init demo demo_view.
Proof.
  split.
  - exact (so_inv _ _ demo_ok).
  - reflexivity.
  - reflexivity.
  - reflexivity.
  - intros Hn. by destruct Hn.
  - intros Hn. by destruct Hn.
  - apply not_elem_of_nil.
Qed.

Lemma mutex_lock_correct_witness : exists m' s' o, mutex_lock 1 (Some mutex_init) demo = Some (Some m', s', o).
Proof.
  destruct (mutex_lock_correct mutex_init demo demo_view demo_minv eq_refl) as (m' & s' & o & E & _). exists m', s', o. exact E.
Defined.

Lemma mutex_unlock_correct_witness : exists m' s', mutex_unlock (Some mutex_init) demo = Some (Some m', s').
Proof.
  destruct (mutex_unlock_correct mutex_init demo demo_view demo_minv eq_refl) as (m' & s' & E & _). exists m', s'. exact E.
Defined.


