(* ===== verification/Process.v ===== *)
(** * Processes: [process/*.c] and the system calls of [fs/sys_file.c]

    Operations on [System.sys]; those that use the file system act on [kernel],
    which adds the file-system state, with the heap and the memory they share.
    An operation without a result follows a pointer to no object, runs past a
    string buffer, or loops for ever.  Printing is left out. *)
From S2P Require Import Prelude PageAllocator Memory KAlloc Fd Elf TaskQueue PageTable System Scheduler Ramfs Vfs.
Import Mem Str Task Scheduler.
#[local] Open Scope Z_scope.

Module Process.

(** ** [vmm/user_vm_layout.h] *)
Definition USER_HEAP_BASE : Z := 0x800000.
Definition USER_STACK_TOP : Z := 0x00007FFFFFFFF000.
Definition USER_STACK_SIZE : Z := 1024 * 1024.

Section process.
Context {K A : Type} `{KAlloc K} `{PageAllocator A}.
Implicit Types s : sys K A.

(** ** [process_memory.c], [process_heap.c] *)

(** One page for a process, at [va]: what the two files share. *)
Definition map_process_page (pml4 va : Z) (s : pt_state A) : pt_state A * Z :=
  let '(s, page) := alloc_page s in
  if page =? NULL then (s, KERNEL_ENOMEM)
  else
    let '(s, ok) := page_table_map_user pml4 va page true s in
    if negb ok then (free_page page s, KERNEL_ENOMEM) else (s, KERNEL_SUCCESS).

Definition process_map_initial_stack (process : Z) s : option (sys K A * Z) :=
  if process =? NULL then Some (s, KERNEL_EINVAL)
  else
    p ← ps s !! process;
    let '(pt', status) := map_process_page (page_table p) (u64 (user_stack_top p - PAGE_SIZE)) (pt s) in
    Some (with_pt pt' s, status).

Definition process_heap_expand (process : Z) s : option (sys K A * Z) :=
  if process =? NULL then Some (s, KERNEL_EINVAL)
  else
    p ← ps s !! process;
    let '(pt', status) := map_process_page (page_table p) (user_heap_end p) (pt s) in
    let s := with_pt pt' s in
    if negb (status =? KERNEL_SUCCESS) then Some (s, status)
    else
      s ← update_process process
            (fun p => setp_user_heap_current (u64 (user_heap_end p + PAGE_SIZE))
                        (setp_user_heap_end (u64 (user_heap_end p + PAGE_SIZE)) p)) s;
      Some (s, KERNEL_SUCCESS).

(** ** [process.c] *)
Definition process_allocate_pid s : sys K A * Z := (with_next_pid (u64 (next_pid s + 1)) s, next_pid s).

(** [kfree(process)]: the object is gone. *)
Definition free_process (process : Z) s : sys K A :=
  with_ps (delete process (ps s)) (with_heap (ka_free process (heap s)) s).

(** The object once it is cleared and its first fields are set. *)
Definition fresh_process (pid : Z) : process_t :=
  mk_process pid PROCESS_READY 0 (replicate 64 0) NULL NULL NULL NULL (Elf.mk_image NULL 0 0 0) 0 0 0 0 0
    (Fd.mk_fd_table (replicate 64 NULL)) NULL 0 0 0 0 false false.

Definition process_create (name : list Z) (entry : Z) s : option (sys K A * Z) :=
  if entry =? NULL then Some (s, NULL)
  else
    let '(k, process) := ka_malloc sizeof_process (heap s) in
    let s := with_heap k s in
    if process =? NULL then Some (s, NULL)
    else
      let '(s, pid) := process_allocate_pid s in
      let '(pt', table, physical) := page_table_create (pt s) in
      let p := setp_page_table table (setp_page_table_physical (default 0 physical) (fresh_process pid)) in
      let s := with_ps (<[process := p]> (ps s)) (with_pt pt' s) in
      if table =? NULL then Some (s, NULL)
      else
        s ← update_process process (fun p => setp_user_stack_bottom (USER_STACK_TOP - USER_STACK_SIZE)
                                               (setp_user_stack_top USER_STACK_TOP p)) s;
        '(s, status) ← process_map_initial_stack process s;
        if negb (status =? KERNEL_SUCCESS) then Some (free_process process s, NULL)
        else
          s ← update_process process (fun p => setp_user_heap_current USER_HEAP_BASE
                (setp_user_heap_end USER_HEAP_BASE (setp_user_heap_start USER_HEAP_BASE p))) s;
          '(s, status) ← process_heap_expand process s;
          if negb (status =? KERNEL_SUCCESS) then Some (free_process process s, NULL)
          else
            s ← update_process process (setp_next (process_list s)) s;
            let s := with_process_list process s in
            pname ← k_strcpy (replicate 64 0) name;
            s ← update_process process (setp_name pname) s;
            let '(s, task) := task_create entry s in
            if task =? NULL then Some (free_process process s, NULL)
            else
              s ← update_task task (set_process process) s;
              s ← update_process process (fun p => setp_thread_list task (setp_main_thread task p)) s;
              s ← scheduler_add_task task s;
              Some (s, process).

Fixpoint lookup_loop (fuel : nat) (process pid : Z) s : option Z :=
  match fuel with
  | O => None
  | S fuel' =>
    if process =? NULL then Some NULL
    else
      p ← ps s !! process;
      if System.pid p =? pid then Some process else lookup_loop fuel' (p_next p) pid s
  end.

(** A chain without a loop has at most [size (ps s)] processes. *)
Definition process_lookup (pid : Z) s : option Z := lookup_loop (S (size (ps s))) (process_list s) pid s.

Definition process_current s : option Z :=
  if current_task s =? NULL then Some NULL else t ← ts s !! current_task s; Some (t_process t).

Fixpoint unlink_loop (fuel : nat) (current process : Z) s : option (sys K A) :=
  match fuel with
  | O => None
  | S fuel' =>
    if current =? NULL then Some s
    else
      c ← ps s !! current;
      if p_next c =? process then
        p ← ps s !! process;
        update_process current (setp_next (p_next p)) s
      else unlink_loop fuel' (p_next c) process s
  end.

Definition process_destroy (process : Z) s : option (sys K A) :=
  if process =? NULL then Some s
  else
    s ← (if process_list s =? process then p ← ps s !! process; Some (with_process_list (p_next p) s)
         else unlink_loop (S (size (ps s))) (process_list s) process s);
    Some (free_process process s).

Definition process_exit (exit_code : Z) s : option (sys K A * outcome) :=
  process ← process_current s;
  if process =? NULL then Some (s, Returned)
  else
    s ← update_process process (fun p => setp_exit_code exit_code (setp_state PROCESS_EXITED p)) s;
    task_exit s.

Definition process_load_image (process : Z) (image : option Elf.elf_image_t) s : option (sys K A * Z) :=
  match image with
  | None => Some (s, KERNEL_EINVAL)
  | Some image =>
    if process =? NULL then Some (s, KERNEL_EINVAL)
    else s ← update_process process (setp_image image) s; Some (s, KERNEL_SUCCESS)
  end.

(** ** [process_loader.c] *)

(** The contents of one page of a segment: the copy, then the zeros. *)
Definition fill_page (ph elf_base page_offset page_va : Z) (m : mem) : mem :=
  let bytes_to_copy :=
    if page_offset <? Elf.p_filesz m ph
    then Z.min (u64 (Elf.p_filesz m ph - page_offset)) PAGE_SIZE else 0 in
  let src := u64 (elf_base + Elf.p_offset m ph + page_offset) in
  let m := if bytes_to_copy >? 0 then k_memcpy page_va src bytes_to_copy m else m in
  let bytes_in_memory :=
    if page_offset <? Elf.p_memsz m ph
    then Z.min (u64 (Elf.p_memsz m ph - page_offset)) PAGE_SIZE else 0 in
  if bytes_in_memory >? bytes_to_copy
  then k_memset (u64 (page_va + bytes_to_copy)) 0 (bytes_in_memory - bytes_to_copy) m else m.

(** The iterations from page [i] on, [n] of them. *)
Fixpoint map_segment_loop (n : nat) (i pml4 ph elf_base : Z) (s : pt_state A) : pt_state A * Z :=
  match n with
  | O => (s, KERNEL_SUCCESS)
  | S n' =>
    let '(s, page) := alloc_page s in
    if page =? NULL then (s, KERNEL_ENOMEM)
    else
      let va := u64 (Elf.p_vaddr (pt_mem s) ph + i * PAGE_SIZE) in
      let page_offset := u64 (i * PAGE_SIZE) in
      let writable := negb (Z.land (Elf.p_flags (pt_mem s) ph) Elf.PF_W =? 0) in
      let '(s, ok) := page_table_map_user pml4 va page writable s in
      if negb ok then (free_page page s, KERNEL_ENOMEM)
      else
        let page_va := page_table_physical_to_virtual s page in
        let s := with_mem (fill_page ph elf_base page_offset page_va (pt_mem s)) s in
        map_segment_loop n' (i + 1) pml4 ph elf_base s
  end.

Definition map_segment (pml4 ph elf_base : Z) (s : pt_state A) : pt_state A * Z :=
  let page_count := u64 (Elf.p_memsz (pt_mem s) ph + PAGE_SIZE - 1) / PAGE_SIZE in
  map_segment_loop (Z.to_nat page_count) 0 pml4 ph elf_base s.

Definition process_map_segment (process ph elf_base : Z) s : option (sys K A * Z) :=
  if (process =? NULL) || (ph =? NULL) || (elf_base =? NULL) then Some (s, KERNEL_EINVAL)
  else
    p ← ps s !! process;
    let '(pt', status) := map_segment (page_table p) ph elf_base (pt s) in
    Some (with_pt pt' s, status).

(** ** [process_exec.c] *)

(** The loop over the program headers; [e_phnum] is a 16-bit field, so that
    65536 iterations suffice. *)
Fixpoint exec_segments (fuel : nat) (i process header : Z) s : option (sys K A * Z) :=
  match fuel with
  | O => None
  | S fuel' =>
    if i <? Elf.e_phnum (kmem s) header then
      let ph := Elf.elf_program_header (kmem s) header i in
      if (ph =? NULL) || negb (Elf.p_type (kmem s) ph =? Elf.PT_LOAD)
      then exec_segments fuel' (i + 1) process header s
      else
        '(s, rc) ← process_map_segment process ph header s;
        if negb (rc =? KERNEL_SUCCESS) then Some (s, rc)
        else exec_segments fuel' (i + 1) process header s
    else Some (s, KERNEL_SUCCESS)
  end.

(** The [image] structure starts undefined; [elf_load_image] sets every field
    before it succeeds. *)
Definition process_exec (process elf_image : Z) s : option (sys K A * Z) :=
  if (process =? NULL) || (elf_image =? NULL) then Some (s, KERNEL_EINVAL)
  else
    let '(m, k, image, status) :=
      Elf.elf_load_image elf_image (Some (Elf.mk_image NULL 0 0 0)) (kmem s) (heap s) in
    let s := with_heap k (with_kmem m s) in
    if negb (status =? KERNEL_SUCCESS) then Some (s, status)
    else
      '(s, rc) ← exec_segments (Z.to_nat (2 ^ 16)) 0 process elf_image s;
      if negb (rc =? KERNEL_SUCCESS) then Some (s, rc)
      else
        image ← image;
        s ← update_process process (fun p => setp_user_rip (Elf.entry image) (setp_image image p)) s;
        p ← ps s !! process;
        let '(pt', pte) := page_walk (page_table p) (user_rip p) false (pt s) in
        let s := with_pt pt' s in
        if pte =? NULL then Some (s, KERNEL_EINVAL)
        else
          s ← update_process process (fun p =>
                setp_is_user_process true (setp_user_rflags 0x202
                  (setp_user_rsp (u64 (user_stack_top p - 8)) p))) s;
          Some (s, KERNEL_SUCCESS).
End process.

(** ** The kernel with its file system *)
Section files.
Context {K A : Type} `{KAlloc K} `{PageAllocator A} `{Ramfs.FsLayout}.

Record kernel := mk_kernel { k_sys : sys K A; k_fs : Ramfs.fs_state K }.
Implicit Types k : kernel.

Definition on_sys (s : sys K A) k : kernel := mk_kernel s (k_fs k).

(** The file system works on the kernel's heap and memory. *)
Definition fs_in k : Ramfs.fs_state K := Ramfs.with_fheap (heap (k_sys k)) (Ramfs.with_fmem (kmem (k_sys k)) (k_fs k)).
Definition fs_out (f : Ramfs.fs_state K) k : kernel :=
  mk_kernel (with_kmem (Ramfs.fmem f) (with_heap (Ramfs.fheap f) (k_sys k))) f.

(** ** [sys_file.c] *)
Definition sys_open (path : option (list Z)) k : option (kernel * Z) :=
  match path with
  | None => Some (k, KERNEL_EINVAL)
  | Some _ =>
    process ← process_current (k_sys k);
    if process =? NULL then Some (k, KERNEL_EINVAL)
    else
      '(f, file, status) ← Vfs.vfs_open path (fs_in k);
      let k := fs_out f k in
      if negb (status =? KERNEL_SUCCESS) then Some (k, status)
      else
        p ← ps (k_sys k) !! process;
        let '(t, fd) := Fd.fd_allocate (Some (fd_table p)) file in
        t ← t;
        s ← update_process process (setp_fd_table t) (k_sys k);
        Some (on_sys s k, fd)
  end.

(** The file of a descriptor of the current process, and a call on it. *)
Definition sys_call (op : Z -> Z -> Z -> Ramfs.fs_state K -> option (Ramfs.fs_state K * Z))
    (fd buffer size : Z) k : option (kernel * Z) :=
  process ← process_current (k_sys k);
  if process =? NULL then Some (k, KERNEL_EINVAL)
  else
    p ← ps (k_sys k) !! process;
    let file := Fd.fd_get (Some (fd_table p)) fd in
    if file =? NULL then Some (k, KERNEL_ENOENT)
    else '(f, r) ← op file buffer size (fs_in k); Some (fs_out f k, r).

Definition sys_read := sys_call Vfs.vfs_read.
Definition sys_write := sys_call Vfs.vfs_write.

Definition sys_close (fd : Z) k : option (kernel * Z) :=
  process ← process_current (k_sys k);
  if process =? NULL then Some (k, KERNEL_EINVAL)
  else
    p ← ps (k_sys k) !! process;
    let '(t, r) := Fd.fd_close (Some (fd_table p)) fd in
    t ← t;
    s ← update_process process (setp_fd_table t) (k_sys k);
    Some (on_sys s k, r).

(** ** [process_exec_file.c] *)
Definition EXEC_BUFFER_SIZE : Z := 65536.

Definition file_close k (file : Z) : kernel := fs_out (Ramfs.file_close file (fs_in k)) k.
Definition free_buffer k (buffer : Z) : kernel := on_sys (with_heap (ka_free buffer (heap (k_sys k))) (k_sys k)) k.

Definition process_exec_file (process : Z) (path : option (list Z)) k : option (kernel * Z) :=
  match path with
  | None => Some (k, KERNEL_EINVAL)
  | Some _ =>
    if process =? NULL then Some (k, KERNEL_EINVAL)
    else
      '(f, file, open_status) ← Vfs.vfs_open path (fs_in k);
      let k := fs_out f k in
      if negb (open_status =? KERNEL_SUCCESS) then Some (k, open_status)
      else
        let '(h, buffer) := ka_malloc EXEC_BUFFER_SIZE (heap (k_sys k)) in
        let k := on_sys (with_heap h (k_sys k)) k in
        if buffer =? NULL then Some (file_close k file, KERNEL_ENOMEM)
        else
          let s := k_sys k in
          let k := on_sys (with_kmem (k_memset buffer 0 EXEC_BUFFER_SIZE (kmem s)) s) k in
          '(f, bytes) ← Vfs.vfs_read file buffer EXEC_BUFFER_SIZE (fs_in k);
          let k := fs_out f k in
          if bytes <? 0 then Some (file_close (free_buffer k buffer) file, bytes)
          else
            '(s, status) ← process_exec process buffer (k_sys k);
            let k := on_sys s k in
            if negb (status =? KERNEL_SUCCESS) then Some (file_close (free_buffer k buffer) file, status)
            else Some (free_buffer (file_close k file) buffer, KERNEL_SUCCESS)
  end.
End files.
Arguments kernel K A : clear implicits.

End Process.
