(* ===== verification/UserPages.v ===== *)
(** * Pages of a process: what mapping fresh frames into an address space keeps

    Over the invariant [pt_wf] of [PageTableSpec.v].  [space_ext] relates two
    states between which only tables were added and pages that were free were
    written; the frames processes use ([used]) and the rest of the kernel's
    memory keep their bytes along it. *)
From S2P Require Import Prelude PageAllocator Memory PageTable PageTableSpec.
Import Mem.
#[local] Open Scope Z_scope.
#[local] Opaque k_memcpy k_memset.

Section space.
Context {A : Type} `{PageAllocatorLaws A}.
Implicit Types (s : pt_state A) (T : gmap Z (list Z)).

(** [x] is outside the direct map of frame [g]. *)
Definition outside s (g x : Z) : Prop := x < g + hhdm_offset s \/ g + hhdm_offset s + 4096 <= x.

(** [x] is outside the tables and the free pages. *)
Definition kernel_byte T s (x : Z) : Prop :=
  0 <= x < 2 ^ 64 /\ forall g, g ∈ pa_free_pages (pt_alloc s) \/ is_Some (T !! g) -> outside s g x.

(** A frame that was handed out and is no table. *)
Definition used T s (p : Z) : Prop :=
  page_frame (pa_limit (pt_alloc s)) p /\ (p ∉ pa_free_pages (pt_alloc s)) /\ T !! p = None.

Record space_ext T s T' s' : Prop := {
  se_sub : T ⊆ T';
  se_config : same_config s s';
  se_new g q : T' !! g = Some q -> T !! g = Some q \/ g ∈ pa_free_pages (pt_alloc s);
  se_mem x : kernel_byte T s x -> load8 (pt_mem s') x = load8 (pt_mem s) x;
  se_used p j : used T s p -> 0 <= j < 4096 ->
    load8 (pt_mem s') (p + hhdm_offset s + j) = load8 (pt_mem s) (p + hhdm_offset s + j);
}.

Lemma se_hhdm T s T' s' : space_ext T s T' s' -> hhdm_offset s' = hhdm_offset s.
Proof. intros He. apply (se_config _ _ _ _ He). Qed.

Lemma se_limit T s T' s' : space_ext T s T' s' -> pa_limit (pt_alloc s') = pa_limit (pt_alloc s).
Proof. intros He. apply (se_config _ _ _ _ He). Qed.

Lemma se_free T s T' s' : space_ext T s T' s' -> pa_free_pages (pt_alloc s') ⊆ pa_free_pages (pt_alloc s).
Proof. intros He. apply (se_config _ _ _ _ He). Qed.

Lemma space_ext_refl T s : space_ext T s T s.
Proof. split; try done; first [apply same_config_refl | by left]. Qed.

Lemma kernel_byte_ext T s T' s' x : space_ext T s T' s' -> kernel_byte T s x -> kernel_byte T' s' x.
Proof.
  intros He [Hx Hk]. split; [done |]. intros g Hg. unfold outside. rewrite (se_hhdm _ _ _ _ He).
  apply Hk. destruct Hg as [Hg|[q Hg]]; [left; by apply (se_free _ _ _ _ He) |].
  destruct (se_new _ _ _ _ He g q Hg); [right; by eexists | by left].
Qed.

Lemma used_ext T s T' s' p : space_ext T s T' s' -> used T s p -> used T' s' p.
Proof.
  intros He (Hp & Hf & HT). split_and!.
  - by rewrite (se_limit _ _ _ _ He).
  - intros Hin. by apply Hf, (se_free _ _ _ _ He).
  - destruct (T' !! p) as [q|] eqn:E; [| done]. destruct (se_new _ _ _ _ He p q E); [congruence | done].
Qed.

Lemma space_ext_trans T1 s1 T2 s2 T3 s3 :
  space_ext T1 s1 T2 s2 -> space_ext T2 s2 T3 s3 -> space_ext T1 s1 T3 s3.
Proof.
  intros H12 H23. split.
  - transitivity T2; [apply H12 | apply H23].
  - eapply same_config_trans; [apply H12 | apply H23].
  - intros g q Hg. destruct (se_new _ _ _ _ H23 g q Hg) as [Hg2|Hg2]; [by apply (se_new _ _ _ _ H12) |].
    right. by apply (se_free _ _ _ _ H12).
  - intros x Hx. rewrite (se_mem _ _ _ _ H23), (se_mem _ _ _ _ H12); [done | done |]. by eapply kernel_byte_ext.
  - intros p j Hp Hj. rewrite <- (se_used _ _ _ _ H12 p j Hp Hj), <- (se_hhdm _ _ _ _ H12).
    apply (se_used _ _ _ _ H23); [by eapply used_ext | done].
Qed.

(** The direct map of a used frame, apart from that of every other frame. *)
Lemma used_frame T s p : pt_wf T s -> used T s p -> table_frame (hhdm_offset s) p.
Proof. intros Hwf (Hp & _). by eapply free_frame. Qed.

Lemma used_range T s p : pt_wf T s -> used T s p ->
  0 < p /\ 0 <= hhdm_offset s /\ p + hhdm_offset s + 4096 <= 2 ^ 64.
Proof.
  intros Hwf Hp. destruct (used_frame T s p Hwf Hp) as (? & ? & ? & ?). pose proof (wf_hhdm _ _ Hwf). lia.
Qed.

Lemma frame_outside T s p g j : table_frame (hhdm_offset s) p -> table_frame (hhdm_offset s) g -> p <> g ->
  0 <= j < 4096 -> outside s g (p + hhdm_offset s + j).
Proof. intros Hp Hg Hne Hj. pose proof (frames_apart _ _ _ Hp Hg Hne). unfold outside. lia. Qed.

Lemma used_outside T s p g j :
  pt_wf T s -> used T s p -> g ∈ pa_free_pages (pt_alloc s) \/ is_Some (T !! g) -> 0 <= j < 4096 ->
  outside s g (p + hhdm_offset s + j).
Proof.
  intros Hwf Hp Hg Hj. pose proof (used_frame T s p Hwf Hp) as Hpf. destruct Hp as (_ & Hfree & HT).
  apply (frame_outside T); [done | | | done].
  - destruct Hg as [Hg|[q Hg]]; [| by apply (wf_frame _ _ Hwf g q)].
    apply (free_frame T s g Hwf). apply pa_free_frames; [apply (wf_alloc _ _ Hwf) | done].
  - intros ->. destruct Hg as [Hg|[q Hg]]; [done | congruence].
Qed.

(** Memory that differs only outside the tables leads to the same places. *)
Lemma same_tables T s m :
  pt_wf T s ->
  (forall g q x, T !! g = Some q -> g + hhdm_offset s <= x < g + hhdm_offset s + 4096 -> load8 m x = load8 (pt_mem s) x) ->
  pt_wf T (with_mem m s) /\
  forall r va, T !! r = Some [] -> s_walk (with_mem m s) r va = s_walk s r va.
Proof.
  intros Hwf Hm.
  assert (Hent : forall f q i, T !! f = Some q -> 0 <= i < 512 ->
    ent m (hhdm_offset s) f i = ent (pt_mem s) (hhdm_offset s) f i).
  { intros f q i Hf Hi. unfold ent. apply load_le_ext. intros x Hx. apply (Hm f q); [done | lia]. }
  assert (Hsame : same_kinds T (pt_mem s) m (hhdm_offset s)) by (intros f q i Hf _ Hi; by rewrite (Hent f q)).
  split.
  - split; [apply (wf_alloc _ _ Hwf) | apply (wf_ready _ _ Hwf) | apply (wf_hhdm _ _ Hwf) | apply (wf_frame _ _ Hwf) |].
    apply (tree_ok_same T (pt_mem s)); [apply (wf_tree _ _ Hwf) | done].
  - intros r va Hr. apply (walk_same T); [apply (wf_tree _ _ Hwf) | done | done |].
    intros f l Hs.
    destruct (slot_in_tree T (pt_mem s) (hhdm_offset s) 3 r [] va f l) as (q & Hq & _);
      [apply (wf_tree _ _ Hwf) | done | done | done |].
    apply (Hent f q); [done | apply idx_range].
Qed.

(** Writing to a used frame that was free in the state extended. *)
Lemma fill_used T0 s0 T s p m :
  pt_wf T s -> space_ext T0 s0 T s -> used T s p -> p ∈ pa_free_pages (pt_alloc s0) -> pt_wf T0 s0 ->
  (forall x, 0 <= x < 2 ^ 64 -> outside s p x -> load8 m x = load8 (pt_mem s) x) ->
  pt_wf T (with_mem m s) /\ space_ext T0 s0 T (with_mem m s) /\ used T (with_mem m s) p /\
  forall r va, T !! r = Some [] -> s_walk (with_mem m s) r va = s_walk s r va.
Proof.
  intros Hwf He Hp Hfree Hwf0 Hm. pose proof (used_frame T s p Hwf Hp) as Hpf.
  destruct (same_tables T s m Hwf) as [Hwf' Hw].
  { intros g q x Hg Hx. destruct (wf_frame _ _ Hwf _ _ Hg) as (Hgf & _ & _).
    pose proof Hgf as (? & ? & ? & ?). pose proof (wf_hhdm _ _ Hwf).
    apply Hm; [lia |]. replace x with (g + hhdm_offset s + (x - (g + hhdm_offset s))) by lia.
    apply (frame_outside T); [done | done | | lia]. intros ->. destruct Hp as (_ & _ & HT). congruence. }
  split; [done |]. split; [| split; [exact Hp | done]].
  pose proof (se_hhdm _ _ _ _ He) as Hh. split.
  - apply He.
  - exact (se_config _ _ _ _ He).
  - apply He.
  - intros x Hx. cbn [pt_mem with_mem]. rewrite Hm; [by apply He | apply Hx |].
    unfold outside. rewrite Hh. apply Hx. by left.
  - intros q j Hq Hj. cbn [pt_mem with_mem]. rewrite Hm; [by apply (se_used _ _ _ _ He) | |].
    + pose proof (used_range T0 s0 q Hwf0 Hq). lia.
    + unfold outside. rewrite Hh. apply (used_outside T0 s0 q p j Hwf0 Hq); [by left | done].
Qed.

(** ** Mapping a fresh page *)

Definition leaf_bits (writable : bool) : Z := if writable then 7 else 5.

(** The result of allocating a page and mapping it at [va]; when it fails, the
    page has been given back. *)
Definition fresh_mapped T s (root va p : Z) (writable : bool) T' s' : Prop :=
  pt_wf T' s' /\ space_ext T s T' s' /\ p ∈ pa_free_pages (pt_alloc s) /\ used T' s' p /\
  (forall r va', T !! r = Some [] -> page_of va' <> page_of va -> s_walk s' r va' = s_walk s r va') /\
  (forall va', page_of va' = page_of va -> s_walk s' root va' = Some (p + leaf_bits writable, O)).

Definition not_mapped T s T' s' : Prop :=
  pt_wf T' s' /\ space_ext T s T' s' /\ (forall r va', T !! r = Some [] -> s_walk s' r va' = s_walk s r va').

Lemma alloc_ext T s a p :
  pt_wf T s -> pa_ok a -> pa_limit a = pa_limit (pt_alloc s) ->
  pa_free_pages a = pa_free_pages (pt_alloc s) ∖ {[p]} -> pt_wf T (with_alloc a s).
Proof.
  intros Hwf Hok Hlim Hfr. split; [exact Hok | apply (wf_ready _ _ Hwf) | | | apply (wf_tree _ _ Hwf)].
  - change (0 <= hhdm_offset s /\ hhdm_offset s + pa_limit a <= 2 ^ 64). rewrite Hlim. apply (wf_hhdm _ _ Hwf).
  - intros f q Hf. destruct (wf_frame _ _ Hwf f q Hf) as (? & ? & ?). split_and!; [done | | done].
    change (f ∉ pa_free_pages a). rewrite Hfr. set_solver.
Qed.

Lemma grow_ext T s a p T' s' :
  pt_wf T s -> p ∈ pa_free_pages (pt_alloc s) -> pa_limit a = pa_limit (pt_alloc s) ->
  pa_free_pages a = pa_free_pages (pt_alloc s) ∖ {[p]} ->
  T ⊆ T' -> same_config (with_alloc a s) s' -> tables_grow T (with_alloc a s) T' s' ->
  space_ext T s T' s' /\ (page_frame (pa_limit (pt_alloc s)) p -> used T' s' p).
Proof.
  intros Hwf Hp Hlim Hfr Hsub (C1 & C2 & C3 & C4 & C5 & C6 & C7 & C8) (N & _ & M).
  change (pt_alloc (with_alloc a s)) with a in *. rewrite Hfr in *. change (hhdm_offset (with_alloc a s)) with (hhdm_offset s) in *.
  assert (HT' : forall g, is_Some (T' !! g) -> g ∈ pa_free_pages (pt_alloc s) \/ is_Some (T !! g)).
  { intros g [q Hg]. destruct (N g q Hg); [right; by eexists | left; set_solver]. }
  split; [split |].
  - done.
  - split_and!; try done; [congruence | set_solver].
  - intros g q Hg. destruct (N g q Hg); [by left | right; set_solver].
  - intros x [Hx Hk]. apply M; [done |]. intros g q Hg. apply Hk, HT'. by eexists.
  - intros q j Hq Hj. apply M; [pose proof (used_range T s q Hwf Hq); lia |].
    intros g r Hg. apply (used_outside T s q g j Hwf Hq); [apply HT'; by eexists | done].
  - intros Hpf. split_and!; [by rewrite C7, Hlim | set_solver |].
    destruct (T' !! p) as [q|] eqn:E; [| done]. destruct (N p q E) as [E2|E2]; [| set_solver].
    by destruct (wf_frame _ _ Hwf p q E2) as (_ & [] & _).
Qed.

Lemma map_fresh_spec T s root va writable :
  pt_wf T s -> T !! root = Some [] ->
  let '(s1, p) := alloc_page s in
  (p = NULL /\ s1 = s /\ pa_free_pages (pt_alloc s) = ∅) \/
  (p <> NULL /\ pt_mem s1 = pt_mem s /\
   let '(s2, ok) := page_table_map_user (root + hhdm_offset s) va p writable s1 in
   exists T', if ok then fresh_mapped T s root va p writable T' s2 else not_mapped T s T' (free_page p s2)).
Proof.
  intros Hwf Hr. unfold alloc_page. destruct (pa_alloc_page (pt_alloc s)) as [a p] eqn:Ea.
  destruct (pa_alloc_cases _ _ _ (wf_alloc _ _ Hwf) Ea) as [(-> & -> & He) | (Hp0 & Hpf & Hpp & Hok & Hfr & Hlim)].
  { left. split_and!; [done | by destruct s | done]. }
  right. split; [done |]. split; [done |]. pose proof (alloc_ext T s a p Hwf Hok Hlim Hfr) as Hwf1.
  destruct (page_table_map_user (root + hhdm_offset s) va p writable (with_alloc a s)) as [s2 ok] eqn:Em.
  pose proof Hpp as (Hp4 & Hpos & Hple). unfold PAGE_SIZE in *. pose proof (pa_limit_ok _ (wf_alloc _ _ Hwf)).
  destruct (map_user_spec T (with_alloc a s) root va p writable s2 ok Hwf1 Hr Hp4 ltac:(lia) Em)
    as (T' & Hwf2 & Hsub & Hcfg & Hgrow & Hother & Hres).
  destruct (grow_ext T s a p T' s2 Hwf Hpf Hlim Hfr Hsub Hcfg Hgrow) as [Hext Hused]. specialize (Hused Hpp).
  exists T'. destruct ok.
  - split_and!; try done. intros va' Hva. unfold leaf_bits. by apply Hres.
  - destruct Hused as (Hpl & Hpn & HpT).
    destruct (pa_free_spec (pt_alloc s2) p (wf_alloc _ _ Hwf2) Hpl) as (Fok & Ffr & Fl).
    split_and!; [| | done].
    + split; [exact Fok | apply (wf_ready _ _ Hwf2) | | | apply (wf_tree _ _ Hwf2)].
      * change (0 <= hhdm_offset s2 /\ hhdm_offset s2 + pa_limit (pa_free_page p (pt_alloc s2)) <= 2 ^ 64).
        rewrite Fl. apply (wf_hhdm _ _ Hwf2).
      * intros f q Hf. destruct (wf_frame _ _ Hwf2 f q Hf) as (? & ? & ?). split_and!; [done | | done].
        change (f ∉ pa_free_pages (pa_free_page p (pt_alloc s2))). rewrite Ffr. set_solver.
    + destruct Hext as [E1 (C1 & C2 & C3 & C4 & C5 & C6 & C7 & C8) E3 E4 E5]. split; try done.
      split_and!; try done; change (pt_alloc (free_page p s2)) with (pa_free_page p (pt_alloc s2)).
      * congruence.
      * rewrite Ffr. set_solver.
Qed.
End space.

(** ** New address spaces and process pages *)
Section create.
Context {A : Type} `{PageAllocatorLaws A}.
Implicit Types (s : pt_state A) (T : gmap Z (list Z)).

(** What [page_table_create] does to memory: the copy of the kernel's top table. *)
Lemma create_bytes T s kroot p x :
  pt_wf T s -> table_frame (hhdm_offset s) p -> table_frame (hhdm_offset s) kroot -> p <> kroot ->
  0 <= x < 2 ^ 64 -> outside s p x ->
  load8 (k_memcpy (p + hhdm_offset s) (kroot + hhdm_offset s) PAGE_SIZE
          (k_memset (p + hhdm_offset s) 0 PAGE_SIZE (pt_mem s))) x = load8 (pt_mem s) x.
Proof.
  intros Hwf Hp Hk Hne Hx Ho. pose proof (frames_apart _ _ _ Hp Hk Hne). pose proof (wf_hhdm _ _ Hwf).
  destruct Hp as (? & ? & ? & ?), Hk as (? & ? & ? & ?). unfold outside, PAGE_SIZE in *.
  rewrite memcpy_load by lia. rewrite decide_False by lia. rewrite memset_load by lia. by rewrite decide_False by lia.
Qed.

(** A new root, or nothing changed. *)
Lemma create_space_spec T s kroot :
  pt_wf T s -> T !! kroot = Some [] -> kernel_pml4 s = kroot + hhdm_offset s ->
  let '(s', table, physical) := page_table_create s in
  (table = NULL /\ physical = None /\ s' = s) \/
  exists p, physical = Some p /\ table = p + hhdm_offset s /\ table <> NULL /\ p <> NULL /\ T !! p = None /\
    p ∈ pa_free_pages (pt_alloc s) /\
    pt_wf (<[p := []]> T) s' /\ space_ext T s (<[p := []]> T) s' /\
    (forall r va, T !! r = Some [] -> s_walk s' r va = s_walk s r va) /\
    (forall va, s_walk s' p va = s_walk s kroot va).
Proof.
  intros Hwf Hk Hker. unfold page_table_create, alloc_page.
  destruct (pa_alloc_page (pt_alloc s)) as [a p] eqn:Ea.
  destruct (pa_alloc_cases _ _ _ (wf_alloc _ _ Hwf) Ea)
    as [(-> & -> & He) | (Hp0 & Hpf & Hpp & Hok & Hfr & Hlim)].
  { cbn. left. split_and!; try done. by destruct s. }
  destruct (Z.eqb_spec p NULL) as [|_]; [done |].
  pose proof (free_frame T s p Hwf Hpp) as Hpt. destruct (p2v_frame T s p Hwf Hpt) as [Hv Hvn].
  unfold page_table_physical_to_virtual in *; cbn [with_alloc hhdm_offset]. rewrite Hv.
  destruct (Z.eqb_spec (p + hhdm_offset s) NULL); [done |].
  pose proof (frame_virtual T s kroot _ Hwf Hk) as Hkn. cbn [kernel_pml4 with_mem with_alloc]. rewrite Hker.
  destruct (Z.eqb_spec (kroot + hhdm_offset s) NULL); [done |]. cbn [negb].
  right. exists p. destruct (clone_root T s kroot p a Hwf Hk Hpp Hpf Hok Hlim Hfr) as (HpT & Hwf' & Hw1 & Hw2).
  destruct (wf_frame _ _ Hwf _ _ Hk) as (Hkf & _ & _). assert (Hpk : p <> kroot) by congruence.
  do 6 (split; [done |]). split; [exact Hwf' |]. split; [| by split]. split.
  - by apply insert_subseteq.
  - split_and!; try reflexivity; cbn; [lia | rewrite Hfr; set_solver].
  - intros g q. rewrite lookup_insert. case_decide; [subst; by right | by left].
  - intros x [Hx Hkb]. apply (create_bytes T); try done. apply Hkb. by left.
  - intros q j Hq Hj. pose proof (used_range T s q Hwf Hq). apply (create_bytes T); try done; [lia |].
    apply (used_outside T s q p j Hwf Hq); [by left | done].
Qed.

Lemma map_page_result T s root va :
  pt_wf T s -> T !! root = Some [] ->
  let '(s1, p) := alloc_page s in
  if p =? NULL then not_mapped T s T s1
  else let '(s2, ok) := page_table_map_user (root + hhdm_offset s) va p true s1 in
       exists T', if ok then fresh_mapped T s root va p true T' s2 else not_mapped T s T' (free_page p s2).
Proof.
  intros Hwf Hr. pose proof (map_fresh_spec T s root va true Hwf Hr) as Hm. destruct (alloc_page s) as [s1 p].
  destruct Hm as [(-> & -> & _)|(Hp & _ & Hm)]; [split_and!; [done | apply space_ext_refl | done] |].
  by destruct (Z.eqb_spec p NULL).
Qed.
End create.

(** ** What operations on one address space leave alone

    From [s] to [s'] the tables [T] of the address space [root] only grew, by pages
    that were free; the frames outside them keep their bytes; and every translation
    of [root] is as before or leads to a frame that was free. *)
Section steps.
Context {A : Type} `{PageAllocatorLaws A}.
Implicit Types (s : pt_state A) (T : gmap Z (list Z)).

Record space_step T s (root : Z) T' s' : Prop := {
  st_wf : pt_wf T' s';
  st_sub : T ⊆ T';
  st_config : same_config s s';
  st_new g q : T' !! g = Some q -> T !! g = Some q \/ g ∈ pa_free_pages (pt_alloc s);
  st_used f j : used T s f -> 0 <= j < 4096 ->
    load8 (pt_mem s') (f + hhdm_offset s + j) = load8 (pt_mem s) (f + hhdm_offset s + j);
  st_leaf va : s_walk s' root va = s_walk s root va \/
    exists f w, f ∈ pa_free_pages (pt_alloc s) /\ used T' s' f /\ s_walk s' root va = Some (f + leaf_bits w, O);
}.

Lemma step_still_used T s root T' s' f : space_step T s root T' s' -> used T s f -> used T' s' f.
Proof.
  intros [_ _ (_ & _ & _ & _ & _ & _ & Hl & Hfree) Hnew _ _] (Hp & Hf & HT). split_and!.
  - by rewrite Hl.
  - intros Hin. by apply Hf, Hfree.
  - destruct (T' !! f) as [q|] eqn:E; [| done]. destruct (Hnew f q E); [congruence | done].
Qed.

Lemma step_refl T s root : pt_wf T s -> space_step T s root T s.
Proof.
  intros Hwf. split; [done | done | apply same_config_refl | intros g q Hg; by left | done | intros va; by left].
Qed.

Lemma step_trans T1 s1 root T2 s2 T3 s3 :
  space_step T1 s1 root T2 s2 -> space_step T2 s2 root T3 s3 -> space_step T1 s1 root T3 s3.
Proof.
  intros H12 H23. pose proof (st_config _ _ _ _ _ H12) as Hc.
  assert (Hsub : pa_free_pages (pt_alloc s2) ⊆ pa_free_pages (pt_alloc s1)) by apply Hc. split.
  - apply H23.
  - transitivity T2; [apply H12 | apply H23].
  - eapply same_config_trans; [exact Hc | apply H23].
  - intros g q Hg. destruct (st_new _ _ _ _ _ H23 g q Hg) as [Hg2|Hg2]; [by apply (st_new _ _ _ _ _ H12) | right; auto].
  - intros f j Hf Hj. rewrite <- (st_used _ _ _ _ _ H12 f j Hf Hj), <- (proj1 Hc).
    apply (st_used _ _ _ _ _ H23); [by eapply step_still_used | done].
  - intros va. destruct (st_leaf _ _ _ _ _ H23 va) as [E|(f & w & Hf & Hu & E)].
    + destruct (st_leaf _ _ _ _ _ H12 va) as [E2|(f & w & Hf & Hu & E2)]; [left; congruence | right].
      exists f, w. split; [done |]. split; [by eapply step_still_used | congruence].
    + right. exists f, w. split_and!; [auto | done | done].
Qed.

Lemma ext_step T s root T' s' : pt_wf T' s' -> space_ext T s T' s' ->
  (forall va, s_walk s' root va = s_walk s root va \/
    exists f w, f ∈ pa_free_pages (pt_alloc s) /\ used T' s' f /\ s_walk s' root va = Some (f + leaf_bits w, O)) ->
  space_step T s root T' s'.
Proof. intros Hwf [E1 E2 E3 _ E5] Hl. by split. Qed.

Lemma fresh_step T s root va f w T' s' : T !! root = Some [] ->
  fresh_mapped T s root va f w T' s' -> space_step T s root T' s'.
Proof.
  intros Hr (Hwf & He & Hf & Hu & Ho & Hs). apply ext_step; [done | done |]. intros va'.
  destruct (decide (page_of va' = page_of va)) as [E|Hne]; [right; exists f, w; split_and!; auto | left; auto].
Qed.

Lemma not_mapped_step T s root T' s' : T !! root = Some [] -> not_mapped T s T' s' -> space_step T s root T' s'.
Proof. intros Hr (Hwf & He & Ho). apply ext_step; [done | done |]. intros va. left. auto. Qed.
End steps.
