(* ===== verification/ProcessMemory.v ===== *)
(** * The memory of a process: segments, stack and heap pages

    Correctness of [map_segment] ([process_loader.c]) and [map_process_page]
    ([process_memory.c], [process_heap.c]) over the relations of [UserPages.v]. *)
From S2P Require Import Prelude PageAllocator Memory Elf KAlloc System PageTable PageTableSpec UserPages Process.
Import Mem Process.
#[local] Open Scope Z_scope.

#[local] Opaque k_memcpy k_memset.

(** ** One page of a segment *)

(** Memories that agree on the program header at [ph]. *)
Definition same_header (ph : Z) (m m' : mem) : Prop := forall x, ph <= x < ph + 56 -> load8 m' x = load8 m x.

Lemma header_fields ph m m' : same_header ph m m' ->
  Elf.p_type m' ph = Elf.p_type m ph /\ Elf.p_flags m' ph = Elf.p_flags m ph /\ Elf.p_offset m' ph = Elf.p_offset m ph /\
  Elf.p_vaddr m' ph = Elf.p_vaddr m ph /\ Elf.p_filesz m' ph = Elf.p_filesz m ph /\ Elf.p_memsz m' ph = Elf.p_memsz m ph.
Proof.
  intros Hs.
  assert (H : forall n o, 0 <= o -> o + Z.of_nat n <= 56 -> load_le n m' (ph + o) = load_le n m (ph + o))
    by (intros n o Ho Hn; apply load_le_ext; intros x Hx; apply Hs; lia).
  pose proof (H 4%nat 0 ltac:(lia) ltac:(lia)) as H0. rewrite Z.add_0_r in H0.
  split_and!; [exact H0 | | | | |]; apply H; lia.
Qed.

Section fill.
Variables (m : mem) (ph elf_base po pv : Z).
Let filesz := Elf.p_filesz m ph.
Let memsz := Elf.p_memsz m ph.
Let src := elf_base + Elf.p_offset m ph.
Hypothesis Hpo : 0 <= po < memsz.
Hypothesis Hsz : 0 <= filesz <= memsz.
Hypothesis Hmem : memsz < 2 ^ 64.
Hypothesis Hpv : 0 <= pv /\ pv + 4096 <= 2 ^ 64.
Hypothesis Hph : forall x, ph <= x < ph + 56 -> 0 <= x < 2 ^ 64 /\ (x < pv \/ pv + 4096 <= x).
Hypothesis Hsrc : forall k, 0 <= k < filesz -> 0 <= src + k < 2 ^ 64 /\ (src + k < pv \/ pv + 4096 <= src + k).

(** The copy of the part of the file that the page holds. *)
Lemma fill_copy :
  let n := if po <? filesz then Z.min (u64 (filesz - po)) 4096 else 0 in
  let m1 := if n >? 0 then k_memcpy pv (u64 (src + po)) n m else m in
  n = Z.max 0 (Z.min (filesz - po) 4096) /\
  forall x, 0 <= x < 2 ^ 64 ->
    load8 m1 x = if decide (pv <= x < pv + n) then load8 m (src + po + (x - pv)) else load8 m x.
Proof.
  cbv zeta. rewrite Z.gtb_ltb. destruct (Z.ltb_spec po filesz) as [Hlt|].
  2: { split; [lia |]. intros x Hx. cbn. by rewrite decide_False by lia. }
  rewrite (u64_id (filesz - po)) by lia. split; [lia |]. intros x Hx.
  destruct (Z.ltb_spec 0 (Z.min (filesz - po) 4096)); [| lia].
  pose proof (Hsrc po ltac:(lia)) as [? Hd1].
  pose proof (Hsrc (po + Z.min (filesz - po) 4096 - 1) ltac:(lia)) as [? Hd2].
  rewrite (u64_id (src + po)) by lia. by rewrite memcpy_load by lia.
Qed.

Lemma fill_page_spec :
  let m' := fill_page ph elf_base po pv m in
  (forall x, 0 <= x < 2 ^ 64 -> x < pv \/ pv + 4096 <= x -> load8 m' x = load8 m x) /\
  (forall j, 0 <= j < 4096 -> po + j < memsz ->
     load8 m' (pv + j) = if po + j <? filesz then load8 m (src + (po + j)) else 0).
Proof.
  destruct fill_copy as [Hn Hcopy]. cbv zeta in *. unfold fill_page, PAGE_SIZE.
  fold filesz. fold src. set (n := if po <? filesz then _ else 0) in *. set (m1 := if n >? 0 then _ else m) in *.
  assert (Hsame : same_header ph m m1).
  { intros x Hx. destruct (Hph x Hx). rewrite Hcopy, decide_False by lia. done. }
  destruct (header_fields ph m m1 Hsame) as (_ & _ & _ & _ & _ & Hm). rewrite Hm. fold memsz.
  destruct (Z.ltb_spec po memsz); [| lia]. rewrite u64_id by lia.
  clearbody m1. subst n. rewrite Hn in *. clear Hn. set (n := Z.max 0 (Z.min (filesz - po) 4096)) in *.
  rewrite Z.gtb_ltb. destruct (Z.ltb_spec n (Z.min (memsz - po) 4096)).
  - rewrite u64_id by lia. split.
    + intros x Hx Hd. rewrite memset_load, decide_False by lia. by rewrite Hcopy, decide_False by lia.
    + intros j Hj Hpj. rewrite memset_load by lia. destruct (Z.ltb_spec (po + j) filesz).
      * rewrite decide_False, Hcopy, decide_True by lia. f_equal. lia.
      * by rewrite decide_True by lia.
  - split.
    + intros x Hx Hd. by rewrite Hcopy, decide_False by lia.
    + intros j Hj Hpj. destruct (Z.ltb_spec (po + j) filesz); [| lia].
      rewrite Hcopy, decide_True by lia. f_equal. lia.
Qed.
End fill.

(** ** The loop over the pages *)
Lemma page_of_small va : 0 <= va < 2 ^ 48 -> page_of va = va / 4096.
Proof. intros. unfold page_of. apply Z.mod_small. word_lia. Qed.

Section segment.
Context {A : Type} `{PageAllocatorLaws A}.
Variables (T0 : gmap Z (list Z)) (s0 : pt_state A) (root ph elf_base : Z).
Let m0 := pt_mem s0.
Let vaddr := Elf.p_vaddr m0 ph.
Let filesz := Elf.p_filesz m0 ph.
Let memsz := Elf.p_memsz m0 ph.
Let src := elf_base + Elf.p_offset m0 ph.
Let writable := negb (Z.land (Elf.p_flags m0 ph) Elf.PF_W =? 0).

(** The byte of the segment at offset [o]. *)
Definition seg_byte (o : Z) : Z := if o <? filesz then load8 m0 (src + o) else 0.

(** A segment that fits the user half of the address space, its pages aligned,
    whose header and file bytes are in kernel memory. *)
Record segment_ok : Prop := {
  so_aligned : vaddr mod 4096 = 0;
  so_sizes : 0 <= filesz <= memsz;
  so_user : vaddr + memsz <= 2 ^ 47;
  so_header x : ph <= x < ph + 56 -> kernel_byte T0 s0 x;
  so_source k : 0 <= k < filesz -> kernel_byte T0 s0 (src + k);
}.

Hypothesis Hwf0 : pt_wf T0 s0.
Hypothesis Hroot : T0 !! root = Some [].
Hypothesis Hok : segment_ok.

Lemma vaddr_nonneg : 0 <= vaddr.
Proof. apply (load64_range m0 (ph + 16)). Qed.

Definition page_va (i : Z) : Z := vaddr + i * 4096.

(** Page [k] of the segment is mapped to a frame that holds its bytes. *)
Definition page_loaded (T : gmap Z (list Z)) (s : pt_state A) (k : Z) : Prop :=
  exists p, used T s p /\ p ∈ pa_free_pages (pt_alloc s0) /\
    (forall va, page_of va = page_of (page_va k) -> s_walk s root va = Some (p + leaf_bits writable, O)) /\
    (forall j, 0 <= j < 4096 -> k * 4096 + j < memsz ->
       load8 (pt_mem s) (p + hhdm_offset s + j) = seg_byte (k * 4096 + j)).

Record mapped T (s : pt_state A) (i : Z) : Prop := {
  mp_wf : pt_wf T s;
  mp_ext : space_ext T0 s0 T s;
  mp_other r va : T0 !! r = Some [] -> (forall k, 0 <= k < i -> page_of va <> page_of (page_va k)) ->
    s_walk s r va = s_walk s0 r va;
  mp_pages k : 0 <= k < i -> page_loaded T s k;
}.

Lemma mapped_header T s i : mapped T s i -> same_header ph m0 (pt_mem s).
Proof. intros Hm x Hx. apply (se_mem _ _ _ _ (mp_ext _ _ _ Hm)). by apply (so_header Hok). Qed.

Lemma page_va_distinct i k : 0 <= i -> 0 <= k -> i * 4096 < memsz -> k * 4096 < memsz -> i <> k ->
  page_of (page_va k) <> page_of (page_va i).
Proof.
  intros Hi Hk Hi' Hk' Hne. pose proof (so_aligned Hok). pose proof (so_user Hok). pose proof vaddr_nonneg.
  unfold page_va. rewrite !page_of_small by lia. word_lia.
Qed.

(** Mapping and filling page [i] keeps the pages before it. *)
Lemma mapped_step T s i p T1 s1 m :
  mapped T s i -> 0 <= i -> i * 4096 < memsz ->
  fresh_mapped T s root (page_va i) p writable T1 s1 ->
  (forall x, 0 <= x < 2 ^ 64 -> outside s1 p x -> load8 m x = load8 (pt_mem s1) x) ->
  (forall j, 0 <= j < 4096 -> i * 4096 + j < memsz -> load8 m (p + hhdm_offset s1 + j) = seg_byte (i * 4096 + j)) ->
  mapped T1 (with_mem m s1) (i + 1).
Proof.
  intros Hm Hi Hlt (Hwf1 & Hext1 & Hfree & Hused & Hother & Hself) Hout Hbytes.
  pose proof (mp_ext _ _ _ Hm) as Hext.
  pose proof (space_ext_trans _ _ _ _ _ _ Hext Hext1) as Hext01.
  assert (Hp0 : p ∈ pa_free_pages (pt_alloc s0)) by (by apply (se_free _ _ _ _ Hext)).
  destruct (fill_used T0 s0 T1 s1 p m Hwf1 Hext01 Hused Hp0 Hwf0 Hout) as (Hwf2 & Hext02 & Hused2 & Hwalk).
  destruct (fill_used T s T1 s1 p m Hwf1 Hext1 Hused Hfree (mp_wf _ _ _ Hm) Hout) as (_ & Hext2 & _ & _).
  assert (HrT : forall r, T0 !! r = Some [] -> T !! r = Some []) by (intros; eapply lookup_weaken; [done | apply Hext]).
  assert (HrT1 : forall r, T0 !! r = Some [] -> T1 !! r = Some []) by (intros; eapply lookup_weaken; [done | apply Hext01]).
  split; [done | done | |].
  - intros r va Hr Hva. rewrite Hwalk by auto. rewrite Hother; [| auto | apply Hva; lia].
    apply (mp_other _ _ _ Hm); [done |]. intros k Hk. apply Hva. lia.
  - intros k Hk. destruct (decide (k = i)) as [->|Hne].
    + exists p. split_and!; try done. intros va Hva. rewrite Hwalk by auto. by apply Hself.
    + destruct (mp_pages _ _ _ Hm k ltac:(lia)) as (q & Hq & Hq0 & Hqw & Hqb). exists q.
      split; [exact (used_ext _ _ _ _ _ Hext2 Hq) |]. split; [done |]. split.
      * intros va Hva. rewrite Hwalk by auto. rewrite Hother; [by apply Hqw | auto |]. rewrite Hva.
        apply page_va_distinct; lia.
      * intros j Hj Hjm. rewrite <- (Hqb j Hj Hjm), <- (se_used _ _ _ _ Hext2 q j Hq Hj).
        by rewrite (se_hhdm _ _ _ _ Hext2).
Qed.

(** What filling the frame of page [i] writes. *)
Lemma fill_mapped T s i p T1 s1 :
  mapped T s i -> 0 <= i -> i * 4096 < memsz ->
  fresh_mapped T s root (page_va i) p writable T1 s1 ->
  let m := fill_page ph elf_base (i * 4096) (p + hhdm_offset s1) (pt_mem s1) in
  (forall x, 0 <= x < 2 ^ 64 -> outside s1 p x -> load8 m x = load8 (pt_mem s1) x) /\
  (forall j, 0 <= j < 4096 -> i * 4096 + j < memsz -> load8 m (p + hhdm_offset s1 + j) = seg_byte (i * 4096 + j)).
Proof.
  intros Hm Hi Hlt (Hwf1 & Hext1 & Hfree & Hused & _).
  pose proof (space_ext_trans _ _ _ _ _ _ (mp_ext _ _ _ Hm) Hext1) as Hext.
  assert (Hp0 : p ∈ pa_free_pages (pt_alloc s0)) by (by apply (se_free _ _ _ _ (mp_ext _ _ _ Hm))).
  assert (Hkb : forall x, kernel_byte T0 s0 x -> 0 <= x < 2 ^ 64 /\
    (x < p + hhdm_offset s1 \/ p + hhdm_offset s1 + 4096 <= x) /\ load8 (pt_mem s1) x = load8 m0 x).
  { intros x Hx. split; [apply Hx |]. split; [| by apply (se_mem _ _ _ _ Hext)].
    rewrite (se_hhdm _ _ _ _ Hext). apply Hx. by left. }
  assert (Hsame : same_header ph m0 (pt_mem s1)) by (intros x Hx; by apply Hkb, (so_header Hok)).
  destruct (header_fields _ _ _ Hsame) as (_ & _ & Eo & _ & Ef & Em).
  pose proof (used_range _ _ _ Hwf1 Hused) as (? & ? & ?). pose proof (so_sizes Hok). pose proof (so_user Hok). pose proof vaddr_nonneg.
  destruct (fill_page_spec (pt_mem s1) ph elf_base (i * 4096) (p + hhdm_offset s1)) as [F1 F2];
    rewrite ?Ef, ?Em, ?Eo; fold filesz memsz src.
  - lia.
  - done.
  - lia.
  - lia.
  - intros x Hx. destruct (Hkb x) as (? & ? & _); [by apply (so_header Hok) | done].
  - intros k Hk. destruct (Hkb (src + k)) as (? & ? & _); [by apply (so_source Hok) | done].
  - rewrite ?Ef, ?Em, ?Eo in F2. fold filesz memsz src in F2. split; [exact F1 |].
    intros j Hj Hjm. rewrite F2 by done. unfold seg_byte. destruct (Z.ltb_spec (i * 4096 + j) filesz); [| done].
    apply Hkb, (so_source Hok). lia.
Qed.

(** The loop from page [i] on. *)
Lemma map_segment_loop_spec n : forall T s i,
  mapped T s i -> 0 <= i -> (i + Z.of_nat n - 1) * 4096 < memsz ->
  exists T' s' st, map_segment_loop n i (root + hhdm_offset s0) ph elf_base s = (s', st) /\
    ((st = KERNEL_SUCCESS /\ mapped T' s' (i + Z.of_nat n)) \/
     (st = KERNEL_ENOMEM /\ exists j, i <= j < i + Z.of_nat n /\ mapped T' s' j)).
Proof.
  induction n as [|n IH]; intros T s i Hm Hi Hlt.
  { exists T, s, KERNEL_SUCCESS. split; [done |]. left. by rewrite Z.add_0_r. }
  cbn [map_segment_loop]. pose proof (so_user Hok). pose proof vaddr_nonneg. pose proof (so_aligned Hok).
  pose proof (mp_ext _ _ _ Hm) as Hext.
  assert (Hr : T !! root = Some []) by (eapply lookup_weaken; [done | apply Hext]).
  pose proof (map_fresh_spec T s root (page_va i) writable (mp_wf _ _ _ Hm) Hr) as Hmap.
  destruct (alloc_page s) as [s1 p]. destruct Hmap as [(-> & -> & _)|(Hp0 & Hms & Hmap)].
  { exists T, s, KERNEL_ENOMEM. split; [done |]. right. split; [done |]. exists i. split; [lia | done]. }
  destruct (Z.eqb_spec p NULL); [done |]. rewrite Hms.
  destruct (header_fields _ _ _ (mapped_header _ _ _ Hm)) as (_ & Efl & _ & Eva & _ & _).
  rewrite Efl, Eva. fold vaddr. fold writable. unfold PAGE_SIZE.
  rewrite (u64_id (vaddr + i * 4096)) by lia. rewrite (u64_id (i * 4096)) by lia.
  change (vaddr + i * 4096) with (page_va i).
  rewrite (se_hhdm _ _ _ _ Hext) in Hmap.
  destruct (page_table_map_user (root + hhdm_offset s0) (page_va i) p writable s1) as [s2 ok].
  destruct Hmap as [T1 Hmap]. destruct ok; cbn [negb].
  - pose proof (fill_mapped T s i p T1 s2 Hm Hi ltac:(lia) Hmap) as [F1 F2].
    pose proof (mapped_step T s i p T1 s2 _ Hm Hi ltac:(lia) Hmap F1 F2) as Hm'.
    destruct Hmap as (Hwf2 & _ & _ & Hused & _). pose proof (used_range _ _ _ Hwf2 Hused).
    unfold page_table_physical_to_virtual. rewrite (u64_id (p + hhdm_offset s2)) by lia.
    destruct (IH _ _ (i + 1) Hm' ltac:(lia) ltac:(lia)) as (T' & s' & st & E & Hr').
    exists T', s', st. split; [exact E |]. destruct Hr' as [[-> ?]|(-> & j & ? & ?)].
    + left. split; [done |]. by replace (i + Z.of_nat (S n)) with (i + 1 + Z.of_nat n) by lia.
    + right. split; [done |]. exists j. split; [lia | done].
  - exists T1, (free_page p s2), KERNEL_ENOMEM. split; [done |]. right. split; [done |].
    exists i. split; [lia |]. destruct Hmap as (Hwf2 & Hext2 & Hw2).
    pose proof (space_ext_trans _ _ _ _ _ _ Hext Hext2) as Hext02. split; [done | done | |].
    + intros r va Hr' Hva. rewrite Hw2 by (eapply lookup_weaken; [done | apply Hext]). by apply (mp_other _ _ _ Hm).
    + intros k Hk. destruct (mp_pages _ _ _ Hm k Hk) as (q & Hq & Hq0 & Hqw & Hqb). exists q.
      split; [exact (used_ext _ _ _ _ _ Hext2 Hq) |]. split; [done |]. split.
      * intros va Hva. rewrite Hw2 by done. by apply Hqw.
      * intros j Hj Hjm. rewrite <- (Hqb j Hj Hjm), <- (se_used _ _ _ _ Hext2 q j Hq Hj). by rewrite (se_hhdm _ _ _ _ Hext2).
Qed.

(** Whatever was mapped, the pages went to frames that were free. *)
Lemma mapped_space_step T s i : mapped T s i -> space_step T0 s0 root T s.
Proof.
  intros Hm. apply ext_step; [apply Hm | apply Hm |]. intros va.
  destruct (find_to 0 i (fun k => page_of va =? page_of (page_va k))) as [k|] eqn:E.
  - apply find_to_Some in E as (Hk & Hp & _). bool_to_prop. right.
    destruct (mp_pages _ _ _ Hm k Hk) as (f & Hu & Hf & Hw & _). exists f, writable. split_and!; auto.
  - left. apply (mp_other _ _ _ Hm); [done |]. intros k Hk.
    pose proof (proj1 (find_to_None 0 i _) E k Hk) as Hn. cbn in Hn. bool_to_prop. done.
Qed.
End segment.

Lemma frame_leaf p writable : p mod 4096 = 0 -> 0 <= p < 2 ^ 52 -> frame_of (p + leaf_bits writable) = p.
Proof.
  intros Hm Hp. unfold leaf_bits. destruct (user_entry_eq p writable Hm Hp) as [<- _].
  unfold user_entry. rewrite frame_of_lor. rewrite (frame_of_frame p) by done. by destruct writable; rewrite Z.lor_0_r.
Qed.

Section segments.
Context {K A : Type} `{KAlloc K} `{PageAllocatorLaws A}.
Implicit Types s : sys K A.

(** The byte of the address space [root] at virtual address [va], through the
    processor's translation. *)
Definition user_byte (s : pt_state A) (root va : Z) : option Z :=
  pa ← mmu_translate (pt_mem s) (hhdm_offset s) root va; Some (load8 (pt_mem s) (pa + hhdm_offset s)).

(** The byte [b] is at [va], in a frame of the process. *)
Definition loaded_at T (s : pt_state A) (root va b : Z) : Prop :=
  exists f writable, used T s f /\ s_walk s root va = Some (f + leaf_bits writable, O) /\
    load8 (pt_mem s) (f + hhdm_offset s + va mod 4096) = b.

Lemma loaded_at_byte T (s : pt_state A) root va b : pt_wf T s -> loaded_at T s root va b -> user_byte s root va = Some b.
Proof.
  intros Hwf (f & w & Hu & Hw & Hb). unfold user_byte, mmu_translate.
  change (mmu_walk (pt_mem s) (hhdm_offset s)) with (s_walk s). rewrite Hw. cbn [mbind option_bind].
  destruct Hu as ((Hp4 & Hp0 & Hpl) & _). pose proof (pa_limit_ok _ (wf_alloc _ _ Hwf)). unfold PAGE_SIZE in *.
  rewrite frame_leaf by lia. change (2 ^ (12 + 9 * Z.of_nat 0)) with 4096. f_equal. rewrite <- Hb. f_equal. lia.
Qed.

(** Later extensions keep it while they do not remap the page. *)
Lemma loaded_at_ext T (s : pt_state A) T' (s' : pt_state A) root va b :
  space_ext T s T' s' -> s_walk s' root va = s_walk s root va -> loaded_at T s root va b -> loaded_at T' s' root va b.
Proof.
  intros He Hw (f & w & Hu & Hwalk & Hb). exists f, w. split; [by eapply used_ext |]. split; [congruence |].
  rewrite (se_hhdm _ _ _ _ He). rewrite <- Hb. apply (se_used _ _ _ _ He); [done | word_lia].
Qed.

Lemma loaded_byte T0 (s0 : pt_state A) root ph elf_base T (s : pt_state A) k :
  segment_ok T0 s0 ph elf_base -> 0 <= k < Elf.p_memsz (pt_mem s0) ph ->
  page_loaded s0 root ph elf_base T s (k / 4096) ->
  loaded_at T s root (Elf.p_vaddr (pt_mem s0) ph + k) (seg_byte s0 ph elf_base k).
Proof.
  intros Hok Hk (p & Hu & _ & Hw & Hb).
  pose proof (so_aligned _ _ _ _ Hok). pose proof (so_user _ _ _ _ Hok). pose proof (vaddr_nonneg s0 ph).
  eexists p, _. split; [done |]. split.
  - apply Hw. unfold page_va. rewrite !page_of_small by word_lia. word_lia.
  - replace ((Elf.p_vaddr (pt_mem s0) ph + k) mod 4096) with (k mod 4096) by word_lia.
    transitivity (seg_byte s0 ph elf_base (k / 4096 * 4096 + k mod 4096)); [| f_equal; word_lia].
    rewrite <- (Hb (k mod 4096)) by word_lia. done.
Qed.

Lemma process_map_segment_spec T s process p root ph elf_base :
  ps s !! process = Some p -> process <> NULL /\ ph <> NULL /\ elf_base <> NULL ->
  page_table p = root + hhdm_offset (pt s) -> pt_wf T (pt s) -> T !! root = Some [] ->
  segment_ok T (pt s) ph elf_base ->
  exists T' pt' st, process_map_segment process ph elf_base s = Some (with_pt pt' s, st) /\
    pt_wf T' pt' /\ space_ext T (pt s) T' pt' /\ space_step T (pt s) root T' pt' /\
    (forall r va, T !! r = Some [] ->
       (forall k, 0 <= k < Elf.p_memsz (kmem s) ph -> page_of va <> page_of (Elf.p_vaddr (kmem s) ph + k)) ->
       s_walk pt' r va = s_walk (pt s) r va) /\
    (st = KERNEL_ENOMEM \/
     (st = KERNEL_SUCCESS /\ forall k, 0 <= k < Elf.p_memsz (kmem s) ph ->
        loaded_at T' pt' root (Elf.p_vaddr (kmem s) ph + k) (seg_byte (pt s) ph elf_base k))).
Proof.
  intros Hp (? & ? & ?) Hroot Hwf Hr Hok. unfold process_map_segment.
  destruct (Z.eqb_spec process NULL), (Z.eqb_spec ph NULL), (Z.eqb_spec elf_base NULL); try done. cbn [orb].
  rewrite Hp. cbn [mbind option_bind]. rewrite Hroot. unfold map_segment, PAGE_SIZE, kmem.
  pose proof (so_sizes _ _ _ _ Hok). pose proof (so_user _ _ _ _ Hok). pose proof (vaddr_nonneg (pt s) ph).
  set (memsz := Elf.p_memsz (pt_mem (pt s)) ph) in *. rewrite u64_id by lia.
  assert (Hm0 : mapped T (pt s) root ph elf_base T (pt s) 0).
  { split; [done | apply space_ext_refl | done |]. intros k Hk. lia. }
  destruct (map_segment_loop_spec T (pt s) root ph elf_base Hwf Hr Hok (Z.to_nat ((memsz + 4096 - 1) / 4096)) T (pt s) 0 Hm0)
    as (T' & pt' & st & E & Hres); [lia | fold memsz; word_lia |].
  rewrite E. exists T', pt', st. split; [done |].
  assert (Hj : exists j, j <= (memsz + 4095) / 4096 /\ mapped T (pt s) root ph elf_base T' pt' j).
  { destruct Hres as [[_ Hm]|(_ & j & Hj & Hm)]; eexists; (split; [| exact Hm]); word_lia. }
  destruct Hj as (j & Hj & Hm).
  split_and!; [apply Hm | apply Hm | by apply (mapped_space_step T (pt s) root ph elf_base Hr T' pt' j) | |].
  - intros r va Hr' Hva. apply (mp_other _ _ _ _ _ _ _ _ Hm); [done |]. intros k Hk.
    unfold page_va. apply Hva. word_lia.
  - destruct Hres as [[-> Hms]|(-> & _)]; [right | by left]. split; [done |]. intros k Hk.
    apply (loaded_byte T (pt s) root ph elf_base T'); [done | done |]. apply (mp_pages _ _ _ _ _ _ _ _ Hms). word_lia.
Qed.
(** [process_map_segment] maps every page of a segment into the process, so
    that the process finds at the segment's virtual addresses the bytes of the file,
    and zeros behind them; no other translation of any address space and no byte of
    other memory changes.  It fails only when a page or a table cannot be had. *)
Theorem process_map_segment_correct T s process p root ph elf_base
    (Hp : ps s !! process = Some p) (Hnn : process <> NULL /\ ph <> NULL /\ elf_base <> NULL)
    (Hroot : page_table p = root + hhdm_offset (pt s)) (Hwf : pt_wf T (pt s)) (Hr : T !! root = Some [])
    (Hok : segment_ok T (pt s) ph elf_base) :
  exists T' pt' st, process_map_segment process ph elf_base s = Some (with_pt pt' s, st) /\
    pt_wf T' pt' /\ space_ext T (pt s) T' pt' /\
    (forall r va, T !! r = Some [] ->
       (forall k, 0 <= k < Elf.p_memsz (kmem s) ph -> page_of va <> page_of (Elf.p_vaddr (kmem s) ph + k)) ->
       s_walk pt' r va = s_walk (pt s) r va) /\
    (st = KERNEL_ENOMEM \/
     (st = KERNEL_SUCCESS /\ forall k, 0 <= k < Elf.p_memsz (kmem s) ph ->
        user_byte pt' root (Elf.p_vaddr (kmem s) ph + k) = Some (seg_byte (pt s) ph elf_base k))).
Proof.
  destruct (process_map_segment_spec T s process p root ph elf_base Hp Hnn Hroot Hwf Hr Hok)
    as (T' & pt' & st & E & Hwf' & He & _ & Ho & Hres). exists T', pt', st. split_and!; try done.
  destruct Hres as [->|[-> Hb]]; [by left | right]. split; [done |]. intros k Hk.
  apply (loaded_at_byte T'); [done | by apply Hb].
Qed.
End segments.
