(* ===== verification/ProcessSpec.v ===== *)
(** * Creating processes

    [process_create] on every path: a process with its own address space, stack
    page, heap page, empty descriptor table and a ready main task, first in the
    list of processes; or NULL. *)
From S2P Require Import Prelude PageAllocator Memory KAlloc Fd Elf TaskQueue PageTable PageTableSpec System Scheduler SchedulerSpec SchedulerProps UserPages Process.
Import Mem Str Task Scheduler Process.
#[local] Open Scope Z_scope.

#[local] Opaque k_memcpy k_memset.

Section create.
Context {K A : Type} `{KAllocLaws K} `{PageAllocatorLaws A}.
Implicit Types s : sys K A.

Lemma update_process_some process f s p :
  ps s !! process = Some p -> update_process process f s = Some (with_ps (<[process := f p]> (ps s)) s).
Proof. intros Hp. unfold update_process. by rewrite Hp. Qed.

(** ** The end of [process_create]: link, name, main task *)
Definition create_tail (process : Z) (name : list Z) (entry : Z) s : option (sys K A * Z) :=
  s ← update_process process (setp_next (process_list s)) s;
  let s := with_process_list process s in
  pname ← k_strcpy (replicate 64 0) name;
  s ← update_process process (setp_name pname) s;
  let '(s, task) := task_create entry s in
  if task =? NULL then Some (free_process process s, NULL)
  else
    s ← update_task task (set_process process) s;
    s ← update_process process (fun p => setp_thread_list task (setp_main_thread task p)) s;
    s ← scheduler_add_task task s;
    Some (s, process).

(** The process object in its final form. *)
Definition linked_process (s : sys K A) (pname : list Z) (task : Z) (p : process_t) : process_t :=
  setp_thread_list task (setp_main_thread task (setp_name pname (setp_next (process_list s) p))).

(** A new main task of [process] is ready, its stack below [hi]. *)
Definition main_task s (v : view) (process entry : Z) s' (task : Z) : Prop :=
  exists t, ts s !! task = None /\ task <> NULL /\ ts s' !! task = Some t /\ t_process t = process /\
    t_entry t = entry /\ t_state t = TASK_READY /\ sched_inv s' (abs_add task v) /\
    (ka_region (heap s)).1 <= t_kernel_stack t /\
    t_kernel_stack t + KERNEL_STACK_SIZE <= (ka_region (heap s)).2 /\
    forall x, 0 <= x < 2 ^ 64 -> x < t_kernel_stack t \/ t_kernel_stack t + KERNEL_STACK_SIZE <= x ->
      load8 (kmem s') x = load8 (kmem s) x.

Lemma name_fits name : byte_list name -> k_strlen name < 64 ->
  exists pname, k_strcpy (replicate 64 0) name = Some pname /\ cstr pname = cstr name.
Proof.
  intros Hb Hlen. rewrite k_strlen_length in Hlen.
  destruct (k_strcpy (replicate 64 0) name) as [pname|] eqn:E.
  - exists pname. by destruct (strcpy_some _ _ _ E) as (? & _).
  - apply strcpy_none in E. rewrite length_replicate in E. lia.
Qed.

(** [task_create] touches the heap, the tasks and the stack only. *)
Lemma task_create_frame entry s :
  let '(s', p) := task_create entry s in
  ps s' = ps s /\ process_list s' = process_list s /\ next_pid s' = next_pid s /\
  ready_queue s' = ready_queue s /\ blocked_queue s' = blocked_queue s /\ sleep_queue s' = sleep_queue s /\
  idle s' = idle s /\ current_task s' = current_task s /\ pending_task s' = pending_task s /\
  pt s' = PageTable.with_mem (kmem s') (pt s) /\ ka_region (heap s') = ka_region (heap s).
Proof.
  assert (Hpt : pt s = PageTable.with_mem (kmem s) (pt s)) by (unfold kmem; by destruct (pt s)).
  unfold task_create. destruct (entry =? NULL); [done |].
  pose proof (ka_region_malloc (heap s) sizeof_task) as Hr1. destruct (ka_malloc sizeof_task (heap s)) as [k task].
  destruct (task =? NULL); [done |]. cbn [heap with_heap].
  pose proof (ka_region_malloc k KERNEL_STACK_SIZE) as Hr2. destruct (ka_malloc KERNEL_STACK_SIZE k) as [k2 stack].
  cbn [fst] in *. destruct (stack =? NULL).
  { cbn. rewrite ka_region_free. split_and!; try done; congruence. }
  destruct (context_init _ _ _) as [m c]. cbn. split_and!; try done. congruence.
Qed.

Lemma tail_spec s v L process p name entry :
  sched_inv s v -> ka_live (heap s) L -> tasks_live s L -> 0 < entry < 2 ^ 64 ->
  byte_list name -> k_strlen name < 64 -> ps s !! process = Some p ->
  (forall q u, U s !! q = Some u -> t_process u <> process) ->
  exists s' r, create_tail process name entry s = Some (s', r) /\ process_list s' = process /\ next_pid s' = next_pid s /\
    pt s' = PageTable.with_mem (kmem s') (pt s) /\ ka_region (heap s') = ka_region (heap s) /\
    ((r = NULL /\ sched_inv s' v /\ ps s' = delete process (ps s) /\ kmem s' = kmem s) \/
     (r = process /\ exists task pname, main_task s v process entry s' task /\ cstr pname = cstr name /\
        ps s' = <[process := linked_process s pname task p]> (ps s))).
Proof.
  intros Hi Hlive Hts He Hb Hlen Hp Hfree. unfold create_tail.
  destruct (name_fits name Hb Hlen) as (pname & Hcpy & Hcn).
  rewrite (update_process_some _ _ _ p Hp). cbn [mbind option_bind]. rewrite Hcpy. cbn [mbind option_bind].
  erewrite update_process_some by (cbn; apply lookup_insert_eq). cbn [mbind option_bind ps with_process_list with_ps].
  rewrite insert_insert_eq. set (p2 := setp_name pname _).
  set (s2 := with_ps (<[process := p2]> (ps s)) _).
  assert (Hlive2 : ka_live (heap s2) L) by exact Hlive.
  pose proof (task_create_spec entry s2 L Hlive2 Hts He) as Hc. pose proof (task_create_frame entry s2) as Hf.
  destruct (task_create entry s2) as [s3 task].
  destruct Hf as (F1 & F2 & F3 & F4 & F5 & F6 & F7 & F8 & F9 & F10 & F11).
  assert (Hpt3 : pt s3 = PageTable.with_mem (kmem s3) (pt s)) by exact F10.
  destruct Hc as [(-> & Hts3 & Hm3 & Hl3)|(t & n & m & Ht0 & Hnew & Hts3 & Hm & Hn & Hl3 & _ & Tst & Ten & Tpr & Tnx & _ & _ & _ & Tsz & _ & _ & _ & Hmem)].
  - eexists _, _. split; [reflexivity |]. cbn [Z.eqb NULL]. split; [exact F2 |]. split; [exact F3 |]. split; [exact Hpt3 |].
    split; [cbn; rewrite ka_region_free; exact F11 |]. left.
    assert (Hps : ps (free_process process s3) = delete process (ps s)).
    { cbn. rewrite F1. cbn. by rewrite delete_insert_eq. }
    split_and!; [done | | exact Hps | exact Hm3].
    destruct Hi. split; unfold linked, in_state, U in *; cbn; rewrite ?Hts3, ?F4, ?F5, ?F6, ?F7, ?F8, ?F9; try done.
    intros q u Hu. destruct (si_procs q u Hu) as [?|[w Hw]]; [by left | right].
    cbn in Hps. rewrite Hps, lookup_delete_ne; [by eexists |]. intros E. by apply (Hfree q u Hu).
  - destruct (Z.eqb_spec task NULL); [done |].
    unfold update_task, update. rewrite Hts3, lookup_insert_eq. cbn [mbind option_bind].
    erewrite update_process_some by (cbn; rewrite F1; apply lookup_insert_eq). cbn [mbind option_bind].
    set (s5 := with_ps _ _).
    assert (Hps5 : ps s5 = <[process := linked_process s pname task p]> (ps s)).
    { cbn. rewrite F1. cbn. by rewrite insert_insert_eq. }
    assert (Hsub : forall q, is_Some (ps s !! q) -> is_Some (ps s5 !! q)).
    { intros q Hq. rewrite Hps5. apply lookup_insert_is_Some'. by right. }
    destruct (inv_new s s5 v task (set_process process t) Hi) as (Hi5 & Hnq & Hnp & Hni); try done.
    { cbn. by rewrite insert_insert_eq. }
    { right. rewrite Hps5. cbn. rewrite lookup_insert_eq. by eexists. }
    destruct (add_spec s5 v task (set_next NULL (set_process process t)) Hi5) as (s6 & E6 & Hi6 & Hf6 & HU6); try done.
    { unfold U, unlinked. cbn. by rewrite lookup_fmap, lookup_insert_eq. }
    { cbn. by rewrite F7. }
    { cbn. by rewrite Tst. }
    rewrite E6. cbn [mbind option_bind]. destruct Hf6 as ((G1 & G2 & G3 & G4 & G5 & G6 & _) & _ & G7 & _).
    eexists _, _. split; [reflexivity |].
    assert (Hm6 : kmem s6 = kmem s3) by (unfold kmem; by rewrite G7).
    split; [by rewrite G6 |]. split; [by rewrite G5 |]. split; [by rewrite G7, Hm6 |]. split; [by rewrite G3 |]. right. split; [done |].
    exists task, pname. split; [| split; [done | by rewrite G2, Hps5]].
    assert (HU : U s6 !! task = Some (set_state TASK_READY (set_next NULL (set_process process t))))
      by by rewrite HU6, lookup_insert_eq.
    destruct (U_lookup _ _ _ HU) as (t6 & Ht6 & E). exists t6.
    assert (Hfld : t_process t6 = process /\ t_entry t6 = entry /\ t_state t6 = TASK_READY /\ t_kernel_stack t6 = t_kernel_stack t).
    { destruct t6; injection E; intros; subst. cbn. done. }
    destruct Hfld as (Q1 & Q2 & Q3 & Q4). rewrite Q4.
    pose proof (ka_region_live _ _ (t_kernel_stack t) n Hl3 (lookup_insert_eq _ _ _)) as [R1 R2]. rewrite F11 in R1, R2.
    change (heap s2) with (heap s) in R1, R2.
    split_and!; try done; [lia |]. intros x Hx Hd. rewrite Hm6. by apply Hmem.
Qed.

(** ** Pages of a process *)
Lemma process_page_spec T (s s' : pt_state A) root va st :
  pt_wf T s -> T !! root = Some [] -> map_process_page (root + hhdm_offset s) va s = (s', st) ->
  exists T', (st = KERNEL_ENOMEM /\ not_mapped T s T' s') \/
             (st = KERNEL_SUCCESS /\ exists f, fresh_mapped T s root va f true T' s').
Proof.
  intros Hwf Hr. unfold map_process_page. pose proof (map_page_result T s root va Hwf Hr) as Hm.
  destruct (alloc_page s) as [s1 f]. destruct (f =? NULL); [intros [= <- <-]; exists T; by left |].
  destruct (page_table_map_user _ va f true s1) as [s2 ok]. destruct Hm as [T' Hm].
  destruct ok; intros [= <- <-]; exists T'; [right | by left]. split; [done | by exists f].
Qed.

Definition STACK_PAGE : Z := USER_STACK_TOP - 4096.

Lemma initial_stack_spec T s process p root :
  process <> NULL -> ps s !! process = Some p -> user_stack_top p = USER_STACK_TOP ->
  page_table p = root + hhdm_offset (pt s) -> pt_wf T (pt s) -> T !! root = Some [] ->
  exists pt' st T', process_map_initial_stack process s = Some (with_pt pt' s, st) /\
    ((st = KERNEL_ENOMEM /\ not_mapped T (pt s) T' pt') \/
     (st = KERNEL_SUCCESS /\ exists f, fresh_mapped T (pt s) root STACK_PAGE f true T' pt')).
Proof.
  intros Hp0 Hp Ht Hpt Hwf Hr. unfold process_map_initial_stack. destruct (Z.eqb_spec process NULL); [done |].
  rewrite Hp. cbn [mbind option_bind]. rewrite Ht, Hpt. change (u64 (USER_STACK_TOP - PAGE_SIZE)) with STACK_PAGE.
  destruct (map_process_page _ _ _) as [pt' st] eqn:E. destruct (process_page_spec T _ _ _ _ _ Hwf Hr E) as [T' Hm].
  by exists pt', st, T'.
Qed.

(** The process with its heap one page longer. *)
Definition grown (p : process_t) : process_t :=
  setp_user_heap_current (u64 (user_heap_end p + PAGE_SIZE)) (setp_user_heap_end (u64 (user_heap_end p + PAGE_SIZE)) p).

Lemma heap_expand_spec T s process p root :
  process <> NULL -> ps s !! process = Some p -> page_table p = root + hhdm_offset (pt s) ->
  pt_wf T (pt s) -> T !! root = Some [] ->
  exists s' st T', process_heap_expand process s = Some (s', st) /\ exists pt',
    ((st = KERNEL_ENOMEM /\ s' = with_pt pt' s /\ not_mapped T (pt s) T' pt') \/
     (st = KERNEL_SUCCESS /\ s' = with_ps (<[process := grown p]> (ps s)) (with_pt pt' s) /\
      exists f, fresh_mapped T (pt s) root (user_heap_end p) f true T' pt')).
Proof.
  intros Hp0 Hp Hpt Hwf Hr. unfold process_heap_expand. destruct (Z.eqb_spec process NULL); [done |].
  rewrite Hp. cbn [mbind option_bind]. rewrite Hpt.
  destruct (map_process_page _ _ _) as [pt' st] eqn:E. destruct (process_page_spec T _ _ _ _ _ Hwf Hr E) as [T' Hm].
  destruct Hm as [[-> Hm]|(-> & f & Hm)]; cbn [Z.eqb KERNEL_ENOMEM KERNEL_SUCCESS negb].
  - eexists _, _, T'. split; [reflexivity |]. exists pt'. by left.
  - erewrite update_process_some by (cbn; exact Hp). cbn [mbind option_bind].
    eexists _, _, T'. split; [reflexivity |]. exists pt'. right. split; [done |]. split; [done |]. by exists f.
Qed.

(** [process_heap_expand] grows the heap of a process by one page:
    the page at the old end is mapped, readable and writable, to a frame no one
    else uses, and the end moves up; when no page or table is left, the heap is as
    before and the page is given back.  No other page of any address space and no
    used frame changes. *)
Theorem process_heap_expand_correct T s process p root
    (Hp0 : process <> NULL) (Hp : ps s !! process = Some p) (Hpt : page_table p = root + hhdm_offset (pt s))
    (Hwf : pt_wf T (pt s)) (Hr : T !! root = Some []) :
  exists s' st T', process_heap_expand process s = Some (s', st) /\ pt_wf T' (pt s') /\ space_ext T (pt s) T' (pt s') /\
    (forall r va, T !! r = Some [] -> page_of va <> page_of (user_heap_end p) -> s_walk (pt s') r va = s_walk (pt s) r va) /\
    ((st = KERNEL_ENOMEM /\ ps s' = ps s /\ forall r va, T !! r = Some [] -> s_walk (pt s') r va = s_walk (pt s) r va) \/
     (st = KERNEL_SUCCESS /\ ps s' = <[process := grown p]> (ps s) /\
      exists f, used T' (pt s') f /\ f ∈ pa_free_pages (pt_alloc (pt s)) /\
        forall va, page_of va = page_of (user_heap_end p) -> s_walk (pt s') root va = Some (f + leaf_bits true, O))).
Proof.
  destruct (heap_expand_spec T s process p root Hp0 Hp Hpt Hwf Hr) as (s' & st & T' & E & pt' & Hres).
  exists s', st, T'. split; [done |]. destruct Hres as [(-> & -> & M1 & M2 & M3)|(-> & -> & f & M1 & M2 & M3 & M4 & M5 & M6)].
  - split_and!; try done; [by intros; apply M3 |]. by left.
  - split_and!; try done. right. split; [done |]. split; [done |]. by exists f.
Qed.

(** ** The address space of a new process *)

(** Addresses the kernel uses for itself: no table, no free page and no used
    frame is visible there through the direct map. *)
Definition kernel_region T (s : pt_state A) (lo hi : Z) : Prop :=
  forall x, lo <= x < hi -> kernel_byte T s x /\ forall f, used T s f -> outside s f x.

(** Kernel code wrote kernel memory: no table and no used frame changes. *)
Lemma kernel_write T0 (s0 : pt_state A) T (s : pt_state A) m lo hi :
  pt_wf T0 s0 -> pt_wf T s -> space_ext T0 s0 T s -> kernel_region T0 s0 lo hi ->
  (forall x, 0 <= x < 2 ^ 64 -> x < lo \/ hi <= x -> load8 m x = load8 (pt_mem s) x) ->
  pt_wf T (PageTable.with_mem m s) /\
  (forall r va, T !! r = Some [] -> s_walk (PageTable.with_mem m s) r va = s_walk s r va) /\
  (forall f j, used T0 s0 f -> 0 <= j < 4096 ->
     load8 m (f + hhdm_offset s0 + j) = load8 (pt_mem s0) (f + hhdm_offset s0 + j)).
Proof.
  intros Hwf0 Hwf He Hk Hm. pose proof (se_hhdm _ _ _ _ He) as Hh.
  destruct (same_tables T s m Hwf) as [Hwf' Hw].
  { intros g q x Hg Hx. destruct (wf_frame _ _ Hwf _ _ Hg) as ((? & ? & ? & ?) & _). pose proof (wf_hhdm _ _ Hwf).
    apply Hm; [lia |]. destruct (decide (lo <= x < hi)) as [Hin|]; [| lia].
    destruct (kernel_byte_ext _ _ _ _ x He (proj1 (Hk x Hin))) as [_ Ho].
    specialize (Ho g (or_intror (ex_intro _ q Hg))). unfold outside in Ho. lia. }
  split; [done |]. split; [done |]. intros f j Hf Hj. rewrite <- (se_used _ _ _ _ He f j Hf Hj).
  pose proof (used_range _ _ _ Hwf0 Hf). apply Hm; [lia |].
  destruct (decide (lo <= f + hhdm_offset s0 + j < hi)) as [Hin|]; [| lia].
  destruct (Hk _ Hin) as [_ Ho]. specialize (Ho f Hf). unfold outside in Ho. lia.
Qed.

Lemma kernel_step T (s : pt_state A) root m lo hi :
  pt_wf T s -> T !! root = Some [] -> kernel_region T s lo hi ->
  (forall x, 0 <= x < 2 ^ 64 -> x < lo \/ hi <= x -> load8 m x = load8 (pt_mem s) x) ->
  space_step T s root T (PageTable.with_mem m s).
Proof.
  intros Hwf Hr Hk Hm. destruct (kernel_write T s T s m lo hi Hwf Hwf (space_ext_refl T s) Hk Hm) as (Hwf' & Hw & Hb).
  split; try done; [by left |]. intros va. left. by apply Hw.
Qed.

(** The root of a new process and the frames of its stack and heap. *)
Record new_space T s T' s' (kroot root : Z) : Prop := {
  nw_wf : pt_wf T' (pt s');
  nw_sub : T ⊆ T';
  nw_root : T' !! root = Some [] /\ T !! root = None;
  nw_pages : exists f g, f <> g /\ used T' (pt s') f /\ used T' (pt s') g /\
    (forall va, page_of va = page_of STACK_PAGE -> s_walk (pt s') root va = Some (f + leaf_bits true, O)) /\
    (forall va, page_of va = page_of USER_HEAP_BASE -> s_walk (pt s') root va = Some (g + leaf_bits true, O));
  nw_kernel va : page_of va <> page_of STACK_PAGE -> page_of va <> page_of USER_HEAP_BASE ->
    s_walk (pt s') root va = s_walk (pt s) kroot va;
  nw_old r va : T !! r = Some [] -> page_of va <> page_of STACK_PAGE -> page_of va <> page_of USER_HEAP_BASE ->
    s_walk (pt s') r va = s_walk (pt s) r va;
  nw_used f j : used T (pt s) f -> 0 <= j < 4096 ->
    load8 (kmem s') (f + hhdm_offset (pt s) + j) = load8 (kmem s) (f + hhdm_offset (pt s) + j);
}.

(** The three steps that build it. *)
Lemma new_space_steps T s s' kroot root T2 pt1 pt2 T3 pt3 f g m lo hi :
  pt_wf T (pt s) -> T !! kroot = Some [] -> T !! root = None ->
  pt_wf (<[root := []]> T) pt1 -> space_ext T (pt s) (<[root := []]> T) pt1 ->
  (forall r va, T !! r = Some [] -> s_walk pt1 r va = s_walk (pt s) r va) ->
  (forall va, s_walk pt1 root va = s_walk (pt s) kroot va) ->
  fresh_mapped (<[root := []]> T) pt1 root STACK_PAGE f true T2 pt2 ->
  fresh_mapped T2 pt2 root USER_HEAP_BASE g true T3 pt3 ->
  pt s' = PageTable.with_mem m pt3 -> kernel_region T (pt s) lo hi ->
  (forall x, 0 <= x < 2 ^ 64 -> x < lo \/ hi <= x -> load8 m x = load8 (pt_mem pt3) x) ->
  new_space T s T3 s' kroot root.
Proof.
  intros Hwf Hk Hroot Hwf1 He1 Hw1 Hwr (Hwf2 & He2 & _ & Hu2 & Ho2 & Hs2) (Hwf3 & He3 & Hg3 & Hu3 & Ho3 & Hs3) Hpt Hreg Hm.
  pose proof (space_ext_trans _ _ _ _ _ _ He2 He3) as He13. pose proof (space_ext_trans _ _ _ _ _ _ He1 He13) as He.
  assert (Hr1 : (<[root := []]> T) !! root = Some []) by apply lookup_insert_eq.
  assert (Hr2 : T2 !! root = Some []) by (eapply lookup_weaken; [done | apply He2]).
  assert (Hr3 : T3 !! root = Some []) by (eapply lookup_weaken; [done | apply He3]).
  destruct (kernel_write T (pt s) T3 pt3 m lo hi Hwf Hwf3 He Hreg Hm) as (Hwf4 & Hw4 & Hb4).
  assert (Hsh : page_of STACK_PAGE <> page_of USER_HEAP_BASE) by (by vm_compute).
  assert (Hold : forall r, T !! r = Some [] -> (<[root := []]> T) !! r = Some [] /\ T2 !! r = Some [] /\ T3 !! r = Some []).
  { intros r Hr. assert (H' : (<[root := []]> T) !! r = Some []) by (rewrite lookup_insert_ne; [done | congruence]).
    split_and!; [done | |]; (eapply lookup_weaken; [exact H' |]); [apply He2 | apply He13]. }
  split; rewrite ?Hpt.
  - exact Hwf4.
  - apply He.
  - done.
  - exists f, g. pose proof (used_ext _ _ _ _ _ He3 Hu2) as Hu2'. split_and!.
    + intros ->. destruct Hu2 as (_ & Hn & _). done.
    + exact Hu2'.
    + exact Hu3.
    + intros va Hva. rewrite Hw4, Ho3; [by apply Hs2 | done | by rewrite Hva | done].
    + intros va Hva. rewrite Hw4; [by apply Hs3 | done].
  - intros va H1' H2'. rewrite Hw4, Ho3, Ho2, Hwr; done.
  - intros r va Hr H1' H2'. destruct (Hold r Hr) as (? & ? & ?). by rewrite Hw4, Ho3, Ho2, Hw1.
  - intros q j Hq Hj. unfold kmem. rewrite Hpt. by apply Hb4.
Qed.

(** ** The whole of [process_create] *)

(** What a process is at first. *)
Record newborn s (name : list Z) (root : Z) (p : process_t) : Prop := {
  nb_pid : pid p = next_pid s;
  nb_state : p_state p = PROCESS_READY /\ exit_code p = 0 /\ is_user_process p = false /\ user_started p = false;
  nb_name : cstr (System.name p) = cstr name;
  nb_next : p_next p = process_list s;
  nb_files : fd_table p = Fd.mk_fd_table (replicate 64 NULL);
  nb_space : page_table p = root + hhdm_offset (pt s) /\ page_table_physical p = root;
  nb_stack : user_stack_top p = USER_STACK_TOP /\ user_stack_bottom p = USER_STACK_TOP - USER_STACK_SIZE;
  nb_heap : user_heap_start p = USER_HEAP_BASE /\ user_heap_end p = USER_HEAP_BASE + 4096 /\
            user_heap_current p = USER_HEAP_BASE + 4096;
}.

(** The kernel before a process is created. *)
Record create_ok T s (v : view) (L : gmap Z Z) (kroot : Z) : Prop := {
  co_sched : sched_inv s v;
  co_live : ka_live (heap s) L;
  co_tasks : tasks_live s L;
  co_procs q : is_Some (ps s !! q) -> is_Some (L !! q);
  co_wf : pt_wf T (pt s);
  co_kroot : T !! kroot = Some [];
  co_kernel : kernel_pml4 (pt s) = kroot + hhdm_offset (pt s);
  co_region : kernel_region T (pt s) (ka_region (heap s)).1 (ka_region (heap s)).2;
}.

Lemma same_procs s s' process : ps s !! process = None ->
  (ps s' = ps s \/ (exists p, ps s' = <[process := p]> (ps s)) \/ exists p, ps s' = delete process (<[process := p]> (ps s))) ->
  forall q, is_Some (ps s !! q) -> ps s' !! q = ps s !! q.
Proof.
  intros Hn Hc q [x Hq]. assert (q <> process) by congruence.
  destruct Hc as [->|[[p ->]|[p ->]]]; [done | by rewrite lookup_insert_ne | by rewrite lookup_delete_ne, lookup_insert_ne].
Qed.

(** A failed call: no task is new, no process is lost. *)
Definition not_created T s (v : view) s' : Prop :=
  sched_inv s' v /\ (forall q, is_Some (ps s !! q) -> ps s' !! q = ps s !! q) /\ exists T', pt_wf T' (pt s') /\ T ⊆ T'.

Lemma not_created_intro T s v s' T' :
  sched_inv s v -> same_sched s s' -> (forall q, is_Some (ps s !! q) -> ps s' !! q = ps s !! q) ->
  pt_wf T' (pt s') -> T ⊆ T' -> not_created T s v s'.
Proof.
  intros Hi Hs Hp Hwf Hsub. split_and!; [| done | by exists T']. apply (inv_same s s' v Hi Hs).
  intros q Hq. by rewrite Hp.
Qed.

(** The middle of [process_create], from the process number to the heap page,
    and what follows it. *)
Definition build_space (process : Z) s (tail : sys K A -> option (sys K A * Z)) : option (sys K A * Z) :=
  let '(s, pid) := process_allocate_pid s in
  let '(pt', table, physical) := page_table_create (pt s) in
  let p := setp_page_table table (setp_page_table_physical (default 0 physical) (fresh_process pid)) in
  let s := with_ps (<[process := p]> (ps s)) (with_pt pt' s) in
  if table =? NULL then Some (s, NULL)
  else
    s ← update_process process (fun p => setp_user_stack_bottom (USER_STACK_TOP - USER_STACK_SIZE)
                                           (setp_user_stack_top USER_STACK_TOP p)) s;
    '(s, status) ← process_map_initial_stack process s;
    if negb (status =? KERNEL_SUCCESS) then Some (free_process process s, NULL)
    else
      s ← update_process process (fun p => setp_user_heap_current USER_HEAP_BASE
            (setp_user_heap_end USER_HEAP_BASE (setp_user_heap_start USER_HEAP_BASE p))) s;
      '(s, status) ← process_heap_expand process s;
      if negb (status =? KERNEL_SUCCESS) then Some (free_process process s, NULL) else tail s.

Lemma process_create_eq name entry s :
  process_create name entry s =
    if entry =? NULL then Some (s, NULL)
    else
      let '(k, process) := ka_malloc sizeof_process (heap s) in
      if process =? NULL then Some (with_heap k s, NULL)
      else build_space process (with_heap k s) (create_tail process name entry).
Proof. reflexivity. Qed.

(** The state in which the process has its address space. *)
Record built T s (kroot process : Z) s3 T3 (root : Z) (p : process_t) : Prop := {
  bu_sched : same_sched s s3;
  bu_heap : heap s3 = heap s;
  bu_procs : ps s3 !! process = Some p /\ delete process (ps s3) = delete process (ps s) /\
             forall q, <[process := q]> (ps s3) = <[process := q]> (ps s);
  bu_list : process_list s3 = process_list s /\ next_pid s3 = u64 (next_pid s + 1);
  bu_process pname task name : cstr pname = cstr name ->
    newborn s name root (linked_process s3 pname task p);
  bu_wf : pt_wf T3 (pt s3) /\ T ⊆ T3;
  bu_space s' m lo hi : pt s' = PageTable.with_mem m (pt s3) -> kernel_region T (pt s) lo hi ->
    (forall x, 0 <= x < 2 ^ 64 -> x < lo \/ hi <= x -> load8 m x = load8 (kmem s3) x) -> new_space T s T3 s' kroot root;
}.

Lemma built_intro T s kroot process root T2 pt1 pt2 T3 pt3 f g s3 p :
  pt_wf T (pt s) -> T !! kroot = Some [] -> T !! root = None ->
  pt_wf (<[root := []]> T) pt1 -> space_ext T (pt s) (<[root := []]> T) pt1 ->
  (forall r va, T !! r = Some [] -> s_walk pt1 r va = s_walk (pt s) r va) ->
  (forall va, s_walk pt1 root va = s_walk (pt s) kroot va) ->
  fresh_mapped (<[root := []]> T) pt1 root STACK_PAGE f true T2 pt2 ->
  fresh_mapped T2 pt2 root USER_HEAP_BASE g true T3 pt3 ->
  s3 = with_ps (<[process := p]> (ps s)) (with_pt pt3 (with_next_pid (u64 (next_pid s + 1)) s)) ->
  (forall name pname task, cstr pname = cstr name -> newborn s name root (linked_process s3 pname task p)) ->
  built T s kroot process s3 T3 root p.
Proof.
  intros Hwf Hk Hr Hwf1 He1 Hw1 Hwr Hst Hhp -> Hnb. split; try done.
  - cbn. split_and!; [apply lookup_insert_eq | by rewrite delete_insert_eq | intros q; apply insert_insert_eq].
  - intros pname task name. apply Hnb.
  - destruct Hhp as (Hwf3 & He3 & _). destruct Hst as (_ & He2 & _). split; [exact Hwf3 |].
    transitivity T2; [transitivity (<[root := []]> T); [apply He1 | apply He2] | apply He3].
  - intros s' m lo hi Hpt Hreg Hm.
    by apply (new_space_steps T s s' kroot root T2 pt1 pt2 T3 pt3 f g m lo hi).
Qed.

Lemma build_space_spec T s v L kroot process :
  create_ok T s v L kroot -> process <> NULL -> ps s !! process = None ->
  (exists s', (forall tail, build_space process s tail = Some (s', NULL)) /\ not_created T s v s') \/
  (exists s3 T3 root p, (forall tail, build_space process s tail = tail s3) /\ built T s kroot process s3 T3 root p).
Proof.
  intros [Hi _ _ _ Hwf Hk Hker _] Hp0 Hpn. unfold build_space, process_allocate_pid.
  cbn [pt with_next_pid ps next_pid]. pose proof (create_space_spec T (pt s) kroot Hwf Hk Hker) as Hcs.
  destruct (page_table_create (pt s)) as [[pt1 table] physical].
  destruct Hcs as [(-> & -> & ->)|(root & -> & -> & Htn & Hr0 & Hroot & Hrf & Hwf1 & He1 & Hw1 & Hwr)].
  { left. eexists. split; [intros tail; reflexivity |].
    apply (not_created_intro T s v _ T); try done. eapply (same_procs s _ process Hpn). right; left. by eexists. }
  destruct (Z.eqb_spec (root + hhdm_offset (pt s)) NULL); [done |].
  erewrite update_process_some by apply lookup_insert_eq. cbn [mbind option_bind ps with_ps with_pt with_next_pid].
  rewrite insert_insert_eq. set (p1 := setp_user_stack_bottom _ _). set (s1 := with_ps _ _).
  destruct (initial_stack_spec (<[root := []]> T) s1 process p1 root Hp0 (lookup_insert_eq _ _ _) eq_refl)
    as (pt2 & st2 & T2 & E2 & Hst); [cbn; by rewrite (se_hhdm _ _ _ _ He1) | exact Hwf1 | apply lookup_insert_eq |].
  rewrite E2. cbn [mbind option_bind]. destruct Hst as [(-> & Hwf2 & He2 & _)|(-> & f & Hst)]; cbn [Z.eqb KERNEL_ENOMEM KERNEL_SUCCESS negb].
  { left. eexists. split; [intros tail; reflexivity |].
    apply (not_created_intro T s v _ T2); try done; [| transitivity (<[root := []]> T); [apply He1 | apply He2]].
    eapply (same_procs s _ process Hpn). right; right. by eexists. }
  erewrite update_process_some by (cbn; apply lookup_insert_eq). cbn [mbind option_bind ps with_ps with_pt s1].
  rewrite insert_insert_eq. set (p2 := setp_user_heap_current _ _). set (s2 := with_ps _ _).
  pose proof Hst as (Hwf2 & He2 & _).
  assert (Hr2 : T2 !! root = Some []) by (eapply lookup_weaken; [apply lookup_insert_eq | apply He2]).
  destruct (heap_expand_spec T2 s2 process p2 root Hp0 (lookup_insert_eq _ _ _))
    as (s3 & st3 & T3 & E3 & pt3 & Hhp); [cbn; rewrite (se_hhdm _ _ _ _ He2); by rewrite <- (se_hhdm _ _ _ _ He1) | exact Hwf2 | exact Hr2 |].
  rewrite E3. cbn [mbind option_bind]. destruct Hhp as [(-> & -> & Hwf3 & He3 & _)|(-> & -> & g & Hhp)]; cbn [Z.eqb KERNEL_ENOMEM KERNEL_SUCCESS negb].
  { left. eexists. split; [intros tail; reflexivity |]. apply (not_created_intro T s v _ T3); try done;
      [| transitivity T2; [transitivity (<[root := []]> T); [apply He1 | apply He2] | apply He3]].
    eapply (same_procs s _ process Hpn). right; right. by eexists. }
  right. eexists _, T3, root, (grown p2). split; [intros tail; reflexivity |].
  eapply (built_intro T s kroot process root T2 pt1 pt2 T3 pt3 f g); try done.
  cbn [ps s2 with_ps with_pt]. by rewrite insert_insert_eq.
Qed.

Lemma create_spec T s v L kroot name entry :
  create_ok T s v L kroot -> 0 < entry < 2 ^ 64 -> byte_list name -> k_strlen name < 64 ->
  exists s' r, process_create name entry s = Some (s', r) /\
    ((r = NULL /\ not_created T s v s') \/
     (r <> NULL /\ ps s !! r = None /\ next_pid s' = u64 (next_pid s + 1) /\ process_list s' = r /\
      exists T' root task p, ps s' = <[r := p]> (ps s) /\ newborn s name root p /\
        main_thread p = task /\ thread_list p = task /\ (exists t, ts s !! task = None /\ task <> NULL /\
          ts s' !! task = Some t /\ t_process t = r /\ t_entry t = entry /\ t_state t = TASK_READY) /\
        sched_inv s' (abs_add task v) /\ new_space T s T' s' kroot root)).
Proof.
  intros Hok He Hb Hlen. pose proof Hok as [Hi Hlive Hts Hpl Hwf Hk Hker Hreg]. rewrite process_create_eq.
  destruct (Z.eqb_spec entry NULL); [unfold NULL in *; lia |].
  destruct (ka_malloc sizeof_process (heap s)) as [k process] eqn:Ek.
  pose proof (ka_region_malloc (heap s) sizeof_process) as Hrk. rewrite Ek in Hrk. cbn [fst] in Hrk.
  destruct (ka_malloc_spec _ _ sizeof_process _ _ Hlive ltac:(unfold sizeof_process; lia) Ek)
    as [(-> & Hl1) | (sz & Hsz & HpL & Hp0 & Hl1)].
  { eexists _, _. split; [reflexivity |]. left. split; [done |]. by apply (not_created_intro T s v _ T). }
  destruct (Z.eqb_spec process NULL); [done |].
  assert (Hpn : ps s !! process = None).
  { destruct (ps s !! process) eqn:E; [| done]. destruct (Hpl process) as [? Hx]; [by rewrite E | congruence]. }
  assert (Hok1 : create_ok T (with_heap k s) v (<[process := sz]> L) kroot).
  { split; try done; cbn; [by apply (inv_same s) | | | by rewrite Hrk];
      intros q Hq; apply lookup_insert_is_Some'; right; auto. }
  destruct (build_space_spec T (with_heap k s) v _ kroot process Hok1 Hp0 Hpn)
    as [(s' & E & Hnc)|(s3 & T3 & root & p & E & [Hsc Hhp (Hps1 & Hps2 & Hps3) (Hlist3 & Hn3) Hnb [Hwf3 Hsub] Hsp])]; rewrite E.
  { exists s', NULL. split; [done |]. by left. }
  assert (Hi3 : sched_inv s3 v).
  { apply (inv_same (with_heap k s) s3 v (co_sched _ _ _ _ _ Hok1) Hsc). intros q Hq. destruct (decide (q = process)) as [->|Hne]; [by eexists |].
    rewrite <- (lookup_delete_ne (ps s3) process q), Hps2, lookup_delete_ne by done. done. }
  assert (Hts3 : ts s3 = ts s) by apply Hsc. assert (HU3 : U s3 = U s) by (unfold U; by rewrite Hts3).
  assert (Hl3 : ka_live (heap s3) (<[process := sz]> L)) by by rewrite Hhp.
  destruct (tail_spec s3 v (<[process := sz]> L) process p name entry Hi3 Hl3) as (s4 & r & E4 & Hpl4 & Hnp4 & Hpt4 & _ & Hres); try done.
  { intros q Hq. rewrite Hts3 in Hq. apply lookup_insert_is_Some'. right. by apply Hts. }
  { intros q u Hu Hx. rewrite HU3 in Hu. destruct (si_procs _ _ Hi q u Hu) as [Ex|[w Ex]]; congruence. }
  exists s4, r. split; [exact E4 |].
  destruct Hres as [(-> & Hi4 & Hps4 & Hm4)|(-> & task & pname & (t & Ht1 & Ht2 & Ht3 & Ht4 & Ht5 & Ht6 & Hi4 & Hlo & Hhi & Hmem) & Hcn & Hps4)];
    [left | right].
  - split; [done |]. split; [done |]. split; [| exists T3; split; [| done]].
    + intros q [x Hq]. rewrite Hps4, Hps2, lookup_delete_ne; [done |]. intros <-. cbn in Hpn. congruence.
    + rewrite Hpt4, Hm4. unfold kmem. by destruct (pt s3).
  - rewrite Hhp in Hlo, Hhi. cbn [heap with_heap] in Hlo, Hhi. rewrite Hrk in Hlo, Hhi.
    split; [done |]. split; [done |]. split; [by rewrite Hnp4 |]. split; [done |].
    exists T3, root, task, (linked_process s3 pname task p). split; [by rewrite Hps4, Hps3 |].
    split; [by destruct (Hnb pname task name Hcn) |]. split; [done |]. split; [done |]. split; [exists t; by rewrite <- Hts3 |]. split; [done |].
    destruct (Hsp s4 (kmem s4) (t_kernel_stack t) (t_kernel_stack t + KERNEL_STACK_SIZE) Hpt4); [| exact Hmem | done].
    intros x Hx. apply Hreg. lia.
Qed.

End create.
