(* ===== verification/AddressSpaces.v ===== *)
(** * Address spaces side by side

    The kernel and every process have an address space of their own.  All of them
    share the tables of the kernel's half; in the user half, below [2 ^ 47], no two
    of them share a table or a page ([isolated]).  What an operation on one address
    space does ([space_step]) keeps this, and leaves the user memory of every other
    address space as it was. *)
From S2P Require Import Prelude PageAllocator Memory PageTable PageTableSpec UserPages ProcessMemory ProcessSpec.
Import Mem Process.
#[local] Open Scope Z_scope.
#[local] Opaque k_memcpy k_memset.

(** ** The user half of the tables *)

(** Tables on the way to user addresses: the root, and what hangs on its lower half. *)
Definition user_path (p : list Z) : bool := match p with [] => true | i :: _ => i <? 256 end.

Definition user_va (va : Z) : Prop := 0 <= va < 2 ^ 47.

Lemma user_va_path va : user_va va -> user_path (path 3 va) = true.
Proof.
  intros Hva. unfold user_va in Hva. cbn [path user_path]. rewrite idx_div. change (12 + 9 * Z.of_nat 3) with 39.
  apply Z.ltb_lt. rewrite Z.mod_small; [apply Z.div_lt_upper_bound; lia |].
  split; [apply Z.div_pos; lia | apply Z.div_lt_upper_bound; lia].
Qed.

Lemma user_path_prefix p q : user_path (p ++ q) = true -> user_path p = true.
Proof. by destruct p. Qed.

Lemma user_path_child p i j : p <> [] -> user_path (p ++ [i]) = user_path (p ++ [j]).
Proof. by destruct p. Qed.

(** [T] with the kernel's half of [T']. *)
Definition with_kernel (T' T : gmap Z (list Z)) : gmap Z (list Z) :=
  filter (fun x => user_path x.2 = true) T ∪ filter (fun x => user_path x.2 = false) T'.

Lemma lookup_with_kernel T' T f p :
  (forall q, T !! f = Some q -> user_path q = true -> T' !! f = Some q \/ T' !! f = None) ->
  with_kernel T' T !! f = Some p <-> if user_path p then T !! f = Some p else T' !! f = Some p.
Proof.
  intros Hd. unfold with_kernel. rewrite lookup_union_Some_raw, !map_lookup_filter_Some, map_lookup_filter_None. cbn.
  destruct (user_path p) eqn:E; split.
  - intros [[? _]|[_ [_ ?]]]; [done | congruence].
  - intros ?. left. done.
  - intros [[_ ?]|[_ [? _]]]; [congruence | done].
  - intros HT. right. split; [| done].
    destruct (T !! f) as [q|] eqn:Eq; [right | by left]. intros x [= <-] Hx. cbn in Hx. destruct (Hd q eq_refl Hx); congruence.
Qed.

(** Memory in which the user tables are the same translates user addresses the same. *)
Lemma user_slot T m m' h l f p va :
  tree_ok T m h -> T !! f = Some p -> (length p + l = 3)%nat -> user_path (p ++ path l va) = true ->
  (forall g q i, T !! g = Some q -> user_path q = true -> 0 <= i < 512 -> ent m' h g i = ent m h g i) ->
  mmu_slot m' h l f va = mmu_slot m h l f va.
Proof.
  intros Ht Hf Hl Hu Hs. revert f p Hf Hl Hu; induction l as [|l IH]; intros f p Hf Hl Hu; [done |].
  cbn [mmu_slot]. rewrite (Hs f p) by (done || apply idx_range || by eapply user_path_prefix).
  rewrite (top_level p) by lia. case_match_eq E; [done | done |].
  apply (IH _ (p ++ [idx (S l) va])).
  - apply (Ht f); [done | lia | apply idx_range | done].
  - rewrite length_app; simpl; lia.
  - by rewrite <- app_assoc.
Qed.

Lemma user_walk_same T m m' h root va :
  tree_ok T m h -> T !! root = Some [] -> user_va va ->
  (forall g q i, T !! g = Some q -> user_path q = true -> 0 <= i < 512 -> ent m' h g i = ent m h g i) ->
  mmu_walk m' h root va = mmu_walk m h root va.
Proof.
  intros Ht Hr Hva Hs. pose proof (user_va_path va Hva) as Hu. unfold mmu_walk.
  rewrite (user_slot T m m' h 3 root []) by done.
  destruct (mmu_slot m h 3 root va) as [[f l]|] eqn:E; [| done].
  destruct (slot_in_tree T m h 3 root [] va f l Ht Hr eq_refl E) as (q & Hq & _ & Hp).
  rewrite (Hs f q); [done | done | | apply idx_range]. apply (user_path_prefix q (path l va)). by rewrite Hp.
Qed.

Section spaces.
Context {A : Type} `{PageAllocatorLaws A}.
Implicit Types (s : pt_state A) (T : gmap Z (list Z)) (Sp : gmap Z (gmap Z (list Z))).

(** A frame that is handed out and a table of no address space. *)
Definition data_frame Sp s (f : Z) : Prop := forall r T, Sp !! r = Some T -> used T s f.

(** The address spaces, by their roots. *)
Record isolated Sp s : Prop := {
  is_wf r T : Sp !! r = Some T -> pt_wf T s;
  is_root r T : Sp !! r = Some T -> T !! r = Some [];
  is_own r T f p : Sp !! r = Some T -> T !! f = Some p -> user_path p = true -> page_frame (pa_limit (pt_alloc s)) f;
  is_apart r1 r2 T1 T2 f p : r1 <> r2 -> Sp !! r1 = Some T1 -> Sp !! r2 = Some T2 ->
    T1 !! f = Some p -> user_path p = true -> T2 !! f = None;
  is_kernel r1 r2 T1 T2 f p : Sp !! r1 = Some T1 -> Sp !! r2 = Some T2 ->
    T1 !! f = Some p -> user_path p = false -> T2 !! f = Some p;
  is_leaf r T va e l : Sp !! r = Some T -> user_va va -> s_walk s r va = Some (e, l) ->
    l = O /\ data_frame Sp s (frame_of e);
  is_pages r1 r2 va1 va2 e1 e2 l1 l2 : r1 <> r2 -> is_Some (Sp !! r1) -> is_Some (Sp !! r2) -> user_va va1 -> user_va va2 ->
    s_walk s r1 va1 = Some (e1, l1) -> s_walk s r2 va2 = Some (e2, l2) -> frame_of e1 <> frame_of e2;
}.

(** ** One address space changes *)

(** The others take over what became of the kernel's half. *)
Definition spread Sp (r : Z) (T' : gmap Z (list Z)) : gmap Z (gmap Z (list Z)) := <[r := T']> (with_kernel T' <$> Sp).

Lemma spread_self Sp r T' : spread Sp r T' !! r = Some T'.
Proof. apply lookup_insert_eq. Qed.

Lemma spread_other Sp r T' r2 T2 : r2 <> r -> Sp !! r2 = Some T2 -> spread Sp r T' !! r2 = Some (with_kernel T' T2).
Proof. intros Hne H2. unfold spread. by rewrite lookup_insert_ne, lookup_fmap, H2. Qed.

Lemma spread_cases Sp r T' r2 T2 : spread Sp r T' !! r2 = Some T2 ->
  (r2 = r /\ T2 = T') \/ (r2 <> r /\ exists T0, Sp !! r2 = Some T0 /\ T2 = with_kernel T' T0).
Proof.
  unfold spread. rewrite lookup_insert_Some. intros [[-> ->]|[Hne Hl]]; [by left | right]. split; [done |].
  rewrite lookup_fmap, fmap_Some in Hl. destruct Hl as (T0 & ? & ->). by exists T0.
Qed.

Section step.
Variables (Sp : gmap Z (gmap Z (list Z))) (s s' : pt_state A) (r : Z) (T T' : gmap Z (list Z)).
Hypothesis Hi : isolated Sp s.
Hypothesis HT : Sp !! r = Some T.
Hypothesis Hst : space_step T s r T' s'.

Lemma step_hhdm : hhdm_offset s' = hhdm_offset s.
Proof. apply (st_config _ _ _ _ _ Hst). Qed.

Lemma step_limit : pa_limit (pt_alloc s') = pa_limit (pt_alloc s).
Proof. apply (st_config _ _ _ _ _ Hst). Qed.

Lemma step_free f : f ∈ pa_free_pages (pt_alloc s') -> f ∈ pa_free_pages (pt_alloc s).
Proof. apply (st_config _ _ _ _ _ Hst). Qed.

(** Tables of the user half of another address space are frames that [T] knows nothing of. *)
Lemma own_used r2 T2 f p : r2 <> r -> Sp !! r2 = Some T2 -> T2 !! f = Some p -> user_path p = true -> used T s f.
Proof.
  intros Hne H2 Hf Hp. split_and!.
  - by apply (is_own _ _ Hi r2 T2 f p).
  - by destruct (wf_frame _ _ (is_wf _ _ Hi r2 T2 H2) f p Hf) as (_ & ? & _).
  - by apply (is_apart _ _ Hi r2 r T2 T f p).
Qed.

Lemma own_absent r2 T2 f p : r2 <> r -> Sp !! r2 = Some T2 -> T2 !! f = Some p -> user_path p = true -> T' !! f = None.
Proof. intros. eapply step_still_used; [exact Hst | by eapply own_used]. Qed.

Lemma lookup_spread r2 T2 f p : r2 <> r -> Sp !! r2 = Some T2 ->
  with_kernel T' T2 !! f = Some p <-> if user_path p then T2 !! f = Some p else T' !! f = Some p.
Proof. intros Hne H2. apply lookup_with_kernel. intros q Hq Hp. right. by apply (own_absent r2 T2 f q). Qed.

Lemma own_entry r2 T2 f p i : r2 <> r -> Sp !! r2 = Some T2 -> T2 !! f = Some p -> user_path p = true -> 0 <= i < 512 ->
  ent (pt_mem s') (hhdm_offset s) f i = ent (pt_mem s) (hhdm_offset s) f i.
Proof.
  intros Hne H2 Hf Hp Hx. unfold ent. apply load_le_ext. intros x Hx2.
  replace x with (f + hhdm_offset s + (x - (f + hhdm_offset s))) by lia.
  apply (st_used _ _ _ _ _ Hst); [by apply (own_used r2 T2 f p) | lia].
Qed.

Lemma other_walk r2 T2 va : r2 <> r -> Sp !! r2 = Some T2 -> user_va va -> s_walk s' r2 va = s_walk s r2 va.
Proof.
  intros Hne H2 Hva. unfold s_walk. rewrite step_hhdm.
  apply (user_walk_same T2); [apply (wf_tree _ _ (is_wf _ _ Hi _ _ H2)) | by apply (is_root _ _ Hi) | done |].
  intros g q i Hg Hq Hi'. by apply (own_entry r2 T2 g q).
Qed.

Lemma other_wf r2 T2 : r2 <> r -> Sp !! r2 = Some T2 -> pt_wf (with_kernel T' T2) s'.
Proof.
  intros Hne H2. pose proof (st_wf _ _ _ _ _ Hst) as Hwf'. pose proof (is_wf _ _ Hi _ _ H2) as Hwf2.
  split; [apply Hwf' | apply Hwf' | apply Hwf' | |].
  - intros f p Hf. apply (lookup_spread r2 T2) in Hf; [| done | done]. destruct (user_path p) eqn:E.
    + destruct (wf_frame _ _ Hwf2 f p Hf) as (? & ? & ?). rewrite step_hhdm. split_and!; [done | | done].
      intros Hx. by apply step_free in Hx.
    + by apply (wf_frame _ _ Hwf').
  - intros f p i g Hf Hp Hx Hk. apply (lookup_spread r2 T2); [done.. |].
    apply (lookup_spread r2 T2) in Hf; [| done | done]. destruct (user_path p) eqn:E.
    + rewrite step_hhdm, (own_entry r2 T2 f p) in Hk by done.
      pose proof (wf_tree _ _ Hwf2 f p i g Hf Hp Hx Hk) as Hg. destruct (user_path (p ++ [i])) eqn:E2; [done |].
      eapply lookup_weaken; [| apply (st_sub _ _ _ _ _ Hst)]. by apply (is_kernel _ _ Hi r2 r T2 T).
    + pose proof (wf_tree _ _ Hwf' f p i g Hf Hp Hx Hk) as Hg. destruct p as [|j p]; [done |].
      cbn [app user_path] in *. by rewrite E.
Qed.

(** A data frame is still one. *)
Lemma data_still f : data_frame Sp s f -> data_frame (spread Sp r T') s' f.
Proof.
  intros Hf r2 T2 H2. pose proof (step_still_used _ _ _ _ _ f Hst (Hf r T HT)) as (Hp & Hfr & HT').
  apply spread_cases in H2 as [[-> ->]|(Hne & T0 & Hq0 & ->)]; [done |]. split_and!; [done | done |].
  destruct (with_kernel T' T0 !! f) as [p|] eqn:E; [| done]. apply (lookup_spread r2 T0) in E; [| done | done].
  destruct (Hf r2 T0 Hq0) as (_ & _ & HT0). destruct (user_path p); congruence.
Qed.

(** A frame that was free and is no table is a data frame now. *)
Lemma data_fresh f : f ∈ pa_free_pages (pt_alloc s) -> used T' s' f -> data_frame (spread Sp r T') s' f.
Proof.
  intros Hf (Hp & Hfr & HT') r2 T2 H2.
  apply spread_cases in H2 as [[-> ->]|(Hne & T0 & Hq0 & ->)]; [done |]. split_and!; [done | done |].
  destruct (with_kernel T' T0 !! f) as [p|] eqn:E; [| done]. apply (lookup_spread r2 T0) in E; [| done | done].
  destruct (user_path p); [| congruence]. by destruct (wf_frame _ _ (is_wf _ _ Hi _ _ Hq0) f p E) as (_ & [] & _).
Qed.

(** Where the changed address space leads. *)
Lemma self_leaf va e l : user_va va -> s_walk s' r va = Some (e, l) ->
  l = O /\ data_frame (spread Sp r T') s' (frame_of e) /\
  forall f, data_frame Sp s f -> (forall va' e' l', user_va va' -> s_walk s r va' = Some (e', l') -> frame_of e' <> f) -> frame_of e <> f.
Proof.
  intros Hva Hw. destruct (st_leaf _ _ _ _ _ Hst va) as [E|(f & w & Hf & Hu & E)]; rewrite Hw in E.
  - symmetry in E. destruct (is_leaf _ _ Hi r T va e l HT Hva E) as [-> Hd]. split_and!; [done | by apply data_still |].
    intros f _ Hn. by apply (Hn va e O).
  - injection E as -> ->. pose proof Hu as ((Hp4 & Hp0 & Hpl) & _).
    pose proof (pa_limit_ok _ (wf_alloc _ _ (st_wf _ _ _ _ _ Hst))). unfold PAGE_SIZE in *.
    rewrite frame_leaf by lia. split_and!; [done | by apply data_fresh |].
    intros g Hg _ <-. by destruct (Hg r T HT) as (_ & [] & _).
Qed.

Lemma other_data r2 T2 va e l : r2 <> r -> Sp !! r2 = Some T2 -> user_va va -> s_walk s' r2 va = Some (e, l) ->
  l = O /\ data_frame Sp s (frame_of e) /\ s_walk s r2 va = Some (e, l).
Proof.
  intros Hne H2 Hva Hw. rewrite (other_walk r2 T2) in Hw by done.
  destruct (is_leaf _ _ Hi r2 T2 va e l H2 Hva Hw). done.
Qed.

Lemma self_other r2 T2 va1 va2 e1 e2 l1 l2 : r2 <> r -> Sp !! r2 = Some T2 -> user_va va1 -> user_va va2 ->
  s_walk s' r va1 = Some (e1, l1) -> s_walk s' r2 va2 = Some (e2, l2) -> frame_of e1 <> frame_of e2.
Proof.
  intros Hne H2 Hv1 Hv2 Hw1 Hw2. destruct (other_data r2 T2 va2 e2 l2 Hne H2 Hv2 Hw2) as (_ & Hd & Hw).
  destruct (self_leaf va1 e1 l1 Hv1 Hw1) as (_ & _ & Hn). apply Hn; [done |].
  intros va' e' l' Hva' Hw'. by apply (is_pages _ _ Hi r r2 va' va2 e' e2 l' l2).
Qed.

Theorem step_isolated : isolated (spread Sp r T') s'.
Proof.
  split.
  - intros r2 T2 [[-> ->]|(Hne & T0 & Hq0 & ->)]%spread_cases; [apply Hst | by apply (other_wf r2)].
  - intros r2 T2 [[-> ->]|(Hne & T0 & Hq0 & ->)]%spread_cases.
    + eapply lookup_weaken; [by apply (is_root _ _ Hi) | apply Hst].
    + apply (lookup_spread r2 T0); [done | done |]. by apply (is_root _ _ Hi).
  - intros r2 T2 f p H2 Hf Hp. rewrite step_limit. apply spread_cases in H2 as [[-> ->]|(Hne & T0 & Hq0 & ->)].
    + destruct (st_new _ _ _ _ _ Hst f p Hf) as [Hf0|Hf0]; [by apply (is_own _ _ Hi r T f p) |].
      apply pa_free_frames; [apply (wf_alloc _ _ (is_wf _ _ Hi _ _ HT)) | done].
    + apply (lookup_spread r2 T0) in Hf; [| done | done]. rewrite Hp in Hf. by apply (is_own _ _ Hi r2 T0 f p).
  - intros r1 r2 T1 T2 f p Hne H1 H2 Hf Hp.
    apply spread_cases in H1 as [[-> ->]|(Hn1 & T1' & H1 & ->)]; apply spread_cases in H2 as [[-> ->]|(Hn2 & T2' & H2 & ->)]; [done | | |].
    + destruct (with_kernel T' T2' !! f) as [q|] eqn:E; [| done]. apply (lookup_spread r2 T2') in E; [| done | done].
      destruct (user_path q) eqn:Eq; [| congruence]. pose proof (own_absent r2 T2' f q Hn2 H2 E Eq). congruence.
    + apply (lookup_spread r1 T1') in Hf; [| done | done]. rewrite Hp in Hf. by apply (own_absent r1 T1' f p).
    + apply (lookup_spread r1 T1') in Hf; [| done | done]. rewrite Hp in Hf.
      destruct (with_kernel T' T2' !! f) as [q|] eqn:E; [| done]. apply (lookup_spread r2 T2') in E; [| done | done].
      pose proof (is_apart _ _ Hi r1 r2 T1' T2' f p Hne H1 H2 Hf Hp). pose proof (own_absent r1 T1' f p Hn1 H1 Hf Hp).
      destruct (user_path q); congruence.
  - intros r1 r2 T1 T2 f p H1 H2 Hf Hp. assert (Hf' : T' !! f = Some p).
    { apply spread_cases in H1 as [[-> ->]|(Hn1 & T1' & H1 & ->)]; [done |].
      apply (lookup_spread r1 T1') in Hf; [| done | done]. by rewrite Hp in Hf. }
    apply spread_cases in H2 as [[-> ->]|(Hn2 & T2' & H2 & ->)]; [done |]. apply (lookup_spread r2 T2'); [done | done |]. by rewrite Hp.
  - intros r2 T2 va e l [[-> ->]|(Hne & T0 & Hq0 & ->)]%spread_cases Hva Hw.
    + by destruct (self_leaf va e l Hva Hw) as (-> & ? & _).
    + destruct (other_data r2 T0 va e l Hne Hq0 Hva Hw) as (-> & ? & _). split; [done |]. by apply data_still.
  - intros r1 r2 va1 va2 e1 e2 l1 l2 Hne [T1 H1] [T2 H2] Hv1 Hv2 Hw1 Hw2.
    apply spread_cases in H1 as [[-> ->]|(Hn1 & T1' & H1 & ->)]; apply spread_cases in H2 as [[-> ->]|(Hn2 & T2' & H2 & ->)]; [done | | |].
    + by apply (self_other r2 T2' va1 va2 e1 e2 l1 l2).
    + intros E. symmetry in E. revert E. by apply (self_other r1 T1' va2 va1 e2 e1 l2 l1).
    + destruct (other_data r1 T1' va1 e1 l1) as (_ & _ & Hw1'); [done.. |].
      destruct (other_data r2 T2' va2 e2 l2) as (_ & _ & Hw2'); [done.. |].
      by apply (is_pages _ _ Hi r1 r2 va1 va2 e1 e2 l1 l2).
Qed.

(** User memory of every other address space. *)
Lemma step_user_byte r2 T2 va : r2 <> r -> Sp !! r2 = Some T2 -> user_va va -> user_byte s' r2 va = user_byte s r2 va.
Proof.
  intros Hne H2 Hva. unfold user_byte, mmu_translate.
  change (mmu_walk (pt_mem s') (hhdm_offset s')) with (s_walk s'). change (mmu_walk (pt_mem s) (hhdm_offset s)) with (s_walk s).
  rewrite (other_walk r2 T2) by done. destruct (s_walk s r2 va) as [[e l]|] eqn:E; [| done].
  destruct (is_leaf _ _ Hi r2 T2 va e l H2 Hva E) as [-> Hd]. cbn [mbind option_bind]. f_equal. rewrite step_hhdm.
  replace (frame_of e + va mod 2 ^ (12 + 9 * Z.of_nat 0) + hhdm_offset s) with (frame_of e + hhdm_offset s + va mod 4096)
    by (change (2 ^ (12 + 9 * Z.of_nat 0)) with 4096; lia).
  apply (st_used _ _ _ _ _ Hst); [by apply (Hd r) | apply Z.mod_pos_bound; lia].
Qed.
End step.
End spaces.

(** ** Writing to a page of a process *)
Section store.
Context {A : Type} `{PageAllocatorLaws A}.
Implicit Types (s : pt_state A) (T : gmap Z (list Z)) (Sp : gmap Z (gmap Z (list Z))).

(** What an observer in the address space [r] can read. *)
Definition same_user_memory (r : Z) s s' : Prop := forall va, user_va va -> user_byte s' r va = user_byte s r va.

#[global] Instance same_user_memory_equiv r : Equivalence (same_user_memory r).
Proof.
  split; [by intros s va | intros s s' Hs va Hva; by rewrite Hs |].
  intros s1 s2 s3 H12 H23 va Hva. by rewrite H23, H12.
Qed.

(** The processor's store of a byte by user code: into a page that is present,
    writable and open to user mode in every table. *)
Definition user_store (root va b : Z) s : pt_state A :=
  match s_walk s root va with
  | Some (e, O) =>
    if page_is_writable e && mmu_user (pt_mem s) (hhdm_offset s) 3 root va
    then with_mem (store8 (frame_of e + hhdm_offset s + va mod 4096) b (pt_mem s)) s else s
  | _ => s
  end.

(** Memory [m] differs from that of [s] in the data frame [f] only. *)
Lemma data_write Sp s f m :
  isolated Sp s -> data_frame Sp s f ->
  (forall x, 0 <= x < 2 ^ 64 -> outside s f x -> load8 m x = load8 (pt_mem s) x) ->
  isolated Sp (with_mem m s) /\
  forall r va, is_Some (Sp !! r) -> s_walk (with_mem m s) r va = s_walk s r va.
Proof.
  intros Hi Hd Hm.
  assert (Hsame : forall r T, Sp !! r = Some T -> pt_wf T (with_mem m s) /\
    forall r' va, T !! r' = Some [] -> s_walk (with_mem m s) r' va = s_walk s r' va).
  { intros r T HT. pose proof (is_wf _ _ Hi r T HT) as Hwf. apply same_tables; [done |]. intros g q x Hg Hx.
    destruct (wf_frame _ _ Hwf _ _ Hg) as (Hgf & _ & _). pose proof Hgf as (? & ? & ? & ?). pose proof (wf_hhdm _ _ Hwf).
    apply Hm; [lia |]. replace x with (g + hhdm_offset s + (x - (g + hhdm_offset s))) by lia.
    apply (frame_outside T); [done | by apply (used_frame T s f Hwf), (Hd r) | | lia].
    intros ->. destruct (Hd r T HT) as (_ & _ & Hn). congruence. }
  assert (Hw : forall r va, is_Some (Sp !! r) -> s_walk (with_mem m s) r va = s_walk s r va).
  { intros r va [T HT]. apply (Hsame r T HT). by apply (is_root _ _ Hi). }
  split; [| exact Hw]. split.
  - intros r T HT. by apply (Hsame r).
  - apply Hi.
  - apply Hi.
  - apply Hi.
  - apply Hi.
  - intros r T va e l HT Hva Hl. rewrite Hw in Hl by (by eexists). by apply (is_leaf _ _ Hi r T va e l).
  - intros r1 r2 va1 va2 e1 e2 l1 l2 Hne H1 H2 Hv1 Hv2 Hl1 Hl2. rewrite Hw in Hl1, Hl2 by done.
    by apply (is_pages _ _ Hi r1 r2 va1 va2 e1 e2 l1 l2).
Qed.

Lemma store_isolated Sp s root va b :
  isolated Sp s -> is_Some (Sp !! root) -> user_va va ->
  isolated Sp (user_store root va b s) /\
  forall r, r <> root -> is_Some (Sp !! r) -> same_user_memory r s (user_store root va b s).
Proof.
  intros Hi Hr Hva. unfold user_store. destruct (s_walk s root va) as [[e [|l]]|] eqn:Ew; [| done | done].
  destruct (page_is_writable e && _); [| done]. destruct Hr as [T HT].
  destruct (is_leaf _ _ Hi root T va e 0 HT Hva Ew) as [_ Hd]. pose proof (is_wf _ _ Hi root T HT) as Hwf.
  pose proof (used_range T s _ Hwf (Hd root T HT)) as (Hp & Hh & Hlim).
  pose proof (Z.mod_pos_bound va 4096 ltac:(lia)) as Hoff. set (m := store8 _ b _).
  assert (Hm : forall x, 0 <= x < 2 ^ 64 -> outside s (frame_of e) x -> load8 m x = load8 (pt_mem s) x).
  { intros x Hx Ho. unfold m, outside in *. rewrite load8_store8, decide_False by lia. done. }
  destruct (data_write Sp s (frame_of e) m Hi Hd Hm) as [Hi' Hw]. split; [done |].
  intros r Hne [T2 H2] va2 Hva2. unfold user_byte, mmu_translate.
  change (mmu_walk (pt_mem (with_mem m s)) (hhdm_offset (with_mem m s))) with (s_walk (with_mem m s)).
  change (mmu_walk (pt_mem s) (hhdm_offset s)) with (s_walk s). rewrite Hw by (by eexists).
  destruct (s_walk s r va2) as [[e2 l2]|] eqn:E2; [| done].
  destruct (is_leaf _ _ Hi r T2 va2 e2 l2 H2 Hva2 E2) as [-> Hd2]. cbn [mbind option_bind pt_mem hhdm_offset with_mem]. f_equal.
  assert (Hf : frame_of e2 <> frame_of e).
  { apply (is_pages _ _ Hi r root va2 va e2 e 0 0); [done | by eexists | by eexists | done.. ]. }
  pose proof (Z.mod_pos_bound va2 4096 ltac:(lia)) as Hoff2.
  pose proof (used_range T2 s _ (is_wf _ _ Hi r T2 H2) (Hd2 r T2 H2)) as (Hp2 & _ & Hlim2).
  change (2 ^ (12 + 9 * Z.of_nat 0)) with 4096. apply Hm; [lia |].
  replace (frame_of e2 + va2 mod 4096 + hhdm_offset s) with (frame_of e2 + hhdm_offset s + va2 mod 4096) by lia.
  apply (frame_outside T); [| | done | done]; apply (used_frame T s _ Hwf); [by apply (Hd2 root) | by apply (Hd root)].
Qed.
End store.

(** ** A new address space *)
Section create.
Context {A : Type} `{PageAllocatorLaws A}.
Implicit Types (s : pt_state A) (T : gmap Z (list Z)) (Sp : gmap Z (gmap Z (list Z))).

(** The kernel's own address space has nothing in the user half. *)
Definition kernel_space Sp (kroot : Z) : Prop :=
  exists TK, Sp !! kroot = Some TK /\ forall f p, TK !! f = Some p -> user_path p = true -> f = kroot.

(** A top-level table that is dropped. *)
Lemma wf_drop T s f : pt_wf T s -> T !! f = Some [] -> pt_wf (delete f T) s.
Proof.
  intros Hwf Hf. split; [apply Hwf | apply Hwf | apply Hwf | |].
  - intros g p [_ Hg]%lookup_delete_Some. by apply (wf_frame _ _ Hwf).
  - intros g p i k [Hne Hg]%lookup_delete_Some Hp Hx Hk. pose proof (wf_tree _ _ Hwf g p i k Hg Hp Hx Hk) as Hc.
    apply lookup_delete_Some. split; [| done]. intros <-. rewrite Hf in Hc. by destruct p.
Qed.

(** No user address is mapped by the kernel. *)
Lemma no_user_tables T s root va : pt_wf T s -> T !! root = Some [] ->
  (forall f p, T !! f = Some p -> user_path p = true -> f = root) -> user_va va -> s_walk s root va = None.
Proof.
  intros Hwf Hk Hu Hva. pose proof (user_va_path va Hva) as Hp. unfold s_walk, mmu_walk. cbn [mmu_slot is_top Nat.eqb].
  destruct (kind_of true _) as [| |g] eqn:E; [done | |].
  - exfalso. revert E. unfold kind_of. destruct (flag_set _ PAGE_PRESENT); done.
  - exfalso. pose proof (wf_tree _ _ Hwf root [] (idx 3 va) g Hk ltac:(cbn; lia) (idx_range 3 va) E) as Hg.
    cbn [app] in Hg. assert (g = root) as -> by (apply (Hu g [idx 3 va] Hg); exact Hp). congruence.
Qed.

Lemma kernel_unmapped Sp s kroot va : isolated Sp s -> kernel_space Sp kroot -> user_va va -> s_walk s kroot va = None.
Proof. intros Hi (TK & HK & Hu). apply (no_user_tables TK); [by apply (is_wf _ _ Hi kroot) | by apply (is_root _ _ Hi) | done]. Qed.

(** The kernel after boot, before there is any process. *)
Lemma kernel_alone T s kroot :
  pt_wf T s -> T !! kroot = Some [] -> (forall f p, T !! f = Some p -> user_path p = true -> f = kroot) ->
  page_frame (pa_limit (pt_alloc s)) kroot -> isolated {[kroot := T]} s /\ kernel_space {[kroot := T]} kroot.
Proof.
  intros Hwf Hk Hu Hf. pose proof (fun va => no_user_tables T s kroot va Hwf Hk Hu) as Hn.
  split; [| exists T; split; [apply lookup_singleton_eq | done]]. split.
  - intros r T0 [<- <-]%lookup_singleton_Some. done.
  - intros r T0 [<- <-]%lookup_singleton_Some. done.
  - intros r T0 f p [<- <-]%lookup_singleton_Some Hp Hq. by rewrite (Hu f p Hp Hq).
  - intros r1 r2 T1 T2 f p Hne [<- <-]%lookup_singleton_Some [<- <-]%lookup_singleton_Some. done.
  - intros r1 r2 T1 T2 f p [<- <-]%lookup_singleton_Some [<- <-]%lookup_singleton_Some. done.
  - intros r T0 va e l [<- <-]%lookup_singleton_Some Hva. by rewrite Hn.
  - intros r1 r2 va1 va2 e1 e2 l1 l2 Hne [T1 [<- _]%lookup_singleton_Some] [T2 [<- _]%lookup_singleton_Some]. done.
Qed.

(** A root [p] that was made inside the kernel's address space becomes one of its own. *)
Section split.
Variables (Sp : gmap Z (gmap Z (list Z))) (s : pt_state A) (kroot p : Z) (T1 : gmap Z (list Z)).
Hypothesis Hi : isolated Sp s.
Hypothesis HK : Sp !! kroot = Some T1.
Hypothesis Hp : T1 !! p = Some [] /\ p <> kroot /\ Sp !! p = None.
Hypothesis Hu : forall f q, T1 !! f = Some q -> user_path q = true -> f = kroot \/ f = p.
Hypothesis Hw : forall va, user_va va -> s_walk s p va = None.

Definition split_space : gmap Z (gmap Z (list Z)) := <[p := delete kroot T1]> (<[kroot := delete p T1]> Sp).

(** Each of the new spaces is part of an old one. *)
Lemma split_cases r T : split_space !! r = Some T ->
  (r = p /\ T = delete kroot T1) \/ (r <> p /\ exists T0, Sp !! r = Some T0 /\ T ⊆ T0 /\
    (r = kroot -> T = delete p T1) /\ (r <> kroot -> T = T0)).
Proof.
  unfold split_space. rewrite lookup_insert_Some, lookup_insert_Some.
  intros [[<- <-]|[Hne [[<- <-]|[Hnk HT]]]]; [by left | right..]; (split; [done |]).
  - exists T1. split_and!; [done | apply delete_subseteq | done | done].
  - by exists T.
Qed.

Lemma split_data f : data_frame Sp s f -> data_frame split_space s f.
Proof.
  intros Hf r T HT. destruct (split_cases r T HT) as [[-> ->]|(Hne & T0 & Hq0 & Hsub & _)].
  - destruct (Hf kroot T1 HK) as (? & ? & Hn). split_and!; [done | done |]. by rewrite lookup_delete_None; right.
  - destruct (Hf r T0 Hq0) as (? & ? & Hn). split_and!; [done | done |]. by eapply lookup_weaken_None.
Qed.

Lemma split_some r : r <> p -> is_Some (split_space !! r) -> is_Some (Sp !! r).
Proof. intros Hne [T HT]. destruct (split_cases r T HT) as [[-> _]|(_ & T0 & ? & _)]; [done | by eexists]. Qed.

(** Tables of the user half of the new spaces. *)
Lemma split_own r T f q : split_space !! r = Some T -> T !! f = Some q -> user_path q = true ->
  (r = p /\ f = p) \/ (r = kroot /\ f = kroot) \/ (r <> p /\ r <> kroot /\ Sp !! r = Some T).
Proof.
  intros HT Hf Hq. destruct (split_cases r T HT) as [[-> ->]|(Hne & T0 & Hq0 & Hsub & Hk & Hnk)].
  - apply lookup_delete_Some in Hf as [Hfk Hf]. destruct (Hu f q Hf Hq); [congruence | by left].
  - destruct (decide (r = kroot)) as [E|E]; [right; left | right; right; by rewrite (Hnk E)].
    rewrite (Hk E) in Hf. apply lookup_delete_Some in Hf as [Hfp Hf]. split; [done |]. destruct (Hu f q Hf Hq); congruence.
Qed.

Lemma split_absent f r T : (f = p /\ r <> p \/ f = kroot /\ r <> kroot) -> split_space !! r = Some T -> T !! f = None.
Proof.
  intros Hf HT. pose proof (is_root _ _ Hi _ _ HK) as Hk. destruct Hp as (Hpp & Hpk & HpS).
  destruct (split_cases r T HT) as [[-> ->]|(Hne & T0 & Hq0 & Hsub & Hkk & Hnk)].
  - destruct Hf as [[-> ?]|[-> _]]; [done | apply lookup_delete_eq].
  - destruct (decide (r = kroot)) as [E|E].
    + rewrite (Hkk E). destruct Hf as [[-> _]|[-> ?]]; [apply lookup_delete_eq | done].
    + rewrite (Hnk E). assert (Hx : T1 !! f = Some []) by (by destruct Hf as [[-> _]|[-> _]]).
      by apply (is_apart _ _ Hi kroot r T1 T0 f []); [congruence | | | |].
Qed.

Theorem split_isolated : isolated split_space s.
Proof.
  pose proof (is_root _ _ Hi _ _ HK) as Hk. destruct Hp as (Hpp & Hpk & HpS). pose proof (is_wf _ _ Hi _ _ HK) as Hwf1. split.
  - intros r T HT. destruct (split_cases r T HT) as [[-> ->]|(Hne & T0 & Hq0 & _ & Hkk & Hnk)]; [by apply wf_drop |].
    destruct (decide (r = kroot)) as [E|E]; [rewrite (Hkk E); by apply wf_drop | rewrite (Hnk E); by apply (is_wf _ _ Hi r)].
  - intros r T HT. destruct (split_cases r T HT) as [[-> ->]|(Hne & T0 & Hq0 & _ & Hkk & Hnk)]; [by rewrite lookup_delete_ne |].
    destruct (decide (r = kroot)) as [E|E]; [rewrite (Hkk E), E; by rewrite lookup_delete_ne | rewrite (Hnk E); by apply (is_root _ _ Hi)].
  - intros r T f q HT Hf Hq. destruct (split_cases r T HT) as [[-> ->]|(Hne & T0 & Hq0 & Hsub & _)].
    + apply lookup_delete_Some in Hf as [_ Hf]. by apply (is_own _ _ Hi kroot T1 f q).
    + apply (is_own _ _ Hi r T0 f q); [done | by eapply lookup_weaken | done].
  - intros r1 r2 T1' T2' f q Hne H1 H2 Hf Hq. destruct (split_own r1 T1' f q H1 Hf Hq) as [[-> ->]|[[-> ->]|(Hn1 & Hn2 & H1')]].
    + apply (split_absent p r2); [left; by split | done].
    + apply (split_absent kroot r2); [right; by split | done].
    + destruct (split_cases r2 T2' H2) as [[-> ->]|(Hnp & T0 & Hq0 & Hsub & _)].
      * apply lookup_delete_None. right. by apply (is_apart _ _ Hi r1 kroot T1' T1 f q).
      * eapply lookup_weaken_None; [by apply (is_apart _ _ Hi r1 r2 T1' T0 f q) | done].
  - intros r1 r2 T1' T2' f q H1 H2 Hf Hq. assert (Hn : f <> p /\ f <> kroot /\ T1 !! f = Some q).
    { destruct (split_cases r1 T1' H1) as [[-> ->]|(Hnp & T0 & Hq0 & Hsub & _)].
      - apply lookup_delete_Some in Hf as [? Hf]. split_and!; [| done | done]. intros ->. rewrite Hpp in Hf. by injection Hf as <-.
      - assert (E : T1 !! f = Some q) by (apply (is_kernel _ _ Hi r1 kroot T0 T1 f q); [done | done | by eapply lookup_weaken | done]).
        split_and!; [| | done]; intros ->; rewrite E in *; [by injection Hpp as -> | by injection Hk as ->]. }
    destruct Hn as (Hfp & Hfk & Hf1). destruct (split_cases r2 T2' H2) as [[-> ->]|(Hnp & T0 & Hq0 & Hsub & Hkk & Hnk)].
    + by rewrite lookup_delete_ne.
    + destruct (decide (r2 = kroot)) as [E|E]; [rewrite (Hkk E); by rewrite lookup_delete_ne | rewrite (Hnk E)].
      by apply (is_kernel _ _ Hi kroot r2 T1 T0 f q).
  - intros r T va e l HT Hva Hl. destruct (decide (r = p)) as [->|Hne]; [by rewrite Hw in Hl |].
    destruct (split_some r Hne (mk_is_Some _ _ HT)) as [T0 Hq0].
    destruct (is_leaf _ _ Hi r T0 va e l Hq0 Hva Hl) as [-> Hd]. split; [done |]. by apply split_data.
  - intros r1 r2 va1 va2 e1 e2 l1 l2 Hne H1 H2 Hv1 Hv2 Hl1 Hl2.
    destruct (decide (r1 = p)) as [->|Hn1]; [by rewrite Hw in Hl1 |]. destruct (decide (r2 = p)) as [->|Hn2]; [by rewrite Hw in Hl2 |].
    by apply (is_pages _ _ Hi r1 r2 va1 va2 e1 e2 l1 l2); [| apply split_some | apply split_some | ..].
Qed.
End split.
End create.

(** ** The kernel's view of all address spaces *)
Section kernel.
Context {A : Type} `{PageAllocatorLaws A}.
Implicit Types (s : pt_state A) (T : gmap Z (list Z)) (Sp : gmap Z (gmap Z (list Z))).

(** No page and no table shows through the direct map between [lo] and [hi]. *)
Definition heap_apart Sp s (lo hi : Z) : Prop := forall x, lo <= x < hi ->
  0 <= x < 2 ^ 64 /\ (forall g, page_frame (pa_limit (pt_alloc s)) g -> outside s g x) /\
  forall r T g, Sp !! r = Some T -> is_Some (T !! g) -> outside s g x.

(** The address spaces of a running kernel, whose own root is [kroot] and whose
    heap lies between [lo] and [hi]. *)
Record spaces_ok (kroot lo hi : Z) Sp s : Prop := {
  so_isolated : isolated Sp s;
  so_kernel : kernel_space Sp kroot;
  so_heap : heap_apart Sp s lo hi;
  so_pml4 : kernel_pml4 s = kroot + hhdm_offset s;
}.

Lemma heap_region kroot lo hi Sp s r T : spaces_ok kroot lo hi Sp s -> Sp !! r = Some T -> kernel_region T s lo hi.
Proof.
  intros [Hi _ Ha _] HT x Hx. destruct (Ha x Hx) as (Hr & Hp & Ht). pose proof (is_wf _ _ Hi _ _ HT) as Hwf. split.
  - split; [done |]. intros g [Hg|Hg]; [| by apply (Ht r T g)]. apply Hp, pa_free_frames; [apply (wf_alloc _ _ Hwf) | done].
  - intros f (Hf & _). by apply Hp.
Qed.

(** The kernel's part of what one address space does. *)
Lemma spread_kernel kroot Sp s s' r T T' :
  isolated Sp s -> Sp !! r = Some T -> space_step T s r T' s' -> r <> kroot -> kernel_space Sp kroot ->
  kernel_space (spread Sp r T') kroot.
Proof.
  intros Hi HT Hst Hr (TK & HK & Hu). exists (with_kernel T' TK).
  assert (Hne : kroot <> r) by congruence. split; [by apply spread_other |].
  intros f p Hf Hp. apply (lookup_spread Sp s s' r T T' Hi HT Hst kroot TK f p Hne HK) in Hf. rewrite Hp in Hf. by apply (Hu f p).
Qed.

Lemma spread_apart Sp s s' r T T' lo hi :
  isolated Sp s -> Sp !! r = Some T -> space_step T s r T' s' -> heap_apart Sp s lo hi -> heap_apart (spread Sp r T') s' lo hi.
Proof.
  intros Hi HT Hst Ha x Hx. destruct (Ha x Hx) as (Hr & Hp & Ht).
  unfold outside in *. rewrite (step_hhdm s s' r T T' Hst), (step_limit s s' r T T' Hst). split; [done |]. split; [done |].
  assert (HT' : forall g, is_Some (T' !! g) -> x < g + hhdm_offset s \/ g + hhdm_offset s + 4096 <= x).
  { intros g [q Hg]. destruct (st_new _ _ _ _ _ Hst g q Hg) as [Hq|Hq]; [by apply (Ht r T g) |].
    apply Hp, pa_free_frames; [apply (wf_alloc _ _ (is_wf _ _ Hi _ _ HT)) | done]. }
  intros r2 T2 g H2 [q Hg]. apply spread_cases in H2 as [[-> ->]|(Hne & T0 & Hq0 & ->)]; [apply HT'; by eexists |].
  apply (lookup_spread Sp s s' r T T' Hi HT Hst r2 T0 g q Hne Hq0) in Hg.
  destruct (user_path q); [apply (Ht r2 T0 g Hq0) | apply HT']; by eexists.
Qed.

Lemma spread_some Sp r T' r2 : is_Some (Sp !! r2) -> is_Some (spread Sp r T' !! r2).
Proof.
  intros [T2 H2]. destruct (decide (r2 = r)) as [->|Hne]; [rewrite spread_self; by eexists |].
  eexists. by apply spread_other.
Qed.

(** The address spaces [Sp] still exist, and but for [X] they have the same user memory. *)
Record advance (kroot lo hi : Z) Sp s (X : option Z) Sp' s' : Prop := {
  ad_ok : spaces_ok kroot lo hi Sp' s';
  ad_some r : is_Some (Sp !! r) -> is_Some (Sp' !! r);
  ad_hhdm : hhdm_offset s' = hhdm_offset s;
  ad_same r : is_Some (Sp !! r) -> r <> kroot -> Some r <> X -> same_user_memory r s s';
}.

Lemma advance_refl kroot lo hi Sp s X : spaces_ok kroot lo hi Sp s -> advance kroot lo hi Sp s X Sp s.
Proof. by split. Qed.

Lemma advance_trans kroot lo hi Sp1 s1 X Sp2 s2 Y Sp3 s3 :
  (forall r, Y = Some r -> is_Some (Sp1 !! r) -> X = Some r) ->
  advance kroot lo hi Sp1 s1 X Sp2 s2 -> advance kroot lo hi Sp2 s2 Y Sp3 s3 -> advance kroot lo hi Sp1 s1 X Sp3 s3.
Proof.
  intros HY [O1 S1 E1 M1] [O2 S2 E2 M2]. split; [done | auto | congruence |]. intros r Hr Hk HX.
  transitivity s2; [auto |]. apply M2; [auto | done |]. intros E. symmetry in E. apply HX. by rewrite (HY r E Hr).
Qed.

(** A step of the process with the root [r]. *)
Lemma advance_step kroot lo hi Sp s s' r T T' :
  spaces_ok kroot lo hi Sp s -> Sp !! r = Some T -> r <> kroot -> space_step T s r T' s' ->
  advance kroot lo hi Sp s (Some r) (spread Sp r T') s'.
Proof.
  intros [Hi Hk Ha Hm] HT Hr Hst. split.
  - split; [by eapply step_isolated | by eapply spread_kernel | by eapply spread_apart |].
    destruct (st_config _ _ _ _ _ Hst) as (-> & _ & _ & -> & _). done.
  - intros r2 Hr2. by apply spread_some.
  - by apply (step_hhdm s s' r T T').
  - intros r2 [T2 H2] _ Hne va Hva. assert (r2 <> r) by congruence. by apply (step_user_byte Sp s s' r T T' Hi HT Hst r2 T2).
Qed.

(** A page mapped in it, or not for lack of memory. *)
Lemma advance_page kroot lo hi Sp s s' r va w :
  spaces_ok kroot lo hi Sp s -> r <> kroot ->
  (exists T T', Sp !! r = Some T /\ (not_mapped T s T' s' \/ exists f, fresh_mapped T s r va f w T' s')) ->
  exists Sp', advance kroot lo hi Sp s (Some r) Sp' s'.
Proof.
  intros Hok Hk (T & T' & HT & Hm). pose proof (is_root _ _ (so_isolated _ _ _ _ _ Hok) r T HT) as Hroot.
  exists (spread Sp r T'). apply (advance_step kroot lo hi Sp s s' r T T'); [done.. |].
  destruct Hm as [Hm|[f Hm]]; [by apply not_mapped_step | by eapply fresh_step].
Qed.

Lemma advance_store kroot lo hi Sp s r va b :
  spaces_ok kroot lo hi Sp s -> is_Some (Sp !! r) -> user_va va ->
  advance kroot lo hi Sp s (Some r) Sp (user_store r va b s).
Proof.
  intros [Hi Hk Ha Hm] Hr Hva. destruct (store_isolated Sp s r va b Hi Hr Hva) as [Hi' Ho].
  assert (Hc : hhdm_offset (user_store r va b s) = hhdm_offset s /\ pt_alloc (user_store r va b s) = pt_alloc s /\
    kernel_pml4 (user_store r va b s) = kernel_pml4 s).
  { unfold user_store. destruct (s_walk s r va) as [[e [|l]]|]; [| done | done]. by destruct (page_is_writable e && _). }
  destruct Hc as (C1 & C2 & C3). split; [| done | done | intros r2 Hr2 _ Hne; apply Ho; [congruence | done]].
  split; [done | done | | congruence]. intros x Hx. unfold outside. rewrite C1, C2. by apply Ha.
Qed.

(** [page_table_create] makes a new address space. *)
Lemma create_step T s kroot : pt_wf T s -> T !! kroot = Some [] -> kernel_pml4 s = kroot + hhdm_offset s ->
  let '(s', table, physical) := page_table_create s in
  (table = NULL /\ physical = None /\ s' = s) \/
  exists p, physical = Some p /\ table = p + hhdm_offset s /\ table <> NULL /\ p ∈ pa_free_pages (pt_alloc s) /\ T !! p = None /\
    space_step T s kroot (<[p := []]> T) s' /\ forall va, s_walk s' p va = s_walk s kroot va.
Proof.
  intros Hwf Hk Hm. pose proof (create_space_spec T s kroot Hwf Hk Hm) as Hc. destruct (page_table_create s) as [[s' table] physical].
  destruct Hc as [?|(p & -> & -> & Hn & _ & HT & Hf & Hwf' & He & Hw & Hp)]; [by left | right].
  exists p. split_and!; try done. apply ext_step; [done | done |]. intros va. left. auto.
Qed.

(** The new root leaves the kernel's address space. *)
Lemma create_advance kroot lo hi Sp s s' p TK :
  spaces_ok kroot lo hi Sp s -> Sp !! kroot = Some TK ->
  space_step TK s kroot (<[p := []]> TK) s' -> p <> kroot -> Sp !! p = None ->
  (forall va, user_va va -> s_walk s' p va = None) ->
  advance kroot lo hi Sp s None (split_space (spread Sp kroot (<[p := []]> TK)) kroot p (<[p := []]> TK)) s'.
Proof.
  intros [Hi (TK' & HK' & Hu) Ha Hm] HK Hst Hpk HpS Hw. assert (TK' = TK) as -> by congruence. set (T1 := <[p := []]> TK) in *.
  pose proof (step_isolated Sp s s' kroot TK T1 Hi HK Hst) as Hi1.
  assert (HK1 : spread Sp kroot T1 !! kroot = Some T1) by apply spread_self.
  assert (Hp1 : T1 !! p = Some [] /\ p <> kroot /\ spread Sp kroot T1 !! p = None).
  { split_and!; [apply lookup_insert_eq | done |]. unfold spread. by rewrite lookup_insert_ne, lookup_fmap, HpS. }
  assert (Hu1 : forall f q, T1 !! f = Some q -> user_path q = true -> f = kroot \/ f = p).
  { intros f q [[<- _]|[_ Hq]]%lookup_insert_Some Hq2; [by right | left; by apply (Hu f q)]. }
  pose proof (spread_apart Sp s s' kroot TK T1 lo hi Hi HK Hst Ha) as Ha1. split; [split | | |].
  - by apply split_isolated.
  - exists (delete p T1). split; [unfold split_space; by rewrite lookup_insert_ne, lookup_insert_eq by congruence |].
    intros f q [Hfp Hq]%lookup_delete_Some Hq2. destruct (Hu1 f q Hq Hq2); [done | congruence].
  - intros x Hx. destruct (Ha1 x Hx) as (Hr & Hg & Ht). split; [done |]. split; [done |].
    intros r T g HT [q Hq]. destruct (split_cases (spread Sp kroot T1) kroot p T1 HK1 r T HT) as [[-> ->]|(_ & T0 & Hq0 & Hsub & _)].
    + apply lookup_delete_Some in Hq as [_ Hq]. apply (Ht kroot T1 g HK1). by eexists.
    + apply (Ht r T0 g Hq0). exists q. by eapply lookup_weaken.
  - destruct (st_config _ _ _ _ _ Hst) as (-> & _ & _ & -> & _). done.
  - intros r Hr. unfold split_space. destruct (decide (r = p)) as [->|Hn1]; [rewrite lookup_insert_eq; by eexists |].
    rewrite lookup_insert_ne by done. destruct (decide (r = kroot)) as [->|Hn2]; [rewrite lookup_insert_eq; by eexists |].
    rewrite lookup_insert_ne by done. by apply spread_some.
  - by apply (step_hhdm s s' kroot TK T1).
  - intros r [T2 H2] Hr _ va Hva. by apply (step_user_byte Sp s s' kroot TK T1 Hi HK Hst r T2).
Qed.

Lemma create_spaces kroot lo hi Sp s :
  spaces_ok kroot lo hi Sp s ->
  let '(s', table, physical) := page_table_create s in
  (table = NULL /\ physical = None /\ s' = s) \/
  exists p Sp', physical = Some p /\ table = p + hhdm_offset s' /\ table <> NULL /\ p <> kroot /\ Sp !! p = None /\
    is_Some (Sp' !! p) /\ advance kroot lo hi Sp s None Sp' s'.
Proof.
  intros Hok. pose proof Hok as [Hi Hks Ha Hm]. pose proof Hks as (TK & HK & Hu).
  pose proof (create_step TK s kroot (is_wf _ _ Hi _ _ HK) (is_root _ _ Hi _ _ HK) Hm) as Hc.
  destruct (page_table_create s) as [[s' table] physical].
  destruct Hc as [?|(p & -> & -> & Hn & Hf & Hp & Hst & Hw)]; [by left | right].
  set (T1 := <[p := []]> TK) in *.
  assert (Hpk : p <> kroot) by (intros ->; rewrite (is_root _ _ Hi _ _ HK) in Hp; done).
  assert (HpS : Sp !! p = None).
  { destruct (Sp !! p) as [T|] eqn:E; [| done]. pose proof (is_root _ _ Hi _ _ E) as Hr.
    by destruct (wf_frame _ _ (is_wf _ _ Hi _ _ E) p [] Hr) as (_ & [] & _). }
  exists p, (split_space (spread Sp kroot T1) kroot p T1).
  split; [done |]. split; [by rewrite (step_hhdm s s' kroot TK T1 Hst) |]. do 3 (split; [done |]).
  split; [unfold split_space; rewrite lookup_insert_eq; by eexists |].
  apply (create_advance kroot lo hi Sp s s' p TK); [done | done | done | done | done |].
  intros va Hva. rewrite Hw. by apply (kernel_unmapped Sp s kroot).
Qed.
End kernel.
