(* ===== verification/ProcessTable.v ===== *)
(** * The list of processes, and leaving it

    [process_lookup] and [process_destroy] over the list that [process_list]
    starts; [process_exit], which ends the current task. *)
From S2P Require Import Prelude PageAllocator Memory KAlloc Fd Elf TaskQueue PageTable PageTableSpec System Scheduler SchedulerSpec SchedulerProps Process.
Import Mem Task Scheduler Process.
#[local] Open Scope Z_scope.

Section table.
Context {K A : Type} `{KAlloc K} `{PageAllocator A}.
Implicit Types s : sys K A.

(** ** The chain of processes *)
Fixpoint p_chain (m : gmap Z process_t) (p : Z) (l : list Z) : Prop :=
  match l with
  | [] => p = NULL
  | q :: l' => p = q /\ q <> NULL /\ exists r, m !! q = Some r /\ p_chain m (p_next r) l'
  end.

Definition proc_list s (l : list Z) : Prop := p_chain (ps s) (process_list s) l /\ NoDup l.

Definition pid_of s (p : Z) : option Z := pid <$> ps s !! p.

Lemma chain_in m p l q : p_chain m p l -> q ∈ l -> q <> NULL /\ is_Some (m !! q).
Proof.
  revert p; induction l as [|x l IH]; intros p Hc Hq; [by apply elem_of_nil in Hq |].
  destruct Hc as (-> & Hx & r & Hr & Hc). apply elem_of_cons in Hq as [->|Hq]; [by eauto | by eapply IH].
Qed.

Lemma chain_length m p l : p_chain m p l -> NoDup l -> (length l <= size m)%nat.
Proof.
  intros Hc Hnd. rewrite <- size_dom. rewrite <- (size_list_to_set (C := gset Z)) by done.
  apply subseteq_size. intros q Hq. apply elem_of_list_to_set in Hq. apply elem_of_dom. by eapply chain_in.
Qed.

(** Other entries of the map do not matter. *)
Lemma chain_ext m m' p l : (forall q, q ∈ l -> p_next <$> m' !! q = p_next <$> m !! q) -> p_chain m p l -> p_chain m' p l.
Proof.
  revert p; induction l as [|x l IH]; intros p He Hc; [done |]. destruct Hc as (-> & Hx & r & Hr & Hc).
  split; [done |]. split; [done |]. pose proof (He x ltac:(by left)) as E. rewrite Hr in E.
  destruct (m' !! x) as [r'|]; [| done]. injection E as E. exists r'. split; [done |]. rewrite E.
  apply IH; [| done]. intros q Hq. apply He. by right.
Qed.

(** ** Lookup *)
Lemma process_lookup_loop_spec l : forall fuel p n s, (length l < fuel)%nat -> p_chain (ps s) p l ->
  exists r, lookup_loop fuel p n s = Some r /\
    ((r = NULL /\ forall q, q ∈ l -> pid_of s q <> Some n) \/
     (exists l1 l2, l = l1 ++ r :: l2 /\ pid_of s r = Some n /\ forall q, q ∈ l1 -> pid_of s q <> Some n)).
Proof.
  induction l as [|x l IH]; intros [|fuel] p n s Hf Hc; cbn [length] in *; try lia; cbn [lookup_loop].
  - rewrite Hc. exists NULL. split; [done |]. left. split; [done |]. by intros q ?%elem_of_nil.
  - destruct Hc as (-> & Hx & r & Hr & Hc). destruct (Z.eqb_spec x NULL); [done |]. rewrite Hr. cbn [mbind option_bind].
    destruct (Z.eqb_spec (pid r) n) as [E|E].
    + exists x. split; [done |]. right. exists [], l. split; [done |]. unfold pid_of. rewrite Hr. split; [by rewrite <- E |].
      by intros q ?%elem_of_nil.
    + destruct (IH fuel (p_next r) n s ltac:(lia) Hc) as (y & -> & Hy). exists y. split; [done |].
      assert (Hxn : pid_of s x <> Some n) by (unfold pid_of; rewrite Hr; intros [= ?]; done).
      destruct Hy as [[-> Hno]|(l1 & l2 & -> & Hy & Hno)]; [left | right].
      * split; [done |]. by intros q [->|Hq]%elem_of_cons; [| apply Hno].
      * exists (x :: l1), l2. split; [done |]. split; [done |]. by intros q [->|Hq]%elem_of_cons; [| apply Hno].
Qed.

(** [process_lookup] ends on every process list and returns the first process
    with the number asked for, or NULL exactly when no process has it. *)
Theorem process_lookup_correct s l n (Hl : proc_list s l) :
  exists r, process_lookup n s = Some r /\
    ((r = NULL /\ forall q, q ∈ l -> pid_of s q <> Some n) \/
     (exists l1 l2, l = l1 ++ r :: l2 /\ pid_of s r = Some n /\ forall q, q ∈ l1 -> pid_of s q <> Some n)).
Proof.
  destruct Hl as [Hc Hnd]. pose proof (chain_length _ _ _ Hc Hnd). by apply process_lookup_loop_spec; [lia |].
Qed.

(** ** Destruction *)

(** Removing [process], which follows the processes [l1], from a chain. *)
Lemma unlink_chain m x r process p l1 l2 h :
  p_chain m h (l1 ++ x :: process :: l2) -> NoDup (l1 ++ x :: process :: l2) ->
  m !! x = Some r -> m !! process = Some p ->
  p_chain (<[x := setp_next (p_next p) r]> m) h (l1 ++ x :: l2).
Proof.
  revert h; induction l1 as [|y l1 IH]; intros h Hc Hnd Hr Hp; cbn [app p_chain] in *.
  - destruct Hc as (-> & Hx & r' & Hr' & (Hn & Hp0 & p' & Hp' & Hc)). assert (r' = r) as -> by congruence.
    assert (p' = p) as -> by congruence. split; [done |]. split; [done |]. exists (setp_next (p_next p) r).
    split; [apply lookup_insert_eq |]. cbn. eapply chain_ext; [| exact Hc]. intros q Hq. rewrite lookup_insert_ne; [done |].
    intros ->. apply NoDup_cons in Hnd as [Hnd _]. apply Hnd. by right.
  - destruct Hc as (-> & Hy & ry & Hry & Hc). split; [done |]. split; [done |]. apply NoDup_cons in Hnd as [Hy' Hnd].
    exists ry. split; [| by apply IH]. rewrite lookup_insert_ne; [done |]. intros ->. apply Hy'. set_solver.
Qed.

Lemma unlink_loop_spec l : forall fuel h process p pre s,
  (length l < fuel)%nat -> p_chain (ps s) h l -> ps s !! process = Some p -> process <> NULL ->
  NoDup (pre ++ l) -> hd_error l <> Some process ->
  exists s', unlink_loop fuel h process s = Some s' /\
    ((s' = s /\ (process ∉ l)) \/
     exists l1 x l2 r, l = l1 ++ x :: process :: l2 /\ ps s !! x = Some r /\
       s' = with_ps (<[x := setp_next (p_next p) r]> (ps s)) s).
Proof.
  induction l as [|x l IH]; intros [|fuel] h process p pre s Hf Hc Hp Hp0 Hnd Hhd; cbn [length] in *; try lia; cbn [unlink_loop].
  - rewrite Hc. exists s. split; [done |]. left. split; [done |]. by intros ?%elem_of_nil.
  - destruct Hc as (-> & Hx & r & Hr & Hc). destruct (Z.eqb_spec x NULL); [done |]. rewrite Hr. cbn [mbind option_bind].
    destruct (Z.eqb_spec (p_next r) process) as [E|E].
    + rewrite Hp. cbn [mbind option_bind]. unfold update_process. rewrite Hr. cbn [mbind option_bind].
      eexists. split; [done |]. right. destruct l as [|y l]; [cbn in Hc; congruence |]. destruct Hc as (E2 & _).
      exists [], x, l, r. split; [cbn; congruence |]. done.
    + destruct (IH fuel (p_next r) process p (pre ++ [x]) s ltac:(lia) Hc Hp Hp0) as (s' & -> & Hs').
      * by rewrite <- app_assoc.
      * destruct l as [|y l]; [done |]. destruct Hc as (E2 & _). cbn. congruence.
      * exists s'. split; [done |]. destruct Hs' as [[-> Hni]|(l1 & y & l2 & ry & -> & Hry & ->)]; [left | right].
        -- split; [done |]. intros [->|Hq]%elem_of_cons; [by apply Hhd | done].
        -- by exists (x :: l1), y, l2, ry.
Qed.

(** The rest of every process but its link. *)
Definition same_but_link (m m' : gmap Z process_t) : Prop :=
  forall q, setp_next NULL <$> m' !! q = setp_next NULL <$> m !! q.

Lemma filter_ne_app (p : Z) (l1 l2 : list Z) :
  (p ∉ l1) -> (p ∉ l2) -> filter (.≠ p) (l1 ++ p :: l2) = l1 ++ l2.
Proof.
  intros H1 H2. assert (Hall : forall l : list Z, p ∉ l -> filter (.≠ p) l = l).
  { intros l Hl. apply filter_all. apply Forall_forall. intros q Hq ->. done. }
  rewrite filter_app, filter_cons, decide_False by (by intros []). by rewrite !Hall.
Qed.

Lemma process_destroy_spec s l process :
  proc_list s l -> is_Some (ps s !! process) -> process <> NULL ->
  exists s', process_destroy process s = Some s' /\ proc_list s' (filter (.≠ process) l) /\
    ps s' !! process = None /\ same_but_link (delete process (ps s)) (ps s') /\
    heap s' = ka_free process (heap s) /\ ts s' = ts s /\ pt s' = pt s.
Proof.
  intros [Hc Hnd] [p Hp] Hp0. pose proof (chain_length _ _ _ Hc Hnd) as Hlen.
  unfold process_destroy. destruct (Z.eqb_spec process NULL); [done |].
  destruct (Z.eqb_spec (process_list s) process) as [E|E].
  - rewrite Hp. cbn [mbind option_bind]. eexists. split; [reflexivity |].
    destruct l as [|x l]; [cbn in Hc; congruence |]. destruct Hc as (Ex & Hx & r & Hr & Hc).
    assert (x = process) as -> by congruence. assert (r = p) as -> by congruence. apply NoDup_cons in Hnd as [Hni Hnd].
    pose proof (filter_ne_app process [] l ltac:(by intros ?%elem_of_nil) Hni) as Hfl. cbn [app] in Hfl. rewrite Hfl.
    split_and!; try done; [split; [| done] | by cbn; rewrite lookup_delete_eq].
    cbn. eapply chain_ext; [| exact Hc]. intros q Hq. rewrite lookup_delete_ne; [done |]. by intros <-.
  - destruct (unlink_loop_spec l (S (size (ps s))) (process_list s) process p [] s) as (s1 & -> & Hs1); try done; [lia | |].
    { destruct l as [|x l]; [done |]. destruct Hc as (Ex & _). cbn. congruence. }
    cbn [mbind option_bind]. eexists. split; [reflexivity |].
    destruct Hs1 as [[-> Hni]|(l1 & x & l2 & r & -> & Hr & ->)].
    + rewrite filter_all by (apply Forall_forall; intros q Hq ->; done).
      split_and!; try done; [split; [| done] | by cbn; rewrite lookup_delete_eq].
      cbn. eapply chain_ext; [| exact Hc]. intros q Hq. rewrite lookup_delete_ne; [done |]. by intros <-.
    + pose proof (unlink_chain _ x r process p l1 l2 _ Hc Hnd Hr Hp) as Hc'.
      replace (l1 ++ x :: process :: l2) with ((l1 ++ [x]) ++ process :: l2) in * by (by rewrite <- app_assoc).
      apply NoDup_app in Hnd as (Hnd1 & Hd & Hnd2). apply NoDup_cons in Hnd2 as [Hni2 Hnd2].
      assert (Hni1 : process ∉ l1 ++ [x]) by (intros Hin; apply (Hd _ Hin); by left).
      rewrite (filter_ne_app process (l1 ++ [x]) l2) by done.
      assert (Hxp : x <> process) by (intros ->; set_solver).
      split_and!; try done; [split | by cbn; rewrite lookup_delete_eq |].
      * cbn. rewrite <- app_assoc. cbn [app]. eapply chain_ext; [| exact Hc']. intros q Hq. rewrite lookup_delete_ne; [done |].
        intros <-. apply elem_of_app in Hq as [Hq|[->|Hq]%elem_of_cons]; [apply Hni1; set_solver | done | done].
      * apply NoDup_app. split; [done |]. split; [| done]. intros q Hq Hq2. apply (Hd q Hq). by right.
      * intros q. cbn. destruct (decide (q = process)) as [->|Hq]; [by rewrite !lookup_delete_eq |].
        rewrite !lookup_delete_ne by done. rewrite lookup_insert. case_decide; [subst q; by rewrite Hr | done].
Qed.

(** C31: [process_destroy] takes exactly the given process out of the list and frees
    it; every other process keeps its place and, but for the link over the gap, its
    contents. *)
Theorem process_destroy_correct s l process (Hl : proc_list s l) (Hp : is_Some (ps s !! process)) (Hp0 : process <> NULL) :
  exists s', process_destroy process s = Some s' /\ proc_list s' (filter (.≠ process) l) /\
    ps s' !! process = None /\ same_but_link (delete process (ps s)) (ps s') /\
    heap s' = ka_free process (heap s) /\ ts s' = ts s /\ pt s' = pt s.
Proof. by apply process_destroy_spec. Qed.
End table.

(** ** Leaving *)
Section exit.
Context {K A : Type} `{KAlloc K}.
Implicit Types s : sys K A.

(** The running task leaves for good. *)
Definition abs_exit (v : view) : view :=
  abs_dispatch (mk_view (v_ready v) (v_blocked v) (v_sleeping v) (v_parked v) (v_current v) false (v_idle v)).

Lemma terminate_inv s s' v u :
  sched_inv s v -> v_running v = true -> U s !! v_current v = Some u ->
  U s' = <[v_current v := set_state TASK_TERMINATED u]> (U s) -> frame_q s s' ->
  linked s' (v_ready v) (v_blocked v) (v_sleeping v) ->
  sched_inv s' (mk_view (v_ready v) (v_blocked v) (v_sleeping v) (v_parked v) (v_current v) false (v_idle v)).
Proof.
  intros Hi Hr Hu HU Hf Hl. destruct (running_current s v Hi Hr) as (Hci & w & Hw & Hws).
  assert (u = w) as -> by congruence.
  destruct (unqueued s v _ w Hi Hw) as [Hq Hpk]; [by rewrite Hws .. |].
  destruct (si_current _ _ Hi) as [Hvc Hsome].
  destruct Hf as ((Hid & Hps & _ & _ & _ & _ & _ & _ & Hpend) & Hc & _).
  assert (Hne : forall q (l : list Z), (v_current v ∉ l) -> q ∈ l -> q <> v_current v /\ q ∈ l)
    by (intros q l Hnl Hin; split; [by intros -> | done]).
  apply (inv_update s s' v _ (v_current v) w (set_state TASK_TERMINATED w)); cbn; try done.
  - by rewrite Hc.
  - by rewrite Hc.
  - split; [done | by intros [_ ?]].
  - intros q Hqc. rewrite Hr. split; [by intros [? _] | by intros [_ ?]].
  - intros q Hin. right. apply Hne; [set_solver | done].
  - intros q Hin. right. apply Hne; [set_solver | done].
  - intros q Hin. right. apply Hne; [set_solver | done].
  - intros q Hin. by apply Hne.
  - apply (si_parked_nodup _ _ Hi).
Qed.

Lemma task_exit_spec s v :
  sched_inv s v -> v_running v = true ->
  exists s' w, task_exit s = Some (s', Switched w [irq_enabled s]) /\ sched_inv s' (abs_exit v) /\ frame s s' /\
    current_task s' <> current_task s.
Proof.
  intros Hi Hr. destruct (running_current s v Hi Hr) as (Hci & u & Hu & Hus).
  destruct (unqueued s v _ u Hi Hu) as [Hq _]; [by rewrite Hus .. |].
  destruct (si_current _ _ Hi) as [Hvc _]. destruct (U_lookup _ _ _ Hu) as (t & Ht & _). unfold task_exit. rewrite <- Hvc, Ht.
  cbn [mbind option_bind].
  destruct (update_task_spec (v_current v) (set_state TASK_TERMINATED) s u _ _ _ ltac:(done) Hu (si_linked _ _ Hi))
    as (s1 & -> & HU1 & Hl1 & Hf1). cbn [mbind option_bind].
  pose proof (terminate_inv s s1 v u Hi Hr Hu HU1 Hf1 Hl1) as Hi1.
  destruct (yield_spec s1 _ Hi1) as (s2 & o & -> & Hi2 & Hf2 & _ & _ & _ & _ & Hsw).
  unfold abs_yield, abs_requeue in *. cbn [v_running] in *. fold (abs_exit v) in *.
  destruct Hf1 as (Hf1 & Hc1 & _ & _ & _ & _ & Hirq1).
  assert (Hn : v_current (abs_exit v) <> current_task s1).
  { rewrite Hc1, <- Hvc. unfold abs_exit, abs_dispatch. cbn. destruct (si_idle _ _ Hi) as [Hvi _].
    destruct (v_ready v) as [|r R] eqn:E; cbn; [congruence |]. intros ->. apply Hq. by left. }
  destruct (Hsw Hn) as [-> _]. rewrite Hirq1. eexists _, _. split; [done |]. split; [done |].
  split; [by apply (frame_trans s s1 s2) |]. destruct (si_current _ _ Hi2) as [Hc2 _]. congruence.
Qed.

(** The process once it has exited. *)
Definition exited (code : Z) (p : process_t) : process_t := setp_exit_code code (setp_state PROCESS_EXITED p).

(** [process_exit] records the exit code, never returns to its caller, and
    leaves the caller's task in no queue, so that no scheduler call can run it
    again; the next ready task, or the idle task, runs. *)
Theorem process_exit_correct s v code t p
    (Hi : sched_inv s v) (Hr : v_running v = true) (Ht : ts s !! current_task s = Some t)
    (Hp0 : t_process t <> NULL) (Hp : ps s !! t_process t = Some p) :
  exists s' w, process_exit code s = Some (s', Switched w [irq_enabled s]) /\
    ps s' = <[t_process t := exited code p]> (ps s) /\ sched_inv s' (abs_exit v) /\
    current_task s' <> current_task s /\
    let v' := abs_exit v in
    (current_task s ∉ v_ready v' ++ v_blocked v' ++ v_sleeping v') /\ (current_task s ∉ v_parked v').
Proof.
  destruct (running_current s v Hi Hr) as (Hci & u & Hu & Hus). pose proof (si_here _ _ Hi Hr) as Hne.
  destruct (unqueued s v _ u Hi Hu) as [Hq Hpk]; [by rewrite Hus .. |].
  destruct (si_current _ _ Hi) as [Hvc _]. rewrite Hvc in Hne, Hq, Hpk.
  unfold process_exit, process_current. destruct (Z.eqb_spec (current_task s) NULL); [done |]. rewrite Ht.
  cbn [mbind option_bind]. destruct (Z.eqb_spec (t_process t) NULL); [done |].
  unfold update_process. rewrite Hp. cbn [mbind option_bind]. set (s1 := with_ps _ s).
  assert (Hi1 : sched_inv s1 v).
  { apply (inv_same s s1 v Hi); [done |]. intros q Hq'. cbn. apply lookup_insert_is_Some'. by right. }
  destruct (task_exit_spec s1 v Hi1 Hr) as (s2 & w & E & Hi2 & Hf2 & Hc2).
  exists s2, w. split; [exact E |]. split; [by destruct Hf2 as (_ & -> & _) |]. split; [done |]. split; [exact Hc2 |].
  cbv zeta. unfold abs_exit, abs_dispatch. cbn. destruct (v_ready v); cbn; [done |]. split; [set_solver | done].
Qed.
End exit.
