(* ===== verification/ProcessImage.v ===== *)
(** * ELF images in memory, and images that move

    What [process_exec] reads of an image: its headers and the bytes of its
    segments.  They depend on the bytes of the image only, not on its address
    ([runnable_moved]), so that a program can be copied into a buffer and run. *)
From S2P Require Import Prelude Memory Elf PageTableSpec ProcessMemory.
Import Mem.
#[local] Open Scope Z_scope.

(** ** Images whose bytes stay the same *)
Section image.
Variables (m : mem) (image len : Z).
Hypothesis Hok : Elf.image_ok m image len.

Definition same_image (m' : mem) : Prop := forall x, image <= x < image + len -> load8 m' x = load8 m x.

Lemma image_headers m' : same_image m' ->
  Elf.e_phnum m' image = Elf.e_phnum m image /\
  forall i, Elf.elf_program_header m' image i = Elf.elf_program_header m image i.
Proof.
  intros Hs. destruct (Elf.io_range _ _ _ Hok) as (? & ? & ?).
  assert (Hl : forall n o, 0 <= o -> o + Z.of_nat n <= 64 -> load_le n m' (image + o) = load_le n m (image + o))
    by (intros n o Ho Hn; apply load_le_ext; intros x Hx; apply Hs; lia).
  unfold Elf.elf_program_header, Elf.e_phnum, Elf.e_phoff, Elf.e_phentsize, load16, load64.
  rewrite !Hl by lia. done.
Qed.

Lemma image_segment m' i : same_image m' -> Elf.loadable m image i ->
  same_header (Elf.elf_program_header m image i) m m'.
Proof.
  intros Hs (Hr & Hn & _) x Hx. destruct (Elf.io_header _ _ _ Hok i Hr Hn). apply Hs. lia.
Qed.

Lemma loadable_or_not i : 0 <= i < Elf.e_phnum m image ->
  Elf.loadable m image i \/
  (Elf.elf_program_header m image i = NULL \/ Elf.p_type m (Elf.elf_program_header m image i) <> Elf.PT_LOAD).
Proof.
  intros Hi. unfold Elf.loadable. destruct (decide (Elf.elf_program_header m image i = NULL)); [by right; left |].
  destruct (decide (Elf.p_type m (Elf.elf_program_header m image i) = Elf.PT_LOAD)); [by left | by right; right].
Qed.

(** The byte of segment [i] at offset [k]. *)
Definition segment_byte (i k : Z) : Z :=
  if k <? Elf.filesz m image i then load8 m (image + Elf.offset m image i + k) else 0.
End image.

(** An image a process can run: its segments are page aligned, in the user half
    and on pages of their own, and the entry point is in one of them. *)
Record runnable (m : mem) (image len : Z) : Prop := {
  ru_image : Elf.image_ok m image len;
  ru_valid : Elf.elf_validate m image = KERNEL_SUCCESS;
  ru_pages i : Elf.loadable m image i -> Elf.vaddr m image i mod 4096 = 0 /\
    Elf.vaddr m image i + Elf.memsz m image i <= 2 ^ 47;
  ru_apart i j k l : Elf.loadable m image i -> Elf.loadable m image j -> i <> j ->
    0 <= k < Elf.memsz m image i -> 0 <= l < Elf.memsz m image j ->
    page_of (Elf.vaddr m image i + k) <> page_of (Elf.vaddr m image j + l);
  ru_entry : exists i, Elf.loadable m image i /\
    Elf.vaddr m image i <= Elf.e_entry m image < Elf.vaddr m image i + Elf.memsz m image i;
}.

(** ** The image at another address, or in another memory *)
Section moved.
Variables (m m' : mem) (a a' len : Z).
Hypothesis Hrun : runnable m a len.
Hypothesis Hmove : forall x, 0 <= x < len -> load8 m' (a' + x) = load8 m (a + x).
Hypothesis Hrange : 0 < a' /\ a' + len < 2 ^ 64.
Hypothesis Hheads : a' = a \/
  forall i, 0 <= i < Elf.e_phnum m a -> Elf.elf_program_header m a i <> NULL.

Lemma moved_word n o : 0 <= o -> o + Z.of_nat n <= len -> load_le n m' (a' + o) = load_le n m (a + o).
Proof.
  intros Ho Hn. rewrite (load_le_shift n m' m (a' + o) (a - a')); [f_equal; lia |].
  intros x Hx. rewrite <- (Z.add_0_l (load8 m' x)).
  replace x with (a' + (x - a')) at 1 by lia. rewrite Hmove by lia. rewrite Z.add_0_l. f_equal. lia.
Qed.

Lemma moved_phnum : Elf.e_phnum m' a' = Elf.e_phnum m a.
Proof. destruct (Elf.io_range _ _ _ (ru_image _ _ _ Hrun)) as (_ & ? & _). apply (moved_word 2 56); lia. Qed.

Lemma moved_head i : 0 <= i < Elf.e_phnum m a ->
  Elf.elf_program_header m' a' i =
    if decide (Elf.elf_program_header m a i = NULL) then NULL else Elf.elf_program_header m a i + (a' - a).
Proof.
  intros Hi. destruct (Elf.io_range _ _ _ (ru_image _ _ _ Hrun)) as (Ha0 & Hlen & _).
  pose proof (Elf.io_header _ _ _ (ru_image _ _ _ Hrun) i Hi) as Hh. revert Hh.
  assert (Hn : Elf.elf_program_header m a i <> NULL \/ a' = a) by (destruct Hheads as [?|H0]; [by right | left; by apply H0]).
  revert Hn. unfold Elf.elf_program_header. rewrite moved_phnum.
  assert (Eo : Elf.e_phoff m' a' = Elf.e_phoff m a) by (apply (moved_word 8 32); lia).
  assert (Es : Elf.e_phentsize m' a' = Elf.e_phentsize m a) by (apply (moved_word 2 54); lia).
  rewrite Eo, Es. destruct (Z.eqb_spec a NULL); [unfold NULL in *; lia |].
  destruct (Z.eqb_spec a' NULL); [unfold NULL in *; lia |]. rewrite Z.geb_leb.
  destruct (Z.leb_spec (Elf.e_phnum m a) i); [lia |].
  set (o := Elf.e_phoff m a + i32 (i * Elf.e_phentsize m a)).
  replace (a + Elf.e_phoff m a + i32 (i * Elf.e_phentsize m a)) with (a + o) by lia.
  replace (a' + Elf.e_phoff m a + i32 (i * Elf.e_phentsize m a)) with (a + o + (a' - a)) by lia.
  rewrite <- (u64_add_l (a + o)). intros Hn Hh. case_decide as Hd.
  - destruct Hn as [?| ->]; [done |]. rewrite Hd. by replace (NULL + (a - a)) with 0 by (unfold NULL; lia).
  - specialize (Hh Hd). apply u64_id. lia.
Qed.

Lemma moved_null i : 0 <= i < Elf.e_phnum m a ->
  Elf.elf_program_header m' a' i = NULL <-> Elf.elf_program_header m a i = NULL.
Proof.
  intros Hi. rewrite (moved_head i Hi). case_decide as Hd; [done |].
  destruct (Elf.io_header _ _ _ (ru_image _ _ _ Hrun) i Hi Hd). unfold NULL in *. lia.
Qed.

Lemma moved_fields i : 0 <= i < Elf.e_phnum m a -> Elf.elf_program_header m a i <> NULL ->
  let ph := Elf.elf_program_header m a i in let ph' := Elf.elf_program_header m' a' i in
  Elf.p_type m' ph' = Elf.p_type m ph /\ Elf.p_offset m' ph' = Elf.p_offset m ph /\
  Elf.p_vaddr m' ph' = Elf.p_vaddr m ph /\ Elf.p_filesz m' ph' = Elf.p_filesz m ph /\ Elf.p_memsz m' ph' = Elf.p_memsz m ph.
Proof.
  intros Hi Hn ph ph'. destruct (Elf.io_header _ _ _ (ru_image _ _ _ Hrun) i Hi Hn) as [H1 H2]. fold ph in H1, H2.
  assert (E : ph' = ph + (a' - a)) by (unfold ph'; rewrite moved_head, decide_False by done; done).
  assert (Hw : forall n o, 0 <= o -> o + Z.of_nat n <= 56 -> load_le n m' (ph' + o) = load_le n m (ph + o)).
  { intros n o Ho Hno. rewrite E. replace (ph + (a' - a) + o) with (a' + (ph - a + o)) by lia.
    rewrite moved_word by lia. f_equal. lia. }
  pose proof (Hw 4%nat 0 ltac:(lia) ltac:(lia)) as H0. rewrite !Z.add_0_r in H0.
  split_and!; [exact H0 | | | |]; apply Hw; lia.
Qed.

Lemma moved_loadable i : Elf.loadable m' a' i <-> Elf.loadable m a i.
Proof.
  unfold Elf.loadable. rewrite moved_phnum. split; intros (Hi & Hn & Ht).
  - rewrite (moved_null i Hi) in Hn. destruct (moved_fields i Hi Hn) as (E & _). split_and!; [lia | lia | done | congruence].
  - destruct (moved_fields i Hi Hn) as (E & _). split_and!; [lia | lia | by rewrite (moved_null i Hi) | congruence].
Qed.

Lemma moved_segment i : Elf.loadable m a i ->
  Elf.vaddr m' a' i = Elf.vaddr m a i /\ Elf.memsz m' a' i = Elf.memsz m a i /\
  Elf.filesz m' a' i = Elf.filesz m a i /\ Elf.offset m' a' i = Elf.offset m a i /\
  forall k, 0 <= k < Elf.memsz m a i -> segment_byte m' a' i k = segment_byte m a i k.
Proof.
  intros Hl. pose proof Hl as (Hi & Hn & _). destruct (moved_fields i Hi Hn) as (_ & Eo & Ev & Ef & Em).
  do 4 (split; [done |]). intros k Hk. unfold segment_byte, Elf.filesz, Elf.offset. rewrite Ef, Eo.
  case_if_eq E; bool_to_prop; [| done]. pose proof (Elf.seg_nonneg m a i).
  destruct (Elf.io_segment _ _ _ (ru_image _ _ _ Hrun) i Hl) as (_ & _ & Hof). unfold Elf.offset, Elf.filesz in *.
  rewrite <- !Z.add_assoc. apply Hmove. lia.
Qed.

Lemma moved_entry : Elf.e_entry m' a' = Elf.e_entry m a.
Proof. destruct (Elf.io_range _ _ _ (ru_image _ _ _ Hrun)) as (_ & ? & _). apply (moved_word 8 24); lia. Qed.

Lemma moved_validate : Elf.elf_validate m' a' = Elf.elf_validate m a.
Proof.
  destruct (Elf.io_range _ _ _ (ru_image _ _ _ Hrun)) as (? & ? & _).
  unfold Elf.elf_validate, Elf.e_ident, Elf.e_version, Elf.e_type, Elf.e_machine, load16, load32.
  rewrite !moved_word by lia. rewrite !Hmove by lia.
  destruct (Z.eqb_spec a NULL); [unfold NULL in *; lia |]. by destruct (Z.eqb_spec a' NULL); [unfold NULL in *; lia |].
Qed.

Lemma moved_image_ok : Elf.image_ok m' a' len.
Proof.
  destruct (ru_image _ _ _ Hrun) as [Ir Ih Is Ispan Id (o & Ho & Hpos)]. split; rewrite ?moved_phnum.
  - destruct Hrange. split_and!; [done | apply Ir | done].
  - intros i Hi Hn. pose proof Hn as Hn'. rewrite (moved_null i Hi) in Hn'. destruct (Ih i Hi Hn').
    rewrite (moved_head i Hi), decide_False by done. lia.
  - intros i Hl%moved_loadable. destruct (moved_segment i Hl) as (-> & -> & -> & -> & _). by apply Is.
  - intros i j Hi%moved_loadable Hj%moved_loadable. destruct (moved_segment i Hi) as (-> & -> & _).
    destruct (moved_segment j Hj) as (-> & _). by apply Ispan.
  - intros i j Hi%moved_loadable Hj%moved_loadable. destruct (moved_segment i Hi) as (-> & -> & _).
    destruct (moved_segment j Hj) as (-> & -> & _). by apply Id.
  - exists o. split; [by apply moved_loadable |]. by destruct (moved_segment o Ho) as (_ & -> & _).
Qed.

Lemma runnable_moved : runnable m' a' len.
Proof.
  destruct Hrun as [_ Hv Hpg Hap (e & He & Her)]. split.
  - exact moved_image_ok.
  - by rewrite moved_validate.
  - intros i Hl%moved_loadable. destruct (moved_segment i Hl) as (-> & -> & _). by apply Hpg.
  - intros i j k l Hi%moved_loadable Hj%moved_loadable. destruct (moved_segment i Hi) as (-> & -> & _).
    destruct (moved_segment j Hj) as (-> & -> & _). by apply Hap.
  - exists e. rewrite moved_entry. split; [by apply moved_loadable |]. by destruct (moved_segment e He) as (-> & -> & _).
Qed.
End moved.

(** The same image in a memory that has its bytes. *)
Lemma runnable_same m m' image len : runnable m image len -> same_image m image len m' ->
  Elf.e_phnum m' image = Elf.e_phnum m image /\ Elf.e_entry m' image = Elf.e_entry m image /\
  (forall i, Elf.loadable m' image i <-> Elf.loadable m image i) /\
  (forall i, Elf.loadable m image i -> Elf.vaddr m' image i = Elf.vaddr m image i /\ Elf.memsz m' image i = Elf.memsz m image i /\
    Elf.filesz m' image i = Elf.filesz m image i /\ Elf.offset m' image i = Elf.offset m image i /\
    forall k, 0 <= k < Elf.memsz m image i -> segment_byte m' image i k = segment_byte m image i k) /\
  runnable m' image len.
Proof.
  intros Hrun Hs. destruct (Elf.io_range _ _ _ (ru_image _ _ _ Hrun)) as (? & _ & ?).
  assert (Hm : forall x, 0 <= x < len -> load8 m' (image + x) = load8 m (image + x)) by (intros x Hx; apply Hs; lia).
  assert (Hr : 0 < image /\ image + len < 2 ^ 64) by done.
  pose proof (or_introl eq_refl : image = image \/ forall i, 0 <= i < Elf.e_phnum m image -> Elf.elf_program_header m image i <> NULL) as Hh.
  split; [by apply (moved_phnum m m' image image len) |]. split; [by apply (moved_entry m m' image image len) |].
  split; [intros i; by apply (moved_loadable m m' image image len) |].
  split; [intros i Hi; by apply (moved_segment m m' image image len) | by apply (runnable_moved m m' image image len)].
Qed.
