(* ===== verification/ProcessExec.v ===== *)
(** * Executing an ELF image

    [process_exec] of [process_exec.c] puts the loader of [Elf.v], the segment
    mapping of [ProcessMemory.v] and the page tables together: the process finds
    the segments of the image at their virtual addresses. *)
From S2P Require Import Prelude PageAllocator Memory KAlloc Fd Elf TaskQueue PageTable PageTableSpec System UserPages Process ProcessMemory ProcessSpec ProcessImage.
Import Mem Process.
#[local] Open Scope Z_scope.

#[local] Opaque k_memcpy k_memset.

(** ** The loop over the segments *)
Section exec.
Context {K A : Type} `{KAllocLaws K} `{PageAllocatorLaws A}.
Implicit Types s : sys K A.

Variables (T0 : gmap Z (list Z)) (s0 : sys K A) (process root image len : Z) (p : process_t).
Let m := kmem s0.
Hypothesis Hrun : runnable m image len.
Hypothesis Hproc : process <> NULL /\ ps s0 !! process = Some p /\ page_table p = root + hhdm_offset (pt s0).
Hypothesis Hwf0 : pt_wf T0 (pt s0).
Hypothesis Hroot : T0 !! root = Some [].
Hypothesis Himage : forall x, image <= x < image + len -> kernel_byte T0 (pt s0) x.

Definition segments_loaded T (pt' : pt_state A) (i : Z) : Prop :=
  forall j k, Elf.loadable m image j -> j < i -> 0 <= k < Elf.memsz m image j ->
    loaded_at T pt' root (Elf.vaddr m image j + k) (segment_byte m image j k).

(** The first [i] headers have been handled. *)
Record exec_inv T (pt' : pt_state A) (i : Z) : Prop := {
  ei_wf : pt_wf T pt';
  ei_ext : space_ext T0 (pt s0) T pt';
  ei_step : space_step T0 (pt s0) root T pt';
  ei_segments : segments_loaded T pt' i;
}.

Lemma exec_same T pt' i : exec_inv T pt' i -> same_image m image len (pt_mem pt').
Proof. intros Hi x Hx. apply (se_mem _ _ _ _ (ei_ext _ _ _ Hi)). by apply Himage. Qed.

(** The segment [i], seen from a state in which the image is unchanged. *)
Lemma segment_here T pt' i : exec_inv T pt' i -> Elf.loadable m image i ->
  let ph := Elf.elf_program_header m image i in
  segment_ok T pt' ph image /\ Elf.p_vaddr (pt_mem pt') ph = Elf.vaddr m image i /\
  Elf.p_memsz (pt_mem pt') ph = Elf.memsz m image i /\
  forall k, 0 <= k < Elf.memsz m image i -> seg_byte pt' ph image k = segment_byte m image i k.
Proof.
  intros Hi Hl ph. subst ph. pose proof (exec_same _ _ _ Hi) as Hs. pose proof (ru_image _ _ _ Hrun) as Hok.
  destruct (header_fields _ _ _ (image_segment m image len Hok _ i Hs Hl)) as (_ & _ & Eo & Ev & Ef & Em).
  destruct (ru_pages _ _ _ Hrun i Hl) as [Hal Hus]. destruct (Elf.io_segment _ _ _ Hok i Hl) as (Hfm & Hw & Hof).
  pose proof Hl as (Hr & Hn & _). destruct (Elf.io_header _ _ _ Hok i Hr Hn) as [Hh1 Hh2].
  pose proof (Elf.seg_nonneg m image i) as (? & ? & ? & ?).
  unfold Elf.vaddr, Elf.memsz, Elf.filesz, Elf.offset in *.
  assert (Hsrc : forall k, 0 <= k < Elf.p_filesz m (Elf.elf_program_header m image i) ->
      kernel_byte T0 (pt s0) (image + Elf.p_offset m (Elf.elf_program_header m image i) + k))
    by (intros k Hk; apply Himage; lia).
  split; [| split_and!; try done].
  - split; rewrite ?Ev, ?Ef, ?Em, ?Eo; try done; try lia.
    + intros x Hx. eapply kernel_byte_ext; [apply (ei_ext _ _ _ Hi) |]. apply Himage. lia.
    + intros k Hk. eapply kernel_byte_ext; [apply (ei_ext _ _ _ Hi) | by apply Hsrc].
  - intros k Hk. unfold seg_byte, segment_byte, Elf.filesz, Elf.offset. rewrite Ef, Eo.
    destruct (Z.ltb_spec k (Elf.p_filesz m (Elf.elf_program_header m image i))); [| done].
    apply (se_mem _ _ _ _ (ei_ext _ _ _ Hi)), Hsrc. lia.
Qed.

Lemma skip_segment T pt' i : exec_inv T pt' i -> ~ Elf.loadable m image i -> exec_inv T pt' (i + 1).
Proof.
  intros [Hwf He Hst Hs] Hn. split; [done | done | done |]. intros j k Hj Hji Hk. apply Hs; [done | | done].
  destruct (decide (j = i)) as [->|]; [done | lia].
Qed.

(** One segment is mapped. *)
Lemma segment_step T pt' i : exec_inv T pt' i -> Elf.loadable m image i ->
  exists T' pt2 st, process_map_segment process (Elf.elf_program_header m image i) image (with_pt pt' s0) =
      Some (with_pt pt2 s0, st) /\
    ((st = KERNEL_ENOMEM /\ exec_inv T' pt2 0) \/ (st = KERNEL_SUCCESS /\ exec_inv T' pt2 (i + 1))).
Proof.
  intros Hi Hl. destruct (segment_here T pt' i Hi Hl) as (Hseg & Ev & Em & Hb). destruct Hproc as (Hp0 & Hp & Hpt).
  pose proof (ei_ext _ _ _ Hi) as He. pose proof Hl as (_ & Hn & _).
  destruct (Elf.io_range _ _ _ (ru_image _ _ _ Hrun)) as (Hi0 & _).
  assert (Hr : T !! root = Some []) by (eapply lookup_weaken; [done | apply He]).
  destruct (process_map_segment_spec T (with_pt pt' s0) process p root (Elf.elf_program_header m image i) image)
    as (T' & pt2 & st & E & Hwf2 & He2 & Hst2 & Ho & Hres); [done | | | apply Hi | done | done |].
  { split_and!; [done | done | unfold NULL; lia]. }
  { cbn. by rewrite (se_hhdm _ _ _ _ He). }
  exists T', pt2, st. split; [exact E |].
  pose proof (space_ext_trans _ _ _ _ _ _ He He2) as He02.
  pose proof (step_trans _ _ _ _ _ _ _ (ei_step _ _ _ Hi) Hst2) as Hst02.
  destruct Hres as [->|[-> Hbytes]]; [left | right]; (split; [done |]); split; try done.
  - intros j k (? & _) ?. lia.
  - change (kmem (with_pt pt' s0)) with (pt_mem pt') in *. cbn [pt with_pt] in *. rewrite Ev, Em in *.
    intros j k Hj Hji Hk. destruct (decide (j = i)) as [->|Hne]; [rewrite <- Hb by done; by apply Hbytes |].
    apply (loaded_at_ext T pt' T' pt2); [done | | apply (ei_segments _ _ _ Hi); [done | lia | done]].
    apply Ho; [done |]. intros l Hl'. by apply (ru_apart _ _ _ Hrun j i k l).
Qed.

Lemma exec_segments_spec fuel : forall i T pt',
  exec_inv T pt' i -> 0 <= i <= Elf.e_phnum m image -> Elf.e_phnum m image - i < Z.of_nat fuel ->
  exists T' pt2 st, exec_segments fuel i process image (with_pt pt' s0) = Some (with_pt pt2 s0, st) /\
    ((st = KERNEL_ENOMEM /\ exec_inv T' pt2 0) \/ (st = KERNEL_SUCCESS /\ exec_inv T' pt2 (Elf.e_phnum m image))).
Proof.
  pose proof (ru_image _ _ _ Hrun) as Hok.
  induction fuel as [|fuel IH]; intros i T pt' Hi Hr Hf; [lia |]. cbn [exec_segments].
  pose proof (exec_same _ _ _ Hi) as Hs. destruct (image_headers m image len Hok _ Hs) as [Hnum Hph].
  change (kmem (with_pt pt' s0)) with (pt_mem pt'). rewrite Hnum, Hph.
  destruct (Z.ltb_spec i (Elf.e_phnum m image)) as [Hlt|].
  2: { exists T, pt', KERNEL_SUCCESS. split; [done |]. right. split; [done |]. by replace (Elf.e_phnum m image) with i by lia. }
  destruct (loadable_or_not m image i ltac:(lia)) as [Hl|Hnl].
  - destruct (header_fields _ _ _ (image_segment m image len Hok _ i Hs Hl)) as (Et & _).
    pose proof Hl as (_ & Hn & Hty). rewrite Et, Hty.
    destruct (Z.eqb_spec (Elf.elf_program_header m image i) NULL); [done |]. rewrite Z.eqb_refl. cbn [orb negb].
    destruct (segment_step T pt' i Hi Hl) as (T' & pt2 & st & -> & Hres). cbn [mbind option_bind].
    destruct Hres as [[-> He]|[-> He]]; cbn [Z.eqb KERNEL_ENOMEM KERNEL_SUCCESS negb].
    + exists T', pt2, KERNEL_ENOMEM. split; [done |]. by left.
    + apply (IH (i + 1) T' pt2 He); lia.
  - assert (Hcond : (Elf.elf_program_header m image i =? NULL) ||
      negb (Elf.p_type (pt_mem pt') (Elf.elf_program_header m image i) =? Elf.PT_LOAD) = true).
    { destruct (Z.eqb_spec (Elf.elf_program_header m image i) NULL) as [|Hn]; [done |]. cbn [orb].
      destruct Hnl as [|Hty]; [done |].
      assert (Hsh : same_header (Elf.elf_program_header m image i) m (pt_mem pt')).
      { intros x Hx. destruct (Elf.io_header _ _ _ Hok i ltac:(lia) Hn). apply Hs. lia. }
      destruct (header_fields _ _ _ Hsh) as (-> & _). by destruct (Z.eqb_spec (Elf.p_type m (Elf.elf_program_header m image i)) Elf.PT_LOAD). }
    rewrite Hcond. apply (IH (i + 1) T pt'); [| lia | lia]. apply skip_segment; [done |].
    intros (_ & Hn & Hty). by destruct Hnl.
Qed.
End exec.

(** ** The whole of [process_exec] *)
Section run.
Context {K A : Type} `{KAllocLaws K} `{PageAllocatorLaws A}.
Implicit Types s : sys K A.

(** The process ready to enter user mode. *)
Definition ready_for_user (image : Elf.elf_image_t) (p : process_t) : process_t :=
  setp_is_user_process true (setp_user_rflags 0x202 (setp_user_rsp (u64 (user_stack_top p - 8))
    (setp_user_rip (Elf.entry image) (setp_image image p)))).

Lemma page_walk_mapped T (s : pt_state A) root va e l :
  pt_wf T s -> T !! root = Some [] -> s_walk s root va = Some (e, l) ->
  exists pte, page_walk (root + hhdm_offset s) va false s = (s, pte) /\ pte <> NULL.
Proof.
  intros Hwf Hr Hw. unfold page_walk. destruct (walk_read_cases T s root va Hwf Hr) as (r & -> & Hc).
  rewrite Hw in Hc. destruct Hc as (f & _ & _ & Hne & _). by exists (w_entry r).
Qed.

(** The kernel, a process and an image in a heap object. *)
Record exec_ok T s (L : gmap Z Z) (process root image len q n : Z) (p : process_t) : Prop := {
  xo_run : runnable (kmem s) image len;
  xo_proc : process <> NULL /\ ps s !! process = Some p /\ page_table p = root + hhdm_offset (pt s);
  xo_wf : pt_wf T (pt s);
  xo_root : T !! root = Some [];
  xo_live : ka_live (heap s) L;
  xo_object : L !! q = Some n /\ q <= image /\ image + len <= q + n;
  xo_region : kernel_region T (pt s) (ka_region (heap s)).1 (ka_region (heap s)).2;
}.

(** Loading leaves the tables, the used frames and the image alone. *)
Lemma loaded_state T s L process root image len q n p m' k base sz alloc :
  exec_ok T s L process root image len q n p -> ka_region k = ka_region (heap s) ->
  ka_live k (<[base := alloc]> L) -> L !! base = None -> 0 < sz <= alloc ->
  Elf.same_outside base (base + sz) (kmem s) m' ->
  let s1 := with_heap k (with_kmem m' s) in
  pt_wf T (pt s1) /\ space_step T (pt s) root T (pt s1) /\
  same_image (kmem s) image len m' /\ (forall x, image <= x < image + len -> kernel_byte T (pt s1) x).
Proof.
  intros [_ _ Hwf Hroot Hlive (Hq & Hq1 & Hq2) Hreg] Hrk Hl Hnew Hsz Hout s1.
  destruct (ka_region_live _ _ base alloc Hl (lookup_insert_eq _ _ _)) as [R1 R2]. rewrite Hrk in R1, R2.
  destruct (ka_region_live _ _ q n Hlive Hq) as [Q1 Q2].
  assert (Hne : base <> q) by congruence.
  pose proof (ka_disjoint _ _ base alloc q n Hl (lookup_insert_eq _ _ _) ltac:(by rewrite lookup_insert_ne) Hne) as Hd.
  destruct (ka_range _ _ q n Hlive Hq) as (? & ? & ? & _).
  assert (Hst1 : space_step T (pt s) root T (pt s1)).
  { apply (kernel_step T (pt s) root m' base (base + sz) Hwf Hroot).
    - intros x Hx. apply Hreg. lia.
    - intros x Hx Hxo. by apply Hout. }
  split; [apply (st_wf _ _ _ _ _ Hst1) |]. split; [exact Hst1 |]. split.
  - intros x Hx. apply Hout; lia.
  - intros x Hx. apply Hreg. lia.
Qed.

(** The entry point is mapped once the segments are. *)
Lemma entry_mapped T s1 T' (pt2 : pt_state A) process root image len p :
  process <> NULL /\ ps s1 !! process = Some p /\ page_table p = root + hhdm_offset (pt s1) ->
  T !! root = Some [] -> runnable (kmem s1) image len ->
  exec_inv T s1 root image T' pt2 (Elf.e_phnum (kmem s1) image) ->
  exists pte, page_walk (page_table p) (Elf.e_entry (kmem s1) image) false pt2 = (pt2, pte) /\ pte <> NULL.
Proof.
  intros (_ & _ & ->) Hr Hrun [Hwf He _ Hseg]. destruct (ru_entry _ _ _ Hrun) as (e & Hl & Hen). pose proof Hl as (? & _).
  assert (Hr' : T' !! root = Some []) by (eapply lookup_weaken; [done | apply He]).
  destruct (Hseg e (Elf.e_entry (kmem s1) image - Elf.vaddr (kmem s1) image e) Hl ltac:(lia) ltac:(lia)) as (f & w & _ & Hw & _).
  replace (Elf.vaddr (kmem s1) image e + _) with (Elf.e_entry (kmem s1) image) in Hw by lia.
  rewrite <- (se_hhdm _ _ _ _ He). by eapply page_walk_mapped.
Qed.

Lemma process_exec_spec T s L process root image len q n p :
  exec_ok T s L process root image len q n p ->
  exists s' st T', process_exec process image s = Some (s', st) /\
    space_step T (pt s) root T' (pt s') /\ ka_region (heap s') = ka_region (heap s) /\
    ((st = KERNEL_ENOMEM /\ ps s' = ps s) \/
     (st = KERNEL_SUCCESS /\ exists img,
        ps s' = <[process := ready_for_user img p]> (ps s) /\ Elf.entry img = Elf.e_entry (kmem s) image /\
        forall i k, Elf.loadable (kmem s) image i -> 0 <= k < Elf.memsz (kmem s) image i ->
          user_byte (pt s') root (Elf.vaddr (kmem s) image i + k) = Some (segment_byte (kmem s) image i k))).
Proof.
  intros Hok. pose proof Hok as [Hrun (Hp0 & Hp & Hpt) Hwf Hroot Hlive (Hq & Hin) Hreg].
  pose proof (ru_image _ _ _ Hrun) as Him. destruct (Elf.io_range _ _ _ Him) as (Hi0 & _).
  unfold process_exec. destruct (Z.eqb_spec process NULL); [done |].
  destruct (Z.eqb_spec image NULL); [unfold NULL in *; lia |]. cbn [orb].
  pose proof (Elf.load_image_spec image len (Elf.mk_image NULL 0 0 0) (kmem s) (heap s) L q n Him (ru_valid _ _ _ Hrun) Hlive Hq Hin) as Hload.
  destruct (Elf.elf_load_image image _ (kmem s) (heap s)) as [[[m' k'] r] st].
  destruct Hload as (Hrk & [(-> & -> & _)|(-> & l' & alloc & -> & Hent & Hl' & Hnew & Hsz & _ & Hout)]); cbn [Z.eqb KERNEL_ENOMEM KERNEL_SUCCESS negb].
  { exists (with_heap k' (with_kmem (kmem s) s)), KERNEL_ENOMEM, T. split; [reflexivity |].
    split; [| split; [exact Hrk | by left]]. by apply (kernel_step T (pt s) root (kmem s) 0 0 Hwf Hroot); [intros x Hx; lia |]. }
  destruct (loaded_state T s L process root image len q n p m' k' _ _ _ Hok Hrk Hl' Hnew Hsz Hout) as (Hwf1 & Hst1 & Hsame & Hkb).
  destruct (runnable_same _ _ _ _ Hrun Hsame) as (Hnum & Hee & Hload & Hfld & Hrun1).
  set (s1 := with_heap k' (with_kmem m' s)) in *.
  assert (Hinv0 : exec_inv T s1 root image T (pt s1) 0).
  { split; [done | apply space_ext_refl | by apply step_refl |]. intros j k (? & _) ?. lia. }
  assert (Hproc1 : process <> NULL /\ ps s1 !! process = Some p /\ page_table p = root + hhdm_offset (pt s1)) by done.
  assert (Hrange : 0 <= Elf.e_phnum m' image < 65536) by (exact (load_le_range 2 m' (image + 56))).
  destruct (exec_segments_spec T s1 process root image len p Hrun1 Hproc1 Hroot Hkb (Z.to_nat (2 ^ 16)) 0 T (pt s1) Hinv0)
    as (T' & pt2 & st & E & Hres); [change (kmem s1) with m'; lia | change (kmem s1) with m'; lia |].
  change (with_pt (pt s1) s1) with s1 in E. rewrite E. cbn [mbind option_bind].
  assert (Hst2 : space_step T (pt s) root T' pt2).
  { apply (step_trans _ _ _ _ _ _ _ Hst1). by destruct Hres as [[_ []]|[_ []]]. }
  destruct Hres as [[-> _]|[-> [Hwf2 He2 Hst3 Hseg]]]; cbn [Z.eqb KERNEL_ENOMEM KERNEL_SUCCESS negb].
  { eexists _, _, T'. split; [reflexivity |]. split; [exact Hst2 |]. split; [exact Hrk | by left]. }
  destruct (entry_mapped T s1 T' pt2 process root image len p Hproc1 Hroot Hrun1 (Build_exec_inv _ _ _ _ _ _ _ Hwf2 He2 Hst3 Hseg)) as (pte & Hwalk & Hpte).
  erewrite update_process_some by exact Hp. cbn [mbind option_bind ps with_ps pt with_pt].
  rewrite lookup_insert_eq. cbn [mbind option_bind]. change (kmem s1) with m' in Hwalk.
  change (page_table (setp_user_rip (Elf.entry l') (setp_image l' p))) with (page_table p).
  change (user_rip (setp_user_rip (Elf.entry l') (setp_image l' p))) with (Elf.entry l').
  rewrite Hee, <- Hent in Hwalk. rewrite Hwalk. destruct (Z.eqb_spec pte NULL); [done |].
  erewrite update_process_some by (cbn; apply lookup_insert_eq). cbn [mbind option_bind ps with_ps pt with_pt].
  eexists _, _, T'. split; [reflexivity |]. split; [exact Hst2 |]. split; [exact Hrk |]. right. split; [done |]. exists l'.
  split; [cbn [ps with_ps]; rewrite insert_insert_eq; reflexivity |]. split; [done |].
  intros i k Hi Hk. destruct (Hfld i Hi) as (Ev & Em & _ & _ & Hb). rewrite <- Hb, <- Ev by done.
  apply (loaded_at_byte T'); [done |]. apply Hseg; [by apply Hload | | change (kmem s1) with m'; lia].
  destruct Hi as [? _]. change (kmem s1) with m'. lia.
Qed.

End run.
