(* ===== verification/ProcessExecFile.v ===== *)
(** * Running a program from a file

    [process_exec_file] of [process_exec_file.c] from end to end: the path is
    resolved and opened, the contents are read into a buffer of the heap, the image
    there is executed, and the file is closed. *)
From S2P Require Import Prelude PageAllocator Memory KAlloc Elf PageTable PageTableSpec System Ramfs Vfs Process UserPages ProcessMemory ProcessSpec ProcessImage ProcessExec.
Import Mem Str Process Ramfs Vfs.
#[local] Open Scope Z_scope.

#[local] Opaque k_memcpy k_memset.

Section program.
Context {K A : Type} `{KAllocLaws K} `{PageAllocatorLaws A} `{FsLayoutLaws}.
Implicit Types (k : kernel K A) (T : gmap Z (list Z)) (L : gmap Z Z).

(** A file whose contents are a program, at the end of a path, and a process to run
    it.  The heap holds the contents and the open files. *)
Record program_file T k L (top : Z) (path : list Z) (np : Z) (node : ramfs_node_t) (len process root : Z)
    (p : process_t) : Prop := {
  pf_vfs : vfs_ok (fs_in k) top;
  pf_path : byte_list path /\ resolves (fs_in k) top (split_path path) KERNEL_SUCCESS np;
  pf_node : nodes (k_fs k) !! np = Some node /\ v_type (vnode node) = VNODE_FILE /\
    v_size (vnode node) = len /\ len <= EXEC_BUFFER_SIZE;
  pf_data : exists n, L !! data node = Some n /\ len <= capacity node <= n;
  pf_run : runnable (kmem (k_sys k)) (data node) len;
  pf_heads i : 0 <= i < Elf.e_phnum (kmem (k_sys k)) (data node) ->
    Elf.elf_program_header (kmem (k_sys k)) (data node) i <> NULL;
  pf_proc : process <> NULL /\ ps (k_sys k) !! process = Some p /\ page_table p = root + hhdm_offset (pt (k_sys k));
  pf_wf : pt_wf T (pt (k_sys k));
  pf_root : T !! root = Some [];
  pf_live : ka_live (heap (k_sys k)) L;
  pf_region : kernel_region T (pt (k_sys k)) (ka_region (heap (k_sys k))).1 (ka_region (heap (k_sys k))).2;
  pf_files q : is_Some (files (k_fs k) !! q) -> is_Some (L !! q);
}.

Section run.
Context (T : gmap Z (list Z)) (k : kernel K A) (L : gmap Z Z) (top : Z) (path : list Z) (np : Z)
  (node : ramfs_node_t) (len process root : Z) (p : process_t).
Hypothesis Hok : program_file T k L top path np node len process root p.
Let s0 := k_sys k.
Let m := kmem s0.

Lemma len_range : 64 <= len <= EXEC_BUFFER_SIZE.
Proof.
  destruct (pf_node _ _ _ _ _ _ _ _ _ _ _ Hok) as (_ & _ & _ & ?).
  destruct (Elf.io_range _ _ _ (ru_image _ _ _ (pf_run _ _ _ _ _ _ _ _ _ _ _ Hok))) as (_ & ? & _). lia.
Qed.

(** Opening the program: a new file on the node, or no memory for one. *)
Lemma open_program :
  exists h file rc, vfs_open (Some path) (fs_in k) =
      Some (if file =? NULL then with_fheap h (fs_in k)
            else with_files (<[file := mk_file np 0 0 1]> (files (k_fs k))) (with_fheap h (fs_in k)), file, rc) /\
    ka_region h = ka_region (heap s0) /\
    ((rc = KERNEL_ENOMEM /\ file = NULL) \/
     (rc = KERNEL_SUCCESS /\ file <> NULL /\ L !! file = None /\ exists n, ka_live h (<[file := n]> L))).
Proof.
  destruct (pf_path _ _ _ _ _ _ _ _ _ _ _ Hok) as [Hb Hr].
  pose proof (proj1 (pf_vfs _ _ _ _ _ _ _ _ _ _ _ Hok)) as Hnodes.
  destruct (open_spec (fs_in k) top path (pf_vfs _ _ _ _ _ _ _ _ _ _ _ Hok) Hb) as (s' & file & rc & E & Ho).
  destruct Ho as [(Hrc & _ & _ & Hr')|(r & Hr' & h & Eh & Ef & Ho)].
  { by destruct (resolves_det (fs_in k) top _ _ _ _ _ Hnodes Hr Hr'). }
  destruct (resolves_det (fs_in k) top _ _ _ _ _ Hnodes Hr Hr') as [_ ->].
  exists h, file, rc. change (fheap (fs_in k)) with (heap s0) in *.
  split; [| split; [by rewrite Eh, ka_region_malloc |]].
  - rewrite E. destruct Ho as [(_ & -> & ->)|(_ & Hf & ->)]; [done |]. by destruct (Z.eqb_spec file NULL).
  - destruct Ho as [(-> & -> & _)|(-> & Hf & _)]; [by left | right]. do 2 (split; [done |]).
    destruct (ka_malloc sizeof_file (heap s0)) as [h' q] eqn:Em. cbn [fst snd] in *. subst h' q.
    destruct (ka_malloc_spec _ _ sizeof_file _ _ (pf_live _ _ _ _ _ _ _ _ _ _ _ Hok) ltac:(unfold sizeof_file; lia) Em)
      as [[-> _]|(n & _ & Hn & _ & Hl)]; [done |]. split; [done |]. by exists n.
Qed.

(** The memory once the buffer is cleared and the contents are copied into it. *)
Definition buffer_filled (buffer : Z) : mem :=
  k_memcpy buffer (data node) len (k_memset buffer 0 EXEC_BUFFER_SIZE m).

Lemma filled_load buffer nb L2 h : ka_live h L2 -> L ⊆ L2 -> L2 !! buffer = Some nb -> L !! buffer = None ->
  EXEC_BUFFER_SIZE <= nb ->
  (forall x, 0 <= x < len -> load8 (buffer_filled buffer) (buffer + x) = load8 m (data node + x)) /\
  (forall x, 0 <= x < 2 ^ 64 -> x < buffer \/ buffer + EXEC_BUFFER_SIZE <= x -> load8 (buffer_filled buffer) x = load8 m x).
Proof.
  intros Hl Hsub Hb Hnew Hnb. destruct (pf_data _ _ _ _ _ _ _ _ _ _ _ Hok) as (n & Hd & Hcap). pose proof len_range as Hlen.
  assert (Hd2 : L2 !! data node = Some n) by by eapply lookup_weaken.
  assert (Hne : data node <> buffer) by congruence.
  destruct (ka_range _ _ _ _ Hl Hb) as (? & ? & ? & _). destruct (ka_range _ _ _ _ Hl Hd2) as (? & ? & ? & _).
  pose proof (ka_disjoint _ _ _ _ _ _ Hl Hd2 Hb Hne) as Hdis. unfold buffer_filled, EXEC_BUFFER_SIZE in *.
  split; intros x Hx.
  - rewrite memcpy_load, decide_True by lia. rewrite memset_load, decide_False by lia. f_equal. lia.
  - intros Ho. rewrite memcpy_load, decide_False by lia. by rewrite memset_load, decide_False by lia.
Qed.

(** The system when [process_exec] starts, and that it may. *)
Definition loaded_sys (h : K) (buffer : Z) : sys K A := with_kmem (buffer_filled buffer) (with_heap h s0).

Lemma exec_ready h L2 buffer nb : ka_live h L2 -> L ⊆ L2 -> L2 !! buffer = Some nb -> L !! buffer = None ->
  EXEC_BUFFER_SIZE <= nb -> ka_region h = ka_region (heap s0) ->
  exec_ok T (loaded_sys h buffer) L2 process root buffer len buffer nb p.
Proof.
  intros Hl Hsub Hb Hnew Hnb Hreg. destruct (filled_load buffer nb L2 h Hl Hsub Hb Hnew Hnb) as [Hin Hout].
  destruct (ka_range _ _ _ _ Hl Hb) as (? & ? & ? & _). pose proof len_range as Hlen.
  destruct (ka_region_live _ _ _ _ Hl Hb) as [R1 R2]. rewrite Hreg in R1, R2.
  pose proof Hok as [_ _ _ _ Hrun Hheads Hproc Hwf Hroot _ Hregion _].
  split.
  - apply (runnable_moved m _ (data node)); [exact Hrun | exact Hin | lia | by right].
  - exact Hproc.
  - apply (kernel_write T (pt s0) T (pt s0) _ buffer (buffer + EXEC_BUFFER_SIZE) Hwf Hwf (space_ext_refl _ _)); [| exact Hout].
    intros x Hx. apply Hregion. unfold s0, EXEC_BUFFER_SIZE in *. lia.
  - exact Hroot.
  - exact Hl.
  - unfold EXEC_BUFFER_SIZE in *. split; [done | lia].
  - change (heap (loaded_sys h buffer)) with h. rewrite Hreg. exact Hregion.
Qed.

(** Reading the contents of the opened file into the buffer. *)
Lemma read_program h L2 file buffer nb :
  let f := with_fheap h (with_fmem (k_memset buffer 0 EXEC_BUFFER_SIZE m)
             (with_files (<[file := mk_file np 0 0 1]> (files (k_fs k))) (k_fs k))) in
  ka_live h L2 -> L ⊆ L2 -> file <> NULL -> L2 !! buffer = Some nb -> L !! buffer = None -> EXEC_BUFFER_SIZE <= nb ->
  vfs_read file buffer EXEC_BUFFER_SIZE f = Some
    (with_files (<[file := mk_file np (u64 len) 0 1]> (files (k_fs k))) (with_fmem (buffer_filled buffer) f), len).
Proof.
  intros f Hl Hsub Hf0 Hb Hnew Hnb. pose proof Hok as [Hvfs _ (Hn & Ht & Hsz & Hmax) (n & Hd & Hcap) _ _ _ _ _ _ _ _].
  pose proof (proj1 Hvfs np node Hn) as Hno. pose proof len_range as Hlen.
  assert (Hd2 : L2 !! data node = Some n) by by eapply lookup_weaken.
  destruct (ka_range _ _ _ _ Hl Hd2) as (? & _).
  assert (Hd0 : data node <> NULL) by (unfold NULL; lia).
  assert (Hw : writable f L2 file np (mk_file np 0 0 1) node len).
  { split.
    - split_and!; [apply lookup_insert_eq | done | done].
    - split_and!; [exact Hn | apply (no_nonnull _ _ _ Hno) | apply (no_private _ _ _ Hno) | exact Ht].
    - unfold EXEC_BUFFER_SIZE in *. lia.
    - exact Hl.
    - right. by exists n. }
  unfold vfs_read. rewrite (vfs_call_file ramfs_read f file (mk_file np 0 0 1) node); try done.
  2: { apply lookup_insert_eq. } 2: { apply (no_nonnull _ _ _ Hno). } 2: { apply (no_ops _ _ _ Hno). }
  assert (Em : Z.min EXEC_BUFFER_SIZE len = len) by lia.
  rewrite (read_eq f L2 file np (mk_file np 0 0 1) node len buffer EXEC_BUFFER_SIZE n Hw Hd0 Hsz Hd2); rewrite ?Em;
    [| lia | unfold EXEC_BUFFER_SIZE; lia |].
  - cbn [files with_fheap with_fmem with_files f]. by rewrite insert_insert_eq.
  - exists buffer, nb. split; [done |]. split; [congruence | lia].
Qed.

(** Closing the file again leaves the open files, and the rest, as they were. *)
Lemma close_file (k' : kernel K A) file x :
  file <> NULL -> L !! file = None -> files (k_fs k') = <[file := x]> (files (k_fs k)) ->
  files (k_fs (Process.file_close k' file)) = files (k_fs k) /\ nodes (k_fs (Process.file_close k' file)) = nodes (k_fs k') /\
  ps (k_sys (Process.file_close k' file)) = ps (k_sys k') /\ pt (k_sys (Process.file_close k' file)) = pt (k_sys k').
Proof.
  intros Hf Hnew Hfs. unfold Process.file_close. rewrite close_state by done. cbn. split; [| split; [done |]].
  - rewrite Hfs. apply delete_insert_id. destruct (files (k_fs k) !! file) eqn:E; [| done].
    destruct (pf_files _ _ _ _ _ _ _ _ _ _ _ Hok file) as [? ?]; [by eexists | congruence].
  - split; [done |]. unfold kmem. by destruct (pt (k_sys k')).
Qed.

(** The process is as [process_exec] leaves it: ready to run the program. *)
Definition program_loaded (s' : sys K A) : Prop :=
  exists T' img, pt_wf T' (pt s') /\ T ⊆ T' /\
    ps s' = <[process := ready_for_user img p]> (ps s0) /\ Elf.entry img = Elf.e_entry m (data node) /\
    (forall f, used T (pt s0) f -> used T' (pt s') f) /\
    forall i j, Elf.loadable m (data node) i -> 0 <= j < Elf.memsz m (data node) i ->
      user_byte (pt s') root (Elf.vaddr m (data node) i + j) = Some (segment_byte m (data node) i j).

Lemma program_loaded_same s1 s2 : ps s2 = ps s1 -> pt s2 = pt s1 -> program_loaded s1 -> program_loaded s2.
Proof. unfold program_loaded. by intros -> ->. Qed.

(** [process_exec] on the buffer, in terms of the file's contents. *)
Lemma exec_program h L2 buffer nb : ka_live h L2 -> L ⊆ L2 -> L2 !! buffer = Some nb -> L !! buffer = None ->
  EXEC_BUFFER_SIZE <= nb -> ka_region h = ka_region (heap s0) ->
  exists s' st, process_exec process buffer (loaded_sys h buffer) = Some (s', st) /\
    ((st = KERNEL_ENOMEM /\ ps s' = ps s0) \/ (st = KERNEL_SUCCESS /\ program_loaded s')).
Proof.
  intros Hl Hsub Hb Hnew Hnb Hreg. pose proof (exec_ready h L2 buffer nb Hl Hsub Hb Hnew Hnb Hreg) as Hx.
  destruct (filled_load buffer nb L2 h Hl Hsub Hb Hnew Hnb) as [Hin _].
  destruct (process_exec_spec _ _ _ _ _ _ _ _ _ _ Hx) as (s' & st & T' & E & Hst & _ & Hr). exists s', st. split; [exact E |].
  destruct Hr as [[-> Hps]|(-> & img & Hps & He & Hbytes)]; [by left | right]. split; [done |].
  pose proof Hok as [_ _ _ _ Hrun Hheads _ _ _ _ _ _].
  assert (Hr2 : 0 < buffer /\ buffer + len < 2 ^ 64).
  { destruct (ka_range _ _ _ _ Hl Hb) as (? & ? & ? & _). pose proof len_range. lia. }
  change (kmem (loaded_sys h buffer)) with (buffer_filled buffer) in *. unfold program_loaded, m in *.
  exists T', img. split; [apply Hst |]. split; [apply Hst |]. split; [done |].
  split; [rewrite He; apply (moved_entry (kmem s0) _ (data node) buffer len Hrun Hin) |]. split; [intros f; apply (step_still_used _ _ _ _ _ f Hst) |].
  intros i j Hi Hj. destruct (moved_segment (kmem s0) _ (data node) buffer len Hrun Hin Hr2 (or_intror Hheads) i Hi)
    as (Ev & Em & _ & _ & Hseg).
  rewrite <- Hseg, <- Ev by done. apply Hbytes; [| by rewrite Em].
  by apply (moved_loadable (kmem s0) _ (data node) buffer len Hrun Hin Hr2 (or_intror Hheads)).
Qed.

(** The states between the opening and [process_exec]. *)
Definition after_open (h : K) (file : Z) : kernel K A :=
  fs_out (with_files (<[file := mk_file np 0 0 1]> (files (k_fs k))) (with_fheap h (fs_in k))) k.
Definition after_malloc (h h2 : K) (file : Z) : kernel K A :=
  on_sys (with_heap h2 (k_sys (after_open h file))) (after_open h file).
Definition cleared (h h2 : K) (file : Z) (m' : mem) : kernel K A :=
  on_sys (with_kmem m' (k_sys (after_malloc h h2 file))) (after_malloc h h2 file).

Lemma cleared_fs h h2 file m' : fs_in (cleared h h2 file m') =
  with_fheap h2 (with_fmem m' (with_files (<[file := mk_file np 0 0 1]> (files (k_fs k))) (k_fs k))).
Proof. reflexivity. Qed.

Lemma read_sys h h2 file m' m2 fl :
  k_sys (fs_out (with_files fl (with_fmem m2 (fs_in (cleared h h2 file m')))) (cleared h h2 file m')) =
  with_kmem m2 (with_heap h2 s0).
Proof. reflexivity. Qed.

(** With a buffer, the contents get into it and are executed. *)
Lemma run_buffer h file nf h2 buffer :
  ka_live h (<[file := nf]> L) -> L !! file = None -> file <> NULL -> ka_region h = ka_region (heap s0) ->
  ka_malloc EXEC_BUFFER_SIZE h = (h2, buffer) -> buffer <> NULL ->
  let k3 := cleared h h2 file (k_memset buffer 0 EXEC_BUFFER_SIZE m) in
  vfs_read file buffer EXEC_BUFFER_SIZE (fs_in k3) = Some
    (with_files (<[file := mk_file np (u64 len) 0 1]> (files (k_fs k))) (with_fmem (buffer_filled buffer) (fs_in k3)), len) /\
  exists s' st, process_exec process buffer (with_kmem (buffer_filled buffer) (with_heap h2 s0)) = Some (s', st) /\
    ((st = KERNEL_ENOMEM /\ ps s' = ps s0) \/ (st = KERNEL_SUCCESS /\ program_loaded s')).
Proof.
  intros Hl Hfnew Hf0 Hreg Em Hb0 k3. pose proof (ka_region_malloc h EXEC_BUFFER_SIZE) as Hreg2.
  rewrite Em in Hreg2. cbn [fst] in Hreg2.
  destruct (ka_malloc_spec _ _ EXEC_BUFFER_SIZE _ _ Hl ltac:(unfold EXEC_BUFFER_SIZE; lia) Em)
    as [[? _]|(nb & Hnb & Hbnew & _ & Hl2)]; [done |].
  assert (Hsub : L ⊆ <[buffer := nb]> (<[file := nf]> L)).
  { etransitivity; [apply (insert_subseteq L file nf Hfnew) | by apply insert_subseteq]. }
  assert (HbL : L !! buffer = None) by (apply lookup_insert_None in Hbnew; tauto).
  pose proof (lookup_insert_eq (<[file := nf]> L) buffer nb) as Hb2.
  pose proof (read_program h2 _ file buffer nb Hl2 Hsub Hf0 Hb2 HbL Hnb) as Er. cbv zeta in Er.
  rewrite <- (cleared_fs h) in Er. split; [exact Er |].
  apply (exec_program h2 _ buffer nb Hl2 Hsub Hb2 HbL Hnb). congruence.
Qed.
End run.

End program.
