(* ===== verification/Isolation.v ===== *)
(** * Processes cannot touch each other's memory

    Over the address spaces of [AddressSpaces.v]: whatever the kernel does for one
    process (creating it, loading a program, growing its heap, switching to it,
    destroying it) and whatever its user code stores, every other process finds in
    its user memory what was there before. *)
From S2P Require Import Prelude PageAllocator Memory KAlloc Fd Elf TaskQueue PageTable PageTableSpec System Scheduler SchedulerSpec SchedulerProps UserPages Process ProcessMemory ProcessSpec AddressSpaces ProcessTable ProcessImage ProcessExec.
Import Mem Str Task Scheduler Process.
#[local] Open Scope Z_scope.
#[local] Opaque k_memcpy k_memset.

Section isolation.
Context {K A : Type} `{KAllocLaws K} `{PageAllocatorLaws A}.
Implicit Types (s : sys K A) (Sp : gmap Z (gmap Z (list Z))).
Variable kroot : Z.

(** ** Processes and their address spaces *)
Definition space_of (p : process_t) : Z * Z := (page_table p, page_table_physical p).

(** Every process with a page table has an address space to itself. *)
Record system_ok Sp s : Prop := {
  sy_spaces : spaces_ok kroot (ka_region (heap s)).1 (ka_region (heap s)).2 Sp (pt s);
  sy_proc q p : ps s !! q = Some p -> page_table p <> NULL ->
    page_table p = page_table_physical p + hhdm_offset (pt s) /\ page_table_physical p <> kroot /\
    is_Some (Sp !! page_table_physical p);
  sy_own q1 q2 p1 p2 : ps s !! q1 = Some p1 -> ps s !! q2 = Some p2 -> page_table p1 <> NULL -> page_table p2 <> NULL ->
    page_table_physical p1 = page_table_physical p2 -> q1 = q2;
}.

(** No process of [s'] has a page table it had not in [s]. *)
Definition no_new_spaces s s' : Prop := forall q p', ps s' !! q = Some p' -> page_table p' <> NULL ->
  exists p, ps s !! q = Some p /\ space_of p = space_of p'.

Lemma no_new_spaces_trans s1 s2 s3 : no_new_spaces s1 s2 -> no_new_spaces s2 s3 -> no_new_spaces s1 s3.
Proof.
  intros H12 H23 q p3 Hq Hn. destruct (H23 q p3 Hq Hn) as (p2 & Hq2 & E2).
  assert (Hn2 : page_table p2 <> NULL) by (injection E2; congruence).
  destruct (H12 q p2 Hq2 Hn2) as (p1 & Hq1 & E1). exists p1. split; [done | congruence].
Qed.

Lemma same_spaces_kept s s' q p p' :
  ps s !! q = Some p -> space_of p' = space_of p -> ps s' = <[q := p']> (ps s) -> no_new_spaces s s'.
Proof.
  intros Hp E Hps x y Hx _. rewrite Hps, lookup_insert in Hx. case_decide as Hxq; [subst x | by exists y].
  injection Hx as <-. by exists p.
Qed.

Lemma system_advance Sp s X Sp' s' :
  system_ok Sp s -> advance kroot (ka_region (heap s)).1 (ka_region (heap s)).2 Sp (pt s) X Sp' (pt s') ->
  ka_region (heap s') = ka_region (heap s) -> no_new_spaces s s' -> system_ok Sp' s'.
Proof.
  intros [Hsp Hpr Hown] [Hok Hsome Hh _] Hreg Hnew. split.
  - by rewrite Hreg.
  - intros q p' Hq Hn. destruct (Hnew q p' Hq Hn) as (p & Hp & E). injection E as E1 E2.
    rewrite <- E1, <- E2, Hh. destruct (Hpr q p Hp) as (? & ? & ?); [congruence |]. split_and!; [done | done | by apply Hsome].
  - intros q1 q2 p1 p2 Hq1 Hq2 Hn1 Hn2 Heq. destruct (Hnew q1 p1 Hq1 Hn1) as (p1' & Hp1 & [= E1 E1']).
    destruct (Hnew q2 p2 Hq2 Hn2) as (p2' & Hp2 & [= E2 E2']). apply (Hown q1 q2 p1' p2'); congruence.
Qed.

(** ** What one process sees of a step *)

(** The process [q] is still there, in the address space it had, with the user
    memory it had. *)
Definition untouched (q : Z) (p : process_t) s s' : Prop :=
  (exists p', ps s' !! q = Some p' /\ space_of p' = space_of p) /\
  same_user_memory (page_table_physical p) (pt s) (pt s').

(** The invariant is kept and every process but [X] is untouched. *)
Definition isolating s (X : option Z) s' : Prop :=
  (exists Sp', system_ok Sp' s') /\
  forall q p, ps s !! q = Some p -> page_table p <> NULL -> Some q <> X -> untouched q p s s'.

(** One process acts in its address space; its own object may change otherwise. *)
Lemma isolating_intro Sp s q p p' Sp' s' :
  system_ok Sp s -> ps s !! q = Some p -> page_table p <> NULL ->
  advance kroot (ka_region (heap s)).1 (ka_region (heap s)).2 Sp (pt s) (Some (page_table_physical p)) Sp' (pt s') ->
  ka_region (heap s') = ka_region (heap s) -> space_of p' = space_of p -> ps s' = <[q := p']> (ps s) ->
  isolating s (Some q) s'.
Proof.
  intros Hok Hp Hn Had Hreg Hpp Hps. split.
  - exists Sp'. apply (system_advance Sp s _ Sp' s' Hok Had Hreg). by apply (same_spaces_kept s s' q p p').
  - intros x y Hx Hny Hne. assert (Hxq : x <> q) by congruence. split.
    + exists y. by rewrite Hps, lookup_insert_ne.
    + destruct (sy_proc _ _ Hok x y Hx Hny) as (_ & Hk & Hsome). apply (ad_same _ _ _ _ _ _ _ _ Had); [done | done |].
      intros E. apply Hxq, (sy_own _ _ Hok x q y p); congruence.
Qed.

Lemma isolating_same Sp s q p Sp' s' :
  system_ok Sp s -> ps s !! q = Some p -> page_table p <> NULL ->
  advance kroot (ka_region (heap s)).1 (ka_region (heap s)).2 Sp (pt s) (Some (page_table_physical p)) Sp' (pt s') ->
  ka_region (heap s') = ka_region (heap s) -> ps s' = ps s -> isolating s (Some q) s'.
Proof. intros. apply (isolating_intro Sp s q p p Sp'); [done.. |]. by rewrite insert_id. Qed.

Lemma same_no_new s s' : ps s' = ps s -> no_new_spaces s s'.
Proof. intros E q p. rewrite E. intros Hq _. by exists p. Qed.

(** ** The kernel's operations on a process *)
Lemma exec_isolating Sp s L q image len o n p :
  system_ok Sp s -> q <> NULL -> ps s !! q = Some p -> page_table p <> NULL -> runnable (kmem s) image len ->
  ka_live (heap s) L -> L !! o = Some n -> o <= image /\ image + len <= o + n ->
  exists s' st, process_exec q image s = Some (s', st) /\ isolating s (Some q) s'.
Proof.
  intros Hok Hq0 Hp Hn Hrun Hl Ho Hin. destruct (sy_proc _ _ Hok q p Hp Hn) as (Hpt & Hk & T & HT).
  pose proof (sy_spaces _ _ Hok) as Hsp. pose proof (so_isolated _ _ _ _ _ Hsp) as Hi.
  destruct (process_exec_spec T s L q (page_table_physical p) image len o n p) as (s' & st & T' & E & Hst & Hreg & Hres).
  { split; [done | done | by apply (is_wf _ _ Hi _ _ HT) | by apply (is_root _ _ Hi) | done | done |]. by eapply heap_region. }
  exists s', st. split; [done |]. pose proof (advance_step _ _ _ _ _ _ _ _ _ Hsp HT Hk Hst) as Had.
  destruct Hres as [[_ Hps]|(_ & img & Hps & _)].
  - by apply (isolating_same Sp s q p (spread Sp (page_table_physical p) T')).
  - by apply (isolating_intro Sp s q p (ready_for_user img p) (spread Sp (page_table_physical p) T')).
Qed.

Lemma grow_isolating Sp s q p :
  system_ok Sp s -> q <> NULL -> ps s !! q = Some p -> page_table p <> NULL ->
  exists s' st, process_heap_expand q s = Some (s', st) /\ isolating s (Some q) s'.
Proof.
  intros Hok Hq0 Hp Hn. destruct (sy_proc _ _ Hok q p Hp Hn) as (Hpt & Hk & T & HT).
  pose proof (sy_spaces _ _ Hok) as Hsp. pose proof (so_isolated _ _ _ _ _ Hsp) as Hi.
  destruct (heap_expand_spec T s q p (page_table_physical p) Hq0 Hp Hpt (is_wf _ _ Hi _ _ HT) (is_root _ _ Hi _ _ HT))
    as (s' & st & T' & E & pt' & Hres). exists s', st. split; [done |].
  destruct (advance_page kroot _ _ Sp (pt s) pt' (page_table_physical p) (user_heap_end p) true Hsp Hk) as [Sp' Had].
  { exists T, T'. split; [done |]. destruct Hres as [(_ & _ & Hm)|(_ & _ & Hm)]; [by left | by right]. }
  destruct Hres as [(_ & -> & _)|(_ & -> & _)].
  - by apply (isolating_same Sp s q p Sp').
  - by apply (isolating_intro Sp s q p (grown p) Sp').
Qed.

(** User code of the process [q] stores a byte. *)
Definition process_store_byte (q va b : Z) s : option (sys K A) :=
  p ← ps s !! q; Some (with_pt (user_store (page_table_physical p) va b (pt s)) s).

Lemma store_isolating Sp s q va b p :
  system_ok Sp s -> ps s !! q = Some p -> page_table p <> NULL -> user_va va ->
  exists s', process_store_byte q va b s = Some s' /\ isolating s (Some q) s'.
Proof.
  intros Hok Hp Hn Hva. destruct (sy_proc _ _ Hok q p Hp Hn) as (Hpt & Hk & Hr). unfold process_store_byte. rewrite Hp.
  eexists. split; [reflexivity |].
  apply (isolating_same Sp s q p Sp); [done | done | done | | done | done].
  apply (advance_store _ _ _ _ _ _ va b (sy_spaces _ _ Hok) Hr Hva).
Qed.

(** Only the processor's registers and the tasks change. *)
Lemma registers_isolating Sp s s' :
  system_ok Sp s -> ps s' = ps s -> heap s' = heap s -> (pt s' = pt s \/ exists r, pt s' = page_table_switch r (pt s)) ->
  isolating s None s'.
Proof.
  intros Hok Hps Hheap Hpt.
  assert (Hs : pt_mem (pt s') = pt_mem (pt s) /\ hhdm_offset (pt s') = hhdm_offset (pt s) /\ pt_alloc (pt s') = pt_alloc (pt s) /\
    hhdm_ready (pt s') = hhdm_ready (pt s) /\ kernel_pml4 (pt s') = kernel_pml4 (pt s)).
  { destruct Hpt as [->|[r ->]]; [done |]. unfold page_table_switch. destruct (r =? 0); [done |]. by destruct (_ =? r). }
  destruct Hs as (S1 & S2 & S3 & S4 & S5). pose proof (sy_spaces _ _ Hok) as [Hi Hk Ha Hm].
  assert (Hw : forall r va, s_walk (pt s') r va = s_walk (pt s) r va) by (intros; unfold s_walk; by rewrite S1, S2).
  assert (Hu : forall r, same_user_memory r (pt s) (pt s')).
  { intros r va _. unfold user_byte, mmu_translate. by rewrite S1, S2. }
  assert (Hd : forall f, data_frame Sp (pt s) f -> data_frame Sp (pt s') f).
  { intros f Hf r T HT. unfold used. rewrite S3. by apply (Hf r). }
  assert (Hsp : spaces_ok kroot (ka_region (heap s)).1 (ka_region (heap s)).2 Sp (pt s')).
  { split; [| done | | congruence].
    - destruct Hi as [I1 I2 I3 I4 I5 I6 I7]. split; try done.
      + intros r T HT. destruct (I1 r T HT). split; rewrite ?S1, ?S2, ?S3, ?S4; done.
      + intros r T f p. rewrite S3. by apply I3.
      + intros r T va e l HT Hva. rewrite Hw. intros Hl. destruct (I6 r T va e l HT Hva Hl). auto.
      + intros r1 r2 va1 va2 e1 e2 l1 l2. rewrite !Hw. by apply I7.
    - intros x Hx. unfold outside. rewrite S2, S3. by apply Ha. }
  split.
  - exists Sp. apply (system_advance Sp s None Sp s' Hok); [by split | by rewrite Hheap | by apply same_no_new].
  - intros q p Hp _ _. split; [exists p; by rewrite Hps | done].
Qed.

Lemma yield_isolating Sp s v : system_ok Sp s -> sched_inv s v ->
  exists s' o, scheduler_yield s = Some (s', o) /\ isolating s None s'.
Proof.
  intros Hok Hi. destruct (yield_spec s v Hi) as (s' & o & E & _ & Hf & (u & _ & _ & Hpt) & _). exists s', o. split; [done |].
  destruct Hf as (_ & Hps & Hheap & _). apply (registers_isolating Sp); [done | done | done |].
  destruct (ps s !! t_process u) as [p|]; [| by left]. destruct (t_process u =? NULL); [by left | right; by eexists].
Qed.

Lemma destroy_isolating Sp s l q : system_ok Sp s -> proc_list s l -> is_Some (ps s !! q) -> q <> NULL ->
  exists s', process_destroy q s = Some s' /\ isolating s (Some q) s'.
Proof.
  intros Hok Hl Hq Hq0. destruct (process_destroy_spec s l q Hl Hq Hq0) as (s' & E & _ & Hn & Hsame & Hheap & _ & Hpt).
  exists s'. split; [done |].
  assert (Hsp : forall x, x <> q -> space_of <$> ps s' !! x = space_of <$> ps s !! x).
  { intros x Hx. pose proof (Hsame x) as Hs. rewrite lookup_delete_ne in Hs by done.
    destruct (ps s' !! x) as [y|], (ps s !! x) as [z|]; try done. cbn in Hs. injection Hs; intros; cbn. unfold space_of. congruence. }
  assert (Hreg : ka_region (heap s') = ka_region (heap s)) by by rewrite Hheap, ka_region_free.
  split.
  - exists Sp. apply (system_advance Sp s None Sp s' Hok); [| done |].
    + rewrite Hpt. apply advance_refl, (sy_spaces _ _ Hok).
    + intros x y Hx _. destruct (decide (x = q)) as [->|Hne]; [congruence |]. specialize (Hsp x Hne). rewrite Hx in Hsp.
      destruct (ps s !! x) as [z|]; [| done]. exists z. split; [done |]. cbn in Hsp. congruence.
  - intros x y Hx _ Hne. assert (Hxq : x <> q) by congruence. split; [| by rewrite Hpt].
    specialize (Hsp x Hxq). rewrite Hx in Hsp. destruct (ps s' !! x) as [z|]; [| done]. exists z. split; [done |]. cbn in Hsp. congruence.
Qed.

(** ** Creating a process *)

(** The state once the address space of a new process is built. *)
Record space_built Sp s process s3 Sp3 root (p3 : process_t) : Prop := {
  sb_advance : advance kroot (ka_region (heap s)).1 (ka_region (heap s)).2 Sp (pt s) None Sp3 (pt s3);
  sb_new : Sp !! root = None /\ root <> kroot /\ is_Some (Sp3 !! root);
  sb_process : page_table p3 = root + hhdm_offset (pt s3) /\ page_table_physical p3 = root /\ page_table p3 <> NULL;
  sb_procs : ps s3 = <[process := p3]> (ps s);
  sb_rest : same_sched s s3 /\ heap s3 = heap s;
}.

(** A failure leaves at most an object without a page table. *)
Definition space_failed Sp s process s' : Prop :=
  (exists Sp', advance kroot (ka_region (heap s)).1 (ka_region (heap s)).2 Sp (pt s) None Sp' (pt s')) /\
  ka_region (heap s') = ka_region (heap s) /\
  (ps s' = delete process (ps s) \/ exists p, page_table p = NULL /\ ps s' = <[process := p]> (ps s)).

(** From the new root on: its stack page and its heap page. *)
Lemma new_page lo hi Sp0 Sp1 (t0 t1 t2 : pt_state A) root va T2 :
  advance kroot lo hi Sp0 t0 None Sp1 t1 -> Sp0 !! root = None -> root <> kroot ->
  (exists T, Sp1 !! root = Some T /\ (not_mapped T t1 T2 t2 \/ exists f, fresh_mapped T t1 root va f true T2 t2)) ->
  exists Sp2, advance kroot lo hi Sp0 t0 None Sp2 t2 /\ is_Some (Sp2 !! root).
Proof.
  intros Ha Hr Hk (T & HT & Hm).
  destruct (advance_page kroot lo hi Sp1 t1 t2 root va true (ad_ok _ _ _ _ _ _ _ _ Ha) Hk) as [Sp2 Ha2]; [by exists T, T2 |].
  exists Sp2. split; [| apply (ad_some _ _ _ _ _ _ _ _ Ha2); by eexists].
  eapply (advance_trans _ _ _ _ _ _ _ _ (Some root)); [| exact Ha | exact Ha2]. intros r [= <-] [T0 Hq0]. congruence.
Qed.

Lemma build_space_isolated Sp s process :
  spaces_ok kroot (ka_region (heap s)).1 (ka_region (heap s)).2 Sp (pt s) -> process <> NULL -> ps s !! process = None ->
  (exists s', (forall tail, build_space process s tail = Some (s', NULL)) /\ space_failed Sp s process s') \/
  (exists s3 Sp3 root p3, (forall tail, build_space process s tail = tail s3) /\ space_built Sp s process s3 Sp3 root p3).
Proof.
  intros Hok Hp0 Hpn. unfold build_space, process_allocate_pid. cbn [pt with_next_pid ps next_pid].
  pose proof (create_spaces _ _ _ _ _ Hok) as Hc. destruct (page_table_create (pt s)) as [[pt1 table] physical].
  destruct Hc as [(-> & -> & ->)|(root & Sp1 & -> & -> & Htn & Hrk & Hr0 & [T1 HT1] & Had1)].
  { left. eexists. split; [intros tail; reflexivity |]. split; [exists Sp; by apply advance_refl |]. split; [done |]. right. eexists. split; [| reflexivity]. reflexivity. }
  destruct (Z.eqb_spec (root + hhdm_offset pt1) NULL); [done |].
  pose proof (so_isolated _ _ _ _ _ (ad_ok _ _ _ _ _ _ _ _ Had1)) as Hi1.
  erewrite update_process_some by apply lookup_insert_eq. cbn [mbind option_bind ps with_ps with_pt with_next_pid].
  rewrite insert_insert_eq. set (p1 := setp_user_stack_bottom _ _). set (s1 := with_ps _ _).
  destruct (initial_stack_spec T1 s1 process p1 root Hp0 (lookup_insert_eq _ _ _) eq_refl eq_refl
    (is_wf _ _ Hi1 _ _ HT1) (is_root _ _ Hi1 _ _ HT1)) as (pt2 & st2 & T2 & E2 & Hst).
  destruct (new_page _ _ Sp Sp1 (pt s) pt1 pt2 root STACK_PAGE T2 Had1 Hr0 Hrk) as (Sp2 & Had2 & [T2' HT2]).
  { exists T1. split; [done |]. destruct Hst as [(_ & Hm)|(_ & Hm)]; [by left | by right]. }
  rewrite E2. cbn [mbind option_bind]. destruct Hst as [(-> & _)|(-> & _)]; cbn [Z.eqb KERNEL_ENOMEM KERNEL_SUCCESS negb].
  { left. eexists. split; [intros tail; reflexivity |]. split; [by exists Sp2 |]. split; [apply ka_region_free |].
    left. cbn. by rewrite delete_insert_eq. }
  erewrite update_process_some by (cbn; apply lookup_insert_eq). cbn [mbind option_bind ps with_ps with_pt s1].
  rewrite insert_insert_eq. set (p2 := setp_user_heap_current _ _). set (s2 := with_ps _ _).
  pose proof (so_isolated _ _ _ _ _ (ad_ok _ _ _ _ _ _ _ _ Had2)) as Hi2.
  assert (Hh2 : hhdm_offset pt2 = hhdm_offset pt1) by (rewrite (ad_hhdm _ _ _ _ _ _ _ _ Had2); by rewrite (ad_hhdm _ _ _ _ _ _ _ _ Had1)).
  destruct (heap_expand_spec T2' s2 process p2 root Hp0 (lookup_insert_eq _ _ _))
    as (s3 & st3 & T3 & E3 & pt3 & Hhp); [cbn; by rewrite Hh2 | apply (is_wf _ _ Hi2 _ _ HT2) | apply (is_root _ _ Hi2 _ _ HT2) |].
  destruct (new_page _ _ Sp Sp2 (pt s) pt2 pt3 root USER_HEAP_BASE T3 Had2 Hr0 Hrk) as (Sp3 & Had3 & HT3).
  { exists T2'. split; [done |]. destruct Hhp as [(_ & _ & Hm)|(_ & _ & Hm)]; [by left | by right]. }
  rewrite E3. cbn [mbind option_bind]. destruct Hhp as [(-> & -> & _)|(-> & -> & _)]; cbn [Z.eqb KERNEL_ENOMEM KERNEL_SUCCESS negb].
  { left. eexists. split; [intros tail; reflexivity |]. split; [by exists Sp3 |]. split; [apply ka_region_free |].
    left. cbn. by rewrite delete_insert_eq. }
  right. eexists _, Sp3, root, (grown p2). split; [intros tail; reflexivity |].
  assert (Hh3 : hhdm_offset pt3 = hhdm_offset pt1) by (rewrite (ad_hhdm _ _ _ _ _ _ _ _ Had3); by rewrite (ad_hhdm _ _ _ _ _ _ _ _ Had1)).
  split; [done | done | | | done].
  - cbn. by rewrite Hh3.
  - cbn [ps s2 with_ps with_pt]. by rewrite insert_insert_eq.
Qed.

(** A process with an address space of its own joins the others. *)
Lemma system_new Sp s Sp' s' process p root :
  system_ok Sp s -> advance kroot (ka_region (heap s)).1 (ka_region (heap s)).2 Sp (pt s) None Sp' (pt s') ->
  ka_region (heap s') = ka_region (heap s) -> ps s !! process = None -> ps s' = <[process := p]> (ps s) ->
  space_of p = (root + hhdm_offset (pt s'), root) -> Sp !! root = None -> root <> kroot -> is_Some (Sp' !! root) ->
  system_ok Sp' s'.
Proof.
  intros [Hsp Hpr Hown] Had Hreg Hnone Hps [= E1 E2] Hr0 Hrk Hr1.
  assert (Hold : forall q y, ps s !! q = Some y -> page_table y <> NULL -> page_table_physical y <> root).
  { intros q y Hy Hn E. destruct (Hpr q y Hy Hn) as (_ & _ & [T HT]). congruence. }
  split.
  - rewrite Hreg. apply Had.
  - intros q y. rewrite Hps, lookup_insert. case_decide.
    + intros [= <-] _. by rewrite E1, E2.
    + intros Hy Hn. rewrite (ad_hhdm _ _ _ _ _ _ _ _ Had). destruct (Hpr q y Hy Hn) as (? & ? & ?).
      split_and!; [done | done | by apply (ad_some _ _ _ _ _ _ _ _ Had)].
  - intros q1 q2 y1 y2. rewrite Hps, !lookup_insert. do 2 case_decide; intros Hy1 Hy2 Hn1 Hn2 Heq; subst; try done.
    + injection Hy1 as <-. destruct (Hold q2 y2 Hy2 Hn2). congruence.
    + injection Hy2 as <-. destruct (Hold q1 y1 Hy1 Hn1). congruence.
    + by apply (Hown q1 q2 y1 y2).
Qed.

(** No process acts: all are untouched. *)
Lemma isolating_all Sp s Sp' s' :
  system_ok Sp s -> advance kroot (ka_region (heap s)).1 (ka_region (heap s)).2 Sp (pt s) None Sp' (pt s') ->
  system_ok Sp' s' -> (forall q p, ps s !! q = Some p -> ps s' !! q = Some p) -> isolating s None s'.
Proof.
  intros Hok Had Hok' Hps. split; [by exists Sp' |]. intros q p Hp Hn _. split; [exists p; auto |].
  destruct (sy_proc _ _ Hok q p Hp Hn) as (_ & Hk & Hr). by apply (ad_same _ _ _ _ _ _ _ _ Had).
Qed.

Lemma failed_isolating Sp s process s' :
  system_ok Sp s -> ps s !! process = None -> space_failed Sp s process s' -> isolating s None s'.
Proof.
  intros Hok Hnone ([Sp' Had] & Hreg & Hps).
  assert (Hkeep : forall q p, ps s !! q = Some p -> ps s' !! q = Some p).
  { intros q p Hp. destruct Hps as [->|(x & _ & ->)]; [rewrite lookup_delete_ne | rewrite lookup_insert_ne]; congruence. }
  apply (isolating_all Sp s Sp' s' Hok Had); [| done]. apply (system_advance Sp s None Sp' s' Hok Had Hreg).
  intros q p' Hq Hn. exists p'. split; [| done]. destruct Hps as [E|(x & Hx & E)]; rewrite E in Hq.
  - by apply lookup_delete_Some in Hq as [_ Hq].
  - apply lookup_insert_Some in Hq as [[_ <-]|[_ Hq]]; [done | exact Hq].
Qed.

(** Kernel memory may be written in the address space of the new process. *)
Lemma built_isolating Sp s process s3 Sp3 root p3 s' p :
  system_ok Sp s -> ps s !! process = None -> space_built Sp s process s3 Sp3 root p3 ->
  pt s' = PageTable.with_mem (kmem s') (pt s3) ->
  (forall x, 0 <= x < 2 ^ 64 -> x < (ka_region (heap s)).1 \/ (ka_region (heap s)).2 <= x -> load8 (kmem s') x = load8 (kmem s3) x) ->
  ka_region (heap s') = ka_region (heap s) -> ps s' = <[process := p]> (ps s) -> space_of p = space_of p3 ->
  isolating s None s'.
Proof.
  intros Hok Hnone [Had (Hr0 & Hrk & HT3) (Hq1 & Hq2 & _) _ _] Hpt Hm Hreg Hps Hsp. destruct HT3 as [T3 HT3].
  pose proof (ad_ok _ _ _ _ _ _ _ _ Had) as Hok3. pose proof (so_isolated _ _ _ _ _ Hok3) as Hi3.
  assert (Hst : space_step T3 (pt s3) root T3 (pt s')).
  { rewrite Hpt. apply (kernel_step T3 (pt s3) root (kmem s') (ka_region (heap s)).1 (ka_region (heap s)).2
      (is_wf _ _ Hi3 _ _ HT3) (is_root _ _ Hi3 _ _ HT3)); [| done].
    by apply (heap_region kroot _ _ Sp3 (pt s3) root T3). }
  pose proof (advance_step _ _ _ _ _ _ _ _ _ Hok3 HT3 Hrk Hst) as Had'.
  assert (Hall : advance kroot (ka_region (heap s)).1 (ka_region (heap s)).2 Sp (pt s) None (spread Sp3 root T3) (pt s')).
  { eapply (advance_trans _ _ _ _ _ _ _ _ (Some root)); [| exact Had | exact Had']. intros r [= <-] [T0 Hq0]. congruence. }
  apply (isolating_all Sp s _ s' Hok Hall).
  - apply (system_new Sp s _ s' process p root Hok Hall Hreg Hnone Hps); [| done | done | rewrite spread_self; by eexists].
    rewrite Hsp, (ad_hhdm _ _ _ _ _ _ _ _ Had'). unfold space_of. by rewrite Hq1, Hq2.
  - intros q y Hy. rewrite Hps, lookup_insert_ne; [done | congruence].
Qed.

(** What [process_create] asks of the rest of the kernel. *)
Definition create_ready s : Prop := exists v L, sched_inv s v /\ ka_live (heap s) L /\ tasks_live s L /\
  forall q, is_Some (ps s !! q) -> is_Some (L !! q).

Lemma create_isolating Sp s name entry :
  system_ok Sp s -> create_ready s -> 0 < entry < 2 ^ 64 -> byte_list name -> k_strlen name < 64 ->
  exists s' r, process_create name entry s = Some (s', r) /\ isolating s None s'.
Proof.
  intros Hok (v & L & Hi & Hlive & Hts & Hpl) He Hb Hlen. rewrite process_create_eq.
  destruct (Z.eqb_spec entry NULL); [unfold NULL in *; lia |].
  destruct (ka_malloc sizeof_process (heap s)) as [k process] eqn:Ek.
  pose proof (ka_region_malloc (heap s) sizeof_process) as Hrk. rewrite Ek in Hrk. cbn [fst] in Hrk.
  assert (Hok1 : system_ok Sp (with_heap k s)).
  { destruct Hok. split; [by cbn; rewrite Hrk | done | done]. }
  assert (Hto : forall s', isolating (with_heap k s) None s' -> isolating s None s') by done.
  destruct (ka_malloc_spec _ _ sizeof_process _ _ Hlive ltac:(unfold sizeof_process; lia) Ek)
    as [(-> & Hl1) | (sz & Hsz & HpL & Hp0 & Hl1)].
  { eexists _, _. split; [reflexivity |]. apply Hto.
    by apply (isolating_all Sp _ Sp); [| apply advance_refl, (sy_spaces _ _ Hok1) | |]. }
  destruct (Z.eqb_spec process NULL); [done |].
  assert (Hpn : ps s !! process = None).
  { destruct (ps s !! process) eqn:E; [| done]. destruct (Hpl process) as [? Hx]; [by rewrite E | congruence]. }
  destruct (build_space_isolated Sp (with_heap k s) process (sy_spaces _ _ Hok1) Hp0 Hpn)
    as [(s' & E & Hf)|(s3 & Sp3 & root & p3 & E & Hbuilt)]; rewrite E.
  { exists s', NULL. split; [done |]. by apply Hto, (failed_isolating Sp _ process). }
  pose proof Hbuilt as [Had _ _ Hps3 (Hsc & Hhp)]. cbn [ps heap with_heap] in Hps3, Hhp.
  assert (Hi3 : sched_inv s3 v).
  { apply (inv_same s s3 v Hi Hsc). intros q Hq. rewrite Hps3. apply lookup_insert_is_Some'. by right. }
  assert (Hts3 : ts s3 = ts s) by apply Hsc.
  destruct (tail_spec s3 v (<[process := sz]> L) process p3 name entry Hi3) as (s4 & r & E4 & _ & _ & Hpt4 & Hr4 & Hres); try done.
  { by rewrite Hhp. }
  { intros q Hq. rewrite Hts3 in Hq. apply lookup_insert_is_Some'. right. by apply Hts. }
  { rewrite Hps3. apply lookup_insert_eq. }
  { intros q u Hu Hx. assert (HU : U s3 = U s) by (unfold U; by rewrite Hts3). rewrite HU in Hu.
    destruct (si_procs _ _ Hi q u Hu) as [Ex|[w Ex]]; congruence. }
  exists s4, r. split; [exact E4 |]. apply Hto.
  rewrite Hhp in Hr4.
  destruct Hres as [(-> & _ & Hps4 & Hm4)|(-> & task & pname & (t & _ & _ & _ & _ & _ & _ & _ & Hlo & Hhi & Hmem) & _ & Hps4)].
  - apply (failed_isolating Sp _ process s4 Hok1 Hpn). split; [| split; [exact Hr4 |]].
    + exists Sp3. assert (Hpt : pt s4 = pt s3) by (rewrite Hpt4, Hm4; unfold kmem; by destruct (pt s3)). by rewrite Hpt.
    + left. rewrite Hps4, Hps3. cbn. by rewrite delete_insert_eq.
  - apply (built_isolating Sp _ process s3 Sp3 root p3 s4 (linked_process s3 pname task p3) Hok1 Hpn Hbuilt Hpt4); [| exact Hr4 | | done].
    + rewrite Hhp in Hlo, Hhi. intros x Hx Hd. apply Hmem; [done |]. cbn in Hd. lia.
    + rewrite Hps4, Hps3. cbn. by rewrite insert_insert_eq.
Qed.
End isolation.

(** ** Sequences of operations *)
Section actions.
Context {K A : Type} `{KAllocLaws K} `{PageAllocatorLaws A}.
Implicit Types (s : sys K A) (Sp : gmap Z (gmap Z (list Z))).
Variable kroot : Z.

Inductive action :=
| CreateProcess (name : list Z) (entry : Z)
| ExecImage (process image : Z)
| GrowHeap (process : Z)
| StoreByte (process va b : Z)
| YieldCpu
| DestroyProcess (process : Z).

(** The process an action is for. *)
Definition actor (a : action) : option Z :=
  match a with
  | ExecImage q _ | GrowHeap q | StoreByte q _ _ | DestroyProcess q => Some q
  | CreateProcess _ _ | YieldCpu => None
  end.

Definition perform (a : action) s : option (sys K A) :=
  match a with
  | CreateProcess name entry => fst <$> process_create name entry s
  | ExecImage q image => fst <$> process_exec q image s
  | GrowHeap q => fst <$> process_heap_expand q s
  | StoreByte q va b => process_store_byte q va b s
  | YieldCpu => fst <$> scheduler_yield s
  | DestroyProcess q => process_destroy q s
  end.

Definition has_space s (q : Z) : Prop := q <> NULL /\ exists p, ps s !! q = Some p /\ page_table p <> NULL.

(** What the callers of these operations provide. *)
Definition permitted s (a : action) : Prop :=
  match a with
  | CreateProcess name entry => create_ready s /\ 0 < entry < 2 ^ 64 /\ byte_list name /\ k_strlen name < 64
  | ExecImage q image => has_space s q /\ exists len L o n, runnable (kmem s) image len /\
      ka_live (heap s) L /\ L !! o = Some n /\ o <= image /\ image + len <= o + n
  | GrowHeap q => has_space s q
  | StoreByte q va _ => has_space s q /\ user_va va
  | YieldCpu => exists v, sched_inv s v
  | DestroyProcess q => q <> NULL /\ is_Some (ps s !! q) /\ exists l, proc_list s l
  end.

Inductive runs : sys K A -> list action -> sys K A -> Prop :=
| runs_nil s : runs s [] s
| runs_cons s a s1 acts s2 : permitted s a -> perform a s = Some s1 -> runs s1 acts s2 -> runs s (a :: acts) s2.

Lemma perform_isolating Sp s a : system_ok kroot Sp s -> permitted s a ->
  exists s', perform a s = Some s' /\ isolating kroot s (actor a) s'.
Proof.
  intros Hok Hp. destruct a as [name entry|q image|q|q va b| |q]; cbn [perform actor permitted] in *.
  - destruct Hp as (Hr & He & Hb & Hl). destruct (create_isolating kroot Sp s name entry Hok Hr He Hb Hl) as (s' & r & -> & Hi). by exists s'.
  - destruct Hp as ((Hq & p & Hp & Hn) & len & L & o & n & Hrun & Hl & Ho & Hin).
    destruct (exec_isolating kroot Sp s L q image len o n p Hok Hq Hp Hn Hrun Hl Ho Hin) as (s' & st & -> & Hi). by exists s'.
  - destruct Hp as (Hq & p & Hp & Hn). destruct (grow_isolating kroot Sp s q p Hok Hq Hp Hn) as (s' & st & -> & Hi). by exists s'.
  - destruct Hp as ((Hq & p & Hp & Hn) & Hva). apply (store_isolating kroot Sp s q va b p Hok Hp Hn Hva).
  - destruct Hp as (v & Hi). destruct (yield_isolating kroot Sp s v Hok Hi) as (s' & o & -> & Hi'). by exists s'.
  - destruct Hp as (Hq & Hs & l & Hl). apply (destroy_isolating kroot Sp s l q Hok Hl Hs Hq).
Qed.

(** The invariant along one action. *)
Lemma perform_ok Sp s a s' : system_ok kroot Sp s -> permitted s a -> perform a s = Some s' -> exists Sp', system_ok kroot Sp' s'.
Proof.
  intros Hok Hp E. destruct (perform_isolating Sp s a Hok Hp) as (s1 & E1 & Hok1 & _). assert (s1 = s') as -> by congruence. done.
Qed.

Lemma perform_default Sp s a d : system_ok kroot Sp s -> permitted s a -> exists Sp', system_ok kroot Sp' (default d (perform a s)).
Proof. intros Hok Hp. by destruct (perform_isolating Sp s a Hok Hp) as (s1 & -> & Hok1 & _). Qed.

Lemma untouched_refl q p s : ps s !! q = Some p -> untouched q p s s.
Proof. intros Hp. split; [by exists p | done]. Qed.

Lemma runs_isolating s acts s' : runs s acts s' -> forall Sp q p,
  system_ok kroot Sp s -> ps s !! q = Some p -> page_table p <> NULL -> Forall (fun a => actor a <> Some q) acts ->
  (exists Sp', system_ok kroot Sp' s') /\ untouched q p s s'.
Proof.
  induction 1 as [s|s a s1 acts s2 Hperm E _ IH]; intros Sp q p Hok Hp Hn Hout.
  { split; [by exists Sp | by apply untouched_refl]. }
  apply Forall_cons in Hout as [Ha Hout]. destruct (perform_isolating Sp s a Hok Hperm) as (s1' & E' & [Sp1 Hok1] & Hi).
  assert (s1' = s1) as -> by congruence. destruct (Hi q p Hp Hn (not_eq_sym Ha)) as [(p1 & Hp1 & Hs1) Hm1].
  injection Hs1 as Ht1 Hr1.
  destruct (IH Sp1 q p1 Hok1 Hp1) as [Hok2 [(p2 & Hp2 & Hs2) Hm2]]; [congruence | done |]. split; [done |]. split.
  - exists p2. split; [done |]. unfold space_of in *. congruence.
  - rewrite Hr1 in Hm2. by transitivity (pt s1).
Qed.

End actions.
