(* ===== verification/SysFile.v ===== *)
(** * The system calls on files

    [sys_file.c] of [Process.v] against the descriptor table ([Fd.v]) and the file
    system ([Vfs.v]): what each call does to the map from descriptors to files of
    the calling process. *)
From S2P Require Import Prelude PageAllocator Memory KAlloc Fd TaskQueue PageTable System Ramfs Vfs Process ProcessSpec.
Import Mem Str Task Process.
#[local] Open Scope Z_scope.

Section sys_file.
Context {K A : Type} `{KAlloc K} `{PageAllocator A} `{!Ramfs.FsLayout} `{!Ramfs.FsLayoutLaws}.
Implicit Types k : kernel K A.

(** The process [pr], with contents [p], runs. *)
Record caller k (pr : Z) (p : process_t) : Prop := {
  cl_current : current_task (k_sys k) <> NULL;
  cl_task : exists t, ts (k_sys k) !! current_task (k_sys k) = Some t /\ t_process t = pr;
  cl_process : pr <> NULL;
  cl_object : ps (k_sys k) !! pr = Some p;
  cl_table : Fd.fd_wf (fd_table p);
}.

(** The open file of descriptor [fd]; [NULL] when there is none. *)
Definition fd_file (p : process_t) (fd : Z) : Z := Fd.fd_get (Some (fd_table p)) fd.

Lemma current_caller k pr p : caller k pr p -> process_current (k_sys k) = Some pr.
Proof.
  intros [Hc (t & Ht & Hp) _ _ _]. unfold process_current. destruct (Z.eqb_spec (current_task (k_sys k)) NULL); [done |].
  rewrite Ht. cbn. by rewrite Hp.
Qed.

(** The file system's part of a call leaves the processes alone. *)
Lemma caller_fs k pr p f : caller k pr p -> caller (fs_out f k) pr p.
Proof. by intros []. Qed.

(** A new descriptor table. *)
Lemma caller_table k pr p t : caller k pr p -> Fd.fd_wf t ->
  exists s, update_process pr (setp_fd_table t) (k_sys k) = Some s /\
    caller (on_sys s k) pr (setp_fd_table t p) /\ fs_in (on_sys s k) = fs_in k /\ k_fs (on_sys s k) = k_fs k.
Proof.
  intros [Hc Ht Hp Ho _] Hwf. rewrite (update_process_some _ _ _ p Ho). eexists. split; [reflexivity |].
  split; [| done]. split; try done. cbn. apply lookup_insert_eq.
Qed.

(** The call refused the path, memory was short, or the table is full; in the last
    case the new file stays behind without a descriptor. *)
Definition open_failed k path root k' (r : Z) : Prop :=
  (r <> KERNEL_SUCCESS /\ k' = fs_out (fs_in k) k /\ Vfs.resolves (fs_in k) root (Vfs.split_path path) r NULL) \/
  (r = KERNEL_ENOMEM /\ exists n f file st, Vfs.resolves (fs_in k) root (Vfs.split_path path) KERNEL_SUCCESS n /\
     Vfs.opened (fs_in k) n f file st /\ k' = fs_out f k).

Definition open_done k path root k' pr p (r : Z) : Prop :=
  0 <= r < 64 /\ fd_file p r = NULL /\ (forall fd, 0 <= fd < r -> fd_file p fd <> NULL) /\
  exists n f file p', Vfs.resolves (fs_in k) root (Vfs.split_path path) KERNEL_SUCCESS n /\
    Vfs.opened (fs_in k) n f file KERNEL_SUCCESS /\ caller k' pr p' /\ k_fs k' = f /\
    forall fd, fd_file p' fd = if decide (fd = r) then file else fd_file p fd.

(** C32: [sys_open] on a path that leads to a node opens it under the lowest free
    descriptor of the process and changes no other descriptor; it fails only for a
    path that leads nowhere, for lack of memory, or when all 64 descriptors are in
    use, and then the process keeps its descriptors. *)
Theorem sys_open_correct k pr p root path
    (Hc : caller k pr p) (Hok : Vfs.vfs_ok (fs_in k) root) (Hp : byte_list path) :
  exists k' r, sys_open (Some path) k = Some (k', r) /\
    ((caller k' pr p /\ open_failed k path root k' r) \/ open_done k path root k' pr p r).
Proof.
  unfold sys_open. rewrite (current_caller _ _ _ Hc). cbn [mbind option_bind].
  destruct (Z.eqb_spec pr NULL) as [E|_]; [by apply Hc in E |].
  destruct (Vfs.open_spec (fs_in k) root path Hok Hp) as (f & file & rc & -> & Hres). cbn [mbind option_bind].
  destruct Hres as [(Hrc & -> & -> & Hr)|(n & Hr & Ho)].
  { destruct (Z.eqb_spec rc KERNEL_SUCCESS); [done |]. cbn [negb]. eexists _, _. split; [reflexivity |].
    left. split; [by apply caller_fs | by left]. }
  pose proof Ho as (h & _ & _ & Hcase). destruct (Z.eqb_spec rc KERNEL_SUCCESS) as [->|Hne]; cbn [negb].
  2: { destruct Hcase as [(-> & _)|(-> & _)]; [| done]. eexists _, _. split; [reflexivity |].
       left. split; [by apply caller_fs |]. right. split; [done |]. by exists n, f, file, KERNEL_ENOMEM. }
  destruct Hcase as [(? & _)|(_ & Hfile & _)]; [done |].
  pose proof (caller_fs k pr p f Hc) as Hc'. rewrite (cl_object _ _ _ Hc'). cbn [mbind option_bind].
  destruct (Fd.fd_allocate (Some (fd_table p)) file) as [t r] eqn:Et.
  destruct (Fd.allocate_spec (fd_table p) file t r (cl_table _ _ _ Hc) Hfile Et)
    as [(-> & -> & _)|(u & -> & Hu & Hr64 & Hfree & Hlow & Hmap)]; cbn [mbind option_bind].
  - destruct (caller_table _ pr p (fd_table p) Hc' (cl_table _ _ _ Hc)) as (s & Es & Hcs & _). rewrite Es. cbn [mbind option_bind].
    eexists _, _. split; [reflexivity |]. left.
    assert (Hs : on_sys s (fs_out f k) = fs_out f k).
    { rewrite (update_process_some _ _ _ p (cl_object _ _ _ Hc')) in Es. injection Es as <-.
      unfold on_sys, fs_out; cbn. f_equal. replace (setp_fd_table (fd_table p) p) with p by (by destruct p).
      rewrite insert_id by apply Hc. by destruct (k_sys k). }
    rewrite Hs. split; [done |]. right. split; [done |]. by exists n, f, file, KERNEL_SUCCESS.
  - destruct (caller_table _ pr p u Hc' Hu) as (s & Es & Hcs & _ & Hf). rewrite Es. cbn [mbind option_bind].
    eexists _, _. split; [reflexivity |]. right. split; [done |]. split; [done |]. split; [done |].
    exists n, f, file, (setp_fd_table u p). by split_and!.
Qed.

(** A call on a descriptor is the file system's call on its file. *)
Lemma sys_call_spec op k pr p fd buffer size : caller k pr p ->
  sys_call op fd buffer size k =
    if fd_file p fd =? NULL then Some (k, KERNEL_ENOENT)
    else '(f, r) ← op (fd_file p fd) buffer size (fs_in k); Some (fs_out f k, r).
Proof.
  intros Hc. unfold sys_call. rewrite (current_caller _ _ _ Hc). cbn [mbind option_bind].
  destruct (Z.eqb_spec pr NULL) as [E|_]; [by apply Hc in E |]. by rewrite (cl_object _ _ _ Hc).
Qed.

(** C33: [sys_close] releases exactly its descriptor: afterwards reads and writes
    on it are refused with [KERNEL_ENOENT] and closing it again with
    [KERNEL_EINVAL], while calls on every other descriptor reach the files they
    reached before. *)
Theorem sys_close_correct k pr p fd (Hc : caller k pr p) :
  exists k' r, sys_close fd k = Some (k', r) /\ fs_in k' = fs_in k /\
    (r = KERNEL_EINVAL \/ r = KERNEL_SUCCESS) /\ (r = KERNEL_EINVAL <-> fd_file p fd = NULL) /\
    exists p', caller k' pr p' /\
      (forall x, fd_file p' x = if decide (x = fd) then NULL else fd_file p x) /\
      (forall buffer size, sys_read fd buffer size k' = Some (k', KERNEL_ENOENT) /\
         sys_write fd buffer size k' = Some (k', KERNEL_ENOENT)) /\
      forall x buffer size, x <> fd -> fd_file p x <> NULL ->
        sys_read x buffer size k' =
          ('(f, n) ← Vfs.vfs_read (fd_file p x) buffer size (fs_in k); Some (fs_out f k', n)).
Proof.
  unfold sys_close. rewrite (current_caller _ _ _ Hc). cbn [mbind option_bind].
  destruct (Z.eqb_spec pr NULL) as [E|_]; [by apply Hc in E |]. rewrite (cl_object _ _ _ Hc). cbn [mbind option_bind].
  destruct (Fd.fd_close (Some (fd_table p)) fd) as [t r] eqn:Et.
  assert (Hu : exists u, t = Some u /\ Fd.fd_wf u /\ (r = KERNEL_EINVAL \/ r = KERNEL_SUCCESS) /\
      (r = KERNEL_EINVAL <-> fd_file p fd = NULL) /\
      forall x, Fd.fd_get (Some u) x = if decide (x = fd) then NULL else fd_file p x).
  { destruct (Fd.close_spec (fd_table p) fd t r (cl_table _ _ _ Hc) Et)
      as [(-> & -> & Hn)|(-> & Hn & u & -> & Hwf & Hx)].
    - exists (fd_table p). split_and!; try done; [apply Hc | by left |]. intros x. case_decide; by subst.
    - exists u. split_and!; try done. by right. }
  destruct Hu as (u & -> & Hwf & Hr & Hiff & Hx). cbn [mbind option_bind].
  destruct (caller_table k pr p u Hc Hwf) as (s & Es & Hcs & Hfs & _). rewrite Es. cbn [mbind option_bind].
  eexists _, _. split; [reflexivity |]. split; [done |]. split; [done |]. split; [done |].
  exists (setp_fd_table u p). split; [done |]. split; [exact Hx |]. split.
  - intros buffer size. unfold sys_read, sys_write. rewrite !(sys_call_spec _ _ _ _ _ _ _ Hcs).
    assert (Hz : fd_file (setp_fd_table u p) fd = NULL) by (change (Fd.fd_get (Some u) fd = NULL); by rewrite Hx, decide_True).
    by rewrite Hz.
  - intros x buffer size Hne Hnn. unfold sys_read. rewrite (sys_call_spec _ _ _ _ _ _ _ Hcs).
    assert (Hxx : fd_file (setp_fd_table u p) x = fd_file p x) by (change (Fd.fd_get (Some u) x = fd_file p x); by rewrite Hx, decide_False).
    rewrite Hxx, Hfs. by destruct (Z.eqb_spec (fd_file p x) NULL).
Qed.
End sys_file.
