(* ===== verification/SelfTests.v ===== *)
(** * The self tests the kernel runs at its boot

    [tests/*.c] and the end of [kmain], as programs that change the state of the
    components they call and print: [fs_test], [fd_test], [elf_test], the process
    tests, the tests of the locks, and [test_process_void]'s processes.  What a test
    does on memory it may not access has no result. *)
From Stdlib Require Import Ascii String.
From S2P Require Import Prelude PageAllocator Memory KAlloc Convert Fd Elf TaskQueue Pmm PageTable System Scheduler Ramfs Vfs Sync Mutex Process Reports.
Import Mem Str Convert Task Scheduler Sync Process Reports.
#[local] Open Scope Z_scope.

Module SelfTests.

(** ** Programs that print *)

(** [terminal_write] prints its string as it is. *)
Inductive event := Kprintf (c : call) | Terminal_write (s : string).

Definition event_text (e : event) : option (list Z) :=
  match e with
  | Kprintf c => Convert.kprintf (literal (format c)) (arguments c)
  | Terminal_write s => Some (cstr (literal s))
  end.

Fixpoint transcript (l : list event) : option (list Z) :=
  match l with
  | [] => Some []
  | e :: l => t ← event_text e; u ← transcript l; Some (t ++ u)
  end.

(** On a state [S], with a result [B]; without one, the program accesses memory
    it may not, or uses a variable it has not set. *)
Definition test (S B : Type) : Type := S -> option (S * list event * B).

#[global] Instance test_ret {S} : MRet (test S) := fun B b s => Some (s, [], b).
#[global] Instance test_bind {S} : MBind (test S) := fun B C f m s =>
  match m s with
  | Some (s1, l1, b) => match f b s1 with Some (s2, l2, c) => Some (s2, (l1 ++ l2)%list, c) | None => None end
  | None => None
  end.

Section programs.
Context {S : Type}.
Definition event_of (e : event) : test S () := fun s => Some (s, [e], ()).
Definition say (fmt : string) (args : list arg) : test S () := event_of (Kprintf (printf fmt args)).
Definition write (text : string) : test S () := event_of (Terminal_write text).
(** A call of an operation, one that has no result of its own, a read, and the use of
    what may be undefined. *)
Definition op {B} (f : S -> option (S * B)) : test S B := fun s => '(s, b) ← f s; Some (s, [], b).
Definition run (f : S -> option S) : test S () := fun s => s ← f s; Some (s, [], ()).
Definition get {B} (f : S -> B) : test S B := fun s => Some (s, [], f s).
Definition use {B} (b : option B) : test S B := fun s => b ← b; Some (s, [], b).
Fixpoint each {B} (body : B -> test S ()) (l : list B) : test S () :=
  match l with [] => mret () | b :: l => body b;; each body l end.
Definition dump (calls : list call) : test S () := fun s => Some (s, Kprintf <$> calls, ()).
End programs.

(** A test of a part of the state. *)
Definition on_part {S P B} (part : S -> P) (back : P -> S -> S) (t : test P B) : test S B := fun s =>
  match t (part s) with Some (p, l, b) => Some (back p s, l, b) | None => None end.

(** The C string at [p], inside an object of [n] bytes. *)
Definition bytes_from (m : mem) (p : Z) (n : nat) : list Z := (fun i => load8 m (p + Z.of_nat i)) <$> seq 0 n.
Definition string_at (m : mem) (p n : Z) : option arg :=
  if existsb (Z.eqb 0) (bytes_from m p (Z.to_nat n)) then Some (ArgS (bytes_from m p (Z.to_nat n))) else None.

Definition store16 : Z -> Z -> mem -> mem := store_le 2.
Definition store32 : Z -> Z -> mem -> mem := store_le 4.

(** Addresses of the tests' static and local variables, of the string literals they
    write to files, and of a function. *)
Class TestLayout := {
  root_fs : Z; init_image : Z; notes_text : Z; notes_buffer : Z;
  fd_test_file : Z; fake_elf : Z; process_text : Z; process_buffer : Z;
  file1 : Z; file2 : Z; file3 : Z;
  process_test_entry : Z;
}.

#[local] Open Scope string_scope.
#[local] Open Scope Z_scope.
#[local] Notation "a +++ b" := (String.append a b) (at level 60, right associativity).
Definition pass {S} (what : string) : test S () := say ("[PASS] " +++ what +++ nl) [].
Definition fail {S} (what : string) : test S () := say ("[FAIL] " +++ what +++ nl) [].
Definition verdict {S} (ok : bool) (what : string) : test S () := if ok then pass what else fail what.
Definition succeeded (rc : Z) : bool := rc =? KERNEL_SUCCESS.

(** ** [tests/fs_test.c] *)
Section fs_test.
Context {K : Type} `{KAlloc K} `{!Ramfs.FsLayout} `{!TestLayout}.
Implicit Types s : Ramfs.fs_state K.

(** Fields of [elf64_header_t] and [elf64_program_header_t] behind it. *)
Definition PF_X : Z := 1.
Definition PF_R : Z := 4.

Definition fill_ident (h : Z) (m : mem) : mem :=
  store8 (h + 5) Elf.ELFDATA2LSB (store8 (h + 4) Elf.ELFCLASS64
    (store8 (h + 3) 70 (store8 (h + 2) 76 (store8 (h + 1) 69 (store8 h 0x7F m))))).

Definition fill_init_header (h : Z) (m : mem) : mem :=
  let m := store32 (h + 20) Elf.EV_CURRENT (fill_ident h m) in
  let m := store16 (h + 16) Elf.ET_EXEC m in
  let m := store16 (h + 18) Elf.EM_X86_64 m in
  let m := store64 (h + 24) 0x400000 m in
  let m := store64 (h + 32) 64 m in
  let m := store16 (h + 54) 56 m in
  store16 (h + 56) 1 m.

Definition fill_init_program_header (ph : Z) (m : mem) : mem :=
  let m := store32 ph Elf.PT_LOAD m in
  let m := store32 (ph + 4) (Z.lor PF_R PF_X) m in
  let m := store64 (ph + 8) 120 m in
  let m := store64 (ph + 16) 0x400000 m in
  let m := store64 (ph + 32) 16 m in
  let m := store64 (ph + 40) 16 m in
  store64 (ph + 48) 0x1000 m.

(** [image.payload]: a jump to itself, then no-ops. *)
Definition fill_payload (p : Z) (m : mem) : mem :=
  let m := store8 (p + 1) 0xFE (store8 p 0xEB m) in
  foldl (fun m i => store8 (p + Z.of_nat i) 0x90 m) m (seq 2 14).

Definition fill_init_elf (m : mem) : mem :=
  let m := k_memset init_image 0 136 m in
  fill_payload (init_image + 120) (fill_init_program_header (init_image + 64) (fill_init_header init_image m)).

Definition write_init_elf (file : Z) : test (Ramfs.fs_state K) Z :=
  if file =? NULL then mret KERNEL_EINVAL
  else
    run (fun s => Some (Ramfs.with_fmem (fill_init_elf (Ramfs.fmem s)) s));;
    op (Vfs.vfs_write file init_image 136).

(** A lookup: its status, and the node when it succeeds. *)
Definition lookup (path : string) : test (Ramfs.fs_state K) (Z * Z) :=
  fun s => r ← Vfs.vfs_lookup (Some (literal path)) s; Some (s, [], r).
Definition mkdir (dir : Z) (name : string) : test (Ramfs.fs_state K) Z := op (Ramfs.ramfs_mkdir dir (Some (literal name))).
Definition create (dir : Z) (name : string) : test (Ramfs.fs_state K) Z := op (Ramfs.ramfs_create dir (Some (literal name))).

(** The last part: notes.txt is written and read. *)
Definition fs_test_notes : test (Ramfs.fs_state K) () :=
  '(file, rc) ← op (fun s => '(s, file, rc) ← Vfs.vfs_open (Some (literal "/home/divyanshu/projects/notes.txt")) s; Some (s, (file, rc)));
  if negb (succeeded rc) then fail "open notes.txt"
  else
    pass "open notes.txt";;
    rc ← op (Vfs.vfs_write file notes_text 15);
    if negb (succeeded rc) then fail "write notes.txt"
    else
      pass "write notes.txt";;
      s ← get id;
      f ← use (Ramfs.files s !! file);
      v ← use (Ramfs.nodes s !! Ramfs.f_node f);
      let ramnode := Ramfs.v_private_data (Ramfs.vnode v) in
      if ramnode =? NULL then fail "private_data"
      else
        n ← use (Ramfs.nodes s !! ramnode);
        if Ramfs.data n =? NULL then fail "Data Buffer"
        else
          stored ← use (string_at (Ramfs.fmem s) (Ramfs.data n) (Ramfs.capacity n));
          say ("Stored Data: %s" +++ nl) [stored];;
          say ("File Size: %llu" +++ nl) [ArgZ (Ramfs.v_size (Ramfs.vnode n))];;
          say ("Capacity: %llu" +++ nl) [ArgZ (Ramfs.capacity n)];;
          run (fun s => Some (Ramfs.with_fmem (k_memset notes_buffer 0 32 (Ramfs.fmem s)) s));;
          bytes ← op (Vfs.vfs_read file notes_buffer 32);
          m ← get Ramfs.fmem;
          (if (bytes =? 15) && (k_strcmp (bytes_from m notes_buffer 32) (literal "Hello ZenithOS") =? 0)
           then pass "read notes.txt"
           else
             fail "read notes.txt";;
             say ("Bytes : %d" +++ nl) [ArgZ bytes];;
             data ← use (string_at m notes_buffer 32);
             say ("Data  : %s" +++ nl) [data]);;
          say ("========== Filesystem Test Complete ==========" +++ nl) [].

(** The part before it: /bin/init is created and written. *)
Definition fs_test_init : test (Ramfs.fs_state K) () :=
  '(rc, bin) ← lookup "/bin";
  if negb (succeeded rc) then fail "Lookup /bin"
  else
    say ("PASS] Lookup /bin" +++ nl) [];;
    rc ← create bin "init";
    if negb (succeeded rc) then fail "create /bin/init"
    else
      pass "create /bin/init";;
      '(rc, init_node) ← lookup "/bin/init";
      say ("Lookup rc = %d" +++ nl) [ArgZ rc];;
      if negb (succeeded rc) then fail "Lookup /bin/init"
      else
        pass "Lookup /bin/init";;
        '(test_file, rc) ← op (fun s => let '(s, file, rc) := Ramfs.file_open init_node s in Some (s, (file, rc)));
        say ("file_open rc = %d" +++ nl) [ArgZ rc];;
        verdict (succeeded rc) "file_open";;
        (* the variable is set only on success *)
        test_file ← use (if succeeded rc then Some test_file else None);
        rc ← write_init_elf test_file;
        if negb (succeeded rc) then say ("[FAIL] write /bin/init ELF (%d)" +++ nl) [ArgZ rc]
        else
          pass "write /bin/init ELF";;
          run (fun s => Some (Ramfs.file_close test_file s));;
          '(rc, _) ← lookup "/does_not_exist";
          verdict (rc =? KERNEL_ENOENT) "Missing file detection";;
          fs_test_notes.

Definition looked_up (path what : string) : test (Ramfs.fs_state K) () :=
  '(rc, _) ← lookup path; verdict (succeeded rc) what.

(** The directories and notes.txt. *)
Definition fs_test_tree (root : Z) : test (Ramfs.fs_state K) () :=
  mkdir root "dev";; mkdir root "home";; mkdir root "tmp";; mkdir root "bin";;
  '(rc, home) ← lookup "/home";
  if negb (succeeded rc) then fail "Lookup /home"
  else
    pass "Lookup /home";;
    rc ← mkdir home "divyanshu";
    verdict (succeeded rc) "mkdir divyanshu";;
    '(rc, user) ← lookup "/home/divyanshu";
    if negb (succeeded rc) then fail "Lookup /home/divyanshu"
    else
      pass "Lookup /home/divyanshu";;
      rc ← mkdir user "projects";
      verdict (succeeded rc) "mkdir projects";;
      '(rc, projects) ← lookup "/home/divyanshu/projects";
      if negb (succeeded rc) then fail "Lookup /home/divyanshu/projects"
      else
        pass "Lookup /home/divyanshu/projects";;
        rc ← create projects "notes.txt";
        if negb (succeeded rc) then fail "create notes.txt"
        else
          pass "create notes.txt";;
          looked_up "/dev" "Lookup /dev";;
          looked_up "/tmp" "Lookup /tmp";;
          looked_up "/bin" "Lookup /bin";;
          looked_up "/home/divyanshu/projects" "Deep lookup";;
          fs_test_init.

Definition fs_test : test (Ramfs.fs_state K) () :=
  say (nl +++ "========== Filesystem Test ==========" +++ nl) [];;
  run (fun s => Some (Vfs.vfs_init s));;
  rc ← op (Ramfs.ramfs_init root_fs);
  if negb (succeeded rc) then fail "ramfs_init()"
  else
    rc ← op (Vfs.vfs_mount root_fs NULL);
    if negb (succeeded rc) then fail "vfs_mount()"
    else
      pass "Mounted RAMFS";;
      root ← op (fun s => root ← Vfs.vfs_get_root s; Some (s, root));
      if root =? NULL then fail "Root vnode is NULL"
      else pass "Root vnode acquired";; fs_test_tree root.
End fs_test.

(** ** [tests/test_atomic.c], [tests/spinlock_test.c] *)

(** On one processor, as in [Sync.v]: waiting for a lock that is taken never ends. *)
Definition spinlock_init : Z := 0.
Definition spin_lock (locked : Z) : option Z := if locked =? 0 then Some 1 else None.
Definition spin_unlock (locked : Z) : Z := 0.

Section locks.
Context {S : Type}.

Definition test_atomic_xchg : test S () :=
  let '(old, l) := atomic_xchg_u64 10 (mk_irq_spinlock 5 false) in
  let value := locked l in
  say ("Atomic Test" +++ nl) [];;
  say ("Old Value: %llu" +++ nl) [ArgZ old];;
  say ("New Value: %llu" +++ nl) [ArgZ value];;
  verdict ((old =? 5) && (value =? 10)) "atomic_xchg_u64".

Definition test_spinlock : test S () :=
  let lock := spinlock_init in
  say ("Spinlock Test" +++ nl) [];;
  lock ← use (spin_lock lock);
  (if lock =? 1 then pass "lock acquired" else fail "lock acquire");;
  let lock := spin_unlock lock in
  (if lock =? 0 then pass "lock released" else fail "lock release").
End locks.

Section kernel_tests.
Context {K A : Type} `{KAlloc K}.
Implicit Types s : sys K A.

(** ** [tests/test_irq_spinlock.c], [tests/mutex_test.c] *)
Definition test_irq_spinlock : test (sys K A) () :=
  let lock := irq_spinlock_init in
  lock ← op (fun s => '(lock, irq) ← irq_spin_lock lock (irq_enabled s); Some (with_irq_enabled irq s, lock));
  (if locked lock =? 1 then pass "irq spinlock acquired" else fail "irq spinlock acquire");;
  lock ← op (fun s => let '(lock, irq) := irq_spin_unlock lock (irq_enabled s) in Some (with_irq_enabled irq s, lock));
  (if locked lock =? 0 then pass "irq spinlock released" else fail "irq spinlock release").

Definition test_mutex_init : test (sys K A) () :=
  let mutex := Mutex.mutex_init in
  verdict (negb (Mutex.m_locked mutex) && (Mutex.owner mutex =? NULL) && (Mutex.wait_queue mutex =? NULL)) "mutex init".

(** A call of [mutex_lock] that waits would not go on to the test. *)
Definition test_mutex_lock : test (sys K A) () :=
  current ← get current_task;
  if current =? NULL then say ("[SKIP] mutex lock requires a running task" +++ nl) []
  else
    mutex ← op (fun s => '(mutex, s, o) ← Mutex.mutex_lock 1 (Some Mutex.mutex_init) s;
                         mutex ← mutex; match o with Returned => Some (s, mutex) | Switched _ _ => None end);
    if Mutex.m_locked mutex && (Mutex.owner mutex =? current) then pass "mutex lock" else fail "mutex llock".

(** ** [tests/tests.c] *)
Definition traced (name : string) (t : test (sys K A) ()) : test (sys K A) () :=
  say ("[TRACE] " +++ name +++ " begin" +++ nl) [];; t;; say ("[TRACE] " +++ name +++ " end" +++ nl) [].

Definition kernel_tests : test (sys K A) () :=
  say ("[TRACE] kernel_tests entry" +++ nl) [];;
  write nl;;
  write ("=====================================" +++ nl);;
  write ("        ZENITHOS KERNEL TESTS" +++ nl);;
  write ("=====================================" +++ nl +++ nl);;
  traced "test_atomic_xchg" test_atomic_xchg;;
  traced "test_spinlock" test_spinlock;;
  traced "test_irq_spinlock" test_irq_spinlock;;
  traced "test_mutex_init" test_mutex_init;;
  traced "test_mutex_lock" test_mutex_lock;;
  write nl;;
  write ("=====================================" +++ nl);;
  write ("      ALL TESTS PASSED" +++ nl);;
  write ("=====================================" +++ nl +++ nl);;
  say ("[TRACE] kernel_tests exit" +++ nl) [];;
  say ("[TRACE] kernel_tests exit" +++ nl) [].
End kernel_tests.

(** ** [tests/fd_test.c] *)
Definition fd_test {S} `{!TestLayout} : test S () :=
  table ← use (Fd.fd_init (Some (Fd.mk_fd_table [])));
  let '(table, fd) := Fd.fd_allocate (Some table) fd_test_file in
  verdict (fd =? 0) "fd_allocate";;
  let result := Fd.fd_get table fd in
  verdict (result =? fd_test_file) "fd_get";;
  let '(table, rc) := Fd.fd_close table fd in
  verdict (succeeded rc) "fd_close";;
  verdict (Fd.fd_get table fd =? NULL) "fd released".

(** ** [tests/elf_test.c] *)
Section kmain.
Context {K A : Type} `{KAlloc K} `{PageAllocator A} `{!Ramfs.FsLayout} `{!TestLayout}.
Implicit Types k : kernel K A.

(** Addresses of assembly routines and of [idle_task], fixed by the linker. *)
Variables (context_resume_from_interrupt idle_task : Z).

Definition of_sys {B} (t : test (sys K A) B) : test (kernel K A) B := on_part k_sys on_sys t.
Definition of_fs {B} (t : test (Ramfs.fs_state K) B) : test (kernel K A) B := on_part fs_in fs_out t.
Definition memory (f : mem -> mem) : test (sys K A) () := run (fun s => Some (with_kmem (f (kmem s)) s)).

Definition fill_segment (ph offset vaddr filesz memsz flags : Z) (m : mem) : mem :=
  let m := store32 ph Elf.PT_LOAD m in
  let m := store64 (ph + 8) offset m in
  let m := store64 (ph + 16) vaddr m in
  let m := store64 (ph + 32) filesz m in
  let m := store64 (ph + 40) memsz m in
  store32 (ph + 4) flags m.

Definition fill_fake_elf (h : Z) (m : mem) : mem :=
  let m := fill_ident h (k_memset h 0 176 m) in
  let m := store32 (h + 20) Elf.EV_CURRENT m in
  let m := store16 (h + 16) Elf.ET_EXEC m in
  let m := store16 (h + 18) Elf.EM_X86_64 m in
  let m := store64 (h + 24) 0x400000 m in
  let m := store64 (h + 32) 64 m in
  let m := store16 (h + 56) 2 m in
  let m := store16 (h + 54) 56 m in
  let m := fill_segment (h + 64) 0 0x400000 4096 4096 (Z.lor PF_R PF_X) m in
  fill_segment (h + 120) 4096 0x401000 2048 4096 (Z.lor PF_R Elf.PF_W) m.

Definition elf_test_header (m : mem) (i : Z) : test (sys K A) () :=
  let ph := Elf.elf_program_header m fake_elf i in
  if ph =? NULL then say ("[FAIL] PH %u" +++ nl) [ArgZ i]
  else
    say ("[PASS] PH %u" +++ nl) [ArgZ i];;
    say ("Type=%u" +++ nl) [ArgZ (Elf.p_type m ph)];;
    say ("VAddr=0x%llx" +++ nl) [ArgZ (Elf.p_vaddr m ph)];;
    say ("File=%llu" +++ nl) [ArgZ (Elf.p_filesz m ph)];;
    say ("Mem=%llu" +++ nl) [ArgZ (Elf.p_memsz m ph)].

(** The image is undefined when the loader fails. *)
Definition elf_test_loader : test (sys K A) () :=
  '(image, rc) ← op (fun s =>
    let '(m, h, image, status) := Elf.elf_load_image fake_elf (Some (Elf.mk_image NULL 0 0 0)) (kmem s) (heap s) in
    Some (with_heap h (with_kmem m s), (image, status)));
  (if succeeded rc then
     image ← use image;
     pass "ELF Loader";;
     say ("Entry = 0x%llx" +++ nl) [ArgZ (Elf.entry image)]
   else fail "ELF Loader");;
  image ← use (if succeeded rc then image else None);
  say ("Image Base = 0x%llx" +++ nl) [ArgZ (Elf.image_base image)];;
  say ("Entry      = 0x%llx" +++ nl) [ArgZ (Elf.entry image)].

Definition elf_test : test (kernel K A) () :=
  of_sys (
    memory (fill_fake_elf fake_elf);;
    m ← get kmem;
    verdict (succeeded (Elf.elf_validate m fake_elf)) "ELF validation";;
    each (fun i => elf_test_header m (Z.of_nat i)) (seq 0 (Z.to_nat (Elf.e_phnum m fake_elf)));;
    dump (elf_print_header m fake_elf);;
    say (nl +++ "Running ELF Loader..." +++ nl) [];;
    elf_test_loader);;
  proc ← of_sys (op (process_create (literal "exec_test") process_test_entry));
  ret ← op (process_exec_file proc (Some (literal "/bin/init")));
  if succeeded ret then
    pass "process_exec_file";;
    s ← get k_sys;
    p ← use (ps s !! proc);
    say ("Entry : 0x%llx" +++ nl) [ArgZ (Elf.entry (image p))];;
    say ("Base  : 0x%llx" +++ nl) [ArgZ (Elf.image_base (image p))]
  else say ("[FAIL] process_exec_file %u" +++ nl) [ArgZ ret].

(** ** [tests/process_test.c] *)

(** What the processes of the tests run. *)
Definition process_test : test (kernel K A) outcome :=
  s ← get k_sys;
  pr ← use (process_current s);
  current ← use (ps s !! pr);
  say ("Process %llu started" +++ nl) [ArgZ (pid current)];;
  fd ← op (sys_open (Some (literal "/home/divyanshu/projects/notes.txt")));
  if fd <? 0 then
    say ("[FAIL] sys_open (%d)" +++ nl) [ArgZ fd];;
    of_sys (op (process_exit 42))
  else
    pass "sys_open";;
    say ("FD = %d" +++ nl) [ArgZ fd];;
    written ← op (sys_write fd process_text 18);
    (if written >=? 0 then pass "sys_write" else say ("[FAIL] sys_write (%d)" +++ nl) [ArgZ written]);;
    of_sys (memory (k_memset process_buffer 0 64));;
    bytes ← op (sys_read fd process_buffer 64);
    (if bytes >=? 0 then
       m ← get (fun k => kmem (k_sys k));
       text ← use (string_at m process_buffer 64);
       pass "sys_read";;
       say ("Read: %s" +++ nl) [text]
     else say ("[FAIL] sys_read (%d)" +++ nl) [ArgZ bytes]);;
    rc ← op (sys_close fd);
    verdict (succeeded rc) "sys_close";;
    of_sys (op (process_exit 42)).

(** [fd_allocate] and [fd_get] on the table of a process. *)
Definition allocate_fd (pr file : Z) : test (sys K A) Z :=
  op (fun s =>
    p ← ps s !! pr;
    let '(t, fd) := Fd.fd_allocate (Some (fd_table p)) file in
    t ← t; s ← update_process pr (setp_fd_table t) s; Some (s, fd)).

Definition fd_lookup_test (pr fd file : Z) (what : string) : test (sys K A) () :=
  p ← op (fun s => p ← ps s !! pr; Some (s, p));
  verdict (Fd.fd_get (Some (fd_table p)) fd =? file) what.

Definition say_pid (pr : Z) (what : string) : test (sys K A) () :=
  p ← op (fun s => p ← ps s !! pr; Some (s, p));
  say (what +++ " = %llu" +++ nl) [ArgZ (pid p)].

Definition process_lookup_tests : test (sys K A) () :=
  say (nl +++ "===== PROCESS LOOKUP TEST =====" +++ nl) [];;
  s ← get id;
  lookup ← use (process_lookup 2 s);
  (if negb (lookup =? NULL) then
     p ← use (ps s !! lookup);
     say ("Lookup Success!" +++ nl) [];;
     say ("PID  : %llu" +++ nl) [ArgZ (pid p)];;
     say ("Name : %s" +++ nl) [ArgS (name p)]
   else say ("Lookup Failed" +++ nl) []);;
  say (nl +++ "===== INVALID LOOKUP TEST =====" +++ nl) [];;
  invalid ← use (process_lookup 999 s);
  (if invalid =? NULL then say ("PASS: Invalid PID returned NULL" +++ nl) []
   else say ("FAIL: Invalid PID should not exist!" +++ nl) []);;
  say ("=========================================" +++ nl) [].

Definition process_image_test (p1 : Z) : test (sys K A) () :=
  say (nl +++ "===== PROCESS IMAGE TEST =====" +++ nl) [];;
  rc ← op (process_load_image p1 (Some (Elf.mk_image 0x100000 8192 0x401000 0x400000)));
  (if succeeded rc then
     p ← op (fun s => p ← ps s !! p1; Some (s, p));
     pass "process_load_image";;
     say ("Image Base : 0x%llx" +++ nl) [ArgZ (Elf.image_base (image p))];;
     say ("Entry      : 0x%llx" +++ nl) [ArgZ (Elf.entry (image p))];;
     say ("Image Size : %llu" +++ nl) [ArgZ (Elf.size (image p))]
   else fail "process_load_image");;
  say ("=========================================" +++ nl) [].

Definition test_process_void : test (sys K A) () :=
  say ("==============PROCESS===================" +++ nl) [];;
  p1 ← op (process_create (literal "Process 1") process_test_entry);
  p2 ← op (process_create (literal "Process 2") process_test_entry);
  p3 ← op (process_create (literal "Process 3") process_test_entry);
  say (nl +++ "===== PROCESS FD TABLE TEST =====" +++ nl) [];;
  fd1 ← allocate_fd p1 file1;
  fd2 ← allocate_fd p2 file2;
  fd3 ← allocate_fd p3 file3;
  say ("P1 FD = %d" +++ nl) [ArgZ fd1];;
  say ("P2 FD = %d" +++ nl) [ArgZ fd2];;
  say ("P3 FD = %d" +++ nl) [ArgZ fd3];;
  verdict ((fd1 =? 0) && (fd2 =? 0) && (fd3 =? 0)) "Independent FD tables";;
  fd_lookup_test p1 fd1 file1 "P1 FD lookup";;
  fd_lookup_test p2 fd2 file2 "P2 FD lookup";;
  fd_lookup_test p3 fd3 file3 "P3 FD lookup";;
  say ("=================================" +++ nl) [];;
  say_pid p1 "P1 PID";;
  say_pid p2 "P2 PID";;
  say_pid p3 "P3 PID";;
  process_lookup_tests;;
  process_image_test p1.

(** ** The end of [kmain] in [main.c]

    [scheduler_yield] leaves it for a process; [Switched] ends the program here. *)
Definition kmain_tests : test (kernel K A) outcome :=
  of_sys (
    say ("[TRACE] scheduler_init()" +++ nl) [];;
    run (scheduler_init idle_task);;
    current ← get current_task;
    say ("[TRACE] scheduler_init() done current_task=%p" +++ nl) [ArgZ current];;
    say ("[TRACE] kernel_tests() begin" +++ nl) [];;
    kernel_tests;;
    say ("[TRACE] kernel_tests() end" +++ nl) [];;
    say ("[TRACE] kernel_tests() end" +++ nl) []);;
  of_fs fs_test;;
  fd_test;;
  elf_test;;
  of_sys test_process_void;;
  of_sys (op scheduler_yield).
End kmain.
End SelfTests.
