(* ===== verification/SelfTestsSpec.v ===== *)
(** * The self tests pass

    [SelfTests.v]: for every machine with enough memory, what the tests print and the
    state they leave.  The file system is followed as the set of its entries. *)
From Stdlib Require Import Ascii String.
From S2P Require Import Prelude PageAllocator Memory KAlloc Convert Fd Elf TaskQueue PageTable System Scheduler Ramfs Vfs Sync Mutex Process ProcessImage Reports SelfTests.
Import Mem Str Convert Task Scheduler Process Reports SelfTests.
#[local] Open Scope Z_scope.

(** ** Bytes of objects *)

(** [a] and [b] are ranges without a common byte. *)
Definition apart (a n b k : Z) : Prop := a + n <= b \/ b + k <= a.
Definition range (a n : Z) : Prop := 0 < a /\ a + n < 2 ^ 64.

Lemma bytes_ext m m' p q n :
  (forall i, 0 <= i < Z.of_nat n -> load8 m (p + i) = load8 m' (q + i)) -> bytes_from m p n = bytes_from m' q n.
Proof.
  intros Hb. unfold bytes_from. apply list_fmap_ext. intros j i Hi. apply lookup_seq in Hi as [-> Hj]. apply Hb. lia.
Qed.

Lemma bytes_load m p n l i : bytes_from m p n = l -> 0 <= i < Z.of_nat n -> load8 m (p + i) = default 0 (l !! Z.to_nat i).
Proof.
  intros <- Hi. unfold bytes_from. rewrite list_lookup_fmap, lookup_seq_lt by lia. cbn. f_equal. lia.
Qed.

Lemma bytes_memset m p q c n k : range p (Z.of_nat n) -> range q k -> 0 <= k -> apart p (Z.of_nat n) q k ->
  bytes_from (k_memset q c k m) p n = bytes_from m p n.
Proof. intros [] [] ? Hd. apply bytes_ext. intros i Hi. rewrite memset_load, decide_False by (unfold apart in *; lia). done. Qed.

Lemma bytes_cleared m p c n : range p (Z.of_nat n) -> bytes_from (k_memset p c (Z.of_nat n) m) p n = replicate n (u8 c).
Proof.
  intros []. unfold bytes_from. apply list_eq. intros i. rewrite list_lookup_fmap.
  destruct (decide (i < n)%nat).
  - rewrite lookup_seq_lt by lia. rewrite lookup_replicate_2 by lia. cbn. rewrite memset_load, decide_True by lia. done.
  - rewrite lookup_seq_ge by lia. symmetry. apply lookup_replicate_None. lia.
Qed.

Lemma bytes_memcpy m p d s n k : range p (Z.of_nat n) -> range d k -> range s k -> 0 <= k ->
  apart d k s k -> apart p (Z.of_nat n) d k -> bytes_from (k_memcpy d s k m) p n = bytes_from m p n.
Proof.
  intros [] [] [] ? Hd Hp. unfold apart in *. apply bytes_ext. intros i Hi. rewrite memcpy_load, decide_False by lia. done.
Qed.

Lemma bytes_copied m d s n : range d (Z.of_nat n) -> range s (Z.of_nat n) -> apart d (Z.of_nat n) s (Z.of_nat n) ->
  bytes_from (k_memcpy d s (Z.of_nat n) m) d n = bytes_from m s n.
Proof.
  intros [] [] Hd. unfold apart in *. apply bytes_ext. intros i Hi. rewrite memcpy_load, decide_True by lia. f_equal. lia.
Qed.

Lemma bytes_split m p a b : bytes_from m p (a + b) = bytes_from m p a ++ bytes_from m (p + Z.of_nat a) b.
Proof.
  unfold bytes_from. rewrite seq_app, fmap_app. f_equal. apply list_eq. intros i. rewrite !list_lookup_fmap.
  destruct (decide (i < b)%nat); [rewrite !lookup_seq_lt by lia; cbn; do 2 f_equal; lia | by rewrite !lookup_seq_ge by lia].
Qed.

Lemma bytes_store8 m p a v n : 0 <= p -> p + Z.of_nat n <= 2 ^ 64 -> 0 <= a - p < Z.of_nat n ->
  bytes_from (store8 a v m) p n = <[Z.to_nat (a - p) := u8 v]> (bytes_from m p n).
Proof.
  intros Hp Hw Ha. unfold bytes_from. apply list_eq. intros i. rewrite list_lookup_insert, !list_lookup_fmap, length_fmap, length_seq.
  destruct (decide (i < n)%nat).
  - rewrite lookup_seq_lt by lia. cbn. rewrite load8_store8 by lia.
    destruct (decide (Z.to_nat (a - p) = i /\ (Z.to_nat (a - p) < n)%nat)), (decide (p + Z.of_nat i = a)); done || lia.
  - rewrite lookup_seq_ge by lia. cbn. rewrite decide_False by lia. done.
Qed.

(** A little-endian store, on the list of bytes. *)
Fixpoint put_bytes (k o : nat) (v : Z) (l : list Z) : list Z :=
  match k with O => l | S k => put_bytes k (S o) (v / 256) (<[o := u8 v]> l) end.

Lemma bytes_store_le k : forall m p a v n, 0 <= p -> p + Z.of_nat n <= 2 ^ 64 -> 0 <= a - p -> a - p + Z.of_nat k <= Z.of_nat n ->
  bytes_from (store_le k a v m) p n = put_bytes k (Z.to_nat (a - p)) v (bytes_from m p n).
Proof.
  induction k as [|k IH]; intros m p a v n Hp Hw Ha Hk; [done |]. cbn [store_le put_bytes].
  rewrite IH by lia. rewrite bytes_store8 by lia. f_equal. lia.
Qed.

Lemma bytes_store_le_ne k m p a v n : 0 <= p -> p + Z.of_nat n <= 2 ^ 64 -> 0 <= a -> a + Z.of_nat k <= 2 ^ 64 ->
  apart p (Z.of_nat n) a (Z.of_nat k) -> bytes_from (store_le k a v m) p n = bytes_from m p n.
Proof. intros ? ? ? ? Hd. unfold apart in *. apply bytes_ext. intros i Hi. apply load8_store_le_ne; lia. Qed.

(** ** The image of [/bin/init] *)
Section image.
Context `{!TestLayout}.
Hypothesis Himage : range init_image 136.

Definition init_elf : list Z :=
  [0x7F; 69; 76; 70; 2; 1] ++ replicate 10 0 ++ Elf.le 2 2 ++ Elf.le 2 62 ++ Elf.le 4 1 ++ Elf.le 8 0x400000 ++ Elf.le 8 64 ++
  replicate 14 0 ++ Elf.le 2 56 ++ Elf.le 2 1 ++ replicate 6 0 ++
  Elf.le 4 1 ++ Elf.le 4 5 ++ Elf.le 8 120 ++ Elf.le 8 0x400000 ++ replicate 8 0 ++ Elf.le 8 16 ++ Elf.le 8 16 ++ Elf.le 8 0x1000 ++
  [0xEB; 0xFE] ++ replicate 14 0x90.

(** The stores of [fill_init_elf], address by address. *)
Ltac offset a := let f := eval pattern init_image in (a - init_image) in
  match f with ?g _ => let c := eval vm_compute in (g 0) in replace (a - init_image) with c by lia end.
Ltac on_list :=
  repeat match goal with
  | |- context [bytes_from (store_le ?k ?a ?v ?m) init_image 136] =>
      rewrite (bytes_store_le k m init_image a v 136) by lia; offset a
  | |- context [bytes_from (store8 ?a ?v ?m) init_image 136] =>
      rewrite (bytes_store8 m init_image a v 136) by lia; offset a
  end.

Lemma fill_header_bytes m : bytes_from m init_image 136 = replicate 136 0 ->
  bytes_from (fill_init_header init_image m) init_image 136 = take 64 init_elf ++ replicate 72 0.
Proof.
  destruct Himage. intros E. unfold fill_init_header, fill_ident, store16, store32, store64. on_list. rewrite E. reflexivity.
Qed.

Lemma fill_program_header_bytes m : bytes_from m init_image 136 = take 64 init_elf ++ replicate 72 0 ->
  bytes_from (fill_init_program_header (init_image + 64) m) init_image 136 = take 120 init_elf ++ replicate 16 0.
Proof.
  destruct Himage. intros E. unfold fill_init_program_header, store16, store32, store64. on_list. rewrite E. reflexivity.
Qed.

Lemma fill_payload_bytes m : bytes_from m init_image 136 = take 120 init_elf ++ replicate 16 0 ->
  bytes_from (fill_payload (init_image + 120) m) init_image 136 = init_elf.
Proof.
  destruct Himage. intros E. unfold fill_payload. cbn [foldl seq]. on_list. rewrite E. reflexivity.
Qed.

Lemma fill_init_bytes m : bytes_from (fill_init_elf m) init_image 136 = init_elf.
Proof. apply fill_payload_bytes, fill_program_header_bytes, fill_header_bytes, (bytes_cleared m init_image 0 136), Himage. Qed.

(** It writes nothing else. *)
Lemma fill_init_other m p n : range p (Z.of_nat n) -> apart p (Z.of_nat n) init_image 136 ->
  bytes_from (fill_init_elf m) p n = bytes_from m p n.
Proof.
  intros Hp Hd. pose proof Himage as Hi. destruct Hp as [Hp0 Hp1], Hi as [Hi0 Hi1].
  assert (H8 : forall a v m, 0 <= a - init_image < 136 -> bytes_from (store8 a v m) p n = bytes_from m p n).
  { intros a v m' Ha. apply (bytes_store_le_ne 1); unfold apart in *; lia. }
  assert (Hle : forall k a v m, 0 <= a - init_image -> a - init_image + Z.of_nat k <= 136 ->
    bytes_from (store_le k a v m) p n = bytes_from m p n).
  { intros k a v m' ? ?. apply bytes_store_le_ne; unfold apart in *; lia. }
  unfold fill_init_elf, fill_payload, fill_init_program_header, fill_init_header, fill_ident, store16, store32, store64. cbn [foldl seq].
  repeat first [rewrite H8 by lia | rewrite Hle by lia]. by apply bytes_memset.
Qed.

(** Wherever its bytes are, they are a program [process_exec] can run. *)
Definition init_mem : mem := Elf.bytes_at 0x10000 init_elf ∅.

Lemma init_loadable i : Elf.loadable init_mem 0x10000 i -> i = 0.
Proof. intros [Hi _]. replace (Elf.e_phnum init_mem 0x10000) with 1 in Hi by (by vm_compute). lia. Qed.

Lemma init_first : Elf.loadable init_mem 0x10000 0.
Proof. split; [vm_compute; split; congruence | split; [vm_compute; congruence | vm_compute; reflexivity]]. Qed.

Lemma init_image_ok : Elf.image_ok init_mem 0x10000 136.
Proof.
  assert (Hph : Elf.elf_program_header init_mem 0x10000 0 = 0x10040) by by vm_compute.
  assert (Hf : Elf.filesz init_mem 0x10000 0 = 16) by by vm_compute.
  assert (Hm : Elf.memsz init_mem 0x10000 0 = 16) by by vm_compute.
  assert (Hv : Elf.vaddr init_mem 0x10000 0 = 0x400000) by by vm_compute.
  assert (Ho : Elf.offset init_mem 0x10000 0 = 120) by by vm_compute.
  assert (Hn : Elf.e_phnum init_mem 0x10000 = 1) by by vm_compute.
  split.
  - lia.
  - intros i Hi _. assert (i = 0) as -> by lia. rewrite Hph. lia.
  - intros i ->%init_loadable. rewrite Hf, Hm, Hv, Ho. lia.
  - intros i j ->%init_loadable ->%init_loadable. rewrite Hm, Hv. lia.
  - intros i j ->%init_loadable ->%init_loadable Hne. exfalso. lia.
  - exists 0. rewrite Hm. split; [apply init_first | lia].
Qed.

Lemma init_runnable : runnable init_mem 0x10000 136.
Proof.
  assert (Hm : Elf.memsz init_mem 0x10000 0 = 16) by by vm_compute.
  assert (Hv : Elf.vaddr init_mem 0x10000 0 = 0x400000) by by vm_compute.
  split.
  - exact init_image_ok.
  - by vm_compute.
  - intros i ->%init_loadable. rewrite Hv, Hm. split; [reflexivity | lia].
  - intros i j k l ->%init_loadable ->%init_loadable Hne. by destruct Hne.
  - exists 0. split; [exact init_first |]. rewrite Hv, Hm.
    replace (Elf.e_entry init_mem 0x10000) with 0x400000 by (by vm_compute). lia.
Qed.

Lemma init_runs m p : range p 136 -> bytes_from m p 136 = init_elf -> runnable m p 136.
Proof.
  intros [] E. apply (runnable_moved init_mem m 0x10000 p 136 init_runnable); [| done |].
  - intros x Hx. rewrite (bytes_load m p 136 _ x E) by lia. symmetry. apply (bytes_load init_mem 0x10000 136); [by vm_compute | lia].
  - right. intros i Hi. assert (i = 0) as ->; [| by vm_compute].
    replace (Elf.e_phnum init_mem 0x10000) with 1 in Hi by (by vm_compute). lia.
Qed.
End image.

(** ** Runs of a test *)

(** The test ends, with a state, a transcript and a result of [Q]. *)
Definition ends {S B} (t : test S B) (s : S) (Q : S -> list event -> B -> Prop) : Prop :=
  exists s' l b, t s = Some (s', l, b) /\ Q s' l b.

Section ends.
Context {S : Type}.

Lemma ends_bind {B C} (t : test S B) (f : B -> test S C) s (Q : S -> list event -> C -> Prop) :
  ends t s (fun s1 l1 b => ends (f b) s1 (fun s2 l2 c => Q s2 (l1 ++ l2) c)) -> ends (t ≫= f) s Q.
Proof.
  intros (s1 & l1 & b & E1 & s2 & l2 & c & E2 & HQ). exists s2, (l1 ++ l2), c. split; [| done].
  unfold mbind, test_bind. by rewrite E1, E2.
Qed.

Lemma ends_mono {B} (t : test S B) s (P Q : S -> list event -> B -> Prop) :
  ends t s P -> (forall s' l b, P s' l b -> Q s' l b) -> ends t s Q.
Proof. intros (s' & l & b & E & HP) HPQ. exists s', l, b. split; [done | by apply HPQ]. Qed.

Lemma ends_done {B} (t : test S B) s (Q : S -> list event -> B -> Prop) s' l b :
  t s = Some (s', l, b) -> Q s' l b -> ends t s Q.
Proof. intros E HQ. by exists s', l, b. Qed.

Lemma ends_say fmt args s (Q : S -> list event -> () -> Prop) :
  Q s [Kprintf (printf fmt args)] () -> ends (say fmt args) s Q.
Proof. by apply ends_done. Qed.

Lemma ends_op {B} (f : S -> option (S * B)) s s' b (Q : S -> list event -> B -> Prop) :
  f s = Some (s', b) -> Q s' [] b -> ends (op f) s Q.
Proof. intros E. apply ends_done. unfold op. by rewrite E. Qed.

Lemma ends_run (f : S -> option S) s s' (Q : S -> list event -> () -> Prop) :
  f s = Some s' -> Q s' [] () -> ends (run f) s Q.
Proof. intros E. apply ends_done. unfold run. by rewrite E. Qed.

Lemma ends_get {B} (f : S -> B) s (Q : S -> list event -> B -> Prop) : Q s [] (f s) -> ends (get f) s Q.
Proof. by apply ends_done. Qed.

Lemma ends_use {B} (o : option B) b s (Q : S -> list event -> B -> Prop) : o = Some b -> Q s [] b -> ends (use o) s Q.
Proof. intros ->. by apply ends_done. Qed.
End ends.

(** One step of a test that prints or reads. *)
Ltac step := lazymatch goal with
  | |- ends (say _ _) _ _ => apply ends_say
  | |- ends (pass _) _ _ => apply ends_say
  | |- ends (verdict true _) _ _ => apply ends_say
  | |- ends (get _) _ _ => apply ends_get
  | |- ends (_ ≫= _) _ _ => apply ends_bind
  end.
Ltac steps := repeat (step; cbv beta).

(** ** Enough memory *)
Section plenty.
Context {K : Type} `{KAlloc K}.

(** The next [n] calls find the heap with room for small objects. *)
Fixpoint plenty (n : nat) (k : K) : Prop :=
  match n with
  | O => True
  | S n => (forall size, 0 < size <= 1024 -> (ka_malloc size k).2 <> NULL /\ plenty n (ka_malloc size k).1) /\
           forall p, plenty n (ka_free p k)
  end.

Lemma plenty_malloc `{!KAllocLaws K} n k L size : plenty (S n) k -> ka_live k L -> 0 < size <= 1024 ->
  exists m, size <= m /\ L !! (ka_malloc size k).2 = None /\ (ka_malloc size k).2 <> NULL /\
    ka_live (ka_malloc size k).1 (<[(ka_malloc size k).2 := m]> L) /\ plenty n (ka_malloc size k).1.
Proof.
  intros [Hm _] Hl Hs. destruct (Hm size Hs) as [Hn Hp].
  destruct (ka_malloc size k) as [k' p] eqn:E. cbn [fst snd] in *.
  destruct (ka_malloc_spec k L size k' p Hl ltac:(lia) E) as [[? _]|(m & Hsm & Hf & _ & Hl')]; [done |].
  by exists m.
Qed.
End plenty.

Lemma bump_plenty n (k : Bump.bump) : 0 < Bump.b_next k -> Bump.b_next k + 1056 * Z.of_nat n <= Bump.b_limit k -> plenty n k.
Proof.
  revert k; induction n as [|n IH]; intros k Hk Hn; [done |]. split.
  - intros size Hs. cbn. pose proof (Bump.round16_spec size). assert (Bump.round16 size <= 1024) by (unfold Bump.round16; word_lia).
    destruct (Z.leb_spec (Bump.b_next k + Bump.round16 size + 16) (Bump.b_limit k)); [| lia].
    split; [cbn; unfold NULL; lia |]. apply IH; cbn; lia.
  - intros p. apply IH; cbn; lia.
Qed.

(** ** A file system as the set of its entries *)
Section view.
Context {K : Type} `{KAllocLaws K} `{!Ramfs.FsLayout} `{!Ramfs.FsLayoutLaws} (lo hi : Z).
Import Ramfs Vfs.
Implicit Types s : fs_state K.

Definition entries : Type := list (Z * list Z * Z).

Definition is_dir s (p : Z) : Prop := exists n, nodes s !! p = Some n /\ v_type (vnode n) = VNODE_DIRECTORY.
Definition empty_file s (p : Z) : Prop :=
  exists n, nodes s !! p = Some n /\ v_type (vnode n) = VNODE_FILE /\ data n = NULL.

Record view s (L : gmap Z Z) (E : entries) (dirs files : list Z) : Prop := {
  vw_ok : vfs_ok s ramfs_root;
  vw_live : ka_live (fheap s) L;
  vw_region : ka_region (fheap s) = (lo, hi);
  vw_root : ramfs_root < lo \/ hi <= ramfs_root;
  vw_nodes p : is_Some (nodes s !! p) -> p = ramfs_root \/ is_Some (L !! p);
  vw_entries d n c : entry s d n c <-> (d, n, c) ∈ E;
  vw_dirs : Forall (is_dir s) dirs;
  vw_files : Forall (empty_file s) files;
}.

(** A directory has no more nodes than there are entries. *)
Lemma view_count s L E ds fs d n : view s L E ds fs -> nodes s !! d = Some n -> 0 <= child_count n <= Z.of_nat (length E).
Proof.
  intros Hv Hn. destruct (vw_ok _ _ _ _ _ Hv) as (Hok & _). destruct (no_children _ _ _ (Hok d n Hn)) as [_ Hc].
  split; [lia |]. pose proof (kids_length s d n Hok Hn) as Hl.
  assert (Hnd : NoDup (kids s d)).
  { apply NoDup_alt. intros i j c Hi Hj. destruct (no_kids _ _ _ (Hok d n Hn) c) as (m & Hm & _); [by eapply list_elem_of_lookup_2 |].
    apply (no_names _ _ _ (Hok d n Hn) i j c c (cstr (v_name (vnode m)))); try done; unfold node_name; by rewrite Hm. }
  assert (Hsub : kids s d ⊆ E.*2).
  { intros c Hk. destruct (no_kids _ _ _ (Hok d n Hn) c Hk) as (m & Hm & _). apply list_elem_of_fmap.
    exists (d, cstr (v_name (vnode m)), c). split; [done |]. apply (vw_entries _ _ _ _ _ Hv). split; [done |].
    unfold node_name. by rewrite Hm. }
  pose proof (submseteq_length _ _ (NoDup_submseteq _ _ Hnd Hsub)) as Hle. rewrite length_fmap in Hle. lia.
Qed.

(** What [ramfs_add] leaves alone, and the new node. *)
Lemma add_frame type d name s s' st : ramfs_add type d name s = Some (s', st) ->
  mounts s' = mounts s /\ vfs_root_mount s' = vfs_root_mount s /\ fss s' = fss s /\
  (st = KERNEL_SUCCESS -> fheap s' = (ka_malloc sizeof_ramfs_node (fheap s)).1 /\
     forall q, is_Some (nodes s' !! q) -> is_Some (nodes s !! q) \/ q = (ka_malloc sizeof_ramfs_node (fheap s)).2).
Proof.
  unfold ramfs_add. destruct name as [str|]; [| by intros [= <- <-]].
  destruct (d =? NULL); [by intros [= <- <-] |]. destruct (nodes s !! d) as [n|]; [| done]. cbn [mbind option_bind].
  destruct (negb _); [by intros [= <- <-] |]. destruct (v_private_data (vnode n) =? NULL); [by intros [= <- <-] |].
  destruct (ramfs_lookup d (Some str) s) as [[found r]|]; [| done]. cbn [mbind option_bind].
  destruct (found =? KERNEL_SUCCESS); [by intros [= <- <-] |].
  destruct (nodes s !! v_private_data (vnode n)) as [p|] eqn:Ep; [| done]. cbn [mbind option_bind].
  destruct (child_count p >=? RAMFS_MAX_CHILDREN); [by intros [= <- <-] |].
  destruct (ka_malloc sizeof_ramfs_node (fheap s)) as [k c]. destruct (c =? NULL); [by intros [= <- <-] |].
  destruct (k_strcpy no_name str); [| done]. cbn [mbind option_bind]. intros [= <- <-]. split_and!; try done. intros _.
  split; [done |]. intros q. cbn. destruct (decide (q = v_private_data (vnode n))) as [->|]; [left; by eexists |].
  rewrite lookup_insert_ne by done. destruct (decide (q = c)) as [->|]; [by right | left; by rewrite lookup_insert_ne in *].
Qed.

(** A new entry. *)
Lemma added_view type d nm c s s' L L' E ds fs :
  view s L E ds fs -> ramfs_ok s' -> ka_live (fheap s') L' -> ka_region (fheap s') = (lo, hi) ->
  (forall q, is_Some (L !! q) -> is_Some (L' !! q)) -> is_Some (L' !! c) ->
  mounts s' = mounts s -> vfs_root_mount s' = vfs_root_mount s -> fss s' = fss s ->
  (forall q, is_Some (nodes s' !! q) -> is_Some (nodes s !! q) \/ q = c) -> added s s' type d nm c ->
  view s' L' ((d, nm, c) :: E)
    (match type with VNODE_DIRECTORY => c :: ds | _ => ds end) (match type with VNODE_FILE => c :: fs | _ => fs end).
Proof.
  intros [(Hok & Hg & Hroot) Hl Hr Hrt Hn He Hds Hfs] Hok' Hl' Hr' Hsub Hc Em Ev Ef Hdom (_ & Hent & (m & Hm & Hmt & _ & _ & Hmd & _) & Hkeep).
  assert (Hdir : forall p, is_dir s p -> is_dir s' p).
  { intros p (x & Hx & Ht). destruct (Hkeep p x Hx) as (x' & Hx' & Ev' & _). exists x'. by rewrite Ev'. }
  assert (Hfile : forall p, empty_file s p -> empty_file s' p).
  { intros p (x & Hx & Ht & Hd). destruct (Hkeep p x Hx) as (x' & Hx' & Ev' & Ed & _). exists x'. by rewrite Ev', Ed. }
  split; try done.
  - split; [done |]. split.
    + rewrite <- Hg. unfold vfs_get_root. by rewrite Em, Ev, Ef.
    + destruct Hroot as [x Hx]. destruct (Hkeep _ x Hx) as (x' & Hx' & _). by eexists.
  - intros p [Hp%Hn| ->]%Hdom; [destruct Hp; [by left | right; by apply Hsub] | by right].
  - intros d' n' c'. rewrite Hent, He, elem_of_cons. naive_solver.
  - destruct type; try constructor; try (by eapply Forall_impl); by exists m.
  - destruct type; try constructor; try (by eapply Forall_impl); by exists m.
Qed.

Lemma view_add type d nm s L E ds fs n :
  view s L E ds fs -> d ∈ ds -> byte_list nm -> k_strlen nm < 64 -> Forall (fun e => e.1.2 <> cstr nm) E ->
  (length E < 64)%nat -> plenty (S n) (fheap s) ->
  exists s' c L', ramfs_add type d (Some nm) s = Some (s', KERNEL_SUCCESS) /\
    view s' L' ((d, cstr nm, c) :: E)
      (match type with VNODE_DIRECTORY => c :: ds | _ => ds end) (match type with VNODE_FILE => c :: fs | _ => fs end) /\
    plenty n (fheap s') /\ fmem s' = fmem s /\ nodes s !! c = None.
Proof.
  intros Hv Hd Hb Hlen Hnew HE Hp. destruct (proj1 (Forall_forall _ _) (vw_dirs _ _ _ _ _ Hv) d Hd) as (p & Hp0 & Ht).
  destruct (plenty_malloc n (fheap s) L sizeof_ramfs_node Hp (vw_live _ _ _ _ _ Hv) ltac:(unfold sizeof_ramfs_node; lia))
    as (m & Hm & Hf & Hnn & Hl' & Hp').
  assert (Hfresh : nodes s !! (ka_malloc sizeof_ramfs_node (fheap s)).2 = None).
  { apply eq_None_not_Some. intros [E0|[x E0]]%(vw_nodes _ _ _ _ _ Hv); [| congruence].
    pose proof (ka_region_live _ _ _ _ Hl' (lookup_insert_eq L _ m)) as Hreg. rewrite ka_region_malloc, (vw_region _ _ _ _ _ Hv) in Hreg.
    cbn [fst snd] in Hreg. pose proof (vw_root _ _ _ _ _ Hv). rewrite E0 in Hreg. unfold sizeof_ramfs_node in *. lia. }
  destruct (ramfs_add_spec type s d p nm (proj1 (vw_ok _ _ _ _ _ Hv)) Hp0 Hb Hlen Hfresh)
    as (s' & st & E0 & Hok' & Efl & Efs & Efm & Hcase).
  destruct (add_frame _ _ _ _ _ _ E0) as (Em & Ev & _ & Hs).
  destruct Hcase as [(_ & ? & _)|[(_ & _ & c & Hc)|[(_ & _ & [Hfull|?])|(-> & _ & _ & c & Hadd)]]]; [done | | | done |].
  { apply (vw_entries _ _ _ _ _ Hv) in Hc. by apply (proj1 (Forall_forall _ _) Hnew) in Hc. }
  { pose proof (view_count _ _ _ _ _ _ _ Hv Hp0). unfold RAMFS_MAX_CHILDREN in *. lia. }
  destruct (Hs eq_refl) as [Ek Hdom]. exists s', c, (<[(ka_malloc sizeof_ramfs_node (fheap s)).2 := m]> L). split; [done |].
  assert (c = (ka_malloc sizeof_ramfs_node (fheap s)).2) as ->.
  { destruct Hadd as (Hnc & _ & (x & Hx & _) & _). destruct (Hdom c) as [[y Hy]|]; [by eexists | congruence | done]. }
  split; [| rewrite Ek; split_and!; [done | done | apply Hadd]].
  eapply added_view; rewrite ?Ek; try done; try (by eexists).
  - rewrite ka_region_malloc. apply Hv.
  - intros q [y Hq]. rewrite lookup_insert. case_decide; by eexists.
  - rewrite lookup_insert_eq. by eexists.
Qed.

(** A path of known entries. *)
Inductive leads (E : entries) : Z -> list (list Z) -> Z -> Prop :=
  | leads_here d : leads E d [] d
  | leads_step d n c ns r : Z.of_nat (length n) < 64 -> (d, n, c) ∈ E -> leads E c ns r -> leads E d (n :: ns) r.

Lemma leads_resolves s L E ds fs d ns r : view s L E ds fs -> leads E d ns r -> resolves s d ns KERNEL_SUCCESS r.
Proof. intros Hv. induction 1; [constructor |]. eapply resolves_step; [done | by apply Hv | done]. Qed.

Lemma resolves_lookup s path st r : vfs_ok s ramfs_root -> byte_list path -> resolves s ramfs_root (split_path path) st r ->
  vfs_lookup (Some path) s = Some (st, r).
Proof.
  intros Hok Hb Hr. destruct (vfs_lookup_spec s ramfs_root path Hok Hb) as (st' & r' & E & Hr'). rewrite E.
  by destruct (resolves_det s _ _ _ _ _ _ (proj1 Hok) Hr' Hr) as [-> ->].
Qed.

(** ** Files *)

(** The same entries in a state with the same nodes. *)
Lemma view_same s s' L L' E ds fs :
  view s L E ds fs -> nodes s' = nodes s -> mounts s' = mounts s -> vfs_root_mount s' = vfs_root_mount s -> fss s' = fss s ->
  ka_live (fheap s') L' -> ka_region (fheap s') = (lo, hi) ->
  (forall q, is_Some (nodes s !! q) -> q = ramfs_root \/ is_Some (L' !! q)) -> view s' L' E ds fs.
Proof.
  intros [Hok Hl Hr Hrt Hn He Hds Hfs] En Em Ev Ef Hl' Hr' Hn'.
  split; try done; unfold is_dir, empty_file, entry, kids, node_name in *; rewrite ?En; try done.
  apply (vfs_ok_same s); [done | | done]. unfold vfs_get_root. by rewrite Em, Ev, Ef.
Qed.

(** The file [c] holds the bytes [l], in an object of the heap. *)
Definition holds s (L : gmap Z Z) (c : Z) (l : list Z) : Prop :=
  exists n m, nodes s !! c = Some n /\ v_type (vnode n) = VNODE_FILE /\ v_private_data (vnode n) = c /\
    v_size (vnode n) = Z.of_nat (length l) /\ capacity n = Z.of_nat (length l) /\
    L !! data n = Some m /\ Z.of_nat (length l) <= m /\ bytes_from (fmem s) (data n) (length l) = l.

Lemma live_range k L p n : ka_live k L -> L !! p = Some n -> range p n.
Proof. intros Hl Hp. destruct (ka_range k L p n Hl Hp) as (? & ? & ? & _). by split. Qed.

(** It keeps them while its node and the bytes of its object stay. *)
Lemma holds_same s s' L L' c l :
  holds s L c l -> nodes s' !! c = nodes s !! c ->
  (forall q m, L !! q = Some m -> Z.of_nat (length l) <= m -> L' !! q = Some m /\
     bytes_from (fmem s') q (length l) = bytes_from (fmem s) q (length l)) \/
  (exists f, L' = delete f L /\ fmem s' = fmem s /\ forall n, nodes s !! c = Some n -> data n <> f) -> holds s' L' c l.
Proof.
  intros (n & m & Hn & Ht & Hp & Hs & Hc & Hm & Hlm & Hb) En Hcase. exists n, m. rewrite En.
  destruct Hcase as [Hk|(f & -> & -> & Hf)]; [destruct (Hk _ _ Hm Hlm) as [? ->]; by split_and! |].
  split_and!; try done. rewrite lookup_delete_ne; [done |]. intros E. by apply (Hf n Hn).
Qed.

(** Opening a node. *)
Lemma view_open s L E ds fs np n :
  view s L E ds fs -> np <> NULL -> plenty (S n) (fheap s) ->
  exists s' file m, file_open np s = (s', file, KERNEL_SUCCESS) /\ file <> NULL /\ L !! file = None /\
    view s' (<[file := m]> L) E ds fs /\ plenty n (fheap s') /\ nodes s' = nodes s /\ fmem s' = fmem s /\
    files s' !! file = Some (mk_file np 0 0 1) /\ nodes s !! file = None.
Proof.
  intros Hv Hnp Hp. destruct (plenty_malloc n (fheap s) L sizeof_file Hp (vw_live _ _ _ _ _ Hv) ltac:(unfold sizeof_file; lia))
    as (m & Hm & Hf & Hnn & Hl' & Hp').
  unfold file_open. destruct (Z.eqb_spec np NULL); [done |]. pose proof (ka_region_malloc (fheap s) sizeof_file) as Hreg.
  rewrite (vw_region _ _ _ _ _ Hv) in Hreg. destruct (ka_malloc sizeof_file (fheap s)) as [k file]. cbn [fst snd] in *.
  destruct (Z.eqb_spec file NULL); [done |]. eexists _, file, m. split; [reflexivity |].
  split_and!; try done; [| apply lookup_insert_eq |].
  - apply (view_same s _ L); try done. intros q Hq. destruct (vw_nodes _ _ _ _ _ Hv q Hq) as [->|[x Hx]]; [by left | right].
    rewrite lookup_insert. case_decide; by eexists.
  - apply eq_None_not_Some. intros [->|[x E0]]%(vw_nodes _ _ _ _ _ Hv); [| congruence].
    pose proof (ka_region_live _ _ _ _ Hl' (lookup_insert_eq L _ m)) as Hin. rewrite Hreg in Hin.
    pose proof (vw_root _ _ _ _ _ Hv). unfold sizeof_file in *. cbn [fst snd] in Hin. lia.
Qed.

(** Closing the file. *)
Lemma view_close s L E ds fs file m n :
  view s L E ds fs -> L !! file = Some m -> file <> NULL -> nodes s !! file = None -> plenty (S n) (fheap s) ->
  view (file_close file s) (delete file L) E ds fs /\ plenty n (fheap (file_close file s)).
Proof.
  intros Hv Hf Hnn Hno [_ Hp]. rewrite close_state by done. split; [| apply Hp].
  apply (view_same s _ L); try done.
  - eapply ka_free_spec; [apply Hv | done].
  - cbn. rewrite ka_region_free. apply Hv.
  - intros q Hq. destruct (vw_nodes _ _ _ _ _ Hv q Hq) as [->|Hx]; [by left | right].
    rewrite lookup_delete_ne; [done |]. intros ->. rewrite Hno in Hq. by destruct Hq.
Qed.

(** The first write to a file. *)
Lemma write_empty s file f node buffer size :
  files s !! file = Some f -> file <> NULL -> nodes s !! f_node f = Some node -> node_ok s (f_node f) node ->
  v_type (vnode node) = VNODE_FILE -> data node = NULL -> buffer <> NULL -> (ka_malloc size (fheap s)).2 <> NULL ->
  exists s', vfs_write file buffer size s = Some (s', KERNEL_SUCCESS) /\
    nodes s' = <[f_node f := set_size size (set_data (ka_malloc size (fheap s)).2 size node)]> (nodes s) /\
    files s' = <[file := set_position size f]> (files s) /\ fss s' = fss s /\ mounts s' = mounts s /\
    vfs_root_mount s' = vfs_root_mount s /\ fheap s' = (ka_malloc size (fheap s)).1 /\
    fmem s' = k_memcpy (ka_malloc size (fheap s)).2 buffer size (fmem s).
Proof.
  intros Hf Hf0 Hn Hok Ht Hd Hb Hp. pose proof (no_private _ _ _ Hok) as Hpr. pose proof (no_nonnull _ _ _ Hok) as Hn0.
  unfold vfs_write. rewrite (vfs_call_file ramfs_write s file f node buffer size Hf0 Hf Hn Hn0 (no_ops _ _ _ Hok)).
  unfold ramfs_write. destruct (Z.eqb_spec file NULL); [done |]. destruct (Z.eqb_spec buffer NULL); [done |]. cbn [orb].
  rewrite Hf. cbn [mbind option_bind]. rewrite Hn. cbn [mbind option_bind]. rewrite Hpr.
  destruct (Z.eqb_spec (f_node f) NULL); [done |]. rewrite bool_decide_true by done. cbn [negb].
  rewrite Hn. cbn [mbind option_bind]. rewrite Hd, Z.eqb_refl. destruct (ka_malloc size (fheap s)) as [k p]. cbn [fst snd] in *.
  destruct (Z.eqb_spec p NULL); [done |]. cbn [negb]. eexists. split; [reflexivity |].
  split_and!; try done. cbn. apply insert_insert_eq.
Qed.

(** A range outside the heap. *)
Definition outside (a n : Z) : Prop := range a n /\ (a + n <= lo \/ hi <= a).

Lemma outside_apart s L E ds fs a n p m : view s L E ds fs -> outside a n -> L !! p = Some m -> apart a n p m /\ range p m.
Proof.
  intros Hv [_ Ho] Hp. pose proof (ka_region_live _ _ _ _ (vw_live _ _ _ _ _ Hv) Hp) as Hr.
  rewrite (vw_region _ _ _ _ _ Hv) in Hr. cbn in Hr. split; [unfold apart; lia | eapply live_range; [apply Hv | done]].
Qed.

Lemma apart_le a n b k k' : apart a n b k' -> 0 <= k <= k' -> apart a n b k.
Proof. unfold apart. lia. Qed.

Lemma apart_comm a n b k : apart a n b k -> apart b k a n.
Proof. unfold apart. lia. Qed.

Lemma range_le a n k : range a n -> 0 <= k <= n -> range a k.
Proof. unfold range. lia. Qed.

(** The first write to an empty file, from outside the heap. *)
Lemma view_write s L E ds fs fs' file f buffer l n :
  view s L E ds fs -> files s !! file = Some f -> file <> NULL -> f_node f ∈ fs -> f_node f ∉ fs' -> fs' ⊆ fs ->
  outside buffer (Z.of_nat (length l)) -> bytes_from (fmem s) buffer (length l) = l -> 0 < Z.of_nat (length l) <= 1024 ->
  plenty (S n) (fheap s) ->
  exists s' L', vfs_write file buffer (Z.of_nat (length l)) s = Some (s', KERNEL_SUCCESS) /\
    view s' L' E ds fs' /\ holds s' L' (f_node f) l /\ plenty n (fheap s') /\
    files s' !! file = Some (set_position (Z.of_nat (length l)) f) /\
    (forall c k, c <> f_node f -> holds s L c k -> holds s' L' c k) /\
    (forall q k, outside q (Z.of_nat k) -> bytes_from (fmem s') q k = bytes_from (fmem s) q k) /\ L ⊆ L' /\
    (forall q, nodes s !! q = None -> nodes s' !! q = None) /\ (forall n', nodes s' !! f_node f = Some n' -> L !! data n' = None).
Proof.
  intros Hv Hf Hf0 Hin Hnin Hsub Ho Hb Hlen Hp.
  destruct (proj1 (Forall_forall _ _) (vw_files _ _ _ _ _ Hv) _ Hin) as (node & Hn & Ht & Hd).
  pose proof (proj1 (vw_ok _ _ _ _ _ Hv) _ _ Hn) as Hok. set (size := Z.of_nat (length l)) in *.
  destruct (plenty_malloc n (fheap s) L size Hp (vw_live _ _ _ _ _ Hv) Hlen) as (m & Hm & Hfr & Hnn & Hl' & Hp').
  destruct Ho as [Hrb Hob].
  assert (Hb0 : buffer <> NULL) by (unfold range, NULL in *; lia).
  destruct (write_empty s file f node buffer size Hf Hf0 Hn Hok Ht Hd Hb0 Hnn) as (s' & Ew & En & Ef & Es & Em & Ev & Ek & Emem).
  pose proof (ka_region_malloc (fheap s) size) as Hreg. rewrite (vw_region _ _ _ _ _ Hv) in Hreg.
  destruct (ka_malloc size (fheap s)) as [k p]. cbn [fst snd] in *.
  pose proof (live_range _ _ _ _ Hl' (lookup_insert_eq L p m)) as Hrp.
  pose proof (ka_region_live _ _ _ _ Hl' (lookup_insert_eq L p m)) as Hrr. rewrite Hreg in Hrr. cbn in Hrr.
  assert (Hpb : apart p size buffer size) by (unfold apart; lia).
  assert (Hrp' : range p size) by (unfold range in *; lia).
  assert (Hkeep : forall q j, range q (Z.of_nat j) -> apart q (Z.of_nat j) p size ->
    bytes_from (fmem s') q j = bytes_from (fmem s) q j) by (intros; rewrite Emem; apply bytes_memcpy; try done; lia).
  exists s', (<[p := m]> L). split; [done |]. split; [| split; [| split; [by rewrite Ek | split; [| split; [| split]]]]].
  - split; rewrite ?Ek; try done; try apply Hv.
    + apply (contents_vfs s s' (f_node f) node size p size ramfs_root Hn En); try done. apply Hv.
    + intros q Hq. rewrite En in Hq. assert (Hq' : is_Some (nodes s !! q)).
      { destruct (decide (q = f_node f)) as [->|]; [by eexists | by rewrite lookup_insert_ne in Hq]. }
      destruct (vw_nodes _ _ _ _ _ Hv q Hq') as [->|[x Hx]]; [by left | right]. rewrite lookup_insert. case_decide; by eexists.
    + intros d nm c. rewrite (contents_entry s s' (f_node f) node size p size Hn En). apply Hv.
    + eapply Forall_impl; [apply Hv |]. intros d (x & Hx & Hxt). unfold is_dir. rewrite En.
      destruct (decide (d = f_node f)) as [->|]; [rewrite Hn in Hx; injection Hx as <-; congruence | rewrite lookup_insert_ne by done; by exists x].
    + apply Forall_forall. intros c Hc. destruct (proj1 (Forall_forall _ _) (vw_files _ _ _ _ _ Hv) c (Hsub c Hc)) as (x & Hx & ?).
      exists x. rewrite En, lookup_insert_ne by (intros <-; done). done.
  - exists (set_size size (set_data p size node)), m. rewrite En, lookup_insert_eq.
    split_and!; try done; [apply (no_private _ _ _ Hok) | apply lookup_insert_eq |].
    cbn [data set_size set_data]. rewrite Emem. etransitivity; [by apply (bytes_copied (fmem s) p buffer (length l)) | done].
  - rewrite Ef. apply lookup_insert_eq.
  - intros c k' Hc Hh. apply (holds_same s s' L (<[p := m]> L) c k' Hh); [by rewrite En, lookup_insert_ne |].
    left. intros q mq Hq Hle. assert (Hqp : q <> p) by (intros ->; congruence).
    split; [by rewrite lookup_insert_ne |].
    assert (Hq' : <[p := m]> L !! q = Some mq) by (by rewrite lookup_insert_ne).
    pose proof (ka_disjoint _ _ _ _ _ _ Hl' (lookup_insert_eq L p m) Hq' (not_eq_sym Hqp)).
    pose proof (live_range _ _ _ _ (vw_live _ _ _ _ _ Hv) Hq). apply Hkeep; unfold range, apart in *; lia.
  - intros q j [Hq Hqo]. apply Hkeep; [done | unfold apart; lia].
  - split; [by apply insert_subseteq |]. rewrite En. split.
    + intros q Hq. rewrite lookup_insert_ne; [done | congruence].
    + rewrite lookup_insert_eq. by intros n' [= <-].
Qed.

(** Reading a file back, to outside the heap. *)
Lemma read_file s L file f np l buffer size :
  ramfs_ok s -> ka_live (fheap s) L -> files s !! file = Some f -> file <> NULL -> f_node f = np -> holds s L np l ->
  buffer <> NULL -> Z.of_nat (length l) <= size -> Z.of_nat (length l) < 2 ^ 31 ->
  exists s' n, vfs_read file buffer size s = Some (s', Z.of_nat (length l)) /\ nodes s !! np = Some n /\
    nodes s' = nodes s /\ fss s' = fss s /\ mounts s' = mounts s /\ vfs_root_mount s' = vfs_root_mount s /\ fheap s' = fheap s /\
    fmem s' = k_memcpy buffer (data n) (Z.of_nat (length l)) (fmem s).
Proof.
  intros Hok Hl Hf Hf0 <- (n & m & Hn & Ht & Hpr & Hsz & Hcap & Hm & Hlm & Hb) Hb0 Hle Hlt.
  pose proof (Hok _ _ Hn) as Hnok. pose proof (no_nonnull _ _ _ Hnok) as Hn0.
  unfold vfs_read. rewrite (vfs_call_file ramfs_read s file f n buffer size Hf0 Hf Hn Hn0 (no_ops _ _ _ Hnok)).
  unfold ramfs_read. destruct (Z.eqb_spec file NULL); [done |]. destruct (Z.eqb_spec buffer NULL); [done |]. cbn [orb].
  rewrite Hf. cbn [mbind option_bind]. rewrite Hn. cbn [mbind option_bind]. rewrite Hpr.
  destruct (Z.eqb_spec (f_node f) NULL); [done |]. rewrite bool_decide_true by done. cbn [negb].
  rewrite Hn. cbn [mbind option_bind]. destruct (live_range _ _ _ _ Hl Hm).
  destruct (Z.eqb_spec (data n) NULL); [unfold NULL in *; lia |]. rewrite Hsz, Z.gtb_ltb.
  replace (if Z.of_nat (length l) <? size then Z.of_nat (length l) else size) with (Z.of_nat (length l))
    by (destruct (Z.ltb_spec (Z.of_nat (length l)) size); lia).
  rewrite i32_id by lia. eexists _, n. split; [reflexivity |]. done.
Qed.

Lemma open_path s L E ds fs path np :
  view s L E ds fs -> byte_list path -> leads E ramfs_root (split_path path) np ->
  vfs_open (Some path) s = Some (file_open np s).
Proof.
  intros Hv Hb Hl. unfold vfs_open.
  by rewrite (resolves_lookup s path _ _ (vw_ok _ _ _ _ _ Hv) Hb (leads_resolves _ _ _ _ _ _ _ _ Hv Hl)).
Qed.

(** The state and what it prints. *)
Lemma transcript_app l1 l2 t1 t2 : transcript l1 = Some t1 -> transcript l2 = Some t2 -> transcript (l1 ++ l2) = Some (t1 ++ t2).
Proof.
  revert t1; induction l1 as [|e l1 IH]; intros t1 E1 E2; [by injection E1 as <- |]. cbn [transcript app] in *.
  destruct (event_text e) as [t|]; [| done]. cbn [mbind option_bind] in *. destruct (transcript l1) as [u|]; [| done].
  injection E1 as <-. rewrite (IH u eq_refl E2). cbn [mbind option_bind]. by rewrite <- app_assoc.
Qed.

#[local] Open Scope string_scope.
#[local] Open Scope Z_scope.

(** The text of some lines. *)
Definition report (l : list string) : list Z := concat (line <$> l).

Definition notes_report : list string :=
  ["[PASS] open notes.txt"; "[PASS] write notes.txt"; "Stored Data: Hello ZenithOS"; "File Size: 15"; "Capacity: 15";
   "[PASS] read notes.txt"; "========== Filesystem Test Complete =========="].

Context `{!TestLayout}.
Definition hello : list Z := literal "Hello ZenithOS".
Definition notes_path : list Z := literal "/home/divyanshu/projects/notes.txt".

(** The locals and the literal of the test lie outside the heap. *)
Hypothesis Hinit : outside init_image 136.
Hypothesis Htext : outside notes_text 15.
Hypothesis Hbuffer : outside notes_buffer 32.
Hypothesis Hti : apart notes_text 15 init_image 136.

Definition notes_names : list string := ["home"; "divyanshu"; "projects"; "notes.txt"].

Lemma notes_path_split : split_path notes_path = bytes <$> notes_names.
Proof. by vm_compute. Qed.

Lemma notes_path_bytes : byte_list notes_path.
Proof. apply (bool_decide_unpack _). by vm_compute. Qed.

Lemma outside_nonnull a n : outside a n -> a <> NULL.
Proof. intros [[] _]. unfold NULL. lia. Qed.

(** The last lines: notes.txt is read into the cleared buffer. *)
Lemma notes_read_back s L E ds fs file f np :
  view s L E ds fs -> files s !! file = Some f -> file <> NULL -> f_node f = np -> holds s L np hello ->
  exists s', vfs_read file notes_buffer 32 (with_fmem (k_memset notes_buffer 0 32 (fmem s)) s) = Some (s', 15) /\
    view s' L E ds fs /\ bytes_from (fmem s') notes_buffer 32 = (hello ++ replicate 17 0)%list /\
    forall c l, holds s L c l -> holds s' L c l.
Proof.
  intros Hv Hf Hf0 Hnp Hh. set (s1 := with_fmem _ s). pose proof Hbuffer as [Hbr Hbo].
  assert (Hkeep : forall q m k, L !! q = Some m -> Z.of_nat k <= m -> bytes_from (fmem s1) q k = bytes_from (fmem s) q k).
  { intros q m k Hq Hle. destruct (outside_apart _ _ _ _ _ _ _ _ _ Hv Hbuffer Hq) as [Ha Hr].
    apply bytes_memset; try done; [eapply range_le; [done | lia] | ]. apply apart_comm. eapply apart_le; [done | lia]. }
  assert (Hv1 : view s1 L E ds fs) by (apply (view_same s _ L); try done; apply Hv).
  assert (Hh1 : holds s1 L np hello) by (apply (holds_same s s1 L L np hello Hh eq_refl); left; intros; split; [done | by eapply Hkeep]).
  destruct (read_file s1 L file f np hello notes_buffer 32 (proj1 (vw_ok _ _ _ _ _ Hv1)) (vw_live _ _ _ _ _ Hv1) Hf Hf0 Hnp Hh1
    (outside_nonnull _ _ Hbuffer) ltac:(by vm_compute) ltac:(by vm_compute)) as (s' & n & Er & Hn & En & Es & Em & Ev & Ek & Emem).
  destruct Hh1 as (n' & m & Hn' & _ & _ & _ & _ & Hm & Hlm & Hb). assert (n' = n) as -> by congruence.
  destruct (outside_apart _ _ _ _ _ _ _ _ _ Hv Hbuffer Hm) as [Ha Hr]. change (Z.of_nat (length hello)) with 15 in *.
  exists s'. split; [done |]. split; [| split].
  - apply (view_same s1 _ L); try done; rewrite ?Ek; apply Hv1.
  - rewrite Emem. etransitivity; [apply (bytes_split _ _ 15 17) | f_equal].
    + etransitivity; [apply (bytes_copied (fmem s1) notes_buffer (data n) 15); unfold range, apart in *; lia | exact Hb].
    + etransitivity; [apply bytes_memcpy; unfold range, apart in *; lia |]. cbn [fmem s1 with_fmem].
      pose proof (bytes_cleared (fmem s) notes_buffer 0 32 Hbr) as Hc. change 32%nat with (15 + 17)%nat in Hc.
      rewrite bytes_split, replicate_add in Hc.
      by apply app_inj_1 in Hc as [_ Hc].
  - intros c l Hc. apply (holds_same s s' L L c l Hc); [by rewrite En |]. left. intros q mq Hq Hle. split; [done |].
    rewrite <- (Hkeep q mq) by done. destruct (outside_apart _ _ _ _ _ _ _ _ _ Hv Hbuffer Hq) as [Ha' Hr']. rewrite Emem.
    apply bytes_memcpy; unfold range, apart in *; lia.
Qed.

Lemma string_at_holds m p l : 0 ∈ l -> bytes_from m p (length l) = l -> string_at m p (Z.of_nat (length l)) = Some (ArgS l).
Proof.
  intros H0' Hb. unfold string_at. rewrite Nat2Z.id, Hb. replace (existsb (Z.eqb 0) l) with true; [done |].
  symmetry. apply existsb_exists. exists 0. split; [by apply list_elem_of_In | done].
Qed.

Lemma fs_test_notes_ends s L E ds notes init n :
  view s L E ds [notes] -> leads E ramfs_root (bytes <$> notes_names) notes -> holds s L init init_elf -> init <> notes ->
  bytes_from (fmem s) notes_text 15 = hello -> plenty (S (S n)) (fheap s) ->
  ends fs_test_notes s (fun s' l _ => transcript l = Some (report notes_report) /\
    exists L', view s' L' E ds [] /\ holds s' L' notes hello /\ holds s' L' init init_elf).
Proof.
  intros Hv Hl Hinit' Hne Hhello Hp.
  assert (Hn0 : notes <> NULL).
  { destruct (proj1 (Forall_forall _ _) (vw_files _ _ _ _ _ Hv) notes ltac:(by left)) as (x & Hx & _).
    exact (no_nonnull _ _ _ (proj1 (vw_ok _ _ _ _ _ Hv) _ _ Hx)). }
  destruct (view_open s L E ds [notes] notes (S n) Hv Hn0 Hp) as (s1 & file & m & Eo & Hf0 & Hf & Hv1 & Hp1 & En & Em & Hfile & _).
  assert (Hinit1 : holds s1 (<[file := m]> L) init init_elf).
  { apply (holds_same s s1 L _ init init_elf Hinit'); [by rewrite En |]. left. intros q mq Hq _.
    rewrite lookup_insert_ne, Em by (intros ->; congruence). done. }
  destruct (view_write s1 _ E ds [notes] [] file _ notes_text hello n Hv1 Hfile Hf0 ltac:(by left) ltac:(by apply not_elem_of_nil)
    ltac:(apply list_subseteq_nil) Htext ltac:(by rewrite Em) ltac:(by vm_compute) Hp1)
    as (s2 & L2 & Ew & Hv2 & Hh2 & _ & Hfile2 & Hkeep & _).
  change (Z.of_nat (length hello)) with 15 in *. cbn [f_node] in *.
  destruct (notes_read_back s2 L2 E ds [] file _ notes Hv2 Hfile2 Hf0 eq_refl Hh2) as (s3 & Er & Hv3 & Hb3 & Hh3).
  unfold fs_test_notes. apply ends_bind. eapply ends_op.
  { cbv beta. fold notes_path. rewrite (open_path s L E ds [notes] notes_path notes Hv notes_path_bytes) by (by rewrite notes_path_split). rewrite Eo. reflexivity. }
  cbn [succeeded Z.eqb KERNEL_SUCCESS negb]. steps. eapply ends_op; [exact Ew |]. cbn [succeeded Z.eqb KERNEL_SUCCESS negb].
  steps. eapply ends_use; [exact Hfile2 |]. 
  pose proof Hh2 as (nd & mq & Hnd & Ht & Hpr & Hsz & Hcap & Hm & Hlm & Hb).
  apply ends_bind. eapply ends_use; [exact Hnd |]. rewrite Hpr. destruct (Z.eqb_spec notes NULL); [done |].
  apply ends_bind. eapply ends_use; [exact Hnd |].
  destruct (live_range _ _ _ _ (vw_live _ _ _ _ _ Hv2) Hm).
  destruct (Z.eqb_spec (data nd) NULL) as [E0|_]; [unfold NULL in *; lia |].
  apply ends_bind. eapply ends_use; [rewrite Hcap; apply string_at_holds; [apply (bool_decide_unpack _); by vm_compute | exact Hb] |]. rewrite Hsz, Hcap.
  steps. eapply ends_run; [reflexivity |]. apply ends_bind. eapply ends_op; [exact Er |]. steps. rewrite Hb3.
  replace (k_strcmp _ _ =? 0) with true by (by vm_compute). cbn [Z.eqb Pos.eqb andb]. unfold pass. steps.
  split; [reflexivity |]. exists L2. split; [done |]. split; apply Hh3; [done | by apply Hkeep].
Qed.

Lemma leads_mono E E' d ns r : E ⊆ E' -> leads E d ns r -> leads E' d ns r.
Proof. intros Hs. induction 1; [constructor |]. by eapply leads_step; [| apply Hs |]. Qed.

(** A name no entry has. *)
Definition unused (nm : string) (E : entries) : Prop := Forall (fun e => e.1.2 <> bytes nm) E.

(** A lookup of known entries, and one of an unused name in the root. *)
Lemma lookup_known p names s L E ds fs r : view s L E ds fs ->
  bool_decide (byte_list (literal p) /\ split_path (literal p) = bytes <$> names) ->
  leads E ramfs_root (bytes <$> names) r -> lookup p s = Some (s, [], (KERNEL_SUCCESS, r)).
Proof.
  intros Hv [Hb <-]%bool_decide_unpack Hl. unfold lookup.
  by rewrite (resolves_lookup s _ _ _ (vw_ok _ _ _ _ _ Hv) Hb (leads_resolves _ _ _ _ _ _ _ _ Hv Hl)).
Qed.

Lemma lookup_missing p nm s L E ds fs : view s L E ds fs -> bool_decide (byte_list (literal p)) ->
  split_path (literal p) = [bytes nm] -> Z.of_nat (length (bytes nm)) < 64 -> unused nm E ->
  lookup p s = Some (s, [], (KERNEL_ENOENT, NULL)).
Proof.
  intros Hv Hb%bool_decide_unpack Hs Hlen Hu. unfold lookup.
  rewrite (resolves_lookup s _ KERNEL_ENOENT NULL (vw_ok _ _ _ _ _ Hv) Hb); [done |]. rewrite Hs.
  apply resolves_missing; [done |]. intros c Hc%(vw_entries _ _ _ _ _ Hv). by apply (proj1 (Forall_forall _ _) Hu) in Hc.
Qed.

Definition init_report : list string :=
  ["PASS] Lookup /bin"; "[PASS] create /bin/init"; "Lookup rc = 0"; "[PASS] Lookup /bin/init"; "file_open rc = 0";
   "[PASS] file_open"; "[PASS] write /bin/init ELF"; "[PASS] Missing file detection"].

(** The image is written to the open, empty file [init]. *)
Lemma write_init_ends s L E ds notes init file n :
  view s L E ds [init; notes] -> init <> notes -> files s !! file = Some (mk_file init 0 0 1) -> file <> NULL ->
  bytes_from (fmem s) notes_text 15 = hello -> plenty (S n) (fheap s) ->
  ends (write_init_elf file) s (fun s' l rc => rc = KERNEL_SUCCESS /\ l = [] /\ plenty n (fheap s') /\
    bytes_from (fmem s') notes_text 15 = hello /\ (nodes s !! file = None -> nodes s' !! file = None) /\
    (forall n', nodes s' !! init = Some n' -> L !! data n' = None) /\
    exists L', L ⊆ L' /\ view s' L' E ds [notes] /\ holds s' L' init init_elf).
Proof.
  intros Hv Hne Hf Hf0 Hhello Hp. set (s1 := with_fmem (fill_init_elf (fmem s)) s).
  assert (Hv1 : view s1 L E ds [init; notes]) by (apply (view_same s _ L); try done; apply Hv).
  destruct (view_write s1 L E ds [init; notes] [notes] file _ init_image init_elf n Hv1 Hf Hf0 ltac:(by left)) as
    (s2 & L2 & Ew & Hv2 & Hh2 & Hp2 & _ & _ & Hkeep & Hsub & Hno & Hdata); try done.
  { cbn. by intros ->%list_elem_of_singleton. }
  { intros c ->%list_elem_of_singleton. right. by left. }
  { apply fill_init_bytes, Hinit. }
  unfold write_init_elf. destruct (Z.eqb_spec file NULL); [done |]. apply ends_bind. eapply ends_run; [reflexivity |].
  eapply ends_op; [exact Ew |]. split_and!; try done.
  - rewrite Hkeep by done. cbn [fmem s1 with_fmem]. rewrite fill_init_other; [done | apply Hinit | apply Htext | done].
  - apply Hno.
  - by exists L2.
Qed.

Lemma fs_test_init_ends s L E ds bin notes n :
  view s L E ds [notes] -> bin ∈ ds -> (ramfs_root, bytes "bin", bin) ∈ E -> leads E ramfs_root (bytes <$> notes_names) notes ->
  unused "init" E -> unused "does_not_exist" E -> (length E < 64)%nat ->
  bytes_from (fmem s) notes_text 15 = hello -> plenty (6 + n) (fheap s) ->
  ends fs_test_init s (fun s' l _ => transcript l = Some (report (init_report ++ notes_report)%list) /\
    exists L' init, view s' L' ((bin, bytes "init", init) :: E) ds [] /\ holds s' L' notes hello /\ holds s' L' init init_elf).
Proof.
  intros Hv Hbin HbinE Hl Hu1 Hu2 HE Hhello Hp.
  assert (Hb : leads E ramfs_root (bytes <$> ["bin"]) bin) by (eapply leads_step; [| exact HbinE | constructor]; done).
  destruct (view_add VNODE_FILE bin (literal "init") s L E ds [notes] (5 + n) Hv Hbin) as (s1 & init & L1 & Ea & Hv1 & Hp1 & Em1 & Hfresh);
    [apply (bool_decide_unpack _); by vm_compute | by vm_compute | exact Hu1 | done | exact Hp |].
  change (cstr (literal "init")) with (bytes "init") in Hv1. cbn [app] in Hv1.
  set (E1 := (bin, bytes "init", init) :: E) in *. assert (Hsub : E ⊆ E1) by (intros ? ?; by right).
  assert (Hi : leads E1 ramfs_root (bytes <$> ["bin"; "init"]) init).
  { eapply leads_step; [done | apply Hsub, HbinE |]. eapply leads_step; [done | by left | constructor]. }
  assert (Hne : init <> notes).
  { intros ->. destruct (proj1 (Forall_forall _ _) (vw_files _ _ _ _ _ Hv) notes ltac:(by left)) as (x & Hx & _). congruence. }
  assert (Hi0 : init <> NULL).
  { destruct (proj1 (Forall_forall _ _) (vw_files _ _ _ _ _ Hv1) init ltac:(by left)) as (x & Hx & _).
    exact (no_nonnull _ _ _ (proj1 (vw_ok _ _ _ _ _ Hv1) _ _ Hx)). }
  destruct (view_open s1 L1 E1 ds _ init (4 + n) Hv1 Hi0 Hp1) as (s2 & file & m & Eo & Hf0 & Hf & Hv2 & Hp2 & En2 & Em2 & Hfile & Hnf).
  destruct (write_init_ends s2 _ E1 ds notes init file (3 + n) Hv2 Hne Hfile Hf0 ltac:(by rewrite Em2, Em1) Hp2)
    as (s3 & l3 & rc & Ew & -> & -> & Hp3 & Hh3 & Hno3 & Hd3 & L3 & Hsub3 & Hv3 & Hi3).
  assert (Hf3 : L3 !! file = Some m) by (eapply lookup_weaken; [apply lookup_insert_eq | done]).
  destruct (view_close s3 L3 E1 ds [notes] file m (2 + n) Hv3 Hf3 Hf0 (Hno3 ltac:(by rewrite En2)) Hp3) as [Hv4 Hp4].
  assert (Hi4 : holds (file_close file s3) (delete file L3) init init_elf).
  { apply (holds_same s3 _ L3 _ init init_elf Hi3); rewrite close_state by done; [done |]. right. exists file. split_and!; [done | done |].
    intros x Hx ->%eq_sym. specialize (Hd3 x Hx). by rewrite lookup_insert_eq in Hd3. }
  destruct (fs_test_notes_ends (file_close file s3) (delete file L3) E1 ds notes init n Hv4 (leads_mono _ _ _ _ _ Hsub Hl) Hi4 Hne
    ltac:(by rewrite close_state) Hp4) as (s5 & l5 & b & E5 & Ht5 & L5 & Hv5 & Hnotes5 & Hinit5).
  unfold fs_test_init. apply ends_bind. eapply ends_done; [by eapply (lookup_known _ ["bin"]); [exact Hv | by vm_compute | exact Hb] |].
  cbn [succeeded Z.eqb KERNEL_SUCCESS negb]. steps. eapply ends_op; [exact Ea |]. cbn [succeeded Z.eqb KERNEL_SUCCESS negb].
  steps. eapply ends_done; [by eapply (lookup_known _ ["bin"; "init"]); [exact Hv1 | by vm_compute | exact Hi] |].
  cbn [succeeded Z.eqb KERNEL_SUCCESS negb]. steps. eapply ends_op; [by rewrite Eo |].
  cbn [succeeded Z.eqb KERNEL_SUCCESS negb verdict]. steps. eapply ends_use; [reflexivity |].
  apply ends_bind. eapply ends_done; [exact Ew |].
  cbn [succeeded Z.eqb KERNEL_SUCCESS negb]. steps. eapply ends_run; [reflexivity |]. apply ends_bind. eapply ends_done.
  { eapply (lookup_missing "/does_not_exist" "does_not_exist"); [exact Hv4 | by vm_compute | reflexivity | by vm_compute |].
    constructor; [by vm_compute | exact Hu2]. }
  cbn [Z.eqb Pos.eqb KERNEL_ENOENT verdict]. steps. eapply ends_done; [exact E5 |].
  split; [cbn [app transcript]; rewrite Ht5; reflexivity |]. by exists L5, init.
Qed.

(** New directories and files, in a test. *)
Lemma add_ends type d nm s L E ds fs n (Q : fs_state K -> list event -> Z -> Prop) :
  view s L E ds fs -> d ∈ ds -> bool_decide (byte_list (literal nm) /\ k_strlen (literal nm) < 64 /\ cstr (literal nm) = bytes nm) ->
  unused nm E -> (length E < 64)%nat -> plenty (S n) (fheap s) ->
  (forall s' c L', view s' L' ((d, bytes nm, c) :: E)
      (match type with VNODE_DIRECTORY => c :: ds | _ => ds end) (match type with VNODE_FILE => c :: fs | _ => fs end) ->
    plenty n (fheap s') -> fmem s' = fmem s -> Q s' [] KERNEL_SUCCESS) ->
  ends (op (ramfs_add type d (Some (literal nm)))) s Q.
Proof.
  intros Hv Hd (Hb & Hl & Hc)%bool_decide_unpack Hu HE Hp HQ.
  destruct (view_add type d (literal nm) s L E ds fs n Hv Hd Hb Hl ltac:(by rewrite Hc) HE Hp) as (s' & c & L' & Ea & Hv' & Hp' & Em & _).
  rewrite Hc in Hv'. eapply ends_op; [exact Ea |]. by eapply HQ.
Qed.

Definition tree_report : list string :=
  ["[PASS] Lookup /home"; "[PASS] mkdir divyanshu"; "[PASS] Lookup /home/divyanshu"; "[PASS] mkdir projects";
   "[PASS] Lookup /home/divyanshu/projects"; "[PASS] create notes.txt"; "[PASS] Lookup /dev"; "[PASS] Lookup /tmp";
   "[PASS] Lookup /bin"; "[PASS] Deep lookup"].

(** The tree the test leaves. *)
Record tree := mk_tree { dev : Z; home : Z; tmp : Z; bin : Z; user : Z; projects : Z; notes : Z; init : Z }.
Definition tree_entries (t : tree) : entries :=
  [ (bin t, bytes "init", init t); (projects t, bytes "notes.txt", notes t); (user t, bytes "projects", projects t);
    (home t, bytes "divyanshu", user t); (ramfs_root, bytes "bin", bin t); (ramfs_root, bytes "tmp", tmp t);
    (ramfs_root, bytes "home", home t); (ramfs_root, bytes "dev", dev t) ].

Ltac unused_name := repeat (apply Forall_cons_2; [by vm_compute |]); apply Forall_nil_2.
Ltac in_entries := lazymatch goal with
  | |- (_, ?n, _) ∈ (_, ?n', _) :: _ => first [constr_eq n n'; left | right; in_entries]
  | |- _ => repeat first [left | right]
  end.
Ltac path := cbn [fmap list_fmap]; repeat (eapply leads_step; [done | in_entries |]); apply leads_here.
Ltac found names := eapply ends_done; [eapply (lookup_known _ names); [eassumption | by vm_compute | path] |];
  cbn [succeeded Z.eqb KERNEL_SUCCESS negb].
Ltac new_entry := eapply add_ends; [eassumption | by repeat constructor | by vm_compute | unused_name | cbn; lia | eassumption |];
  cbn [succeeded Z.eqb KERNEL_SUCCESS negb].

Lemma fs_test_tree_ends s L n :
  view s L [] [ramfs_root] [] -> bytes_from (fmem s) notes_text 15 = hello -> plenty (13 + n) (fheap s) ->
  ends (fs_test_tree ramfs_root) s (fun s' l _ => transcript l = Some (report (tree_report ++ init_report ++ notes_report)%list) /\
    exists t L' ds, view s' L' (tree_entries t) ds [] /\ holds s' L' (notes t) hello /\ holds s' L' (init t) init_elf).
Proof.
  intros Hv Hhello Hp. unfold fs_test_tree, mkdir, create, looked_up.
  apply ends_bind. new_entry. intros s1 dv L1 Hv1 Hp1 Em1.
  apply ends_bind. new_entry. intros s2 hm L2 Hv2 Hp2 Em2.
  apply ends_bind. new_entry. intros s3 tm L3 Hv3 Hp3 Em3.
  apply ends_bind. new_entry. intros s4 bn L4 Hv4 Hp4 Em4.
  apply ends_bind. found ["home"]. steps. new_entry. intros s5 us L5 Hv5 Hp5 Em5.
  steps. found ["home"; "divyanshu"]. steps. new_entry. intros s6 pj L6 Hv6 Hp6 Em6.
  steps. found ["home"; "divyanshu"; "projects"]. steps. new_entry. intros s7 nt L7 Hv7 Hp7 Em7.
  steps. found ["dev"]. steps. found ["tmp"]. steps. found ["bin"]. steps. found ["home"; "divyanshu"; "projects"]. steps.
  destruct (fs_test_init_ends s7 L7 _ _ bn nt n Hv7) as (s8 & l8 & b & E8 & Ht & L8 & it & Hv8 & Hn8 & Hi8);
    [in_entries | in_entries | unfold notes_names; path
    | unused_name | unused_name | cbn; lia | congruence | exact Hp7 |].
  eapply ends_done; [exact E8 |]. split; [cbn [app transcript]; rewrite Ht; reflexivity |].
  eexists (mk_tree dv hm tm bn us pj nt it), L8, _. split; [exact Hv8 | done].
Qed.

(** ** The whole test *)
Definition fs_report : list string :=
  (["" ; "========== Filesystem Test =========="; "[PASS] Mounted RAMFS"; "[PASS] Root vnode acquired"] ++
   tree_report ++ init_report ++ notes_report)%list.

(** Before the test: the file system object is there, no node is. *)
Record fs_untested s L : Prop := {
  fu_nodes : nodes s = ∅;
  fu_fs : exists f, fss s !! root_fs = Some f /\ length (fs_name f) = 32%nat;
  fu_nonnull : root_fs <> NULL;
  fu_live : ka_live (fheap s) L;
  fu_region : ka_region (fheap s) = (lo, hi);
  fu_root : ramfs_root < lo \/ hi <= ramfs_root;
  fu_text : bytes_from (fmem s) notes_text 15 = hello;
}.

Lemma mounted_view s L n : fs_untested s L -> plenty (S n) (fheap s) ->
  exists s1 s2 L', ramfs_init root_fs (vfs_init s) = Some (s1, KERNEL_SUCCESS) /\ vfs_mount root_fs NULL s1 = Some (s2, KERNEL_SUCCESS) /\
    view s2 L' [] [ramfs_root] [] /\ plenty n (fheap s2) /\ fmem s2 = fmem s.
Proof.
  intros [Hn (f & Hf & Hname) Hf0 Hl Hr Hrt _] Hp.
  destruct (plenty_malloc n (fheap s) L sizeof_mount Hp Hl ltac:(unfold sizeof_mount; lia)) as (m & Hm & Hfr & Hnn & Hl' & Hp').
  pose proof (ka_region_malloc (fheap s) sizeof_mount) as Hreg. rewrite Hr in Hreg.
  unfold ramfs_init. destruct (Z.eqb_spec root_fs NULL); [done |]. cbn [fss vfs_init with_mounts]. rewrite Hf.
  cbn [mbind option_bind]. destruct (k_strcpy (fs_name f) ramfs_name) as [name|] eqn:Ename.
  2: { apply strcpy_none in Ename. rewrite Hname in Ename. vm_compute in Ename. lia. }
  cbn [mbind option_bind]. exists (with_fss (<[root_fs := mk_fs name NULL ramfs_fs_ops]> (fss s)) (vfs_init s)). unfold vfs_mount. destruct (Z.eqb_spec root_fs NULL); [done |].
  cbn [vfs_root_mount with_fss with_mounts vfs_init fheap]. rewrite Z.eqb_refl. cbn [negb andb].
  destruct (ka_malloc sizeof_mount (fheap s)) as [k mount]. cbn [fst snd] in *.
  cbn [vfs_root_mount with_fheap with_fss vfs_init with_mounts mounts vfs_mount_list].
  destruct (Z.eqb_spec mount NULL) as [->|Hm0]; [done |].
  rewrite Z.eqb_refl. unfold call_mount. cbn [fss with_fheap with_fss with_mounts m_next]. rewrite lookup_insert_eq. cbn [mbind option_bind fs_ops].
  destruct (Z.eqb_spec ramfs_fs_ops NULL) as [E|_]; [by apply fs_ops_nonnull in E |]. rewrite Z.eqb_refl.
  unfold ramfs_mount. destruct (Z.eqb_spec root_fs NULL); [done |]. cbn [fss with_nodes with_fheap with_fss with_mounts].
  rewrite lookup_insert_eq. cbn [mbind option_bind Z.eqb negb KERNEL_SUCCESS].
  eexists _, (<[mount := m]> L). split; [reflexivity |]. split; [reflexivity |].
  match goal with |- view ?s2 _ _ _ _ /\ _ => assert (Hb : booted s2 root_fs mount) end.
  { split; cbn; [by rewrite Hn, insert_empty | eexists; rewrite lookup_insert_eq; done | done | done | eexists; rewrite lookup_insert_eq; done]. }
  split; [| done]. split; try done.
  - by eapply booted_ok.
  - intros p. cbn. rewrite Hn, insert_empty, lookup_singleton. case_decide; [by left | by intros []].
  - intros d nm c. unfold entry. rewrite (booted_kids _ _ _ d Hb). rewrite !elem_of_nil. naive_solver.
  - constructor; [| constructor]. eexists. cbn. rewrite lookup_insert_eq. done.
Qed.

Lemma fs_test_ends s L n : fs_untested s L -> plenty (14 + n) (fheap s) ->
  ends fs_test s (fun s' l _ => transcript l = Some (report fs_report) /\
    exists t L' ds, view s' L' (tree_entries t) ds [] /\ holds s' L' (notes t) hello /\ holds s' L' (init t) init_elf).
Proof.
  intros Hu Hp. destruct (mounted_view s L (13 + n) Hu Hp) as (s1 & s2 & L' & E1 & E2 & Hv & Hp2 & Em).
  destruct (fs_test_tree_ends s2 L' n Hv ltac:(rewrite Em; apply Hu) Hp2) as (s3 & l3 & b & E3 & Ht & Hres).
  unfold fs_test. steps. eapply ends_run; [reflexivity |]. steps. eapply ends_op; [exact E1 |].
  cbn [succeeded Z.eqb KERNEL_SUCCESS negb]. steps. eapply ends_op; [exact E2 |]. cbn [succeeded Z.eqb KERNEL_SUCCESS negb]. steps.
  eapply ends_op. { rewrite (proj1 (proj2 (vw_ok _ _ _ _ _ Hv))). reflexivity. }
  destruct (Z.eqb_spec ramfs_root NULL) as [E|_]; [by apply root_nonnull in E |]. steps.
  eapply ends_done; [exact E3 |]. split; [cbn [app transcript]; rewrite Ht; reflexivity | exact Hres].
Qed.
End view.

(** ** The theorems *)

(** The objects the file system test passes on lie outside the heap [lo, hi), and two of
    them apart. *)
Record locals_ok `{!TestLayout} (lo hi : Z) : Prop := {
  lo_image : outside lo hi init_image 136;
  lo_text : outside lo hi notes_text 15;
  lo_buffer : outside lo hi notes_buffer 32;
  lo_text_image : apart notes_text 15 init_image 136;
}.

Section theorems.
Context {K : Type} `{KAllocLaws K} `{!Ramfs.FsLayout} `{!Ramfs.FsLayoutLaws} `{!TestLayout}.

(** C0: [fs_test], run on a heap with room for its fourteen calls, ends: it
    reports every check as passed, and leaves a file system with exactly the eight
    entries [/dev], [/home], [/tmp], [/bin], [/home/divyanshu], [.../projects],
    [.../projects/notes.txt] and [/bin/init], the text it wrote in notes.txt, and in
    [/bin/init] a program that [process_exec] accepts. *)
Theorem fs_test_correct lo hi (s : Ramfs.fs_state K) L
    (Hloc : locals_ok lo hi) (Hs : fs_untested lo hi s L) (Hp : plenty 14 (Ramfs.fheap s)) :
  exists s' l, fs_test s = Some (s', l, ()) /\ transcript l = Some (report fs_report) /\
    exists t L', Vfs.vfs_ok s' Ramfs.ramfs_root /\ ka_live (Ramfs.fheap s') L' /\
      (forall d name c, Ramfs.entry s' d name c <-> (d, name, c) ∈ tree_entries t) /\
      holds s' L' (notes t) (literal "Hello ZenithOS") /\ holds s' L' (init t) init_elf /\
      exists n, Ramfs.nodes s' !! init t = Some n /\ runnable (Ramfs.fmem s') (Ramfs.data n) 136.
Proof.
  destruct Hloc as [Hi Ht Hb Hti].
  destruct (fs_test_ends lo hi Hi Ht Hb Hti s L 0 Hs Hp) as (s' & l & [] & E & Htr & t & L' & ds & Hv & Hn & Hin).
  exists s', l. split; [exact E |]. split; [exact Htr |]. exists t, L'.
  split; [apply Hv |]. split; [apply Hv |]. split; [apply Hv |]. split; [exact Hn |]. split; [exact Hin |].
  destruct Hin as (n & m & Hnode & _ & _ & _ & _ & Hm & Hle & Hbytes). exists n. split; [exact Hnode |].
  destruct (live_range _ _ _ _ (vw_live _ _ _ _ _ _ _ Hv) Hm). change (Z.of_nat (length init_elf)) with 136 in Hle.
  apply init_runs; [split; lia | exact Hbytes].
Qed.
End theorems.

(** *** The other tests of [kernel_tests], and [fd_test] *)
Section locks.
Context {K A : Type} `{KAlloc K}.
Implicit Types s : sys K A.
#[local] Open Scope string_scope.
#[local] Open Scope Z_scope.
#[local] Notation "a +++ b" := (String.append a b) (at level 60, right associativity).

Definition kernel_report (running : bool) : list string :=
  [ "[TRACE] kernel_tests entry"; ""; "====================================="; "        ZENITHOS KERNEL TESTS";
    "====================================="; "";
    "[TRACE] test_atomic_xchg begin"; "Atomic Test"; "Old Value: 5"; "New Value: 10"; "[PASS] atomic_xchg_u64";
    "[TRACE] test_atomic_xchg end";
    "[TRACE] test_spinlock begin"; "Spinlock Test"; "[PASS] lock acquired"; "[PASS] lock released"; "[TRACE] test_spinlock end";
    "[TRACE] test_irq_spinlock begin"; "[PASS] irq spinlock acquired"; "[PASS] irq spinlock released";
    "[TRACE] test_irq_spinlock end";
    "[TRACE] test_mutex_init begin"; "[PASS] mutex init"; "[TRACE] test_mutex_init end";
    "[TRACE] test_mutex_lock begin";
    if running then "[PASS] mutex lock" else "[SKIP] mutex lock requires a running task"; "[TRACE] test_mutex_lock end";
    ""; "====================================="; "      ALL TESTS PASSED"; "====================================="; "";
    "[TRACE] kernel_tests exit"; "[TRACE] kernel_tests exit" ].

Lemma test_irq_spinlock_passes s :
  test_irq_spinlock s = Some (s, Kprintf <$> [printf ("[PASS] irq spinlock acquired" +++ nl) []; printf ("[PASS] irq spinlock released" +++ nl) []], ()).
Proof. by destruct s as [? ? ? ? ? ? ? ? ? ? ? ? ? ? ? ? ? ? []]. Qed.

Definition mutex_verdict (running : bool) : event :=
  Kprintf (printf (if running then "[PASS] mutex lock" +++ nl else "[SKIP] mutex lock requires a running task" +++ nl) []).

Lemma test_mutex_lock_passes s : test_mutex_lock s = Some (s, [mutex_verdict (negb (current_task s =? NULL))], ()).
Proof.
  destruct s as [? ? ? ? ? ? ? ? [|c|c] ? ? ? ? ? ? ? ? ? []]; try done;
    unfold test_mutex_lock, mbind, test_bind; cbn; by rewrite Pos.eqb_refl.
Qed.

(** C0: [kernel_tests] ends in the state it starts in, the interrupt flag
    included, whatever that state is; it reports the exchange, both spinlocks and the
    mutex as working, and skips the mutex lock exactly when no task runs. *)
Theorem kernel_tests_correct s : exists l, kernel_tests s = Some (s, l, ()) /\
  transcript l = Some (report (kernel_report (negb (current_task s =? NULL)))).
Proof.
  assert (E : ends kernel_tests s (fun s' l _ => s' = s /\
    transcript l = Some (report (kernel_report (negb (current_task s =? NULL)))))).
  { unfold kernel_tests, traced.
    repeat first [step; cbv beta | eapply ends_done; [apply test_irq_spinlock_passes |] |
      eapply ends_done; [apply test_mutex_lock_passes |] | eapply ends_done; [cbn; reflexivity |]].
    split; [done |].
    destruct (negb (current_task s =? NULL)); reflexivity. }
  destruct E as (s' & l & [] & E & -> & Ht). by exists l.
Qed.

Definition fd_report : list string := ["[PASS] fd_allocate"; "[PASS] fd_get"; "[PASS] fd_close"; "[PASS] fd released"].

Lemma fd_test_passes `{!TestLayout} s : fd_test_file <> NULL ->
  fd_test s = Some (s, (fun text => Kprintf (printf (text +++ nl) [])) <$> fd_report, ()).
Proof.
  unfold fd_test. generalize fd_test_file. intros [|p|p] Hf; [done | |];
    (pose proof (Pos.eqb_refl p) as E; vm_compute in E; vm_compute; by rewrite E).
Qed.
End locks.
