(* ===== verification/FsDemo.v ===== *)
(** * A small file system

    The theorems of [Ramfs.v] and [Vfs.v] at a concrete state: the boot of
    [main.c], then the file [/bin/init] and a buffer for its contents. *)
From S2P Require Import Prelude Memory KAlloc Ramfs Vfs.
Import Mem Str Ramfs Vfs.
#[local] Open Scope Z_scope.

#[global] Instance demo_layout : FsLayout := { ramfs_root := 0x8000; ramfs_vnode_ops := 0x8400; ramfs_fs_ops := 0x8440 }.
#[global] Instance demo_layout_laws : FsLayoutLaws.
Proof. by split. Qed.

Definition demo_fs : Z := 0x9000.
Definition fs_demo0 : fs_state Bump.bump :=
  mk_state _ ∅ ∅ {[ demo_fs := mk_fs (replicate 32 0) NULL NULL ]} ∅ NULL NULL (Bump.bump_init 0x100000 0x200000) ∅.

(** The state of a call's result. *)
Definition state_of {B : Type} (s : fs_state Bump.bump) (r : option (fs_state Bump.bump * B)) : fs_state Bump.bump :=
  match r with Some (s', _) => s' | None => s end.

Definition name_bin : list Z := [98; 105; 110].
Definition name_init : list Z := [105; 110; 105; 116].
Definition path_init : list Z := SLASH :: name_bin ++ SLASH :: name_init ++ [0].

Definition fs_demo1 := state_of fs_demo0 (ramfs_init demo_fs (vfs_init fs_demo0)).
Definition fs_demo2 := state_of fs_demo1 (vfs_mount demo_fs NULL fs_demo1).
Definition fs_demo3 := state_of fs_demo2 (ramfs_mkdir ramfs_root (Some name_bin) fs_demo2).
Definition node_bin : Z := (ka_malloc sizeof_ramfs_node (fheap fs_demo2)).2.
Definition fs_demo4 := state_of fs_demo3 (ramfs_create node_bin (Some name_init) fs_demo3).
Definition node_init : Z := (ka_malloc sizeof_ramfs_node (fheap fs_demo3)).2.
Definition demo_file : Z := (ka_malloc sizeof_file (fheap fs_demo4)).2.
Definition fs_demo5 : fs_state Bump.bump :=
  match vfs_open (Some path_init) fs_demo4 with Some (s, _, _) => s | None => fs_demo4 end.
(** A buffer of four bytes. *)
Definition demo_buffer : Z := (ka_malloc 4 (fheap fs_demo5)).2.
Definition fs_demo : fs_state Bump.bump :=
  with_fmem (store8 (demo_buffer + 2) 77 (fmem fs_demo5)) (with_fheap (ka_malloc 4 (fheap fs_demo5)).1 fs_demo5).

(** ** The boot *)
Lemma vfs_boot_correct_witness : exists s1, ramfs_init demo_fs (vfs_init fs_demo0) = Some (s1, KERNEL_SUCCESS).
Proof.
  destruct (vfs_boot_correct fs_demo0 demo_fs (mk_fs (replicate 32 0) NULL NULL) eq_refl eq_refl ltac:(by vm_compute) eq_refl)
    as (s1 & E & _).
  by exists s1.
Defined.

Lemma fs_demo2_ok : vfs_ok fs_demo2 ramfs_root.
Proof.
  eapply (booted_ok _ demo_fs (vfs_root_mount fs_demo2)). split.
  - by vm_compute.
  - eexists. split; by vm_compute.
  - split; by vm_compute.
  - by vm_compute.
  - eexists. split; by vm_compute.
Qed.

Definition no_node : ramfs_node_t := mk_node (mk_vnode [] VNODE_FILE 0 0 0 0 0) [] 0 0 0.
Definition node_at (s : fs_state Bump.bump) (p : Z) : ramfs_node_t := default no_node (nodes s !! p).

(** A node added to a well-formed state. *)
Lemma demo_add type (s : fs_state Bump.bump) d str s' st :
  ramfs_ok s -> nodes s !! d = Some (node_at s d) -> byte_list str -> k_strlen str < 64 ->
  nodes s !! (ka_malloc sizeof_ramfs_node (fheap s)).2 = None ->
  ramfs_add type d (Some str) s = Some (s', st) -> ramfs_ok s'.
Proof.
  intros Hok Hd Hb Hl Hf E. destruct (ramfs_add_spec type s d (node_at s d) str Hok Hd Hb Hl Hf) as (s2 & st2 & E2 & Hok2 & _).
  rewrite E in E2. by injection E2 as <- <-.
Qed.

Lemma name_bin_bytes : byte_list name_bin.
Proof. repeat constructor; lia. Qed.
Lemma name_init_bytes : byte_list name_init.
Proof. repeat constructor; lia. Qed.
Lemma path_init_bytes : byte_list path_init.
Proof. repeat constructor; unfold SLASH; lia. Qed.

Lemma fs_demo3_ok : ramfs_ok fs_demo3.
Proof.
  apply (demo_add VNODE_DIRECTORY fs_demo2 ramfs_root name_bin fs_demo3 KERNEL_SUCCESS);
    [apply fs_demo2_ok | by vm_compute | apply name_bin_bytes | by vm_compute | by vm_compute | by vm_compute].
Qed.

Lemma fs_demo4_ok : ramfs_ok fs_demo4.
Proof.
  apply (demo_add VNODE_FILE fs_demo3 node_bin name_init fs_demo4 KERNEL_SUCCESS);
    [apply fs_demo3_ok | by vm_compute | apply name_init_bytes | by vm_compute | by vm_compute | by vm_compute].
Qed.

Lemma fs_demo4_vfs : vfs_ok fs_demo4 ramfs_root.
Proof. split_and!; [apply fs_demo4_ok | by vm_compute | eexists; by vm_compute]. Qed.

(** ** The operations *)
Lemma ramfs_lookup_correct_witness : exists st c, ramfs_lookup node_bin (Some name_init) fs_demo4 = Some (st, c).
Proof.
  destruct (ramfs_lookup_correct fs_demo4 node_bin (node_at fs_demo4 node_bin) name_init fs_demo4_ok ltac:(by vm_compute) name_init_bytes)
    as (st & c & E & _).
  by exists st, c.
Defined.


Lemma vfs_lookup_correct_witness : exists st r, vfs_lookup (Some path_init) fs_demo4 = Some (st, r).
Proof.
  destruct (vfs_lookup_correct fs_demo4 ramfs_root path_init fs_demo4_vfs path_init_bytes) as (st & r & E & _). by exists st, r.
Defined.

Lemma path_next_component_correct_witness :
  exists rc p' buf', path_next_component path_init component_buffer = Some (rc, p', buf').
Proof.
  destruct (path_next_component_correct path_init component_buffer path_init_bytes
    ltac:(apply (Forall_replicate _ 65); lia) eq_refl) as (rc & p' & buf' & E & _).
  by exists rc, p', buf'.
Defined.

Lemma vfs_open_correct_witness : exists s' file rc, vfs_open (Some path_init) fs_demo4 = Some (s', file, rc).
Proof.
  destruct (vfs_open_correct fs_demo4 ramfs_root path_init fs_demo4_vfs path_init_bytes) as (s' & file & rc & E & _).
  by exists s', file, rc.
Defined.

(** ** The open file *)
Lemma demo_resolves : resolves fs_demo ramfs_root (split_path path_init) KERNEL_SUCCESS node_init.
Proof.
  destruct (vfs_lookup_spec fs_demo4 ramfs_root path_init fs_demo4_vfs path_init_bytes) as (st & r & E & Hr).
  assert (E2 : vfs_lookup (Some path_init) fs_demo4 = Some (KERNEL_SUCCESS, node_init)) by (by vm_compute).
  rewrite E2 in E. injection E as <- <-. apply (resolves_same fs_demo4 fs_demo); [by vm_compute | done].
Qed.

Lemma fs_demo_vfs : vfs_ok fs_demo ramfs_root.
Proof. apply (vfs_ok_same fs_demo4 fs_demo); [by vm_compute | by vm_compute | apply fs_demo4_vfs]. Qed.

Definition demo_live : gmap Z Z := Bump.b_live (fheap fs_demo).

(** The heap after allocations of the given sizes. *)
Fixpoint mallocs (sizes : list Z) (k : Bump.bump) : Bump.bump :=
  match sizes with [] => k | n :: l => mallocs l (ka_malloc n k).1 end.

Lemma mallocs_live sizes k : Forall (fun n => 0 < n <= 2 ^ 32) sizes ->
  ka_live k (Bump.b_live k) -> ka_live (mallocs sizes k) (Bump.b_live (mallocs sizes k)).
Proof.
  intros Hs. revert k. induction Hs as [|n l Hn _ IH]; intros k Hk; [exact Hk |]. cbn [mallocs]. apply IH.
  destruct (ka_malloc n k) as [k' p] eqn:E.
  destruct (ka_malloc_spec k (Bump.b_live k) n k' p Hk Hn E) as [[_ Hl]|(m & _ & _ & _ & Hl)];
    cbn [fst]; pose proof (proj1 Hl) as ->; exact Hl.
Qed.

Lemma demo_heap_live : ka_live (fheap fs_demo) demo_live.
Proof.
  assert (E : fheap fs_demo = mallocs [sizeof_mount; sizeof_ramfs_node; sizeof_ramfs_node; sizeof_file; 4]
    (Bump.bump_init 0x100000 0x200000)) by (by vm_compute).
  unfold demo_live. rewrite E. apply mallocs_live.
  - apply (bool_decide_unpack _). by vm_compute.
  - by apply Bump.bump_init_live.
Qed.

Lemma demo_writable :
  writable fs_demo demo_live demo_file node_init (mk_file node_init 0 0 1) (node_at fs_demo node_init) 4.
Proof.
  split.
  - split_and!; by vm_compute.
  - split_and!; by vm_compute.
  - lia.
  - apply demo_heap_live.
  - left. by vm_compute.
Qed.

Lemma demo_buffer_ok : buffer_ok demo_live (node_at fs_demo node_init) demo_buffer 4.
Proof. exists demo_buffer, 4. split; [by vm_compute |]. split; [by vm_compute | lia]. Qed.

Lemma ramfs_write_read_roundtrip_witness : exists s' st, ramfs_write demo_file demo_buffer 4 fs_demo = Some (s', st).
Proof.
  destruct (ramfs_write_read_roundtrip fs_demo demo_live demo_file node_init _ _ demo_buffer 4 demo_writable demo_buffer_ok)
    as (s' & st & E & _).
  by exists s', st.
Defined.

