(* ===== verification/ProcessDemo.v ===== *)
(** * A small machine with a process

    The theorems on processes at a concrete state: 64 page frames, the kernel's
    top-level page table at [0x7000], an ELF image in a heap object, the scheduler
    with its idle task, a process created and running. *)
From S2P Require Import Prelude PageAllocator Memory KAlloc Fd Elf TaskQueue Pmm PageTable PageTableSpec System Scheduler SchedulerSpec SchedulerWake SchedulerProps Ramfs Vfs Process UserPages ProcessMemory ProcessSpec ProcessTable ProcessImage ProcessExec ProcessExecFile SysFile FsDemo.
Import Mem Str Task Scheduler Process.
#[local] Open Scope Z_scope.

(** ** Memory *)
Definition machine_map : list Pmm.memmap_entry := [Pmm.mk_entry 0 0x40000 0].
Definition machine_pmm : Pmm.pmm_t := Pmm.pmm_init 0 5 6 7 0 0x1000 machine_map (Some 0x7000) Pmm.zero_pmm.

Lemma machine_pmm_wf : Pmm.pmm_wf machine_pmm.
Proof.
  apply Pmm.init_spec.
  - repeat constructor; simpl; lia.
  - vm_compute. congruence.
  - intros b [= <-]. split; [lia | vm_compute; done].
Qed.

Definition machine_pt : pt_state Pmm.pmm_t :=
  mk_pt Elf.demo_mem machine_pmm demo_hhdm true 0 (0x7000 + demo_hhdm) 0x7000 0x7000 [].

Lemma image_low : map_Forall (fun x _ => x < 0x20000) Elf.demo_mem.
Proof. apply (bool_decide_unpack _). by vm_compute. Qed.

Lemma image_bytes x : 0x20000 <= x < 2 ^ 64 -> load8 Elf.demo_mem x = 0.
Proof.
  intros Hx. unfold load8. rewrite u64_id by lia. destruct (Elf.demo_mem !! x) as [b|] eqn:E; [| done].
  pose proof (image_low x b E). cbn in *. lia.
Qed.

Lemma machine_pt_wf : pt_wf demo_tables machine_pt.
Proof.
  split.
  - exact machine_pmm_wf.
  - reflexivity.
  - vm_compute. split; discriminate.
  - intros f p. unfold demo_tables. rewrite lookup_singleton_Some. intros [<- <-].
    split; [by vm_compute | split; [| simpl; lia]].
    cbn. unfold Pmm.free_frames. intros (q & Hq & Hin)%elem_of_map.
    apply Pmm.elem_of_free_set in Hin as [_ Hin]. unfold Pmm.page_addr, Pmm.PMM_PAGE_SIZE in Hq.
    replace q with 7 in Hin by lia. by vm_compute in Hin.
  - intros f p i g Hf _ Hi. unfold demo_tables in Hf. apply lookup_singleton_Some in Hf as [<- <-].
    assert (E : forall n a, 0x20000 <= a -> a + Z.of_nat n <= 2 ^ 64 -> load_le n Elf.demo_mem a = 0).
    { induction n as [|n IH]; intros a Ha Hn; cbn [load_le]; [done |]. rewrite image_bytes, IH by lia. done. }
    unfold ent, load64. change (pt_mem machine_pt) with Elf.demo_mem. change (hhdm_offset machine_pt) with demo_hhdm.
    rewrite E by (unfold demo_hhdm; lia). by rewrite kind_of_zero.
Qed.

(** The heap lies below the direct map. *)
Lemma low_region hi : hi <= 2 ^ 40 -> kernel_region demo_tables machine_pt 0 hi.
Proof.
  intros Hhi. assert (Hg : forall g x, 0 <= g -> x < hi -> outside machine_pt g x).
  { intros g x Hg Hx. left. change (hhdm_offset machine_pt) with demo_hhdm. unfold demo_hhdm. lia. }
  intros x Hx. split.
  - split; [lia |]. intros g Hc. apply Hg; [| lia]. destruct Hc as [Hf|[q Hq]].
    + apply (pa_free_frames (pt_alloc machine_pt)) in Hf; [| exact machine_pmm_wf]. destruct Hf as (_ & ? & _). lia.
    + unfold demo_tables in Hq. apply lookup_singleton_Some in Hq as [<- _]. lia.
  - intros f ((_ & ? & _) & _). apply Hg; lia.
Qed.

Lemma machine_region : kernel_region demo_tables machine_pt 0 0x20000.
Proof. by apply low_region. Qed.

(** ** An image and a process to run it *)
Definition exec_process : Z := 0x10090.
Definition exec_proc : process_t := setp_page_table (0x7000 + demo_hhdm) (fresh_process 1).
Definition exec_sys : sys Bump.bump Pmm.pmm_t :=
  mk_sys ∅ {[ exec_process := exec_proc ]} Elf.demo_alloc machine_pt 1 2 exec_process NULL NULL NULL NULL NULL NULL
    0 false (mk_context 0 0 0 0 0 0 0) 0 0 true.

Lemma demo_segment i : Elf.loadable Elf.demo_mem 0x10000 i ->
  i = 0 /\ Elf.vaddr Elf.demo_mem 0x10000 i = 0x400000 /\ Elf.memsz Elf.demo_mem 0x10000 i = 8.
Proof. intros ->%Elf.demo_loadable. split_and!; by vm_compute. Qed.

Lemma demo_first : Elf.loadable Elf.demo_mem 0x10000 0.
Proof. split; [vm_compute; split; congruence | split; [vm_compute; congruence | vm_compute; reflexivity]]. Qed.

Lemma demo_runnable : runnable Elf.demo_mem 0x10000 124.
Proof.
  split.
  - exact Elf.demo_image_ok.
  - by vm_compute.
  - intros i Hi. destruct (demo_segment i Hi) as (_ & -> & ->). split; [reflexivity | lia].
  - intros i j k l Hi Hj Hne. destruct (demo_segment i Hi) as (-> & _). destruct (demo_segment j Hj) as (-> & _). by destruct Hne.
  - exists 0. split; [exact demo_first |]. destruct (demo_segment 0 demo_first) as (_ & -> & ->).
    replace (Elf.e_entry Elf.demo_mem 0x10000) with 0x400000 by (by vm_compute). lia.
Qed.

Lemma exec_sys_ok : exec_ok demo_tables exec_sys {[0x10000 := 124; 0x10090 := 16]} exec_process 0x7000 0x10000 124 0x10000 124 exec_proc.
Proof.
  split.
  - exact demo_runnable.
  - split_and!; [done | by vm_compute | reflexivity].
  - exact machine_pt_wf.
  - reflexivity.
  - exact Elf.demo_alloc_live.
  - split; [reflexivity | lia].
  - exact machine_region.
Qed.


(** Running it succeeds: a byte of the segment and a zero behind the file bytes. *)
Example exec_runs :
  match process_exec exec_process 0x10000 exec_sys with
  | Some (s', st) => st = KERNEL_SUCCESS /\ user_byte (pt s') 0x7000 0x400001 = Some 0xAD /\
                     user_byte (pt s') 0x7000 0x400006 = Some 0
  | None => False
  end.
Proof. vm_compute. split_and!; reflexivity. Qed.

Lemma image_kernel x : 0x10000 <= x < 0x1007C -> kernel_byte demo_tables machine_pt x.
Proof. intros Hx. apply machine_region. lia. Qed.

Lemma demo_segment_ok : segment_ok demo_tables machine_pt 0x10040 0x10000.
Proof.
  assert (Hv : Elf.p_vaddr Elf.demo_mem 0x10040 = 0x400000) by (by vm_compute).
  assert (Hf : Elf.p_filesz Elf.demo_mem 0x10040 = 4) by (by vm_compute).
  assert (Hm : Elf.p_memsz Elf.demo_mem 0x10040 = 8) by (by vm_compute).
  assert (Ho : Elf.p_offset Elf.demo_mem 0x10040 = 120) by (by vm_compute).
  split; change (pt_mem machine_pt) with Elf.demo_mem; rewrite ?Hv, ?Hf, ?Hm, ?Ho; try lia; try reflexivity.
  - intros x Hx. apply image_kernel. lia.
  - intros k Hk. apply image_kernel. lia.
Qed.

Lemma process_map_segment_correct_witness :
  exists s' st, process_map_segment exec_process 0x10040 0x10000 exec_sys = Some (s', st).
Proof.
  destruct (process_map_segment_correct demo_tables exec_sys exec_process exec_proc 0x7000 0x10040 0x10000
    eq_refl ltac:(by vm_compute) eq_refl machine_pt_wf eq_refl demo_segment_ok) as (T' & pt' & st & E & _).
  exists (with_pt pt' exec_sys), st. exact E.
Defined.

Lemma process_heap_expand_correct_witness :
  exists s' st, process_heap_expand exec_process exec_sys = Some (s', st).
Proof.
  destruct (process_heap_expand_correct demo_tables exec_sys exec_process exec_proc 0x7000 ltac:(by vm_compute) eq_refl
    eq_refl machine_pt_wf eq_refl) as (s' & st & T' & E & _).
  exists s', st. exact E.
Defined.

(** ** The scheduler, and a process created *)
Definition boot_sys : sys Bump.bump Pmm.pmm_t :=
  mk_sys ∅ ∅ Elf.demo_alloc machine_pt 1 1 NULL NULL NULL NULL NULL NULL NULL
    0 false (mk_context 0 0 0 0 0 0 0) 0 0 true.
Definition init_sys : sys Bump.bump Pmm.pmm_t := default boot_sys (scheduler_init 0x1000 boot_sys).
Definition sched_sys : sys Bump.bump Pmm.pmm_t := with_pt machine_pt init_sys.
Definition boot_view : view := mk_view [] [] [] [] NULL false (idle init_sys).

Lemma inv_with_pt (s : sys Bump.bump Pmm.pmm_t) v pt' : sched_inv s v -> sched_inv (with_pt pt' s) v.
Proof. intros Hi. by apply (inv_same s (with_pt pt' s) v Hi). Qed.

Lemma sched_sys_inv : sched_inv sched_sys boot_view.
Proof.
  assert (Hi : sched_ok init_sys (mk_view [] [] [] [] NULL false (idle init_sys)))
    by (apply (sched_init_spec 0x1000 boot_sys init_sys); by vm_compute).
  exact (inv_with_pt init_sys boot_view machine_pt (so_inv _ _ Hi)).
Qed.

Definition sched_live : gmap Z Z := Bump.b_live (heap sched_sys).

Lemma sched_heap_live : ka_live (heap sched_sys) sched_live.
Proof.
  assert (E : heap sched_sys = mallocs [sizeof_task; KERNEL_STACK_SIZE] Elf.demo_alloc) by (by vm_compute).
  unfold sched_live. rewrite E. apply mallocs_live.
  - apply (bool_decide_unpack _). by vm_compute.
  - pose proof Elf.demo_alloc_live as H. assert (Hl : Bump.b_live Elf.demo_alloc = {[0x10000 := 124; 0x10090 := 16]}) by (by vm_compute).
    by rewrite Hl.
Qed.

Lemma sched_create_ok : create_ok demo_tables sched_sys boot_view sched_live 0x7000.
Proof.
  split.
  - exact sched_sys_inv.
  - exact sched_heap_live.
  - assert (H : map_Forall (fun p _ => is_Some (sched_live !! p)) (ts sched_sys)) by (apply (bool_decide_unpack _); by vm_compute).
    intros p [t Ht]. exact (H p t Ht).
  - assert (H : ps sched_sys = ∅) by (by vm_compute). intros q [p Hq]. rewrite H in Hq. by rewrite lookup_empty in Hq.
  - exact machine_pt_wf.
  - reflexivity.
  - reflexivity.
  - exact machine_region.
Qed.

Definition proc_name : list Z := [105; 110; 105; 116].
Lemma proc_name_bytes : byte_list proc_name.
Proof. repeat constructor; lia. Qed.

Lemma proc_name_short : k_strlen proc_name < 64.
Proof. by vm_compute. Qed.
Lemma entry_range : 0 < 0x2000 < 2 ^ 64.
Proof. lia. Qed.


(** The process exists and its task runs once the boot code yields. *)
Definition created : sys Bump.bump Pmm.pmm_t * Z := default (sched_sys, NULL) (process_create proc_name 0x2000 sched_sys).
Definition created_sys : sys Bump.bump Pmm.pmm_t := fst created.
Definition yielded (s : sys Bump.bump Pmm.pmm_t) : sys Bump.bump Pmm.pmm_t :=
  match scheduler_yield s with Some (s', _) => s' | None => s end.
Definition run_sys : sys Bump.bump Pmm.pmm_t := yielded created_sys.
Definition run_process : Z := created.2.

Definition no_task : task_t := mk_task 0 (mk_context 0 0 0 0 0 0 0) 0 0 0 0 TASK_IDLE 0 0 TASK_RESUME_CONTEXT 0.
Definition running_task : task_t := default no_task (ts run_sys !! (current_task run_sys)).
Definition running_process : process_t := default exec_proc (ps run_sys !! run_process).

(** What the concrete state is, as far as the theorems ask. *)
Lemma run_facts :
  run_process <> NULL /\ (current_task run_sys) <> NULL /\ ts run_sys !! (current_task run_sys) = Some running_task /\
  t_process running_task = run_process /\ ps run_sys !! run_process = Some running_process /\
  process_list run_sys = run_process /\ p_next running_process = NULL /\ Fd.fd_wf (fd_table running_process).
Proof. vm_compute. split_and!; try reflexivity; discriminate. Qed.

(** Kept apart from the concrete state. *)
Lemma created_result (c : sys Bump.bump Pmm.pmm_t * Z) o d (s : sys Bump.bump Pmm.pmm_t) v :
  c = default d o -> snd c <> NULL ->
  (exists s' r, o = Some (s', r) /\ ((r = NULL /\ not_created demo_tables s v s') \/ exists task, sched_inv s' (abs_add task v))) ->
  exists task, sched_inv (fst c) (abs_add task v).
Proof. intros -> Hn (s' & r & -> & Hr). destruct Hr as [[-> _]|Hr]; [by destruct Hn | exact Hr]. Qed.

Lemma yielded_inv (s : sys Bump.bump Pmm.pmm_t) v : sched_inv s v -> sched_inv (yielded s) (abs_yield v).
Proof. intros Hi. destruct (yield_spec s v Hi) as (s' & o & E & Hi' & _). unfold yielded. by rewrite E. Qed.

Lemma create_inv (s : sys Bump.bump Pmm.pmm_t) v L kroot name entry :
  create_ok demo_tables s v L kroot -> 0 < entry < 2 ^ 64 -> byte_list name -> k_strlen name < 64 ->
  exists s' r, process_create name entry s = Some (s', r) /\
    ((r = NULL /\ not_created demo_tables s v s') \/ exists task, sched_inv s' (abs_add task v)).
Proof.
  intros Hok He Hb Hl. destruct (create_spec demo_tables s v L kroot name entry Hok He Hb Hl) as (s' & r & E & Hr).
  exists s', r. split; [done |]. destruct Hr as [Hr|(_ & _ & _ & _ & T' & root & task & p & _ & _ & _ & _ & _ & Hi & _)];
    [by left | right; by exists task].
Qed.

Lemma created_eqs : snd created = run_process /\ fst created = created_sys /\ yielded created_sys = run_sys.
Proof. unfold run_process, run_sys. unfold created_sys at 1. done. Qed.

Lemma created_inv : exists task, sched_inv created_sys (abs_add task boot_view).
Proof.
  destruct created_eqs as (Hp & Hs & _). rewrite <- Hs.
  apply (created_result created (process_create proc_name 0x2000 sched_sys) (sched_sys, NULL) sched_sys boot_view).
  - unfold created. reflexivity.
  - rewrite Hp. exact (proj1 run_facts).
  - exact (create_inv sched_sys boot_view sched_live 0x7000 proc_name 0x2000 sched_create_ok entry_range proc_name_bytes proc_name_short).
Qed.

Lemma run_inv : exists v, sched_inv run_sys v /\ v_running v = true.
Proof.
  destruct created_inv as [task Hi]. exists (abs_yield (abs_add task boot_view)). split; [| reflexivity].
  destruct created_eqs as (_ & _ & Hs). rewrite <- Hs. by apply yielded_inv.
Qed.

#[local] Opaque run_sys running_process running_task run_process.

(** ** The list of processes, and its end *)
Lemma run_list : proc_list run_sys [run_process].
Proof.
  destruct run_facts as (Hn & _ & _ & _ & Hp & Hl & Hx & _). split; [| apply NoDup_singleton].
  cbn [p_chain]. rewrite Hl. split; [reflexivity |]. split; [exact Hn |]. exists running_process. exact (conj Hp Hx).
Qed.

Lemma process_lookup_correct_witness : exists r, process_lookup 1 run_sys = Some r.
Proof. destruct (process_lookup_correct run_sys [run_process] 1 run_list) as (r & E & _). exists r. exact E. Defined.

Lemma process_destroy_correct_witness :
  exists s', process_destroy run_process run_sys = Some s' /\ ps s' !! run_process = None.
Proof.
  destruct run_facts as (Hn & _ & _ & _ & Hp & _).
  destruct (process_destroy_correct run_sys [run_process] run_process run_list (mk_is_Some _ _ Hp) Hn) as (s' & E & _ & H & _).
  exists s'. exact (conj E H).
Defined.

Lemma process_exit_correct_witness : exists s' w, process_exit 3 run_sys = Some (s', Switched w [irq_enabled run_sys]).
Proof.
  destruct run_inv as (v & Hi & Hr). destruct run_facts as (Hn & _ & Ht & Htp & Hp & _).
  destruct (process_exit_correct run_sys v 3 running_task running_process Hi Hr Ht
    ltac:(rewrite Htp; exact Hn) ltac:(rewrite Htp; exact Hp)) as (s' & w & E & _).
  exists s', w. exact E.
Defined.

(** ** Files of the running process *)
Definition run_kernel : kernel Bump.bump Pmm.pmm_t := mk_kernel run_sys fs_demo4.

Lemma run_caller : caller run_kernel run_process running_process.
Proof.
  destruct run_facts as (Hn & Ht0 & Ht & Htp & Hp & _ & _ & Hfd). split; cbn [k_sys run_kernel].
  - exact Ht0.
  - exists running_task. exact (conj Ht Htp).
  - exact Hn.
  - exact Hp.
  - exact Hfd.
Qed.

(** Whatever the kernel state, the nodes are the file system's. *)
Lemma kernel_vfs (s : sys Bump.bump Pmm.pmm_t) f :
  Vfs.vfs_ok f Ramfs.ramfs_root -> Vfs.vfs_ok (fs_in (mk_kernel s f)) Ramfs.ramfs_root.
Proof. intros Hf. by apply (Vfs.vfs_ok_same f). Qed.

Lemma run_vfs : Vfs.vfs_ok (fs_in run_kernel) Ramfs.ramfs_root.
Proof. exact (kernel_vfs run_sys fs_demo4 fs_demo4_vfs). Qed.

Lemma sys_open_correct_witness : exists k' r, sys_open (Some path_init) run_kernel = Some (k', r).
Proof.
  destruct (sys_open_correct run_kernel run_process running_process Ramfs.ramfs_root path_init run_caller run_vfs path_init_bytes)
    as (k' & r & E & _).
  exists k', r. exact E.
Defined.

Lemma sys_close_correct_witness : exists k' r, sys_close 0 run_kernel = Some (k', r).
Proof.
  destruct (sys_close_correct run_kernel run_process running_process 0 run_caller) as (k' & r & E & _).
  exists k', r. exact E.
Defined.

(** ** The program in a file

    [/bin/init] holds the image; the heap has room for a buffer. *)
Definition file_heap : Bump.bump := Bump.mk_bump (Bump.b_next Elf.demo_alloc) 0x40000 (Bump.b_live Elf.demo_alloc).
Definition program_node : Ramfs.ramfs_node_t :=
  Ramfs.set_size 124 (Ramfs.set_data 0x10000 124 (node_at fs_demo4 node_init)).
Definition program_fs : Ramfs.fs_state Bump.bump :=
  Ramfs.with_nodes (<[node_init := program_node]> (Ramfs.nodes fs_demo4)) fs_demo4.
Definition program_kernel : kernel Bump.bump Pmm.pmm_t := mk_kernel (with_heap file_heap exec_sys) program_fs.

Lemma file_heap_live : ka_live file_heap {[0x10000 := 124; 0x10090 := 16]}.
Proof.
  destruct Elf.demo_alloc_live as (E & H1 & H2 & _ & H4 & H5).
  split; [exact E |]. split; [exact H1 |]. split; [exact H2 |]. split; [by vm_compute |]. split; [| exact H5].
  intros p n Hp. destruct (H4 p n Hp) as (? & ? & ? & ? & Hlim). split_and!; try done.
  etransitivity; [exact Hlim | by vm_compute].
Qed.

Lemma init_node : Ramfs.nodes fs_demo4 !! node_init = Some (node_at fs_demo4 node_init).
Proof. by vm_compute. Qed.

Lemma program_ok : program_file demo_tables program_kernel {[0x10000 := 124; 0x10090 := 16]} Ramfs.ramfs_root path_init
  node_init program_node 124 exec_process 0x7000 exec_proc.
Proof.
  split.
  - apply kernel_vfs. by apply (Vfs.contents_vfs fs_demo4 program_fs node_init (node_at fs_demo4 node_init) 124 0x10000 124);
      [exact init_node | .. | exact fs_demo4_vfs].
  - split; [exact path_init_bytes |]. apply (Vfs.resolves_same program_fs); [done |].
    apply (Vfs.contents_resolves fs_demo4 program_fs node_init (node_at fs_demo4 node_init) 124 0x10000 124 _ _ _ _ init_node eq_refl).
    apply (Vfs.resolves_same fs_demo fs_demo4); [by vm_compute | exact demo_resolves].
  - split_and!; [exact (lookup_insert_eq (Ramfs.nodes fs_demo4) node_init program_node) | by vm_compute | reflexivity | by vm_compute].
  - exists 124. split; [reflexivity | by vm_compute].
  - exact demo_runnable.
  - intros i Hi. assert (Hn : Elf.e_phnum Elf.demo_mem 0x10000 = 1) by (by vm_compute).
    change (kmem _) with Elf.demo_mem in *. change (Ramfs.data program_node) with 0x10000 in *.
    assert (i = 0) as -> by lia. by vm_compute.
  - split_and!; [done | by vm_compute | reflexivity].
  - exact machine_pt_wf.
  - reflexivity.
  - exact file_heap_live.
  - by apply low_region.
  - intros q Hq. change (Ramfs.files (k_fs program_kernel)) with (Ramfs.files fs_demo4) in Hq.
    assert (E : Ramfs.files fs_demo4 = ∅) by (by vm_compute). rewrite E, lookup_empty in Hq. by destruct Hq.
Qed.


(** It succeeds, and the bytes of the file are in the process. *)
Example exec_file_runs :
  match process_exec_file exec_process (Some path_init) program_kernel with
  | Some (k', st) => st = KERNEL_SUCCESS /\ user_byte (pt (k_sys k')) 0x7000 0x400001 = Some 0xAD /\
                     user_byte (pt (k_sys k')) 0x7000 0x400006 = Some 0
  | None => False
  end.
Proof. vm_compute. split_and!; reflexivity. Qed.
