(* ===== verification/IsolationDemo.v ===== *)
(** * Two processes on the small machine

    The machine of [ProcessDemo.v] with two processes; one of them stores into its
    stack and grows its heap, and the other does not notice. *)
From S2P Require Import Prelude PageAllocator Memory KAlloc Fd Elf TaskQueue Pmm PageTable PageTableSpec System Scheduler SchedulerSpec SchedulerWake SchedulerProps Process UserPages ProcessMemory ProcessSpec AddressSpaces ProcessTable ProcessImage ProcessExec Isolation FsDemo ProcessDemo.
Import Mem Str Task Scheduler Process.
#[local] Open Scope Z_scope.

Lemma machine_alone : isolated {[0x7000 := demo_tables]} machine_pt /\ kernel_space {[0x7000 := demo_tables]} 0x7000.
Proof.
  apply kernel_alone; [exact machine_pt_wf | reflexivity | | by vm_compute].
  unfold demo_tables. intros f p [<- _]%lookup_singleton_Some. done.
Qed.

(** No process yet: the kernel's address space is the only one. *)
Lemma sched_system : system_ok 0x7000 {[0x7000 := demo_tables]} sched_sys.
Proof.
  destruct machine_alone as [Hi Hk]. assert (Hps : ps sched_sys = ∅) by (by vm_compute).
  assert (Hreg : ka_region (heap sched_sys) = (0, 0x20000)) by (by vm_compute).
  split.
  - rewrite Hreg. split; [exact Hi | exact Hk | | reflexivity].
    intros x Hx. cbn in Hx. split; [lia |].
    assert (Ho : forall g, 0 <= g -> outside machine_pt g x).
    { intros g Hg. left. change (hhdm_offset machine_pt) with demo_hhdm. unfold demo_hhdm. lia. }
    split; [intros g (_ & ? & _); apply Ho; lia |].
    intros r T g [<- <-]%lookup_singleton_Some [q Hq]. unfold demo_tables in Hq.
    apply lookup_singleton_Some in Hq as [<- _]. apply Ho. lia.
  - intros q p Hq. by rewrite Hps, lookup_empty in Hq.
  - intros q1 q2 p1 p2 Hq1. by rewrite Hps, lookup_empty in Hq1.
Qed.

(** ** The second process *)
Definition second_heap : list Z := [sizeof_task; KERNEL_STACK_SIZE; sizeof_process; sizeof_task; KERNEL_STACK_SIZE].

Lemma sched_create_ready : create_ready sched_sys.
Proof. exists boot_view, sched_live. destruct sched_create_ok. done. Qed.

Lemma created_perform : perform (CreateProcess proc_name 0x2000) sched_sys = Some created_sys.
Proof.
  destruct (create_inv sched_sys boot_view sched_live 0x7000 proc_name 0x2000 sched_create_ok entry_range proc_name_bytes proc_name_short)
    as (s' & r & E & _).
  cbn [perform]. unfold created_sys, created. rewrite E. reflexivity.
Qed.

(** Every key of one map is one of the other. *)
Definition covered {V} (m : gmap Z V) (L : gmap Z Z) : bool :=
  forallb (fun '(p, _) => match L !! p with Some _ => true | None => false end) (map_to_list m).

Lemma covered_spec {V} (m : gmap Z V) L : covered m L = true -> forall p, is_Some (m !! p) -> is_Some (L !! p).
Proof.
  unfold covered. rewrite forallb_forall. intros Hc p [x Hx]. apply elem_of_map_to_list in Hx.
  apply list_elem_of_In, Hc in Hx. by destruct (L !! p) as [n|]; [exists n |].
Qed.

Lemma created_create_ready : create_ready created_sys.
Proof.
  destruct created_inv as [task Hi]. exists (abs_add task boot_view), (Bump.b_live (heap created_sys)). split; [exact Hi |].
  split; [| split].
  - assert (E : heap created_sys = mallocs second_heap Elf.demo_alloc) by (by vm_compute). rewrite E. apply mallocs_live.
    + apply (bool_decide_unpack _). by vm_compute.
    + pose proof Elf.demo_alloc_live as Hl0. assert (Hl : Bump.b_live Elf.demo_alloc = {[0x10000 := 124; 0x10090 := 16]}) by (by vm_compute).
      by rewrite Hl.
  - exact (covered_spec (ts created_sys) (Bump.b_live (heap created_sys)) ltac:(by vm_compute)).
  - exact (covered_spec (ps created_sys) (Bump.b_live (heap created_sys)) ltac:(by vm_compute)).
Qed.

Definition second_name : list Z := [115; 104].
Definition both_sys : sys Bump.bump Pmm.pmm_t := default created_sys (perform (CreateProcess second_name 0x3000) created_sys).
Definition second_process : Z := process_list both_sys.

Lemma second_permitted : permitted created_sys (CreateProcess second_name 0x3000).
Proof.
  split; [exact created_create_ready |]. split; [lia |]. split; [repeat constructor; lia | by vm_compute].
Qed.

Lemma created_permitted : permitted sched_sys (CreateProcess proc_name 0x2000).
Proof. split; [exact sched_create_ready |]. split; [exact entry_range |]. split; [exact proc_name_bytes | exact proc_name_short]. Qed.

Lemma created_system : exists Sp, system_ok 0x7000 Sp created_sys.
Proof. exact (perform_ok 0x7000 _ _ _ _ sched_system created_permitted created_perform). Qed.

Lemma both_system : exists Sp, system_ok 0x7000 Sp both_sys.
Proof. destruct created_system as [Sp Hok]. exact (perform_default 0x7000 Sp _ _ _ Hok second_permitted). Qed.

(** Two processes with address spaces; stated of any state, so that the concrete one
    is evaluated once. *)
Definition process_at (s : sys Bump.bump Pmm.pmm_t) (q : Z) : process_t := default exec_proc (ps s !! q).

Definition two_processes (s : sys Bump.bump Pmm.pmm_t) (q1 q2 : Z) : Prop :=
  (match ps s !! q1 with Some p => page_table p <> NULL | None => False end) /\
  (match ps s !! q2 with Some p => page_table p <> NULL | None => False end) /\ q2 <> NULL /\ Some q2 <> Some q1.

Lemma two_first s q1 q2 : two_processes s q1 q2 -> ps s !! q1 = Some (process_at s q1) /\ page_table (process_at s q1) <> NULL.
Proof. intros (Hp & _). unfold process_at. by destruct (ps s !! q1). Qed.

Lemma two_second s q1 q2 : two_processes s q1 q2 -> has_space s q2.
Proof. intros (_ & Hp & Hn & _). split; [done |]. destruct (ps s !! q2) as [p|]; [by exists p | done]. Qed.

Lemma both_two : two_processes both_sys run_process second_process.
Proof. vm_compute. split_and!; congruence. Qed.

#[local] Opaque both_sys second_process run_process.

Lemma store_permitted (s s' : sys Bump.bump Pmm.pmm_t) q va b :
  perform (StoreByte q va b) s = Some s' -> has_space s q -> permitted s' (GrowHeap q).
Proof.
  cbn [perform permitted]. unfold process_store_byte, has_space.
  intros E. destruct (ps s !! q) as [p|] eqn:Ep; cbn in E; [| discriminate E]. injection E as <-. cbn. by rewrite Ep.
Qed.

Definition stack_va : Z := USER_STACK_TOP - 8.
Lemma stack_user : user_va stack_va.
Proof. by vm_compute. Qed.

Definition demo_actions : list action := [StoreByte second_process stack_va 0xAB; GrowHeap second_process].

(** The two actions run. *)
Lemma demo_runs (s : sys Bump.bump Pmm.pmm_t) Sp q va b :
  system_ok 0x7000 Sp s -> has_space s q -> user_va va -> exists s', runs s [StoreByte q va b; GrowHeap q] s'.
Proof.
  intros Hok Hs Hva. assert (P1 : permitted s (StoreByte q va b)) by done.
  destruct (perform_isolating 0x7000 Sp s _ Hok P1) as (s1 & E1 & [Sp1 Hok1] & _).
  pose proof (store_permitted _ _ _ _ _ E1 Hs) as P2.
  destruct (perform_isolating 0x7000 Sp1 s1 _ Hok1 P2) as (s2 & E2 & _). exists s2.
  exact (runs_cons _ _ _ _ _ P1 E1 (runs_cons _ _ _ _ _ P2 E2 (runs_nil s2))).
Qed.

Lemma demo_actors q1 q2 va b : Some q2 <> Some q1 -> Forall (fun a => actor a <> Some q1) [StoreByte q2 va b; GrowHeap q2].
Proof. by repeat constructor. Qed.


(** The store is seen in the second process and not in the first. *)
Definition stack_byte (s : sys Bump.bump Pmm.pmm_t) (q : Z) : option Z :=
  p ← ps s !! q; user_byte (pt s) (page_table_physical p) stack_va.

Example store_seen :
  match perform (StoreByte second_process stack_va 0xAB) both_sys with
  | Some s' => stack_byte s' second_process = Some 0xAB /\ stack_byte s' run_process = Some 0
  | None => False
  end.
Proof. vm_compute. split_and!; reflexivity. Qed.
