(* ===== verification/SelfTestsDemo.v ===== *)
(** * The self tests on a small machine

    128 page frames, a heap of 3 MB and an empty file system: the theorem on the file
    system test there, and the whole end of [kmain] run to the first process. *)
From Stdlib Require Import Ascii String.
From S2P Require Import Prelude PageAllocator Memory KAlloc Convert Fd Elf TaskQueue Pmm PageTable PageTableSpec System Scheduler Ramfs Vfs Process Reports SelfTests SelfTestsSpec FsDemo.
Import Mem Str Reports Task Scheduler Process SelfTests.
#[local] Open Scope Z_scope.

#[global] Instance demo_tests : TestLayout := {
  root_fs := 0x9000; init_image := 0x9100; notes_text := 0x9200; notes_buffer := 0x9300; fd_test_file := 0x9400;
  fake_elf := 0x9500; process_text := 0x9600; process_buffer := 0x9700; file1 := 0x9800; file2 := 0x9820; file3 := 0x9840;
  process_test_entry := 0xFFFFFFFF80001000;
}.

(** ** The file system test *)
Definition tests_mem : mem := Elf.bytes_at notes_text (literal "Hello ZenithOS") (Elf.bytes_at process_text (literal "Hello from Process") ∅).
Definition tests_heap : Bump.bump := Bump.bump_init 0x100000 0x400000.
Definition tests_fs : Ramfs.fs_state Bump.bump :=
  Ramfs.mk_state _ ∅ ∅ {[ root_fs := Ramfs.mk_fs (replicate 32 0) NULL NULL ]} ∅ NULL NULL tests_heap tests_mem.
